(* ===== verification/_CoqProject ===== *)
-Q . S2P
Prelude.v
Spinlock.v
PhysAlloc.v
Str.v
IoPipe.v
Printf.v
PrintfProps.v
Terminal.v
Mmu.v
MmuProps.v
Ring.v
Tree.v
TreeProps.v
Vm.v
VmProps.v
Zalloc.v
Kmem.v
ZonePool.v
Kern.v
Sched.v
Switch.v
Wait.v
Lock.v
Mp.v
MpProps.v
I686.v
Boot.v
Start.v
