(* ===== verification/Prelude.v ===== *)
(** * Verification of the rkernel2 research kernel

    rkernel2 is a small kernel for one or more i686 processors, written in C.
    The entry code ([arch/i686/boot.s]) turns paging on and calls
    [_i686_boot_main] ([arch/i686/kerninit.c]), which sets up the processor and calls [kernel_main] ([kern/init_main.c]); from
    there every component is brought up in turn, the idle thread is made, and the
    kernel waits for interrupts.  This library models the C code and the assembly of the
    kernel as executable functions and proves what makes each component correct.
    All paths below are relative to [src/system].

    ** The parts, and the files that model them

    - [Prelude]: machine integers with their wrap-around, the results of a C
      function ([outcome]: [Done], [Fault], [Panic], [OutOfFuel]), lemmas and
      tactics shared by all files.
    - [Spinlock]: [sys/kspinlock.h].  The sequential operations the components
      use, and a step relation for any number of CPUs.
    - [PhysAlloc]: [physmem/]; the bitmaps of free physical pages, and the memory
      ranges that [kerninit.c] derives from the multiboot data.
    - [Str]: [libkern/string.c] over a byte-addressed memory.
    - [IoPipe], [Printf], [PrintfProps]: [iopipe/], [libkern/printf.c] and
      [libkern/printinfo.c].
    - [Terminal]: [platform/i686-pc/terminal.c] (Module [Console]) and
      [terminal/]: the console, the ring buffer in front of it, the consumers.
    - [Mmu], [MmuProps]: [arch/i686/physmem.c], [arch/i686/mmu.c], [xcpu/vm.c]: the
      temporary mappings, page tables in physical memory, TLB operations.
    - [Ring]: [kern/kern_ring.c] and [utils/list.h], doubly linked rings over a
      heap of nodes.
    - [Tree], [TreeProps]: [vm/tree.c], the depth-balanced search tree.
    - [Vm], [VmProps]: [vm/]: data spaces, region mappers, protection domains, the
      page fault path and the kernel heap.
    - [Zalloc]: [kern/zalloc.c], the zone allocator.
    - [Kmem]: the contract between the kernel heap and its clients.
    - [ZonePool]: sequences of zone operations against a pool of free chunks.
    - [Kern]: [kern/kern_stacks.c], [kern/kern_thread.c] and the part of
      [arch/i686/hal.c] they need; the shared state [kern].
    - [Sched], [Wait], [Lock]: [kern/kern_sched.c], [kern/kern_wait.c],
      [kern/kern_lock.c].
    - [Switch]: [arch/i686/switch.s], [arch/i686/interrupt.s], the vectors that
      [arch/i686/intvec.rb] generates and [x86/trapframe.h]: context switches and the
      way into and out of an interrupt, as instructions on registers and stacks.
    - [Mp], [MpProps]: [arch/i686/mp.c], the multiprocessor tables; their search in
      physical memory through the temporary mappings.
    - [I686]: [x86/gdt.h], [x86/x86.h], the rest of [arch/i686/hal.c],
      [arch/i686/irq_pic.c] (Module [Pic]) and [arch/i686/irq_lapic.c] (Module
      [Lapic]).
    - [Boot]: [arch/i686/kerninit.c], [kern/init_main.c], [kern/port_alive.c],
      [vm/vm_init.c], [libkern/abort_ex.c]: the composition of all of the above.
    - [Start]: [arch/i686/boot.s], [arch/i686/crti.s], [arch/i686/crtn.s] and the
      addresses of [arch/i686/linker.ld]: from the boot loader to [Boot].

    ** How the code is translated

    A function becomes a function from the state of its component to an [outcome]
    of its result and the new state.  C structures are records; pointers are
    addresses into finite maps (or [option]s of them), so that aliasing and null
    pointers are those of the source: a load through a pointer with no object
    behind it is [Fault].  Static variables are fields of the state.  Integers keep
    their width.  Loops with a computed bound recurse on it; the others carry fuel
    and give [OutOfFuel] when it is used up, and the theorems say how much fuel is
    enough: one more than the length of a format or a list, the height of a tree,
    the number of chunks of a refill (at most 40 here), the 2050 turns that cut the
    boot-time buffer of zone records.  A spin lock that is held for ever is
    [OutOfFuel] with any fuel.  Formats end at their NUL; reading behind it is
    [Fault], and so is a copy between overlapping areas through the [__restrict__]
    pointers of [string.c], which C leaves undefined.

    What is not in the repository is an argument: the addresses the linker chooses
    ([Boot.image], [Start.entry]), the memory the boot loader leaves, what the
    compiler does with registers and stack ([Switch.Compiler]) and puts into
    [_init], and the devices ([Lapic.Mmio]).  The page tables are an argument of
    [Boot] and are built in [Start].  In the C code that calls it
    ([I686.__i686_interrupt], [Wait]), [__i686_switch] is the call of
    [sched_preempt] it makes; its registers and stacks are the subject of [Switch],
    where a thread's [t_storage] is named by the thread.

    ** Interfaces

    - [IoPipe] and [IoPipeLaws]: what printing needs of a pipe; the terminal is an
      instance, the printing theorems are proved against the laws.
    - [LinkNode] and [LinkNodeLaws]: nodes with two links; the rings of the
      scheduler and the lists of the region mapper are instances.
    - [KmemSource] and [KmemLaws]: what zones, stacks and the boot need of the
      virtual memory layer; [vm_source] and [vm_laws] are its instance.
    - [WaitOps]: what a shared lock needs of its wait queue; [Wait] is an instance.
    - [Switch.Compiler] and [Switch.Cdecl]: compiled C functions and the calling
      convention they follow.
    - [Lapic.Mmio]: device registers.

    ** What the theorems show

    - The boot ([Boot.boot_correct]): on a machine with at least 270 pages of memory,
      and less than 4 GiB, the boot reaches the idle loop with the descriptor tables,
      the controllers, the heap, the idle thread, the scheduler and the terminal as
      intended; it composes the lemmas of every layer.  252 of the pages become
      page tables and 18 are used from the heap; the theorem says how many pages of
      the heap are left.  [Boot.first_tick_faults] follows the next timer
      interrupt.  [Start.start_maps_kernel] shows what the entry code maps, and
      [Start.start_boots] composes it with the boot: no assumption on the page
      tables is left, only on the image (its sections in the order of the linker
      script, within the 1023 pages the entry code can map) and on the memory.
    - Contexts: threads that take turns through [__i686_switch] resume with the
      registers, the return address and the stack they had
      ([Switch.switch_resumes]); an interrupt gives the code it interrupts back as
      it was ([Switch.isr_transparent]), also when the handler switches to other
      threads in between ([Switch.preemption_transparent]).  They hold for every
      scheduler that leaves the saved contexts alone, which [sched_preempt] does
      ([Switch.keeps_preempt]), and every compiler that follows the convention.
    - Memory: the page allocator refines a list of free pages and hands out the
      first one; [pmap_enter] changes exactly one translation of the processor's
      page walk; the region mapper is first fit on sorted disjoint regions; a page
      fault in a data space maps its pages; the kernel heap refines a pointer that moves up ([Kmem.vm_kalloc_ll_refines_bump]);
      zones give disjoint chunks and take them back, and under any sequence of
      operations a zone is a pool: no chunk is handed out twice and none is lost
      ([ZonePool.zone_refines_pool]).
    - Data structures: the ring and list code refines insertion into and removal
      from lists; the tree code refines sorted association lists and keeps its
      depth fields.
    - Concurrency: mutual exclusion and progress of spin locks under every
      interleaving, and exclusion and draining of shared locks under every interleaving of their
      atomic parts and wake-ups at any time.
    - Text: numbers round-trip, both format interpreters produce the text their
      format stands for, the terminal shows every byte; [memmove] is [memcpy].
    - Threads: allocation with the refill of its zone, its error paths and stack
      release; insertion into the scheduler; what preemption does; wait queues, and
      that waiting does not suspend ([Wait.waitqueue_wait_returns_queued]).
    - Processor and devices: the descriptors as the processor decodes them, the
      interrupt gates, the 8259A pair and the timer, the local APIC, the end of an
      interrupt; the multiprocessor tables, from the bytes of physical memory to the
      table of CPUs ([MpProps._i686_initmp_correct]; the fuel is 8192, more than the
      entries of a table and the blocks of an area).

    Some theorems state that the code does not do what it means to: pages are never
    freed, the scheduler looks for empty run queues, a page fault without a region
    dereferences null, a waiting thread goes on while it is in the queue and corrupts
    the queue when it waits again, overlapping areas are undefined for [memmove], a
    new thread's first context is not built.

    ** Not modelled

    The code of [irq_lapic.c] between [#if 0] and [#endif], the endless loop of
    [arch_halt], headers that hold only types and prototypes, the system call
    numbers (no code implements them yet) and the build scripts.  The order of
    memory accesses of different CPUs is that of the atomic steps. *)

From stdpp Require Export prelude gmap list strings.
From Stdlib Require Export ZArith Lia.

#[global] Open Scope Z_scope.
Coercion Z.of_nat : nat >-> Z.

(** ** Machine integers

    A [w]-bit C integer is a [Z]; every operation that can leave the range is
    followed by the reduction [wrap w] (unsigned) or [swrap w] (two's
    complement).  The kernel is built for i686: [int], [long], [size_t],
    pointers, [vaddr_t] and [paddr_t] are 32 bits wide. *)

Definition wrap (w x : Z) : Z := x mod 2 ^ w.

Definition swrap (w x : Z) : Z :=
  let y := wrap w x in if y <? 2 ^ (w - 1) then y else y - 2 ^ w.

Declare Scope machine_scope.
Delimit Scope machine_scope with machine.
#[global] Open Scope machine_scope.

Abbreviation u8 := (wrap 8).
Abbreviation u16 := (wrap 16).
Abbreviation u32 := (wrap 32).
Abbreviation u64 := (wrap 64).
Abbreviation i32 := (swrap 32).

(** 32-bit unsigned arithmetic, as the C operators on [u_int32_t]. *)
Notation "a +u b" := (wrap 32 (a + b)) (at level 50, left associativity) : machine_scope.
Notation "a -u b" := (wrap 32 (a - b)) (at level 50, left associativity) : machine_scope.
Notation "a *u b" := (wrap 32 (a * b)) (at level 40, left associativity) : machine_scope.

(** [~x] on a 32-bit unsigned operand. *)
Definition not32 (x : Z) : Z := Z.lxor x (2 ^ 32 - 1).

(** C truth value of an integer. *)
Definition truthy (x : Z) : bool := negb (x =? 0).

Definition in_u32 (x : Z) : Prop := 0 <= x < 2 ^ 32.

#[export] Instance in_u32_dec x : Decision (in_u32 x).
Proof. unfold in_u32. apply _. Defined.

Create HintDb machine.

Section wrap_lemmas.
Context (w : Z) (Hw : 0 <= w).

Lemma wrap_range x : 0 <= wrap w x < 2 ^ w.
Proof. apply Z.mod_pos_bound, Z.pow_pos_nonneg; lia. Qed.

Lemma wrap_small x : 0 <= x < 2 ^ w -> wrap w x = x.
Proof. apply Z.mod_small. Qed.

Lemma wrap_wrap x : wrap w (wrap w x) = wrap w x.
Proof. apply wrap_small, wrap_range. Qed.

Lemma wrap_add_l x y : wrap w (wrap w x + y) = wrap w (x + y).
Proof. apply Zplus_mod_idemp_l. Qed.

Lemma wrap_add_r x y : wrap w (x + wrap w y) = wrap w (x + y).
Proof. apply Zplus_mod_idemp_r. Qed.

Lemma wrap_sub_l x y : wrap w (wrap w x - y) = wrap w (x - y).
Proof. apply Zminus_mod_idemp_l. Qed.

Lemma wrap_sub_r x y : wrap w (x - wrap w y) = wrap w (x - y).
Proof. apply Zminus_mod_idemp_r. Qed.
End wrap_lemmas.

#[export] Hint Resolve wrap_range wrap_small : machine.

Lemma u32_range x : in_u32 (u32 x).
Proof. by apply wrap_range. Qed.

Lemma u32_small x : in_u32 x -> u32 x = x.
Proof. by apply wrap_small. Qed.

Lemma u32_add_nowrap x y : 0 <= x -> 0 <= y -> x + y < 2 ^ 32 -> x +u y = x + y.
Proof. intros. apply wrap_small; lia. Qed.

Lemma u32_sub_nowrap x y : 0 <= y <= x -> x < 2 ^ 32 -> x -u y = x - y.
Proof. intros. apply wrap_small; lia. Qed.

#[export] Hint Resolve u32_range u32_small : machine.

Lemma swrap_small w x : 0 < w -> - 2 ^ (w - 1) <= x < 2 ^ (w - 1) -> swrap w x = x.
Proof.
  intros Hw Hx. unfold swrap, wrap.
  assert (Hp : 2 ^ w = 2 * 2 ^ (w - 1)).
  { rewrite <-Z.pow_succ_r by lia. f_equal; lia. }
  destruct (Z.ltb_spec (x mod 2 ^ w) (2 ^ (w - 1))) as [H|H].
  - destruct (Z.le_gt_cases 0 x).
    + rewrite Z.mod_small in H |- * by lia. lia.
    + rewrite <-(Z.mod_unique_pos x (2 ^ w) (-1) (x + 2 ^ w)) in H by lia. lia.
  - destruct (Z.le_gt_cases 0 x).
    + rewrite Z.mod_small in H by lia. lia.
    + rewrite <-(Z.mod_unique_pos x (2 ^ w) (-1) (x + 2 ^ w)) by lia. lia.
Qed.

Lemma truthy_false x : truthy x = false <-> x = 0.
Proof. unfold truthy. destruct (Z.eqb_spec x 0); naive_solver. Qed.

Lemma truthy_true x : truthy x = true <-> x <> 0.
Proof. unfold truthy. destruct (Z.eqb_spec x 0); naive_solver. Qed.

(** *** Bit facts shared by the flag words, bitmaps and page-table entries *)

Lemma testbit_ones w i : 0 <= w -> Z.testbit (2 ^ w - 1) i = bool_decide (0 <= i < w).
Proof.
  intros Hw. replace (2 ^ w - 1) with (Z.ones w) by (rewrite Z.ones_equiv; lia).
  case_bool_decide.
  - by apply Z.ones_spec_low.
  - destruct (Z.neg_nonneg_cases i).
    + by apply Z.testbit_neg_r.
    + apply Z.ones_spec_high; lia.
Qed.

Lemma testbit_not32 x i : 0 <= i < 32 -> Z.testbit (not32 x) i = negb (Z.testbit x i).
Proof.
  intros Hi. unfold not32. rewrite Z.lxor_spec, testbit_ones by lia.
  rewrite bool_decide_true by lia. by destruct (Z.testbit x i).
Qed.

Lemma land_ones_mod x w : 0 <= w -> Z.land x (2 ^ w - 1) = x mod 2 ^ w.
Proof.
  intros. rewrite <-Z.land_ones by done. f_equal. rewrite Z.ones_equiv. lia.
Qed.

Lemma testbit_u32_high x i : in_u32 x -> 32 <= i -> Z.testbit x i = false.
Proof.
  unfold in_u32. intros Hx Hi. destruct (decide (x = 0)) as [->|]; [apply Z.bits_0|].
  apply Z.bits_above_log2; [lia|].
  apply Z.lt_le_trans with 32; [|done]. apply Z.log2_lt_pow2; lia.
Qed.

(** Rounding down with a mask, [x &= ~((1<<s)-1)], is subtraction of the
    remainder. *)
Lemma land_not_mask x s :
  in_u32 x -> 0 <= s <= 32 -> Z.land x (not32 (2 ^ s - 1)) = x - x mod 2 ^ s.
Proof.
  intros Hx Hs.
  assert (Z.land x (not32 (2 ^ s - 1)) = Z.shiftl (Z.shiftr x s) s) as ->.
  { apply Z.bits_inj'. intros i Hi. rewrite Z.land_spec, Z.shiftl_spec by lia.
    destruct (Z.lt_ge_cases i s) as [His|His].
    - rewrite testbit_not32, testbit_ones, bool_decide_true by lia.
      by rewrite andb_false_r, Z.testbit_neg_r by lia.
    - rewrite Z.shiftr_spec, Z.sub_add by lia.
      destruct (Z.lt_ge_cases i 32) as [H32|H32].
      + rewrite testbit_not32, testbit_ones, bool_decide_false by lia.
        by rewrite andb_true_r.
      + by rewrite !(testbit_u32_high x i). }
  rewrite Z.shiftl_mul_pow2, Z.shiftr_div_pow2 by lia.
  pose proof (Z.div_mod x (2 ^ s) ltac:(apply Z.pow_nonzero; lia)). lia.
Qed.

(** ** Outcomes of C code

    A call either returns ([Done]), touches memory that is not an object of
    the program ([Fault]: a null pointer dereference, an index outside an
    array), calls [panic] and never returns ([Panic]), or is still inside a
    loop when the fuel given to the model is used up ([OutOfFuel]). *)

Inductive outcome (A : Type) : Type :=
| Done (a : A)
| Fault
| Panic (msg : string)
| OutOfFuel.
Arguments Done {A} a.
Arguments Fault {A}.
Arguments Panic {A} msg.
Arguments OutOfFuel {A}.

#[export] Instance outcome_ret : MRet outcome := @Done.
#[export] Instance outcome_bind : MBind outcome := fun A B f m =>
  match m with
  | Done a => f a
  | Fault => Fault
  | Panic s => Panic s
  | OutOfFuel => OutOfFuel
  end.
#[export] Instance outcome_fmap : FMap outcome := fun A B f m =>
  match m with
  | Done a => Done (f a)
  | Fault => Fault
  | Panic s => Panic s
  | OutOfFuel => OutOfFuel
  end.

#[export] Instance outcome_eq_dec {A} `{EqDecision A} : EqDecision (outcome A).
Proof. solve_decision. Defined.

(** A lookup that must succeed: [None] is an access outside the program's
    objects. *)
Definition deref {A} (o : option A) : outcome A :=
  match o with Some a => Done a | None => Fault end.

Lemma bind_Done {A B} (m : outcome A) (f : A -> outcome B) b :
  m ≫= f = Done b <-> exists a, m = Done a /\ f a = Done b.
Proof. destruct m; simpl; naive_solver. Qed.

Lemma deref_Done {A} (o : option A) a : deref o = Done a <-> o = Some a.
Proof. destruct o; simpl; naive_solver. Qed.

(** [outcome_inv] opens every [Done] hypothesis of a monadic chain. *)
Ltac outcome_inv :=
  repeat match goal with
  | H : (_ ≫= _) = Done _ |- _ => apply bind_Done in H; destruct H as (?&?&?)
  | H : deref _ = Done _ |- _ => apply deref_Done in H
  | H : Done _ = Done _ |- _ => injection H; clear H; intros; subst
  | H : mret _ = Done _ |- _ => injection H; clear H; intros; subst
  end; simplify_eq/=.

(** ** Lists *)

(** [find_index P l] is the position of the first element that satisfies [P];
    the C loops [for(i=0;i<n;++i) if(P(a[i])) break;]. *)
Fixpoint find_index {A} (P : A -> bool) (l : list A) : option nat :=
  match l with
  | [] => None
  | x :: l => if P x then Some 0%nat else S <$> find_index P l
  end.

Lemma find_index_Some {A} (P : A -> bool) l i :
  find_index P l = Some i <->
  (exists x, l !! i = Some x /\ P x = true) /\
  forall j x, (j < i)%nat -> l !! j = Some x -> P x = false.
Proof.
  revert i. induction l as [|y l IH]; intros i; simpl.
  - split; [done|]. intros [[x [Hx _]] _]. by rewrite lookup_nil in Hx.
  - destruct (P y) eqn:Hy; split.
    + intros [= <-]. split; [by exists y|]. lia.
    + intros [_ Hbefore]. destruct i; [done|].
      specialize (Hbefore 0%nat y ltac:(lia) eq_refl). congruence.
    + intros (k & Hk & ->)%fmap_Some. apply IH in Hk as [Hx Hb].
      split; [done|]. intros [|j] z Hj Hz; [by injection Hz as <-|].
      apply (Hb j z); [lia|done].
    + intros [(x & Hx & Px) Hb]. destruct i as [|i].
      { injection Hx as <-. congruence. }
      apply fmap_Some. exists i. split; [|done]. apply IH. split; [by exists x|].
      intros j z Hj Hz. apply (Hb (S j) z); [lia|done].
Qed.

Lemma find_index_None {A} (P : A -> bool) l :
  find_index P l = None <-> Forall (fun x => P x = false) l.
Proof.
  induction l as [|y l IH]; simpl; [split; auto|].
  rewrite Forall_cons. destruct (P y) eqn:Hy; [naive_solver|].
  rewrite fmap_None. naive_solver.
Qed.
