(* ===== verification/Spinlock.v ===== *)
(** * Kernel spin locks

    Models [sys/kspinlock.h]: the lock byte, the three atomic operations and
    the spinning loop.  The sequential part is what the components use; the
    step relation at the end runs any number of CPUs against one lock byte. *)

From S2P Require Import Prelude.

(** ** Operations *)

(** [__atomic_exchange_n(lkp,-1)]: the old value and the new lock byte. *)
Definition kernlock_try_lock (l : Z) : Z * Z := (l, -1).

Definition kernlock_unlock (l : Z) : Z := 0.

Definition kernlock_init (l : Z) : Z := 0.

(** [while(kernlock_try_lock(lkp));] *)
Fixpoint kernlock_lock (fuel : nat) (l : Z) : outcome Z :=
  match fuel with
  | O => OutOfFuel
  | S fuel => let '(old, l) := kernlock_try_lock l in
              if truthy old then kernlock_lock fuel l else Done l
  end.

(** One CPU alone gets a free lock at once and spins for ever on a taken one. *)
Lemma kernlock_lock_free fuel : kernlock_lock (S fuel) 0 = Done (-1).
Proof. done. Qed.

Lemma kernlock_lock_held fuel l : l <> 0 -> kernlock_lock fuel l = OutOfFuel.
Proof.
  revert l. induction fuel as [|fuel IH]; intros l Hl; [done|]. simpl.
  rewrite (proj2 (truthy_true l) Hl). by apply IH.
Qed.

(** ** Several CPUs *)

(** Where a CPU is: outside, inside the loop of [kernlock_lock], or between
    [kernlock_lock] and [kernlock_unlock]. *)
Inductive cpu_pc := Outside | Spinning | Critical.

#[export] Instance cpu_pc_eq_dec : EqDecision cpu_pc.
Proof. solve_decision. Defined.

Record lock_state := LockState { ls_byte : Z; ls_pcs : list cpu_pc }.

Inductive lock_step : lock_state -> lock_state -> Prop :=
| step_enter b pcs c :
    pcs !! c = Some Outside ->
    lock_step (LockState b pcs) (LockState b (<[c := Spinning]> pcs))
| step_try b pcs c old b' :
    pcs !! c = Some Spinning -> kernlock_try_lock b = (old, b') ->
    lock_step (LockState b pcs)
      (LockState b' (<[c := if truthy old then Spinning else Critical]> pcs))
| step_unlock b pcs c :
    pcs !! c = Some Critical ->
    lock_step (LockState b pcs) (LockState (kernlock_unlock b) (<[c := Outside]> pcs)).

Definition lock_start (ncpu : nat) (b : Z) : lock_state :=
  LockState (kernlock_init b) (replicate ncpu Outside).

(** At most one CPU is critical, and then the byte is set; the byte is 0 when
    none is. *)
Definition lock_inv (s : lock_state) : Prop :=
  (forall c c', ls_pcs s !! c = Some Critical -> ls_pcs s !! c' = Some Critical -> c = c') /\
  (ls_byte s = 0 <-> Critical ∉ ls_pcs s).

Lemma elem_insert_critical (pcs : list cpu_pc) (c : nat) p q :
  pcs !! c = Some q -> p <> Critical -> q <> Critical ->
  Critical ∈ <[c := p]> pcs <-> Critical ∈ pcs.
Proof.
  intros Hc Hp Hq. rewrite !list_elem_of_lookup. split; intros [i Hi].
  - destruct (decide (i = c)) as [->|]; [|rewrite list_lookup_insert_ne in Hi by done; by exists i].
    rewrite list_lookup_insert_eq in Hi by (by eapply lookup_lt_Some). congruence.
  - exists i. rewrite list_lookup_insert_ne; [done|]. congruence.
Qed.

Lemma lock_step_inv s s' : lock_step s s' -> lock_inv s -> lock_inv s'.
Proof.
  intros Hstep [Huniq Hbyte]. destruct Hstep as [b pcs c Hc|b pcs c old b' Hc Ht|b pcs c Hc];
    simpl in Huniq, Hbyte.
  - split; simpl; [|by rewrite (elem_insert_critical _ _ _ _ Hc)].
    intros i j. rewrite !list_lookup_insert_Some. naive_solver.
  - injection Ht as -> <-. destruct (truthy old) eqn:Hold.
    + assert (Critical ∈ pcs) as Hin.
      { apply truthy_true in Hold. destruct (decide (Critical ∈ pcs)); [done|]. tauto. }
      split; simpl.
      * intros i j. rewrite !list_lookup_insert_Some. naive_solver.
      * rewrite (elem_insert_critical _ _ _ _ Hc) by done. split; [done|tauto].
    + apply truthy_false in Hold. apply Hbyte in Hold. split; simpl.
      * assert (forall i, pcs !! i <> Some Critical) as Hno.
        { intros i Hi. apply Hold. apply list_elem_of_lookup. eauto. }
        intros i j. rewrite !list_lookup_insert_Some. naive_solver.
      * split; [done|]. intros Hn. exfalso. apply Hn, list_elem_of_lookup. exists c.
        apply list_lookup_insert_eq. by eapply lookup_lt_Some.
  - assert (Hnone : Critical ∉ <[c := Outside]> pcs).
    { rewrite list_elem_of_lookup. intros [i Hi]. destruct (decide (i = c)) as [->|].
      - rewrite list_lookup_insert_eq in Hi by (by eapply lookup_lt_Some). done.
      - rewrite list_lookup_insert_ne in Hi by done. by specialize (Huniq i c Hi Hc). }
    split; simpl; [|done]. intros i j Hi. exfalso. apply Hnone, list_elem_of_lookup. eauto.
Qed.

Lemma lock_reach_inv ncpu b s : rtc lock_step (lock_start ncpu b) s -> lock_inv s.
Proof.
  intros Hreach. assert (lock_inv (lock_start ncpu b)) as Hinit.
  { split; simpl.
    - intros i j Hi. by apply lookup_replicate in Hi as [? _].
    - split; [|done]. intros _ [i Hi]%list_elem_of_lookup. by apply lookup_replicate in Hi as [? _]. }
  revert Hinit. induction Hreach; eauto using lock_step_inv.
Qed.

(** C26: mutual exclusion: in every interleaving of any number of CPUs that
    lock and unlock one spin lock, no two CPUs are between [kernlock_lock] and
    [kernlock_unlock] at the same time. *)
Theorem kernlock_mutual_exclusion ncpu b s c c' :
  rtc lock_step (lock_start ncpu b) s ->
  ls_pcs s !! c = Some Critical -> ls_pcs s !! c' = Some Critical -> c = c'.
Proof. intros [Huniq _]%lock_reach_inv. by apply Huniq. Qed.

(** C27: progress: in every reachable state a CPU that spins gets the lock with
    its next attempt when no CPU is inside, and with the attempt after the release
    by the one that is inside: no interleaving loses the lock. *)
Theorem kernlock_progress ncpu b s c :
  rtc lock_step (lock_start ncpu b) s -> ls_pcs s !! c = Some Spinning ->
  (Critical ∉ ls_pcs s ->
     exists s', lock_step s s' /\ ls_pcs s' = <[c := Critical]> (ls_pcs s)) /\
  (forall c', ls_pcs s !! c' = Some Critical ->
     exists s1 s2, lock_step s s1 /\ ls_pcs s1 = <[c' := Outside]> (ls_pcs s) /\
       lock_step s1 s2 /\ ls_pcs s2 = <[c := Critical]> (ls_pcs s1)).
Proof.
  intros [_ Hbyte]%lock_reach_inv Hc. destruct s as [l pcs]. cbn [ls_pcs ls_byte] in *. split.
  - intros Hno. apply Hbyte in Hno as ->. eexists. split; [exact (step_try 0 pcs c 0 (-1) Hc eq_refl)|done].
  - intros c' Hc'. eexists _, _. split; [exact (step_unlock l pcs c' Hc')|]. split; [done|].
    split; [apply (step_try 0 _ c 0 (-1)); [|done]|reflexivity].
    rewrite list_lookup_insert_ne; [done|]. intros ->. congruence.
Qed.

Lemma kernlock_mutual_exclusion_witness :
  exists s, rtc lock_step (lock_start 2 0) s /\ ls_pcs s !! 0%nat = Some Critical /\
    forall c, ls_pcs s !! c = Some Critical -> c = 0%nat.
Proof.
  assert (Hr : rtc lock_step (lock_start 2 0) (LockState (-1) [Critical; Spinning])).
  { eapply rtc_l; [by apply (step_enter _ _ 0)|]. eapply rtc_l; [by apply (step_enter _ _ 1)|].
    eapply rtc_l; [by apply (step_try _ _ 0 0 (-1))|]. simpl.
    eapply rtc_l; [by apply (step_try _ _ 1 (-1) (-1))|]. apply rtc_refl. }
  exists (LockState (-1) [Critical; Spinning]). split; [exact Hr|]. split; [reflexivity|].
  intros c Hc. exact (kernlock_mutual_exclusion 2 0 _ c 0 Hr Hc eq_refl).
Defined.

Lemma kernlock_progress_witness :
  exists s s1 s2, rtc lock_step (lock_start 2 0) s /\ ls_pcs s = [Critical; Spinning] /\
    lock_step s s1 /\ lock_step s1 s2 /\ ls_pcs s2 = [Outside; Critical].
Proof.
  assert (Hr : rtc lock_step (lock_start 2 0) (LockState (-1) [Critical; Spinning])).
  { eapply rtc_l; [by apply (step_enter _ _ 0)|]. eapply rtc_l; [by apply (step_enter _ _ 1)|].
    eapply rtc_l; [by apply (step_try _ _ 0 0 (-1))|]. apply rtc_refl. }
  destruct (kernlock_progress 2 0 _ 1 Hr eq_refl) as [_ Hp].
  destruct (Hp 0%nat eq_refl) as (s1&s2&H1&E1&H2&E2).
  exists (LockState (-1) [Critical; Spinning]), s1, s2. split; [exact Hr|]. split; [reflexivity|].
  split; [exact H1|]. split; [exact H2|]. rewrite E2, E1. reflexivity.
Defined.
