(* ===== verification/PhysAlloc.v ===== *)
(** * The physical page allocator

    Models [system/physmem/phys_bmalloc.c] (allocation and release of pages),
    [phys_bmainit.c] (the allocator set up at boot) and the computation of the
    usable memory ranges in [arch/i686/kerninit.c].

    The bitmaps of all memory ranges live in one static array [bitmap_block];
    [pmb_bitmap] is an index into it, so that two bitmaps can overlap in the
    model as they could in memory. *)

From S2P Require Import Prelude Spinlock.

(** ** Data *)

Definition SYSARCH_PAGESIZE : Z := 4096.
Definition SYSARCH_PAGESIZE_SHIFT : Z := 12.

Record physmem_range := Physmem_range { pm_begin : Z; pm_end : Z }.

Record physmem_bmalloc := Physmem_bmalloc {
  pmb_range : physmem_range;
  pmb_bitmap : Z;             (* index of the first word in [bitmap_block] *)
  pmb_length : Z;
}.

(** The static objects of [phys_bmainit.c]; [pmb_maps] of the set is
    [prealloc_pbma_ptr], an array of pointers into [prealloc_pbma]. *)
Record physmem := Physmem {
  bitmap_block : list Z;
  prealloc_pbma : list physmem_bmalloc;
  prealloc_pbma_ptr : list (option nat);
  pmb_n_maps : Z;
  pmb_lock : Z;
}.

Definition UNUMBER : Z := 4096.
Definition NNUMBER : Z := 16.

Definition with_block (b : list Z) (p : physmem) : physmem :=
  Physmem b (prealloc_pbma p) (prealloc_pbma_ptr p) (pmb_n_maps p) (pmb_lock p).
Definition with_lock (l : Z) (p : physmem) : physmem :=
  Physmem (bitmap_block p) (prealloc_pbma p) (prealloc_pbma_ptr p) (pmb_n_maps p) l.

Definition DIV_32 (x : Z) : Z := Z.shiftr x 5.
Definition MUL_32 (x : Z) : Z := u32 (Z.shiftl x 5).
Definition MOD_32 (x : Z) : Z := Z.land x 31.
Definition BIT_32 (x : Z) : Z := u32 (Z.shiftl 1 (MOD_32 x)).
Definition MUL_PAGESIZE (x : Z) : Z := u32 (Z.shiftl x SYSARCH_PAGESIZE_SHIFT).
Definition DIV_PAGESIZE (x : Z) : Z := Z.shiftr x SYSARCH_PAGESIZE_SHIFT.

(** Array accesses with a C index. *)
Definition word_load (b : list Z) (i : Z) : outcome Z :=
  if i <? 0 then Fault else deref (b !! Z.to_nat i).
Definition word_store (b : list Z) (i w : Z) : outcome (list Z) :=
  if i <? 0 then Fault else _ ← deref (b !! Z.to_nat i); Done (<[Z.to_nat i := w]> b).

(** ** Operations *)

(** The loop of [bitmap_search], with [k] iterations left.  [None]: no page. *)
Fixpoint bitmap_search_from (k : nat) (i : Z) (pmbm : physmem_bmalloc) (b : list Z)
  : outcome (option Z * list Z) :=
  match k with
  | O => Done (None, b)
  | S k =>
      w ← word_load b (pmb_bitmap pmbm + DIV_32 i);
      if truthy (Z.land w (BIT_32 i)) then bitmap_search_from k (i + 1) pmbm b
      else
        b ← word_store b (pmb_bitmap pmbm + DIV_32 i) (Z.lor w (BIT_32 i));
        Done (Some (MUL_PAGESIZE i +u pm_begin (pmb_range pmbm)), b)
  end.

Definition bitmap_search (pmbm : physmem_bmalloc) (b : list Z) : outcome (option Z * list Z) :=
  bitmap_search_from (Z.to_nat (pmb_length pmbm)) 0 pmbm b.

(** [pmas->pmb_maps[i]], dereferenced. *)
Definition get_map (p : physmem) (i : nat) : outcome physmem_bmalloc :=
  q ← deref (prealloc_pbma_ptr p !! i); a ← deref q; deref (prealloc_pbma p !! a).

(** The loop of [vm_phys_alloc], with [k] maps left. *)
Fixpoint alloc_from (k i : nat) (p : physmem) : outcome (option Z * physmem) :=
  match k with
  | O => Done (None, p)
  | S k =>
      m ← get_map p i;
      '(res, b) ← bitmap_search m (bitmap_block p);
      match res with
      | Some _ => Done (res, with_block b p)
      | None => alloc_from k (S i) (with_block b p)
      end
  end.

(** [Some page] is the status -1 with [*res = page], [None] the status 0. *)
Definition vm_phys_alloc (p : physmem) : outcome (option Z * physmem) :=
  l ← kernlock_lock 1 (pmb_lock p);
  '(res, p) ← alloc_from (Z.to_nat (pmb_n_maps p)) 0 (with_lock l p);
  Done (res, with_lock (kernlock_unlock (pmb_lock p)) p).

(** The loop of [vm_phys_free]; the status is [true] for -1. *)
Fixpoint free_from (k i : nat) (page : Z) (p : physmem) : outcome (bool * physmem) :=
  match k with
  | O => Done (false, p)
  | S k =>
      m ← get_map p i;
      if (pm_begin (pmb_range m) <? page) || (page <=? pm_end (pmb_range m))
      then free_from k (S i) page p
      else
        let j := DIV_PAGESIZE (page -u pm_begin (pmb_range m)) in
        w ← word_load (bitmap_block p) (pmb_bitmap m + DIV_32 j);
        b ← word_store (bitmap_block p) (pmb_bitmap m + DIV_32 j) (Z.land w (not32 (BIT_32 j)));
        Done (true, with_block b p)
  end.

Definition vm_phys_free (p : physmem) (page : Z) : outcome (bool * physmem) :=
  l ← kernlock_lock 1 (pmb_lock p);
  '(st, p) ← free_from (Z.to_nat (pmb_n_maps p)) 0 page (with_lock l p);
  Done (st, with_lock (kernlock_unlock (pmb_lock p)) p).

(** [for(j=0;j<n;++j)]: clears the words of one bitmap and stops at the end of
    the block; the number of words cleared. *)
Fixpoint clear_words (fuel : nat) (j n cur : Z) (b : list Z) : outcome (Z * list Z) :=
  match fuel with
  | O => OutOfFuel
  | S fuel =>
      if j <? n then
        if UNUMBER <=? cur + j then Done (j, b)
        else b ← word_store b (cur + j) 0; clear_words fuel (j + 1) n cur b
      else Done (j, b)
  end.

Definition boot_map (i : nat) (m : physmem_bmalloc) (p : physmem) : outcome physmem :=
  _ ← deref (prealloc_pbma p !! i);
  Done (Physmem (bitmap_block p) (<[i := m]> (prealloc_pbma p)) (prealloc_pbma_ptr p)
          (pmb_n_maps p) (pmb_lock p)).

(** The loop of [vm_phys_bm_bootinit] over the ranges from index [i] on; the
    result is the status ([true] for -1), [*Pi] and [*Pt] when they are
    written, and the allocator. *)
Fixpoint bootinit_from (rest : list physmem_range) (i : nat) (n_ranges cur : Z) (p : physmem)
  : outcome (bool * option (Z * Z) * physmem) :=
  match rest with
  | [] => Done (false, None, p)
  | r :: rest =>
      if NNUMBER <=? i then Done (true, Some (Z.of_nat i, pm_begin r), p)
      else
        _ ← deref (prealloc_pbma_ptr p !! i);
        let p := Physmem (bitmap_block p) (prealloc_pbma p)
                   (<[i := Some i]> (prealloc_pbma_ptr p)) (pmb_n_maps p +u 1) (pmb_lock p) in
        let m := DIV_PAGESIZE (pm_end r -u pm_begin r) in
        let n := DIV_32 (m +u 31) in
        '(j, b) ← clear_words (Z.to_nat (UNUMBER + 1)) 0 n cur (bitmap_block p);
        let p := with_block b p in
        let k := if m <? MUL_32 j then m else MUL_32 j in
        p ← boot_map i (Physmem_bmalloc r cur k) p;
        let cur := cur + j in
        if UNUMBER <=? cur then
          let Pt := pm_begin r +u MUL_PAGESIZE (MUL_32 j) in
          if (pm_end r <=? Pt) && (n_ranges <=? i + 1) then Done (false, Some (Z.of_nat i, Pt), p)
          else Done (true, Some (Z.of_nat i, Pt), p)
        else bootinit_from rest (S i) n_ranges cur p
  end.

Definition vm_phys_bm_bootinit (rng : list physmem_range) (p : physmem)
  : outcome (bool * option (Z * Z) * physmem) :=
  bootinit_from rng 0 (length rng) 0
    (Physmem (bitmap_block p) (prealloc_pbma p) (prealloc_pbma_ptr p) 0 (kernlock_init (pmb_lock p))).

(** The static objects before boot: zeroed memory. *)
Definition bss : physmem :=
  Physmem (replicate 4096 0) (replicate 16 (Physmem_bmalloc (Physmem_range 0 0) 0 0))
    (replicate 16 None) 0 0.

(** The memory ranges [_i686_init] computes from the end of the kernel image
    (a virtual address) and the multiboot data, [None] when the flag for memory
    sizes is not set. *)
Definition i686_memranges (kernel_end flags mem_lower mem_upper : Z) : option (list physmem_range) :=
  let endkernel := kernel_end -u 0xC0000000 in
  let endkernel := Z.land (endkernel +u 0xfff) (not32 0xfff) in
  if truthy (Z.land flags 1) then
    let r0 := Physmem_range 0 (Z.land (u32 (Z.shiftl mem_lower 10)) (not32 0xfff)) in
    let begin1 := if 0x100000 <? endkernel then endkernel else 0xC00000 in
    let end1 := Z.land (u32 (Z.shiftl mem_upper 10) +u 0x100000) (not32 0xfff) in
    Some [r0; Physmem_range begin1 end1]
  else None.

(** ** Abstract view: the list of free pages *)

(** Bit number [g] of the block, counted from its first word. *)
Definition bit (b : list Z) (g : Z) : bool :=
  match b !! Z.to_nat (g / 32) with Some w => Z.testbit w (g mod 32) | None => false end.

(** The bits of a map, and the page that belongs to each of them. *)
Definition map_pages (m : physmem_bmalloc) : list (Z * Z) :=
  (fun i => (32 * pmb_bitmap m + i, pm_begin (pmb_range m) + 4096 * i)) <$> seqZ 0 (pmb_length m).

Definition free_in (b : list Z) (l : list (Z * Z)) : list Z :=
  snd <$> List.filter (fun e => negb (bit b e.1)) l.

(** The maps of the allocator. *)
Record phys_rep (p : physmem) (ms : list physmem_bmalloc) : Prop := {
  pr_block : length (bitmap_block p) = 4096%nat;
  pr_n : pmb_n_maps p = length ms;
  pr_maps : forall i m, ms !! i = Some m -> get_map p i = Done m;
  pr_len : forall m, m ∈ ms -> 0 <= pmb_bitmap m /\ 0 <= pmb_length m /\
             32 * pmb_bitmap m + pmb_length m <= 32 * 4096 /\
             0 <= pm_begin (pmb_range m) /\ pm_begin (pmb_range m) + 4096 * pmb_length m <= 2 ^ 32;
  pr_nodup : NoDup (fst <$> (ms ≫= map_pages));
}.

Definition free_pages (p : physmem) (ms : list physmem_bmalloc) : list Z :=
  free_in (bitmap_block p) (ms ≫= map_pages).

(** ** Bit arithmetic *)

Lemma DIV_32_div x : DIV_32 x = x / 32.
Proof. unfold DIV_32. by rewrite Z.shiftr_div_pow2. Qed.

Lemma MOD_32_mod x : MOD_32 x = x mod 32.
Proof. apply (land_ones_mod x 5). lia. Qed.

Lemma BIT_32_pow x : BIT_32 x = 2 ^ (x mod 32).
Proof.
  unfold BIT_32. rewrite MOD_32_mod, Z.shiftl_1_l. pose proof (Z.mod_pos_bound x 32).
  apply wrap_small. split; [lia|]. apply Z.pow_lt_mono_r; lia.
Qed.

Lemma truthy_land_pow2 w k : 0 <= k -> truthy (Z.land w (2 ^ k)) = Z.testbit w k.
Proof.
  intros Hk. destruct (Z.testbit w k) eqn:E.
  - apply truthy_true. intros H0. assert (Z.testbit (Z.land w (2 ^ k)) k = true) as Hb.
    { by rewrite Z.land_spec, E, Z.pow2_bits_true. }
    rewrite H0, Z.bits_0 in Hb. done.
  - apply truthy_false. apply Z.bits_inj'. intros n Hn. rewrite Z.land_spec, Z.bits_0.
    destruct (decide (n = k)) as [->|]; [by rewrite E|]. by rewrite Z.pow2_bits_false, andb_false_r.
Qed.

Section bits.
Context (b : list Z) (off i : Z).
Hypothesis Hoff : 0 <= off.
Hypothesis Hi : 0 <= i.

Lemma bit_index : (32 * off + i) / 32 = off + i / 32 /\ (32 * off + i) mod 32 = i mod 32.
Proof using. rewrite Z.mul_comm, Z.add_comm. rewrite Z.div_add, Z.mod_add by done. lia. Qed.

Lemma bit_load w :
  word_load b (off + DIV_32 i) = Done w ->
  truthy (Z.land w (BIT_32 i)) = bit b (32 * off + i).
Proof using.
  unfold word_load. case_match; [done|]. intros Hw%deref_Done. pose proof (Z.mod_pos_bound i 32).
  rewrite BIT_32_pow, truthy_land_pow2 by lia.
  unfold bit. destruct bit_index as [-> ->]. rewrite <-DIV_32_div. by rewrite Hw.
Qed.

Lemma bit_load_ok :
  32 * off + i < 32 * length b -> exists w, word_load b (off + DIV_32 i) = Done w.
Proof using Hoff Hi.
  intros Hlt. unfold word_load. rewrite DIV_32_div.
  pose proof (Z.div_pos i 32 ltac:(lia) ltac:(lia)). destruct (Z.ltb_spec (off + i / 32) 0); [lia|].
  destruct (b !! Z.to_nat (off + i / 32)) eqn:E; [eauto|].
  apply lookup_ge_None in E. pose proof (Z.div_mod i 32). pose proof (Z.mod_pos_bound i 32). lia.
Qed.

Lemma bit_set w :
  word_load b (off + DIV_32 i) = Done w ->
  exists b', word_store b (off + DIV_32 i) (Z.lor w (BIT_32 i)) = Done b' /\
    length b' = length b /\
    forall g, 0 <= g -> bit b' g = (g =? 32 * off + i) || bit b g.
Proof using Hoff Hi.
  unfold word_load, word_store. case_match eqn:Hneg; [done|]. intros Hw%deref_Done. rewrite Hw. simpl.
  eexists. split; [done|]. split; [by rewrite length_insert|]. intros g Hg.
  pose proof (Z.mod_pos_bound g 32). pose proof (Z.mod_pos_bound i 32). pose proof (Z.div_pos g 32).
  pose proof bit_index as [Hd Hm]. rewrite DIV_32_div in *. apply Z.ltb_ge in Hneg.
  unfold bit. destruct (decide (g / 32 = off + i / 32)) as [Hq|Hq].
  - rewrite Hq, list_lookup_insert_eq, Hw by (by eapply lookup_lt_Some).
    rewrite BIT_32_pow, Z.lor_spec, Z.pow2_bits_eqb by lia. rewrite orb_comm. f_equal.
    pose proof (Z.div_mod g 32). pose proof (Z.div_mod (32 * off + i) 32).
    destruct (Z.eqb_spec (i mod 32) (g mod 32)), (Z.eqb_spec g (32 * off + i)); try done; lia.
  - rewrite list_lookup_insert_ne by lia.
    destruct (Z.eqb_spec g (32 * off + i)) as [->|]; [|done]. by rewrite Hd in Hq.
Qed.
End bits.

(** ** Allocation *)

(** What a search through the pages [l] does to the block [b]. *)
Definition search_result (b : list Z) (l : list (Z * Z)) (res : option Z) (b' : list Z) : Prop :=
  match res with
  | None => b' = b /\ Forall (fun e => bit b e.1 = true) l
  | Some a => exists l1 g l2, l = l1 ++ (g, a) :: l2 /\ Forall (fun e => bit b e.1 = true) l1 /\
                bit b g = false /\ length b' = length b /\
                forall g', 0 <= g' -> bit b' g' = (g' =? g) || bit b g'
  end.

Lemma search_result_skip b l0 l res b' :
  Forall (fun e => bit b e.1 = true) l0 -> search_result b l res b' -> search_result b (l0 ++ l) res b'.
Proof.
  intros H0. destruct res as [a|]; simpl.
  - intros (l1&g&l2&->&H1&Hr). exists (l0 ++ l1), g, l2. rewrite app_assoc. split; [done|].
    split; [by apply Forall_app|done].
  - intros [-> Hl]. split; [done|]. by apply Forall_app.
Qed.

Lemma search_result_more b l l0 a b' :
  search_result b l (Some a) b' -> search_result b (l ++ l0) (Some a) b'.
Proof.
  intros (l1&g&l2&->&Hr). exists l1, g, (l2 ++ l0). split; [|done].
  by rewrite <-app_assoc.
Qed.

Lemma free_in_ext b b' l :
  (forall e, e ∈ l -> bit b' e.1 = bit b e.1) -> free_in b' l = free_in b l.
Proof.
  unfold free_in. induction l as [|e l IH]; intros He; simpl; [done|].
  rewrite (He e) by set_solver. destruct (bit b e.1); simpl; [|f_equal]; apply IH; set_solver.
Qed.

Lemma free_in_app b l1 l2 : free_in b (l1 ++ l2) = free_in b l1 ++ free_in b l2.
Proof. unfold free_in. by rewrite List.filter_app, fmap_app. Qed.

Lemma free_in_used b l : Forall (fun e => bit b e.1 = true) l -> free_in b l = [].
Proof.
  unfold free_in. induction 1 as [|e l He _ IH]; simpl; [done|]. by rewrite He.
Qed.

(** A search takes the first page off the list of free pages. *)
Lemma search_result_free b l res b' :
  search_result b l res b' -> NoDup l.*1 -> (forall e, e ∈ l -> 0 <= e.1) ->
  match free_in b l with
  | [] => res = None /\ b' = b
  | a :: rest => res = Some a /\ free_in b' l = rest
  end.
Proof.
  destruct res as [a|]; simpl.
  - intros (l1&g&l2&->&H1&Hg&_&Hb') Hnd Hpos.
    rewrite fmap_app in Hnd. simpl in Hnd. apply NoDup_app in Hnd as (_&Hd1&Hd2).
    apply NoDup_cons in Hd2 as [Hgl2 _].
    pose proof (Hpos (g, a) ltac:(set_solver)) as Hg0. simpl in Hg0.
    rewrite !free_in_app, (free_in_used b l1) by done. simpl.
    assert (Hcons : forall bb, free_in bb ((g, a) :: l2) =
      if bit bb g then free_in bb l2 else a :: free_in bb l2).
    { intros bb. unfold free_in. simpl. by destruct (bit bb g). }
    rewrite !Hcons, Hg, Hb', Z.eqb_refl by done. simpl. split; [done|].
    rewrite free_in_used.
    + apply free_in_ext. intros e He. rewrite Hb' by (apply Hpos; set_solver).
      destruct (Z.eqb_spec e.1 g) as [<-|]; [|done]. exfalso. apply Hgl2. by apply list_elem_of_fmap_2.
    + apply Forall_forall. intros e He. rewrite Hb' by (apply Hpos; set_solver).
      rewrite Forall_forall in H1. rewrite (H1 e He). apply orb_true_r.
  - intros [-> Hall] _ _. rewrite free_in_used by done. done.
Qed.

(** The pages of a map from number [i] on. *)
Definition pages_from (m : physmem_bmalloc) (i : Z) (k : nat) : list (Z * Z) :=
  (fun i => (32 * pmb_bitmap m + i, pm_begin (pmb_range m) + 4096 * i)) <$> seqZ i k.

Lemma MUL_PAGESIZE_small i : 0 <= i -> 4096 * i < 2 ^ 32 -> MUL_PAGESIZE i = 4096 * i.
Proof.
  intros. unfold MUL_PAGESIZE, SYSARCH_PAGESIZE_SHIFT. rewrite Z.shiftl_mul_pow2 by lia.
  rewrite wrap_small; lia.
Qed.

Lemma bitmap_search_from_ok m b i (k : nat) :
  0 <= i -> 0 <= pmb_bitmap m -> 0 <= pm_begin (pmb_range m) ->
  32 * pmb_bitmap m + (i + k) <= 32 * length b ->
  pm_begin (pmb_range m) + 4096 * (i + k) <= 2 ^ 32 ->
  exists res b', bitmap_search_from k i m b = Done (res, b') /\
    search_result b (pages_from m i k) res b'.
Proof.
  revert i. induction k as [|k IH]; intros i Hi Hoff Hbeg Hlen Hov; simpl.
  { exists None, b. done. }
  unfold pages_from. rewrite seqZ_cons by lia. rewrite fmap_cons.
  replace (Z.pred (S k)) with (Z.of_nat k) by lia.
  destruct (bit_load_ok b (pmb_bitmap m) i) as [w Hw]; [lia|lia|lia|].
  rewrite Hw. simpl. rewrite (bit_load b (pmb_bitmap m) i w Hw).
  destruct (bit b (32 * pmb_bitmap m + i)) eqn:Hbit.
  - destruct (IH (i + 1)) as (res&b'&E&Hres); [lia..|]. exists res, b'. split; [done|].
    apply (search_result_skip _ [(_, _)]); [by constructor|]. done.
  - destruct (bit_set b (pmb_bitmap m) i Hoff Hi w Hw) as (b'&E&Hlb&Hb'). rewrite E. simpl.
    eexists _, b'. split; [done|].
    exists [], (32 * pmb_bitmap m + i), (pages_from m (i + 1) k).
    rewrite MUL_PAGESIZE_small by lia. rewrite u32_add_nowrap by lia.
    rewrite (Z.add_comm (4096 * i)). done.
Qed.

Lemma with_block_eta p : with_block (bitmap_block p) p = p.
Proof. by destruct p. Qed.

Lemma map_pages_from m : 0 <= pmb_length m -> map_pages m = pages_from m 0 (Z.to_nat (pmb_length m)).
Proof. intros. unfold map_pages, pages_from. by rewrite Z2Nat.id. Qed.

Lemma alloc_from_ok p ms k i :
  phys_rep p ms -> k = (length ms - i)%nat -> (i <= length ms)%nat ->
  exists res b', alloc_from k i p = Done (res, with_block b' p) /\
    search_result (bitmap_block p) (drop i ms ≫= map_pages) res b'.
Proof.
  intros Hrep. revert i. induction k as [|k IH]; intros i Hk Hi; simpl.
  { exists None, (bitmap_block p). rewrite with_block_eta. split; [done|].
    rewrite drop_ge by lia. done. }
  destruct (lookup_lt_is_Some_2 ms i) as [m Hm]; [lia|].
  rewrite (pr_maps _ _ Hrep i m Hm). cbn [mbind outcome_bind].
  destruct (pr_len _ _ Hrep m) as (Ho&Hl&Hb&Hbg&Hend); [by eapply list_elem_of_lookup_2|].
  destruct (bitmap_search_from_ok m (bitmap_block p) 0 (Z.to_nat (pmb_length m)))
    as (res&b'&E&Hres); [lia|done|done|rewrite (pr_block _ _ Hrep); lia|lia|].
  unfold bitmap_search. rewrite E. cbn [mbind outcome_bind]. rewrite <-map_pages_from in Hres by done.
  rewrite (drop_S _ _ _ Hm). cbn [mbind list_bind]. destruct res as [a|].
  - exists (Some a), b'. split; [done|]. by apply search_result_more.
  - destruct Hres as [-> Hused]. rewrite with_block_eta.
    destruct (IH (S i)) as (res&b''&E2&Hres2); [lia|lia|]. exists res, b''. split; [done|].
    by apply search_result_skip.
Qed.

Lemma phys_rep_block p ms b l :
  phys_rep p ms -> length b = length (bitmap_block p) -> phys_rep (with_lock l (with_block b p)) ms.
Proof.
  intros [? ? ? ? ?] Hb. split; try done. simpl. by rewrite Hb.
Qed.

Lemma map_pages_nonneg ms p e : phys_rep p ms -> e ∈ ms ≫= map_pages -> 0 <= e.1.
Proof.
  intros Hrep (m&He&Hm)%list_elem_of_bind. apply list_elem_of_fmap in He as (i&->&Hi%elem_of_seqZ).
  pose proof (pr_len _ _ Hrep m Hm) as (?&?&_). simpl. lia.
Qed.

(** [vm_phys_alloc] takes the first page off the list of free pages. *)
Lemma vm_phys_alloc_ok p ms :
  phys_rep p ms -> pmb_lock p = 0 ->
  match free_pages p ms with
  | [] => vm_phys_alloc p = Done (None, p)
  | page :: rest => exists p', vm_phys_alloc p = Done (Some page, p') /\
      phys_rep p' ms /\ pmb_lock p' = 0 /\ free_pages p' ms = rest
  end.
Proof.
  intros Hrep Hlock. unfold vm_phys_alloc. rewrite Hlock, kernlock_lock_free. cbn [mbind outcome_bind].
  assert (Hrep1 : phys_rep (with_lock (-1) p) ms) by (destruct Hrep; by split).
  destruct (alloc_from_ok (with_lock (-1) p) ms (Z.to_nat (pmb_n_maps p)) 0 Hrep1) as (res&b'&E&Hres);
    [rewrite (pr_n _ _ Hrep); lia|lia|].
  change (pmb_n_maps (with_lock (-1) p)) with (pmb_n_maps p). rewrite E. cbn [mbind outcome_bind].
  rewrite drop_0 in Hres. change (bitmap_block (with_lock (-1) p)) with (bitmap_block p) in Hres.
  pose proof (search_result_free _ _ _ _ Hres (pr_nodup _ _ Hrep)
    (fun e He => map_pages_nonneg _ _ _ Hrep He)) as Hfree.
  unfold free_pages. destruct (free_in (bitmap_block p) (ms ≫= map_pages)) as [|page rest].
  - destruct Hfree as [-> ->]. destruct p; simpl in *. by rewrite Hlock.
  - destruct Hfree as [-> Hrest]. eexists. split; [done|]. split_and!; [|done|done].
    apply phys_rep_block; [done|]. by destruct Hres as (?&?&?&?&?&?&?&?).
Qed.

(** C13: [vm_phys_alloc] on a well-formed allocator whose lock is free hands
    out the first page of its list of free pages and takes exactly this page
    off the list; it reports failure, and changes nothing, exactly when the
    list is empty.  The lock is free again. *)
Theorem vm_phys_alloc_correct p ms :
  phys_rep p ms -> pmb_lock p = 0 ->
  match free_pages p ms with
  | [] => vm_phys_alloc p = Done (None, p)
  | page :: rest => exists p', vm_phys_alloc p = Done (Some page, p') /\
      phys_rep p' ms /\ pmb_lock p' = 0 /\ free_pages p' ms = rest
  end.
Proof. apply vm_phys_alloc_ok. Qed.

(** ** Release *)

(** C39: [vm_phys_free] never gives a page back: on an allocator whose ranges
    satisfy [pm_begin <= pm_end], for every page it reports failure and leaves
    the bitmaps as they were, since its range test skips every range. *)
Theorem vm_phys_free_never_frees p ms page :
  phys_rep p ms -> pmb_lock p = 0 ->
  (forall m, m ∈ ms -> pm_begin (pmb_range m) <= pm_end (pmb_range m)) ->
  vm_phys_free p page = Done (false, p).
Proof.
  intros Hrep Hlock Hord. unfold vm_phys_free. rewrite Hlock, kernlock_lock_free. cbn [mbind outcome_bind].
  change (pmb_n_maps (with_lock (-1) p)) with (pmb_n_maps p). rewrite (pr_n _ _ Hrep), Nat2Z.id.
  assert (Hget : forall k i, (i + k <= length ms)%nat ->
    free_from k i page (with_lock (-1) p) = Done (false, with_lock (-1) p)).
  { induction k as [|k IH]; intros i Hi; simpl; [done|].
    destruct (lookup_lt_is_Some_2 ms i) as [m Hm]; [lia|].
    change (get_map (with_lock (-1) p) i) with (get_map p i).
    rewrite (pr_maps _ _ Hrep i m Hm). cbn [mbind outcome_bind].
    pose proof (Hord m (list_elem_of_lookup_2 _ _ _ Hm)).
    destruct (Z.ltb_spec (pm_begin (pmb_range m)) page), (Z.leb_spec page (pm_end (pmb_range m)));
      simpl; try (apply IH; lia). lia. }
  rewrite Hget by lia. cbn [mbind outcome_bind]. destruct p; simpl in *. by rewrite Hlock.
Qed.

(** ** The allocator at boot *)

Lemma clear_words_ok (fuel : nat) j n cur (b : list Z) :
  0 <= cur -> 0 <= j <= n -> cur + j <= 4096 -> length b = 4096%nat -> 4096 - (cur + j) < fuel ->
  exists b', clear_words fuel j n cur b = Done (Z.min n (4096 - cur), b') /\ length b' = 4096%nat /\
    (forall g, 0 <= g < 32 * (cur + j) -> bit b' g = bit b g) /\
    (forall g, 32 * (cur + j) <= g < 32 * (cur + Z.min n (4096 - cur)) -> bit b' g = false).
Proof.
  revert j b. induction fuel as [|fuel IH]; intros j b Hcur Hj Hle Hlen Hf; [lia|]. simpl.
  unfold UNUMBER. destruct (Z.ltb_spec j n); [destruct (Z.leb_spec 4096 (cur + j))|].
  - exists b. replace (Z.min n (4096 - cur)) with j by lia. split_and!; [done..|lia].
  - unfold word_store. destruct (Z.ltb_spec (cur + j) 0); [lia|].
    destruct (lookup_lt_is_Some_2 b (Z.to_nat (cur + j))) as [w Hw]; [lia|]. rewrite Hw. simpl.
    assert (Hset : forall g, 0 <= g -> bit (<[Z.to_nat (cur + j) := 0]> b) g =
      if g / 32 =? cur + j then false else bit b g).
    { intros g Hg. unfold bit. pose proof (Z.div_pos g 32). destruct (Z.eqb_spec (g / 32) (cur + j)) as [->|].
      - rewrite list_lookup_insert_eq by (by eapply lookup_lt_Some). apply Z.bits_0.
      - rewrite list_lookup_insert_ne by lia. done. }
    destruct (IH (j + 1) (<[Z.to_nat (cur + j) := 0]> b)) as (b'&E&Hl&Hlow&Hhigh);
      [lia|lia|lia|by rewrite length_insert|lia|].
    exists b'. split_and!; [done|done|..]; intros g Hg; pose proof (Z.div_mod g 32);
      pose proof (Z.mod_pos_bound g 32).
    + rewrite Hlow, Hset by lia. destruct (Z.eqb_spec (g / 32) (cur + j)); [lia|done].
    + destruct (Z.lt_ge_cases g (32 * (cur + (j + 1)))); [|by apply Hhigh; lia].
      rewrite Hlow, Hset by lia. destruct (Z.eqb_spec (g / 32) (cur + j)); [done|].
      assert (g / 32 = cur + j); [|done]. symmetry. apply (Z.div_unique g 32 _ (g - 32 * (cur + j))); lia.
  - assert (j = n) as -> by lia. exists b. replace (Z.min n (4096 - cur)) with n by lia.
    split_and!; [done..|lia].
Qed.

#[local] Arguments clear_words : simpl never.

Definition range_ok (r : physmem_range) : Prop := 0 <= pm_begin r <= pm_end r /\ pm_end r < 2 ^ 32.

(** The page addresses of a memory range. *)
Definition range_pages (r : physmem_range) : list Z :=
  (fun i => pm_begin r + 4096 * i) <$> seqZ 0 ((pm_end r - pm_begin r) / 4096).

(** The allocator after some of the ranges; [cur] words are in use. *)
Record boot_inv (p : physmem) (ms : list physmem_bmalloc) (cur : Z) : Prop := {
  bi_rep : phys_rep p ms;
  bi_lens : length (prealloc_pbma p) = 16%nat /\ length (prealloc_pbma_ptr p) = 16%nat;
  bi_ptrs : forall i m, ms !! i = Some m -> prealloc_pbma_ptr p !! i = Some (Some i) /\ prealloc_pbma p !! i = Some m;
  bi_bits : forall e, e ∈ ms ≫= map_pages -> e.1 < 32 * cur;
  bi_lock : pmb_lock p = 0;
}.

(** The pages of a new map with all its bits clear. *)
Lemma free_in_new b m :
  (forall g, 32 * pmb_bitmap m <= g < 32 * pmb_bitmap m + pmb_length m -> bit b g = false) ->
  free_in b (map_pages m) = (fun i => pm_begin (pmb_range m) + 4096 * i) <$> seqZ 0 (pmb_length m).
Proof.
  intros Hg. unfold free_in, map_pages.
  assert (forall e, e ∈ seqZ 0 (pmb_length m) -> bit b (32 * pmb_bitmap m + e) = false) as He.
  { intros e He%elem_of_seqZ. apply Hg. lia. }
  revert He. induction (seqZ 0 (pmb_length m)) as [|i l IH]; intros He; simpl; [done|].
  rewrite (He i) by set_solver. simpl. f_equal. apply IH. set_solver.
Qed.

(** One turn of the boot loop, from the state before to the state with the new
    map [Physmem_bmalloc r cur k] in slot [length ms]. *)
Lemma boot_step p ms cur r b' k :
  boot_inv p ms cur -> range_ok r -> (length ms < 16)%nat -> 0 <= cur -> 0 <= k ->
  length b' = 4096%nat -> 32 * cur + k <= 32 * 4096 -> 4096 * k <= pm_end r - pm_begin r ->
  (forall g, 0 <= g < 32 * cur -> bit b' g = bit (bitmap_block p) g) ->
  (forall g, 32 * cur <= g < 32 * cur + k -> bit b' g = false) ->
  let m := Physmem_bmalloc r cur k in
  let i := length ms in
  let p' := Physmem b' (<[i := m]> (prealloc_pbma p)) (<[i := Some i]> (prealloc_pbma_ptr p))
              (pmb_n_maps p +u 1) (pmb_lock p) in
  (forall cur', 32 * cur + k <= 32 * cur' -> boot_inv p' (ms ++ [m]) cur') /\
  free_pages p' (ms ++ [m]) = free_pages p ms ++ ((fun i => pm_begin r + 4096 * i) <$> seqZ 0 k).
Proof.
  intros [Hrep [Hl1 Hl2] Hptrs Hbits Hlock] Hr Hi Hcur Hk Hb' Hfit Hin Hlow Hnew m i p'.
  assert (Hpages : (ms ++ [m]) ≫= map_pages = (ms ≫= map_pages) ++ map_pages m).
  { rewrite bind_app. simpl. by rewrite app_nil_r. }
  assert (Hptrs' : forall i' m', (ms ++ [m]) !! i' = Some m' ->
    prealloc_pbma_ptr p' !! i' = Some (Some i') /\ prealloc_pbma p' !! i' = Some m').
  { intros i' m' [Hm|[Hge Hm]]%lookup_app_Some; simpl.
    - rewrite !list_lookup_insert_ne by (apply lookup_lt_Some in Hm; unfold i; lia). by apply Hptrs.
    - apply list_lookup_singleton_Some in Hm as [Hz <-]. assert (i' = i) as -> by (unfold i; lia).
      rewrite !list_lookup_insert_eq by (unfold i; lia). done. }
  destruct Hr as [Hr1 Hr2]. split.
  - intros cur' Hcur'. split; [split|split|done| |done].
    + done.
    + unfold p'. simpl. rewrite (pr_n _ _ Hrep), length_app, u32_add_nowrap; simpl; lia.
    + intros i' m' Hm. unfold get_map. destruct (Hptrs' i' m' Hm) as [-> E2].
      cbn [deref mbind outcome_bind]. by rewrite E2.
    + intros m' [Hm'|Hm'%list_elem_of_singleton]%elem_of_app; [by apply (pr_len _ _ Hrep)|].
      rewrite Hm'. unfold m. simpl. lia.
    + rewrite Hpages, fmap_app. apply NoDup_app. split_and!; [apply Hrep| |].
      * intros g (e&->&He)%list_elem_of_fmap (e'&Heq&He')%list_elem_of_fmap.
        apply list_elem_of_fmap in He' as (z&->&Hz%elem_of_seqZ). specialize (Hbits e He).
        simpl in Heq. lia.
      * unfold map_pages. rewrite <-list_fmap_compose. apply NoDup_fmap_2; [|apply NoDup_seqZ].
        intros x y. simpl. lia.
    + unfold p'. simpl. by rewrite length_insert.
    + unfold p'. simpl. by rewrite length_insert.
    + rewrite Hpages. intros e [He|He]%elem_of_app.
      * specialize (Hbits e He). lia.
      * apply list_elem_of_fmap in He as (z&->&Hz%elem_of_seqZ). unfold m in *. simpl in *. lia.
  - unfold free_pages. rewrite Hpages, free_in_app. f_equal.
    + apply free_in_ext. intros e He. unfold p'. simpl. apply Hlow.
      split; [|by apply Hbits]. by eapply map_pages_nonneg.
    + apply free_in_new. done.
Qed.

(** The sizes computed for one range when [cur] words are already in use. *)
Lemma boot_sizes r cur :
  range_ok r -> 0 <= cur < 4096 ->
  let m := DIV_PAGESIZE (pm_end r -u pm_begin r) in
  let n := DIV_32 (m +u 31) in
  let j := Z.min n (4096 - cur) in
  let k := if m <? MUL_32 j then m else MUL_32 j in
  m = (pm_end r - pm_begin r) / 4096 /\ 0 <= n /\ 0 <= j /\ 0 <= k <= m /\ k <= 32 * j /\
  (cur + j < 4096 -> k = m) /\ (k = m \/ k = 32 * j) /\ 32 * n <= m + 31 /\
  (pm_end r <= pm_begin r +u MUL_PAGESIZE (MUL_32 j) -> k = m).
Proof.
  intros [[H0 H1] H2] Hcur m n j k.
  assert (Hm : m = (pm_end r - pm_begin r) / 4096).
  { unfold m, DIV_PAGESIZE. rewrite Z.shiftr_div_pow2 by done. by rewrite u32_sub_nowrap by lia. }
  pose proof (Z.div_pos (pm_end r - pm_begin r) 4096 ltac:(lia) ltac:(lia)) as Hm0.
  assert (Hm1 : 4096 * m <= pm_end r - pm_begin r < 4096 * (m + 1)).
  { rewrite Hm. pose proof (Z.div_mod (pm_end r - pm_begin r) 4096).
    pose proof (Z.mod_pos_bound (pm_end r - pm_begin r) 4096). lia. }
  rewrite <-Hm in Hm0.
  assert (Hn : n = (m + 31) / 32) by (unfold n; rewrite DIV_32_div, u32_add_nowrap; lia).
  pose proof (Z.div_mod (m + 31) 32). pose proof (Z.mod_pos_bound (m + 31) 32).
  assert (Hj : 0 <= j <= 4096) by (unfold j; lia).
  assert (Hmul : MUL_32 j = 32 * j).
  { unfold MUL_32. rewrite Z.shiftl_mul_pow2 by done. rewrite wrap_small; lia. }
  assert (Hk : k = Z.min m (32 * j)) by (unfold k; rewrite Hmul; destruct (Z.ltb_spec m (32 * j)); lia).
  split_and!; [done|lia|lia|lia|lia|lia|lia|lia|lia|].
  rewrite Hmul, MUL_PAGESIZE_small by lia. intros Hend.
  destruct (Z.lt_ge_cases (pm_begin r + 4096 * (32 * j)) (2 ^ 32)) as [Hs|Hs].
  - rewrite u32_add_nowrap in Hend by lia. lia.
  - exfalso. revert Hend. unfold wrap. apply Z.lt_nge. apply (Z.le_lt_trans _ (pm_begin r - 1)); [|lia].
    rewrite <-(Z.mod_unique_pos (pm_begin r + 4096 * (32 * j)) (2 ^ 32) 1
      (pm_begin r + 4096 * (32 * j) - 2 ^ 32)); lia.
Qed.

(** The outcome of the boot loop: a well-formed allocator whose free pages are
    the pages of the ranges, all of them when the status is 0.  [bound] pages at
    least are free where the table of maps is long enough. *)
Definition boot_result (p : physmem) (ms : list physmem_bmalloc) (rest : list physmem_range) (bound : Z)
    (res : bool * option (Z * Z) * physmem) : Prop :=
  exists ms' pre, phys_rep res.2 ms' /\ pmb_lock res.2 = 0 /\
    (pmb_range <$> ms') `prefix_of` (pmb_range <$> ms) ++ rest /\
    free_pages res.2 ms' = free_pages p ms ++ pre /\ pre `prefix_of` (rest ≫= range_pages) /\
    (res.1.1 = false -> pre = rest ≫= range_pages) /\
    (length ms + length rest <= 16 -> bound <= length pre).

Lemma boot_result_stop p ms rest bound st o :
  boot_inv p ms 4096 \/ (exists cur, boot_inv p ms cur) -> (st = false -> rest = []) ->
  (length ms + length rest <= 16 -> bound <= 0) -> boot_result p ms rest bound (st, o, p).
Proof.
  intros Hinv Hst Hbound. assert (Hi : exists cur, boot_inv p ms cur) by (destruct Hinv; eauto).
  destruct Hi as [cur Hi]. exists ms, []. simpl. rewrite app_nil_r. split_and!.
  - apply Hi.
  - apply Hi.
  - by apply prefix_app_r.
  - done.
  - apply prefix_nil.
  - intros ->%Hst. done.
  - exact Hbound.
Qed.

Lemma prefix_seqZ (f : Z -> Z) k m : 0 <= k <= m -> (f <$> seqZ 0 k) `prefix_of` (f <$> seqZ 0 m).
Proof.
  intros Hk. replace m with (k + (m - k)) by lia. rewrite seqZ_app by lia. rewrite fmap_app.
  by apply prefix_app_r.
Qed.

(** The block is used up by the range [r]. *)
Lemma boot_result_last p p' ms m r rest cur pre bound st o :
  boot_inv p' (ms ++ [m]) cur -> pmb_range m = r -> free_pages p' (ms ++ [m]) = free_pages p ms ++ pre ->
  pre `prefix_of` range_pages r -> (st = false -> pre = range_pages r /\ rest = []) ->
  bound <= length pre -> boot_result p ms (r :: rest) bound (st, o, p').
Proof.
  intros Hinv Hm Hfree Hpre Hst Hbound. exists (ms ++ [m]), pre. cbn [fst snd mbind list_bind]. split_and!; try done.
  - apply Hinv.
  - apply Hinv.
  - rewrite fmap_app. simpl. rewrite Hm. apply prefix_app, prefix_cons, prefix_nil.
  - by apply prefix_app_r.
  - intros [-> ->]%Hst. simpl. by rewrite app_nil_r.
Qed.

(** The whole range [r] is free, and the loop goes on. *)
Lemma boot_result_next p p' ms m r rest bound bound' res :
  boot_result p' (ms ++ [m]) rest bound' res -> pmb_range m = r ->
  free_pages p' (ms ++ [m]) = free_pages p ms ++ range_pages r ->
  bound <= length (range_pages r) + bound' -> boot_result p ms (r :: rest) bound res.
Proof.
  intros (ms'&pre&Hrep&Hlk&Hrng&Hfr&Hp1&Hp2&Hp3) Hm Hfree Hbound. exists ms', (range_pages r ++ pre).
  cbn [mbind list_bind]. split_and!; try done.
  - rewrite fmap_app, <-app_assoc in Hrng. simpl in Hrng. by rewrite Hm in Hrng.
  - by rewrite Hfr, Hfree, app_assoc.
  - by apply prefix_app.
  - intros Hst. by rewrite Hp2.
  - intros Hle. rewrite length_app in Hp3 |- *. cbn [length] in *. lia.
Qed.

Lemma length_range_pages r : range_ok r -> Z.of_nat (length (range_pages r)) = (pm_end r - pm_begin r) / 4096.
Proof.
  intros [? _]. unfold range_pages. rewrite length_fmap, length_seqZ. apply Z2Nat.id, Z.div_pos; lia.
Qed.

(** A lower bound on the free pages: all, or what the words of the block from
    [cur] on hold, less the bits that are left over in the last word of a map. *)
Definition boot_bound (rest : list physmem_range) (cur : Z) : Z :=
  Z.min (length (rest ≫= range_pages)) (32 * (4096 - cur) - 31 * length rest).

Lemma bootinit_from_ok rest p ms cur i n_ranges :
  boot_inv p ms cur -> Forall range_ok rest -> 0 <= cur < 4096 -> i = length ms ->
  (length ms <= 16)%nat -> n_ranges = length ms + length rest ->
  exists res, bootinit_from rest i n_ranges cur p = Done res /\ boot_result p ms rest (boot_bound rest cur) res.
Proof.
  revert p ms cur i. induction rest as [|r rest IH]; intros p ms cur i Hinv Hrok Hcur -> Hms Hn;
    cbn [bootinit_from].
  { eexists. split; [done|]. apply boot_result_stop; eauto. intros _. unfold boot_bound. cbn. lia. }
  apply Forall_cons in Hrok as [Hr Hrok]. unfold NNUMBER. destruct (Z.leb_spec 16 (length ms)).
  { eexists. split; [done|]. apply boot_result_stop; [eauto|done|]. cbn [length]. lia. }
  pose proof Hinv as [Hrep [Hl1 Hl2] _ _ _].
  destruct (lookup_lt_is_Some_2 (prealloc_pbma_ptr p) (length ms)) as [q ->]; [lia|].
  cbn [deref mbind outcome_bind bitmap_block].
  pose proof (boot_sizes r cur Hr Hcur) as Hsz. cbv zeta in Hsz.
  set (m := DIV_PAGESIZE (pm_end r -u pm_begin r)) in *. set (n := DIV_32 (m +u 31)) in *.
  destruct Hsz as (Hm&Hn0&Hj0&Hk&Hkj&Hall&Hkor&Hnm&Hend).
  destruct (clear_words_ok (Z.to_nat (UNUMBER + 1)) 0 n cur (bitmap_block p)) as (b'&Ec&Hb'&Hlow&Hclr);
    [lia|lia|lia|apply Hrep|unfold UNUMBER; lia|]. rewrite Ec. cbn [mbind outcome_bind].
  set (j := Z.min n (4096 - cur)) in *. set (k := if m <? MUL_32 j then m else MUL_32 j) in *.
  destruct (boot_step p ms cur r b' k) as [Hinv' Hfree];
    [done|done|lia|lia|lia|done|lia| | | |].
  { pose proof (Z.mul_div_le (pm_end r - pm_begin r) 4096). lia. }
  { intros g Hg. apply Hlow. lia. }
  { intros g Hg. apply Hclr. lia. }
  unfold boot_map, with_block. cbn [prealloc_pbma prealloc_pbma_ptr bitmap_block pmb_n_maps pmb_lock].
  destruct (lookup_lt_is_Some_2 (prealloc_pbma p) (length ms)) as [q' ->]; [lia|].
  cbn [deref mbind outcome_bind]. set (p' := Physmem b' _ _ _ _) in *.
  assert (Hpre : (k = m -> ((fun i => pm_begin r + 4096 * i) <$> seqZ 0 k) = range_pages r) /\
    ((fun i => pm_begin r + 4096 * i) <$> seqZ 0 k) `prefix_of` range_pages r).
  { unfold range_pages. rewrite <-Hm. split; [by intros ->|]. apply prefix_seqZ. lia. }
  destruct Hpre as [Hpre1 Hpre2]. pose proof (length_range_pages r Hr) as Hlr. rewrite <-Hm in Hlr.
  assert (Hlen : Z.of_nat (length ((r :: rest) ≫= range_pages)) = m + length (rest ≫= range_pages)).
  { cbn [mbind list_bind]. rewrite length_app. lia. }
  assert (Hsl : Z.of_nat (length (r :: rest)) = length rest + 1) by (cbn [length]; lia).
  unfold UNUMBER. destruct (Z.leb_spec 4096 (cur + j)).
  - assert (Hres : forall st o, (st = false -> k = m /\ rest = []) ->
      boot_result p ms (r :: rest) (boot_bound (r :: rest) cur) (st, o, p')).
    { intros st o Hst. eapply (boot_result_last _ _ _ (Physmem_bmalloc r cur k)); [apply (Hinv' (cur + j)); lia|done|exact Hfree|done|..].
      { intros [Hkm ->]%Hst. auto. }
      unfold boot_bound. rewrite Hlen, Hsl, length_fmap, length_seqZ. lia. }
    destruct (Z.leb_spec (pm_end r) (pm_begin r +u MUL_PAGESIZE (MUL_32 j)));
      [destruct (Z.leb_spec n_ranges (length ms + 1))|]; cbn [andb];
      (eexists; split; [done|apply Hres]); try done.
    intros _. split; [by apply Hend|]. destruct rest; [done|]. cbn [length] in Hn. lia.
  - assert (Hbd : boot_bound (r :: rest) cur <= length (range_pages r) + boot_bound rest (cur + j)).
    { unfold boot_bound. rewrite Hlen, Hsl, Hlr. lia. }
    destruct (IH p' (ms ++ [Physmem_bmalloc r cur k]) (cur + j) (S (length ms))) as (res&E&Hres);
      rewrite ?length_app; cbn [length] in *; [apply Hinv'; lia|done|lia|lia|lia|lia|].
    exists res. split; [exact E|]. rewrite (Hpre1 (Hall ltac:(lia))) in Hfree. by eapply boot_result_next.
Qed.

Lemma vm_phys_bm_bootinit_ok rng :
  Forall range_ok rng ->
  exists status o p ms, vm_phys_bm_bootinit rng bss = Done (status, o, p) /\
    phys_rep p ms /\ pmb_lock p = 0 /\ (pmb_range <$> ms) `prefix_of` rng /\
    free_pages p ms `prefix_of` (rng ≫= range_pages) /\
    (status = false -> free_pages p ms = rng ≫= range_pages) /\
    (length rng <= 16 -> Z.min (length (rng ≫= range_pages)) (131072 - 31 * length rng) <= length (free_pages p ms)).
Proof.
  intros Hr. assert (Hinv : boot_inv (Physmem (bitmap_block bss) (prealloc_pbma bss)
    (prealloc_pbma_ptr bss) 0 (kernlock_init (pmb_lock bss))) [] 0).
  { split; [split|..]; try done; try apply NoDup_nil_2; intros; set_solver. }
  destruct (bootinit_from_ok rng _ [] 0 0%nat (length rng) Hinv Hr) as (res&E&ms&pre&Hrep&Hlk&Hrng&Hfr&Hp1&Hp2&Hp3);
    [lia|done|simpl; lia|simpl; lia|].
  destruct res as [[st o] p]. exists st, o, p, ms. simpl in *. rewrite Hfr. done.
Qed.

(** C28: [vm_phys_bm_bootinit] on zeroed static memory always returns, with a
    well-formed allocator: its bitmaps do not overlap and stay inside the
    block, its maps are those of the given ranges in order, and its free pages
    are pages of the ranges, in order.  When it reports success every page of
    every range is free to be allocated; in any case, with 16 ranges or fewer, all
    of them are or at least 131072 less 31 for each range, where the block of
    bitmaps is used up. *)
Theorem vm_phys_bm_bootinit_correct rng :
  Forall range_ok rng ->
  exists status o p ms, vm_phys_bm_bootinit rng bss = Done (status, o, p) /\
    phys_rep p ms /\ pmb_lock p = 0 /\ (pmb_range <$> ms) `prefix_of` rng /\
    free_pages p ms `prefix_of` (rng ≫= range_pages) /\
    (status = false -> free_pages p ms = rng ≫= range_pages) /\
    (length rng <= 16 -> Z.min (length (rng ≫= range_pages)) (131072 - 31 * length rng) <= length (free_pages p ms)).
Proof. apply vm_phys_bm_bootinit_ok. Qed.

Lemma i686_memranges_ok kernel_end flags mem_lower mem_upper r0 r1 :
  0xC0100000 < kernel_end <= 0xFFFFF000 -> 0 <= mem_lower <= 640 -> 0 <= mem_upper < 2 ^ 22 - 2 ^ 10 ->
  i686_memranges kernel_end flags mem_lower mem_upper = Some [r0; r1] ->
  pm_begin r0 = 0 /\ pm_end r0 mod 4096 = 0 /\ 0 <= pm_end r0 <= 0xA0000 /\
  pm_begin r1 mod 4096 = 0 /\ kernel_end - 0xC0000000 <= pm_begin r1 < kernel_end - 0xC0000000 + 4096 /\
  pm_end r1 mod 4096 = 0 /\ pm_end r1 <= 1024 * mem_upper + 0x100000 < pm_end r1 + 4096.
Proof.
  intros Hk Hl Hu. unfold i686_memranges. case_match; [|done]. intros [= <- <-].
  assert (Hround : forall x, in_u32 x ->
    Z.land x (not32 0xfff) = x - x mod 4096 /\ Z.land x (not32 0xfff) mod 4096 = 0).
  { intros x Hx. change 0xfff with (2 ^ 12 - 1). rewrite (land_not_mask x 12 Hx) by lia. split; [done|].
    rewrite Zminus_mod_idemp_r, Z.sub_diag. done. }
  assert (Hek : (kernel_end -u 0xC0000000) +u 0xfff = kernel_end - 0xC0000000 + 0xfff).
  { rewrite u32_sub_nowrap, u32_add_nowrap; lia. }
  assert (Hsl : forall x, 0 <= x < 2 ^ 22 -> u32 (Z.shiftl x 10) = 1024 * x).
  { intros x Hx. rewrite Z.shiftl_mul_pow2 by lia. rewrite wrap_small; lia. }
  rewrite Hek, !Hsl by lia. rewrite (u32_add_nowrap (1024 * mem_upper)) by lia.
  destruct (Hround (kernel_end - 0xC0000000 + 0xfff)) as [E1 M1]; [split; lia|].
  destruct (Hround (1024 * mem_lower)) as [E2 M2]; [split; lia|].
  destruct (Hround (1024 * mem_upper + 0x100000)) as [E3 M3]; [split; lia|].
  pose proof (Z.mod_pos_bound (kernel_end - 0xC0000000 + 0xfff) 4096).
  pose proof (Z.mod_pos_bound (1024 * mem_lower) 4096).
  pose proof (Z.mod_le (1024 * mem_lower) 4096 ltac:(lia) ltac:(lia)).
  pose proof (Z.mod_pos_bound (1024 * mem_upper + 0x100000) 4096).
  cbn [pm_begin pm_end]. destruct (Z.ltb_spec 0x100000 (Z.land (kernel_end - 0xC0000000 + 0xfff) (not32 0xfff)));
    split_and!; try done; lia.
Qed.

(** The memory ranges [_i686_init] derives from the multiboot data are
    page aligned; the first starts at 0 and ends below the first megabyte when
    [mem_lower] is at most 640 KiB, and the second starts above the kernel
    image and ends within the upper memory. *)
Theorem i686_memranges_correct kernel_end flags mem_lower mem_upper r0 r1 :
  0xC0100000 < kernel_end <= 0xFFFFF000 -> 0 <= mem_lower <= 640 -> 0 <= mem_upper < 2 ^ 22 - 2 ^ 10 ->
  i686_memranges kernel_end flags mem_lower mem_upper = Some [r0; r1] ->
  pm_begin r0 = 0 /\ pm_end r0 mod 4096 = 0 /\ 0 <= pm_end r0 <= 0xA0000 /\
  pm_begin r1 mod 4096 = 0 /\ kernel_end - 0xC0000000 <= pm_begin r1 < kernel_end - 0xC0000000 + 4096 /\
  pm_end r1 mod 4096 = 0 /\ pm_end r1 <= 1024 * mem_upper + 0x100000 < pm_end r1 + 4096.
Proof. apply i686_memranges_ok. Qed.

Lemma i686_memranges_correct_witness :
  i686_memranges 0xC0123456 1 640 0x4000 = Some [Physmem_range 0 0xA0000; Physmem_range 0x124000 0x1100000] /\
  0x124000 mod 4096 = 0.
Proof.
  assert (E : i686_memranges 0xC0123456 1 640 0x4000 =
    Some [Physmem_range 0 0xA0000; Physmem_range 0x124000 0x1100000]) by (vm_compute; reflexivity).
  split; [exact E|]. apply (i686_memranges_correct 0xC0123456 1 640 0x4000 _ _ ltac:(lia) ltac:(lia) ltac:(lia) E).
Defined.

(** ** Concrete allocators *)

Module PhysExample.
(** Three pages from 0x1000 on, the first of them in use. *)
Definition one_map : physmem_bmalloc := Physmem_bmalloc (Physmem_range 0x1000 0x4000) 0 3.
Definition one : physmem := Physmem (1 :: replicate 4095 0) [one_map] [Some 0%nat] 1 0.

Lemma one_rep : phys_rep one [one_map].
Proof.
  split.
  - vm_compute. reflexivity.
  - reflexivity.
  - intros [|i] m Hm; [injection Hm as <-; reflexivity|discriminate].
  - intros m Hm. apply list_elem_of_singleton in Hm as ->. simpl. lia.
  - apply (bool_decide_eq_true_1 _). vm_compute. reflexivity.
Defined.

Lemma one_free : free_pages one [one_map] = [0x2000; 0x3000].
Proof. vm_compute. reflexivity. Defined.

Lemma vm_phys_alloc_correct_witness : exists p',
  vm_phys_alloc one = Done (Some 0x2000, p') /\ free_pages p' [one_map] = [0x3000].
Proof.
  assert (H := vm_phys_alloc_correct one [one_map] one_rep eq_refl). rewrite one_free in H.
  destruct H as (p'&E&_&_&Hf). exists p'. split; [exact E|exact Hf].
Defined.

Lemma vm_phys_free_never_frees_witness : vm_phys_free one 0x1000 = Done (false, one).
Proof.
  apply (vm_phys_free_never_frees one [one_map] 0x1000 one_rep eq_refl).
  intros m Hm. apply list_elem_of_singleton in Hm as ->. simpl. lia.
Defined.

Definition two_ranges : list physmem_range :=
  [Physmem_range 0 0x2000; Physmem_range 0x200000 0x202000].

Lemma vm_phys_bm_bootinit_correct_witness :
  exists status o p ms, vm_phys_bm_bootinit two_ranges bss = Done (status, o, p) /\
    (status = false -> free_pages p ms = [0; 0x1000; 0x200000; 0x201000]).
Proof.
  destruct (vm_phys_bm_bootinit_correct two_ranges) as (status&o&p&ms&E&_&_&_&_&Hf&_).
  { repeat constructor; simpl; lia. }
  exists status, o, p, ms. split; [exact E|]. intros Hs. rewrite (Hf Hs). vm_compute. reflexivity.
Defined.

(** The two ranges fit: the status is 0. *)
Lemma two_ranges_status : fst <$> vm_phys_bm_bootinit two_ranges bss = Done (false, None).
Proof. vm_compute. reflexivity. Qed.
End PhysExample.
