(* ===== verification/Str.v ===== *)
(** * String and memory functions

    Models [system/libkern/string.c] over a byte-addressed memory.  A function
    that writes returns the new memory (the C result is its first argument);
    reading or writing an address without an object is [Fault], and so is undefined
    behaviour through the [__restrict__] pointers of the copying functions.  Loops bounded
    by a count recurse on it; loops that look for the terminating NUL carry
    fuel. *)

From S2P Require Import Prelude.

(** ** Memory *)

Notation mem := (gmap Z Z).

Definition rd (m : mem) (a : Z) : outcome Z := deref (m !! a).
Definition wr (m : mem) (a v : Z) : outcome mem := _ ← deref (m !! a); Done (<[a := v]> m).

(** ** Functions *)

Fixpoint strlen_from (fuel : nat) (m : mem) (str i : Z) : outcome Z :=
  match fuel with
  | O => OutOfFuel
  | S fuel => c ← rd m str; if truthy c then strlen_from fuel m (str + 1) (i + 1) else Done i
  end.
Definition strlen (fuel : nat) (m : mem) (str : Z) : outcome Z := strlen_from fuel m str 0.

(** The pointers [o] and [i] of the copying functions are [__restrict__]: a
    byte written through [o] and read through [i] is undefined behaviour.  In
    its step [k] (from 0) a loop that moves both pointers by one byte has
    accessed such a byte when the pointers are at most [k] apart. *)
Definition clash (k : nat) (o i : Z) : bool := Z.abs (o - i) <=? k.

(** [*o = *i] in step [k]. *)
Definition copy_byte (k : nat) (m : mem) (o i : Z) : outcome (Z * mem) :=
  if clash k o i then Fault else c ← rd m i; m ← wr m o c; Done (c, m).

Fixpoint strcpy_from (fuel k : nat) (m : mem) (o i : Z) : outcome mem :=
  match fuel with
  | O => OutOfFuel
  | S fuel =>
      '(c, m) ← copy_byte k m o i; if truthy c then strcpy_from fuel (S k) m (o + 1) (i + 1) else Done m
  end.
Definition strcpy (fuel : nat) (m : mem) (dest src : Z) : outcome mem := strcpy_from fuel 0 m dest src.

Fixpoint strncpy_from (n k : nat) (m : mem) (o i : Z) : outcome mem :=
  match n with
  | O => Done m
  | S n =>
      '(c, m) ← copy_byte k m o i; if truthy c then strncpy_from n (S k) m (o + 1) (i + 1) else Done m
  end.
Definition strncpy (n : nat) (m : mem) (dest src : Z) : outcome mem := strncpy_from n 0 m dest src.

(** [for(; *o; ++o);] *)
Fixpoint str_end (fuel : nat) (m : mem) (o : Z) : outcome Z :=
  match fuel with
  | O => OutOfFuel
  | S fuel => c ← rd m o; if truthy c then str_end fuel m (o + 1) else Done o
  end.

Definition strcat (fuel : nat) (m : mem) (dest src : Z) : outcome mem :=
  o ← str_end fuel m dest; strcpy fuel m o src.

(** [for(;n && *o; ++o,--n);] *)
Fixpoint strn_end (n : nat) (m : mem) (o : Z) : outcome (Z * nat) :=
  match n with
  | O => Done (o, O)
  | S n' => c ← rd m o; if truthy c then strn_end n' m (o + 1) else Done (o, n)
  end.

Definition strncat (m : mem) (dest src : Z) (n : nat) : outcome mem :=
  '(o, n) ← strn_end n m dest; strncpy n m o src.

Fixpoint strcmp (fuel : nat) (m : mem) (a b : Z) : outcome Z :=
  match fuel with
  | O => OutOfFuel
  | S fuel =>
      x ← rd m a; y ← rd m b;
      if (x =? y) && truthy x then strcmp fuel m (a + 1) (b + 1) else Done (x - y)
  end.

Fixpoint memset_loop (count : nat) (m : mem) (o c : Z) : outcome mem :=
  match count with
  | O => Done m
  | S count => m ← wr m o c; memset_loop count m (o + 1) c
  end.
Definition memset (m : mem) (dest ch : Z) (count : nat) : outcome mem :=
  memset_loop count m dest (u8 ch).

(** [for(;n; ++o,++i,--n) *o = *i;] *)
Fixpoint copy_up (n k : nat) (m : mem) (o i : Z) : outcome mem :=
  match n with
  | O => Done m
  | S n => '(_, m) ← copy_byte k m o i; copy_up n (S k) m (o + 1) (i + 1)
  end.
Definition memcpy (n : nat) (m : mem) (dest src : Z) : outcome mem := copy_up n 0 m dest src.

Fixpoint memcmp (n : nat) (m : mem) (a b : Z) : outcome Z :=
  match n with
  | O => Done 0
  | S n => x ← rd m a; y ← rd m b; if x =? y then memcmp n m (a + 1) (b + 1) else Done (x - y)
  end.

(** The backward loop of [memmove]. *)
Fixpoint copy_down (n k : nat) (m : mem) (o i : Z) : outcome mem :=
  match n with
  | O => Done m
  | S n => '(_, m) ← copy_byte k m o i; copy_down n (S k) m (o - 1) (i - 1)
  end.

Definition memmove (m : mem) (dest src : Z) (n : nat) : outcome mem :=
  if dest <? src then copy_up n 0 m dest src
  else copy_down n 0 m (dest + n - 1) (src + n - 1).

Fixpoint memchr_loop (n : nat) (m : mem) (i c : Z) : outcome (option Z) :=
  match n with
  | O => Done None
  | S n => x ← rd m i; if x =? c then Done (Some i) else memchr_loop n m (i + 1) c
  end.
Definition memchr (m : mem) (ptr ch : Z) (n : nat) : outcome (option Z) :=
  memchr_loop n m ptr (u8 ch).

(** ** Contents of memory *)

(** The bytes [l] stand at address [a]. *)
Definition bytes_at (m : mem) (a : Z) (l : list Z) : Prop :=
  forall i : nat, (i < length l)%nat -> m !! (a + i) = l !! i.

(** The NUL-terminated string [s] stands at address [a]. *)
Definition str_at (m : mem) (a : Z) (s : list Z) : Prop :=
  bytes_at m a (s ++ [0]) /\ Forall (fun c => 0 < c < 256) s.

(** Every address of the [n] bytes from [a] on is an object. *)
Definition mapped (m : mem) (a : Z) (n : nat) : Prop :=
  forall i : nat, (i < n)%nat -> is_Some (m !! (a + i)).

(** Only the [n] bytes from [a] on differ. *)
Definition writes_only (m m' : mem) (a : Z) (n : nat) : Prop :=
  forall x, ~ (a <= x < a + n) -> m' !! x = m !! x.

Lemma bytes_at_cons m a c l : bytes_at m a (c :: l) <-> m !! a = Some c /\ bytes_at m (a + 1) l.
Proof.
  unfold bytes_at. split.
  - intros H. split; [specialize (H 0%nat); rewrite Z.add_0_r in H; apply H; simpl; lia|].
    intros i Hi. specialize (H (S i)). replace (a + 1 + i) with (a + S i) by lia. apply H. simpl. lia.
  - intros [Ha Hl] [|i] Hi; [by rewrite Z.add_0_r|].
    replace (a + S i) with (a + 1 + i) by lia. apply Hl. simpl in Hi. lia.
Qed.

Lemma str_at_nil m a : str_at m a [] <-> m !! a = Some 0.
Proof.
  unfold str_at. simpl. rewrite bytes_at_cons. split; [tauto|]. intros ->. split; [|constructor].
  split; [done|]. intros i Hi. simpl in Hi. lia.
Qed.

Lemma str_at_cons m a c s :
  str_at m a (c :: s) <-> m !! a = Some c /\ 0 < c < 256 /\ str_at m (a + 1) s.
Proof. unfold str_at. simpl. rewrite bytes_at_cons, Forall_cons. tauto. Qed.

Lemma mapped_S m a n : mapped m a (S n) <-> is_Some (m !! a) /\ mapped m (a + 1) n.
Proof.
  unfold mapped. split.
  - intros H. split; [specialize (H 0%nat ltac:(lia)); by rewrite Z.add_0_r in H|].
    intros i Hi. specialize (H (S i) ltac:(lia)). by replace (a + 1 + i) with (a + S i) by lia.
  - intros [Ha Hl] [|i] Hi; [by rewrite Z.add_0_r|].
    replace (a + S i) with (a + 1 + i) by lia. apply Hl. lia.
Qed.

Lemma wr_ok m a v : is_Some (m !! a) -> wr m a v = Done (<[a := v]> m).
Proof. intros [x Hx]. unfold wr. by rewrite Hx. Qed.

Lemma mapped_insert m a n x v : mapped m a n -> mapped (<[x := v]> m) a n.
Proof.
  intros H i Hi. destruct (decide (x = a + i)) as [->|]; [by rewrite lookup_insert_eq|].
  rewrite lookup_insert_ne by done. by apply H.
Qed.

Lemma truthy_char c : 0 < c < 256 -> truthy c = true.
Proof. intros. apply truthy_true. lia. Qed.

(** ** Reading functions *)

Lemma strlen_from_ok (fuel : nat) m a s i :
  str_at m a s -> (length s < fuel)%nat -> strlen_from fuel m a i = Done (i + length s).
Proof.
  revert m a i fuel. induction s as [|c s IH]; intros m a i fuel Hs Hf;
    (destruct fuel as [|fuel]; [simpl in Hf; lia|]); simpl; unfold rd.
  - apply str_at_nil in Hs as ->. simpl. f_equal. lia.
  - apply str_at_cons in Hs as (->&Hc&Hs). simpl. rewrite truthy_char by done.
    rewrite (IH m) by (done || simpl in Hf; lia). f_equal. lia.
Qed.

Lemma str_end_ok (fuel : nat) m a s :
  str_at m a s -> (length s < fuel)%nat -> str_end fuel m a = Done (a + length s).
Proof.
  revert a fuel. induction s as [|c s IH]; intros a fuel Hs Hf;
    (destruct fuel as [|fuel]; [simpl in Hf; lia|]); simpl; unfold rd.
  - apply str_at_nil in Hs as ->. simpl. f_equal. lia.
  - apply str_at_cons in Hs as (->&Hc&Hs). simpl. rewrite truthy_char by done.
    rewrite IH by (done || simpl in Hf; lia). f_equal. lia.
Qed.

(** [strlen] returns the number of characters before the NUL. *)
Theorem strlen_correct (fuel : nat) m a s :
  str_at m a s -> (length s < fuel)%nat -> strlen fuel m a = Done (Z.of_nat (length s)).
Proof. intros Hs Hf. unfold strlen. by rewrite (strlen_from_ok _ _ _ s). Qed.

(** Lexicographic order on strings of unsigned characters. *)
Fixpoint lex (s t : list Z) : comparison :=
  match s, t with
  | [], [] => Eq
  | [], _ :: _ => Lt
  | _ :: _, [] => Gt
  | x :: s, y :: t => match x ?= y with Eq => lex s t | c => c end
  end.

(** The sign of [strcmp] is the lexicographic comparison of the two
    strings: negative, zero or positive as the first is less, equal or
    greater. *)
Theorem strcmp_correct (fuel : nat) m a b s t :
  str_at m a s -> str_at m b t -> (length s < fuel)%nat ->
  exists r, strcmp fuel m a b = Done r /\ (r ?= 0) = lex s t.
Proof.
  revert a b t fuel. induction s as [|x s IH]; intros a b [|y t] fuel Hs Ht Hf;
    (destruct fuel as [|fuel]; [simpl in Hf; lia|]); simpl; unfold rd.
  - apply str_at_nil in Hs as ->, Ht as ->. exists 0. done.
  - apply str_at_nil in Hs as ->. apply str_at_cons in Ht as (->&Hy&_). simpl.
    rewrite andb_false_r. exists (0 - y). split; [done|]. apply Z.compare_lt_iff. lia.
  - apply str_at_cons in Hs as (->&Hx&_). apply str_at_nil in Ht as ->. simpl.
    destruct (Z.eqb_spec x 0); [lia|]. exists (x - 0). split; [done|]. apply Z.compare_gt_iff. lia.
  - apply str_at_cons in Hs as (->&Hx&Hs), Ht as (->&Hy&Ht). simpl.
    rewrite truthy_char, andb_true_r by done. destruct (Z.eqb_spec x y) as [->|Hne].
    + rewrite Z.compare_refl. apply IH; [done|done|simpl in Hf; lia].
    + exists (x - y). split; [done|]. rewrite <-(Z.compare_sub x y).
      by destruct (Z.compare_spec x y).
Qed.

(** ** Writing functions *)

Lemma bytes_at_insert m a l x v :
  x < a \/ a + length l <= x -> bytes_at m a l -> bytes_at (<[x := v]> m) a l.
Proof. intros Hx Hl i Hi. rewrite lookup_insert_ne by lia. by apply Hl. Qed.

Lemma copy_byte_ok (k : nat) m o i c :
  k < Z.abs (o - i) -> m !! i = Some c -> is_Some (m !! o) -> copy_byte k m o i = Done (c, <[o := c]> m).
Proof.
  intros Hk Hi Ho. unfold copy_byte, clash. destruct (Z.leb_spec (Z.abs (o - i)) k); [lia|].
  unfold rd. rewrite Hi. cbn [deref mbind outcome_bind]. by rewrite wr_ok.
Qed.

(** The [n] bytes at [i] copied to [o]. *)
Definition copied (n : nat) (m m' : mem) (o i : Z) : Prop :=
  writes_only m m' o n /\ forall j : nat, (j < n)%nat -> m' !! (o + j) = m !! (i + j).

Lemma copied_unique n m m1 m2 o i : copied n m m1 o i -> copied n m m2 o i -> m1 = m2.
Proof.
  intros [Hw1 Hk1] [Hw2 Hk2]. apply map_eq. intros x. destruct (decide (o <= x < o + n)) as [Hx|Hx].
  - replace x with (o + Z.to_nat (x - o)) by lia. rewrite Hk1, Hk2 by lia. done.
  - by rewrite Hw1, Hw2.
Qed.

Lemma copy_up_ok (n k : nat) m o i :
  n + k <= Z.abs (o - i) -> mapped m o n -> mapped m i n ->
  exists m', copy_up n k m o i = Done m' /\ copied n m m' o i.
Proof.
  revert k m o i. induction n as [|n IH]; intros k m o i Hoi Ho Hi; cbn [copy_up].
  { exists m. split; [done|]. split; [done|lia]. }
  apply mapped_S in Ho as [Ho0 Ho], Hi as [[c Hc] Hi]. rewrite (copy_byte_ok _ _ _ _ c) by (done || lia).
  cbn [mbind outcome_bind].
  destruct (IH (S k) (<[o := c]> m) (o + 1) (i + 1)) as (m'&E&Hw&Hk);
    [lia|by apply mapped_insert|by apply mapped_insert|].
  exists m'. split; [done|]. split.
  - intros x Hx. rewrite Hw by lia. apply lookup_insert_ne. lia.
  - intros [|j] Hlt.
    + rewrite !Z.add_0_r, Hw, lookup_insert_eq by lia. done.
    + replace (o + S j) with (o + 1 + j) by lia. rewrite Hk by lia.
      replace (i + S j) with (i + 1 + j) by lia. apply lookup_insert_ne. lia.
Qed.

Lemma mapped_last m a (n : nat) : mapped m a (S n) -> is_Some (m !! (a + n)) /\ mapped m a n.
Proof. intros H. split; [apply H; lia|]. intros i Hi. apply H. lia. Qed.

Lemma copy_down_ok (n k : nat) m o i :
  n + k <= Z.abs (o - i) -> mapped m o n -> mapped m i n ->
  exists m', copy_down n k m (o + n - 1) (i + n - 1) = Done m' /\ copied n m m' o i.
Proof.
  revert k m. induction n as [|n IH]; intros k m Hoi Ho Hi; cbn [copy_down].
  { exists m. split; [done|]. split; [done|lia]. }
  apply mapped_last in Ho as [Ho0 Ho], Hi as [[c Hc] Hi].
  replace (i + S n - 1) with (i + n) by lia. replace (o + S n - 1) with (o + n) by lia.
  rewrite (copy_byte_ok _ _ _ _ c) by (done || lia). cbn [mbind outcome_bind].
  destruct (IH (S k) (<[o + n := c]> m)) as (m'&E&Hw&Hk); [lia|by apply mapped_insert|by apply mapped_insert|].
  exists m'. split; [exact E|]. split.
  - intros x Hx. rewrite Hw by lia. apply lookup_insert_ne. lia.
  - intros j Hlt. destruct (decide (j = n)) as [->|].
    + rewrite Hw, lookup_insert_eq by lia. done.
    + rewrite Hk by lia. apply lookup_insert_ne. lia.
Qed.

(** A step of a loop that reaches the distance of the pointers is undefined. *)
Lemma copy_loop_clash (n k : nat) m o i :
  k <= Z.abs (o - i) < n + k -> copy_up n k m o i = Fault /\ copy_down n k m o i = Fault.
Proof.
  assert (Hstep : forall k m o i, copy_byte k m o i = Fault \/ exists c, copy_byte k m o i = Done (c, <[o := c]> m)).
  { clear. intros k m o i. unfold copy_byte, rd, wr. case_match; [by left|].
    destruct (m !! i) as [c|]; [|by left]. destruct (m !! o); [|by left]. right. by exists c. }
  revert k m o i. induction n as [|n IH]; intros k m o i Hk; [lia|]. cbn [copy_up copy_down].
  destruct (decide (Z.abs (o - i) = k)) as [Heq|].
  { unfold copy_byte, clash. rewrite (proj2 (Z.leb_le _ _)) by lia. done. }
  destruct (Hstep k m o i) as [->|[c ->]]; [done|]. cbn [mbind outcome_bind].
  split; [apply (IH (S k) _ (o + 1) (i + 1))|apply (IH (S k) _ (o - 1) (i - 1))]; lia.
Qed.

(** C38: [memmove] does what [memcpy] does and no more: on areas that do not
    overlap both copy the [n] bytes the source had before the call and write
    nothing else; on areas that overlap both are undefined, as their pointers
    are [__restrict__], although [memmove] chooses the direction of its copy
    for that case. *)
Theorem memmove_correct m dest src (n : nat) :
  (mapped m dest n -> mapped m src n -> dest + n <= src \/ src + n <= dest ->
     exists m', memmove m dest src n = Done m' /\ memcpy n m dest src = Done m' /\ writes_only m m' dest n /\
       forall j : nat, (j < n)%nat -> m' !! (dest + j) = m !! (src + j)) /\
  (dest < src + n -> src < dest + n -> memmove m dest src n = Fault /\ memcpy n m dest src = Fault).
Proof.
  unfold memmove, memcpy. split.
  - intros Hd Hs Hdis. destruct (copy_up_ok n 0 m dest src) as (m1&E1&Hc1); [lia|done..|].
    destruct (copy_down_ok n 0 m dest src) as (m2&E2&Hc2); [lia|done..|].
    rewrite E1, E2, <-(copied_unique _ _ _ _ _ _ Hc1 Hc2). exists m1. destruct Hc1. by case_match.
  - intros H1 H2. destruct (copy_loop_clash n 0 m dest src) as [-> _]; [lia|].
    destruct (copy_loop_clash n 0 m (dest + n - 1) (src + n - 1)) as [_ ->]; [lia|]. by case_match.
Qed.

Lemma strcpy_from_ok (fuel k : nat) m o i s :
  str_at m i s -> mapped m o (S (length s)) -> k + length s < Z.abs (o - i) ->
  (length s < fuel)%nat ->
  exists m', strcpy_from fuel k m o i = Done m' /\ str_at m' o s /\ writes_only m m' o (S (length s)).
Proof.
  revert k m o i fuel. induction s as [|c s IH]; intros k m o i fuel Hs Ho Hd Hf;
    (destruct fuel as [|fuel]; [simpl in Hf; lia|]); cbn [strcpy_from length] in *;
    apply mapped_S in Ho as [Ho0 Ho].
  - apply str_at_nil in Hs. rewrite (copy_byte_ok _ _ _ _ 0) by (done || lia).
    eexists. split; [done|]. split; [by apply str_at_nil, lookup_insert_eq|].
    intros x Hx. apply lookup_insert_ne. lia.
  - apply str_at_cons in Hs as (Hi&Hc&Hs). rewrite (copy_byte_ok _ _ _ _ c) by (done || lia).
    cbn [mbind outcome_bind]. rewrite truthy_char by done.
    destruct (IH (S k) (<[o := c]> m) (o + 1) (i + 1) fuel) as (m'&E&Hm'&Hw);
      [|by apply mapped_insert|lia|lia|].
    { destruct Hs as [Hb Hf']. split; [|done]. apply bytes_at_insert; [|done].
      rewrite length_app. simpl. lia. }
    exists m'. split; [done|]. split.
    + apply str_at_cons. split; [|done]. rewrite Hw by lia. apply lookup_insert_eq.
    + intros x Hx. rewrite Hw by lia. apply lookup_insert_ne. lia.
Qed.

Lemma strcpy_ok (fuel : nat) m o i s :
  str_at m i s -> mapped m o (S (length s)) -> o + length s < i \/ i + length s < o ->
  (length s < fuel)%nat ->
  exists m', strcpy fuel m o i = Done m' /\ str_at m' o s /\ writes_only m m' o (S (length s)).
Proof. intros. apply strcpy_from_ok; [done|done|lia|done]. Qed.

(** [strcat] appends: for two strings and a destination with room for
    both, outside the source, the destination holds the concatenation and
    nothing else is written. *)
Theorem strcat_correct (fuel : nat) m dest src s t :
  str_at m dest s -> str_at m src t -> mapped m dest (S (length s + length t)) ->
  dest + length s + length t < src \/ src + length t < dest ->
  (length s + length t < fuel)%nat ->
  exists m', strcat fuel m dest src = Done m' /\ str_at m' dest (s ++ t) /\
    writes_only m m' dest (S (length s + length t)).
Proof.
  intros Hs Ht Hm Hd Hf. unfold strcat. rewrite (str_end_ok _ _ _ s) by (done || lia).
  cbn [mbind outcome_bind].
  destruct (strcpy_ok fuel m (dest + length s) src t) as (m'&E&Hm'&Hw); [done| |lia|lia|].
  { intros i Hi. rewrite <-Z.add_assoc, <-Nat2Z.inj_add. apply Hm. lia. }
  exists m'. split; [done|]. split; [|intros x Hx; apply Hw; lia].
  destruct Hs as [Hsb Hsc], Hm' as [Htb Htc]. split; [|by apply Forall_app].
  intros i Hi. rewrite <-app_assoc in Hi |- *. rewrite length_app in Hi.
  destruct (Nat.lt_ge_cases i (length s)).
  - rewrite Hw, Hsb by (rewrite ?length_app; lia). by rewrite !lookup_app_l.
  - rewrite lookup_app_r by done. replace (dest + i) with (dest + length s + (i - length s)%nat) by lia.
    apply Htb. lia.
Qed.

(** ** Remaining functions *)

Lemma memset_loop_ok m a n c :
  mapped m a n -> exists m', memset_loop n m a c = Done m' /\ writes_only m m' a n /\
    forall k : nat, (k < n)%nat -> m' !! (a + k) = Some c.
Proof.
  revert m a. induction n as [|n IH]; intros m a Ha; simpl.
  { exists m. split_and!; [done..|lia]. }
  apply mapped_S in Ha as [Ha0 Ha]. rewrite wr_ok by done. simpl.
  destruct (IH (<[a := c]> m) (a + 1)) as (m'&E&Hw&Hk); [by apply mapped_insert|].
  exists m'. split; [done|]. split.
  - intros x Hx. rewrite Hw by lia. apply lookup_insert_ne. lia.
  - intros [|k] Hlt; [rewrite Z.add_0_r, Hw, lookup_insert_eq by lia; done|].
    replace (a + S k) with (a + 1 + k) by lia. apply Hk. lia.
Qed.

(** [memset] fills the region and nothing else. *)
Lemma memset_ok m a n ch :
  mapped m a n -> exists m', memset m a ch n = Done m' /\ writes_only m m' a n /\
    forall k : nat, (k < n)%nat -> m' !! (a + k) = Some (u8 ch).
Proof. apply memset_loop_ok. Qed.

(** [memchr] finds the first occurrence of a byte. *)
Lemma memchr_loop_ok m a l c :
  bytes_at m a l ->
  memchr_loop (length l) m a c =
  Done ((fun k : nat => a + k) <$> find_index (fun x => x =? c) l).
Proof.
  revert a. induction l as [|x l IH]; intros a Hl; simpl; [done|].
  apply bytes_at_cons in Hl as [Ha Hl]. unfold rd. rewrite Ha. simpl.
  destruct (x =? c); simpl; [by rewrite Z.add_0_r|].
  rewrite IH by done. f_equal. rewrite <-option_fmap_compose. apply option_fmap_ext.
  intros k. simpl. lia.
Qed.

(** [memcmp] is zero exactly on equal regions. *)
Lemma memcmp_ok m a b l1 l2 :
  length l1 = length l2 -> bytes_at m a l1 -> bytes_at m b l2 ->
  exists r, memcmp (length l1) m a b = Done r /\ (r = 0 <-> l1 = l2).
Proof.
  revert a b l2. induction l1 as [|x l1 IH]; intros a b [|y l2] Hlen H1 H2; try done; simpl.
  { by exists 0. }
  apply bytes_at_cons in H1 as [Ha H1], H2 as [Hb H2]. unfold rd. rewrite Ha, Hb. simpl.
  destruct (Z.eqb_spec x y) as [->|].
  - destruct (IH (a + 1) (b + 1) l2) as (r&E&Hr); [by injection Hlen|done|done|].
    exists r. split; [done|]. rewrite Hr. naive_solver.
  - exists (x - y). split; [done|]. split; [lia|]. intros [= ??]. done.
Qed.

(** ** Concrete memory *)

Module StrExample.
(** A buffer of eight bytes at 100 that holds the string ab, and the string
    abc at 200. *)
Definition m0 : mem := list_to_map
  [(100, 97); (101, 98); (102, 0); (103, 7); (104, 7); (105, 7); (106, 7); (107, 7);
   (200, 97); (201, 98); (202, 99); (203, 0)].

Lemma ab_at : str_at m0 100 [97; 98].
Proof. repeat (apply str_at_cons; split; [reflexivity|split; [lia|]]). apply str_at_nil. reflexivity. Defined.

Lemma abc_at : str_at m0 200 [97; 98; 99].
Proof. repeat (apply str_at_cons; split; [reflexivity|split; [lia|]]). apply str_at_nil. reflexivity. Defined.

Lemma room : mapped m0 100 8.
Proof. repeat (apply mapped_S; split; [eexists; reflexivity|]). intros i Hi. lia. Defined.

Lemma strlen_correct_witness : strlen 4 m0 200 = Done 3.
Proof. apply (strlen_correct 4 m0 200 [97; 98; 99] abc_at). simpl. lia. Defined.

Lemma strcmp_correct_witness : exists r, strcmp 3 m0 100 200 = Done r /\ (r ?= 0) = Lt.
Proof. apply (strcmp_correct 3 m0 100 200 [97; 98] [97; 98; 99] ab_at abc_at). simpl. lia. Defined.

(** Areas apart in both directions, and overlapping ones. *)
Lemma memmove_correct_witness :
  (exists m', memmove m0 103 100 3 = Done m' /\ m' !! 103 = Some 97) /\
  (exists m', memmove m0 100 200 3 = Done m' /\ m' !! 102 = Some 99) /\
  memmove m0 101 100 3 = Fault.
Proof.
  assert (M : forall a, a = 100 \/ a = 103 \/ a = 200 -> mapped m0 a 3).
  { intros a Ha i Hi. destruct Ha as [-> | [-> | ->]]; destruct i as [|[|[|i]]]; try lia;
      eexists; reflexivity. }
  split; [|split].
  - destruct (memmove_correct m0 103 100 3) as [Hcp _].
    destruct (Hcp (M 103 ltac:(lia)) (M 100 ltac:(lia)) ltac:(lia)) as (m'&E&_&_&Hk).
    exists m'. split; [exact E|]. exact (Hk 0%nat ltac:(lia)).
  - destruct (memmove_correct m0 100 200 3) as [Hcp _].
    destruct (Hcp (M 100 ltac:(lia)) (M 200 ltac:(lia)) ltac:(lia)) as (m'&E&_&_&Hk).
    exists m'. split; [exact E|]. exact (Hk 2%nat ltac:(lia)).
  - destruct (memmove_correct m0 101 100 3) as [_ Hov]. apply Hov; lia.
Defined.

Lemma strcat_correct_witness : exists m',
  strcat 6 m0 100 200 = Done m' /\ str_at m' 100 [97; 98; 97; 98; 99].
Proof.
  destruct (strcat_correct 6 m0 100 200 [97; 98] [97; 98; 99] ab_at abc_at) as (m'&E&Hs&_);
    [intros i Hi; apply room; simpl in Hi; lia|simpl; lia|simpl; lia|].
  exists m'. split; [exact E|exact Hs].
Defined.
End StrExample.
