(* ===== verification/IoPipe.v ===== *)
(** * I/O pipes

    Models [sys/iopipe.h], [sys/kbuio.h], [sys/uio.h] and
    [system/iopipe/iopipe_ops.c].  An [iopipe] is an object with two methods;
    here it is a class over the state of the object.  [IoPipeLaws] is what a
    writer may rely on: one kernel buffer is written completely, and what the
    pipe shows afterwards is determined by the bytes written.  The printing
    functions are proved against it, the terminal discharges it. *)

From S2P Require Import Prelude.

Inductive kbu_rw := KBU_READ | KBU_WRITE.
Inductive kbu_origin := KBU_AS_USR | KBU_AS_SYS.

(** [struct iovec]: the bytes of a memory region, with its length. *)
Record iovec := Iovec { iov_base : list Z; iov_len : Z }.

Record kern_uio := Kern_uio {
  kbu_iovec : list iovec;
  kbu_iovec_n : Z;
  kbu_totalsize : Z;
  kbu_op : kbu_rw;
  kbu_space : kbu_origin;
}.

(** [struct iopipe_ops]; a read gives back the buffers it filled. *)
Class IoPipe (P : Type) := {
  io_read : kern_uio -> P -> outcome (Z * kern_uio * P);
  io_write : kern_uio -> P -> outcome (Z * P);
}.

Section ops.
Context `{IoPipe P}.

Definition iopipe_read (buf : list Z) (size : Z) (p : P) : outcome (Z * kern_uio * P) :=
  io_read (Kern_uio [Iovec buf size] 1 size KBU_READ KBU_AS_SYS) p.

Definition iopipe_write (buf : list Z) (size : Z) (p : P) : outcome (Z * P) :=
  io_write (Kern_uio [Iovec buf size] 1 size KBU_WRITE KBU_AS_SYS) p.

Definition iopipe_read_v (kbu : kern_uio) (p : P) : outcome (Z * kern_uio * P) := io_read kbu p.

Definition iopipe_write_v (kbu : kern_uio) (p : P) : outcome (Z * P) := io_write kbu p.
End ops.

(** The contract of a pipe for kernel writers: [io_view] is what the pipe
    shows, [io_feed] how one byte changes it. *)
Class IoPipeLaws (P V : Type) `{IoPipe P} := {
  io_ok : P -> Prop;
  io_view : P -> V;
  io_feed : V -> Z -> V;
  io_write_law p buf :
    io_ok p -> Forall (fun c => 0 <= c < 256) buf -> length buf < 2 ^ 31 ->
    exists p', iopipe_write buf (length buf) p = Done (Z.of_nat (length buf), p') /\
      io_ok p' /\ io_view p' = fold_left io_feed buf (io_view p);
}.
