(* ===== verification/Printf.v ===== *)
(** * Formatted output

    Models [system/libkern/printf.c] and [printinfo.c]: the number to text
    functions with their 100 byte buffer, and the two format interpreters over
    an abstract pipe.

    A pointer into a format string is the rest of the string from there on:
    [Some l] points to [l] followed by the NUL (so [Some []] points to the
    NUL), [None] is any pointer behind the NUL, which may not be read. *)

From S2P Require Import Prelude IoPipe.

(** ** Numbers to text *)

Definition hexlow : list Z :=
  [48; 49; 50; 51; 52; 53; 54; 55; 56; 57; 97; 98; 99; 100; 101; 102].
Definition hexhig : list Z :=
  [48; 49; 50; 51; 52; 53; 54; 55; 56; 57; 65; 66; 67; 68; 69; 70].

(** [*buffer = c] in [char numbuf[100]]. *)
Definition put (pos c : Z) (buf : list Z) : outcome (list Z) :=
  if (pos <? 0) || (100 <=? pos) then Fault else Done (<[Z.to_nat pos := c]> buf).

(** [do{ *--buffer = digit(i); i = next(i); }while(i);] *)
Fixpoint digit_loop (fuel : nat) (digit : Z -> outcome Z) (next : Z -> Z) (i pos : Z) (buf : list Z)
  : outcome (Z * list Z) :=
  match fuel with
  | O => OutOfFuel
  | S fuel =>
      c ← digit i;
      buf ← put (pos - 1) c buf;
      let i := next i in
      if truthy i then digit_loop fuel digit next i (pos - 1) buf else Done (pos - 1, buf)
  end.

Definition unsigned_to_a (digit : Z -> outcome Z) (next : Z -> Z) (i : Z) (buf : list Z)
  : outcome (Z * list Z) :=
  buf ← put 98 0 buf; digit_loop 64 digit next i 98 buf.

Definition dec_digit (i : Z) : outcome Z := Done (u8 (48 + Z.rem i 10)).
Definition dec_next (i : Z) : Z := Z.quot i 10.
Definition low_digit (i : Z) : outcome Z := deref (hexlow !! Z.to_nat (Z.land i 0xf)).
Definition high_digit (i : Z) : outcome Z := deref (hexhig !! Z.to_nat (Z.land i 0xf)).
Definition hex_next (i : Z) : Z := Z.shiftr i 4.
Definition oct_digit (i : Z) : outcome Z := Done (u8 (48 + Z.land i 7)).
Definition oct_next (i : Z) : Z := Z.shiftr i 3.

(** The signed functions, for an integer type of [w] bits: [i = -i] wraps. *)
Definition signed_to_a (w : Z) (i : Z) (buf : list Z) : outcome (Z * list Z) :=
  buf ← put 98 0 buf;
  let '(i, pre) := if i <? 0 then (swrap w (- i), 45) else (i, 0) in
  '(pos, buf) ← digit_loop 64 dec_digit dec_next i 98 buf;
  if truthy pre then buf ← put (pos - 1) pre buf; Done (pos - 1, buf) else Done (pos, buf).

Definition i2a (i : Z) := signed_to_a 32 i.
Definition u2a (i : Z) := unsigned_to_a dec_digit dec_next i.
Definition x2a (i : Z) := unsigned_to_a low_digit hex_next i.
Definition X2a (i : Z) := unsigned_to_a high_digit hex_next i.
Definition o2a (i : Z) := unsigned_to_a oct_digit oct_next i.
Definition p2a (ptr : Z) (buf : list Z) : outcome (Z * list Z) :=
  buf ← put 98 0 buf;
  '(pos, buf) ← digit_loop 64 low_digit hex_next ptr 98 buf;
  buf ← put (pos - 1) 120 buf;
  buf ← put (pos - 2) 48 buf;
  Done (pos - 2, buf).

(** [long int] is 32 bits wide. *)
Definition li2a (i : Z) := signed_to_a 32 i.
Definition lu2a (i : Z) := unsigned_to_a dec_digit dec_next i.
Definition lx2a (i : Z) := unsigned_to_a low_digit hex_next i.
Definition lX2a (i : Z) := unsigned_to_a high_digit hex_next i.
Definition lo2a (i : Z) := unsigned_to_a oct_digit oct_next i.

Definition lli2a (i : Z) := signed_to_a 64 i.
Definition llu2a (i : Z) := unsigned_to_a dec_digit dec_next i.
Definition llx2a (i : Z) := unsigned_to_a low_digit hex_next i.
Definition llX2a (i : Z) := unsigned_to_a high_digit hex_next i.
Definition llo2a (i : Z) := unsigned_to_a oct_digit oct_next i.

Definition zi2a (i : Z) := signed_to_a 32 i.
Definition zu2a (i : Z) := unsigned_to_a dec_digit dec_next i.
Definition zx2a (i : Z) := unsigned_to_a low_digit hex_next i.
Definition zX2a (i : Z) := unsigned_to_a high_digit hex_next i.
Definition zo2a (i : Z) := unsigned_to_a oct_digit oct_next i.

Definition ti2a (i : Z) := signed_to_a 32 i.
Definition tu2a (i : Z) := unsigned_to_a dec_digit dec_next i.
Definition tx2a (i : Z) := unsigned_to_a low_digit hex_next i.
Definition tX2a (i : Z) := unsigned_to_a high_digit hex_next i.
Definition to2a (i : Z) := unsigned_to_a oct_digit oct_next i.

(** The NUL-terminated string in the buffer from [pos] on. *)
Fixpoint cstring (l : list Z) : outcome (list Z) :=
  match l with
  | [] => Fault
  | c :: l => if c =? 0 then Done [] else s ← cstring l; Done (c :: s)
  end.

Definition text_at (buf : list Z) (pos : Z) : outcome (list Z) := cstring (drop (Z.to_nat pos) buf).

(** ** Variable arguments *)

(** An argument as the caller pushed it: a 32-bit word, a 64-bit word or a
    string pointer.  [va_arg] with a type of another size is undefined. *)
Inductive arg :=
| AWord (z : Z)
| ALong (z : Z)
| AStr (s : option (list Z)).

Definition va_word (ap : list arg) : outcome (Z * list arg) :=
  match ap with AWord z :: ap => Done (z, ap) | _ => Fault end.
Definition va_long (ap : list arg) : outcome (Z * list arg) :=
  match ap with ALong z :: ap => Done (z, ap) | _ => Fault end.
Definition va_str (ap : list arg) : outcome (option (list Z) * list arg) :=
  match ap with AStr s :: ap => Done (s, ap) | _ => Fault end.

(** ** Pointers into the format string *)

Notation cptr := (option (list Z)).

(** [*fmt], [fmt[1]], [fmt++]. *)
Definition at0 (p : cptr) : outcome Z :=
  match p with Some (c :: _) => Done c | Some [] => Done 0 | None => Fault end.
Definition step (p : cptr) : cptr :=
  match p with Some (_ :: l) => Some l | _ => None end.
Definition at1 (p : cptr) : outcome Z := at0 (step p).

(** The characters between [last] and [fmt]. *)
Definition between (last fmt : cptr) : list Z :=
  match last, fmt with
  | Some l, Some f => take (length l - length f) l
  | Some l, None => l ++ [0]
  | None, _ => []
  end.

Section printf.
Context `{IoPipe P}.

(** [if(fmt>last)iopipe_write(iopipe,last,fmt-last);] and
    [iopipe_write(iopipe,nb,siz=strlen(nb));] *)
Definition emit_pending (last fmt : cptr) (p : P) : outcome P :=
  let b := between last fmt in
  if (0 <? length b) then snd <$> iopipe_write b (length b) p else Done p.

Definition emit (b : list Z) (p : P) : outcome P := snd <$> iopipe_write b (length b) p.

(** A conversion of one integer argument, by the last letter. *)
Definition int_conv (c : Z) (i u x X o : Z -> list Z -> outcome (Z * list Z))
    : option (Z -> list Z -> outcome (Z * list Z)) :=
  if (c =? 100) || (c =? 105) then Some i     (* d i *)
  else if c =? 117 then Some u                (* u *)
  else if c =? 120 then Some x                (* x *)
  else if c =? 88 then Some X                 (* X *)
  else if c =? 111 then Some o                (* o *)
  else None.

(** [nb = conv(va_arg(ap,...),numbuf); iopipe_write(...); count += siz;] *)
Definition print_int (conv : option (Z -> list Z -> outcome (Z * list Z))) (count v : Z)
    (buf : list Z) (p : P) : outcome (Z * list Z * P) :=
  match conv with
  | None => Done (count, buf, p)
  | Some f =>
      '(pos, buf) ← f v buf;
      nb ← text_at buf pos;
      p ← emit nb p;
      Done (i32 (count + length nb), buf, p)
  end.

Definition print_word (conv : option (Z -> list Z -> outcome (Z * list Z))) (signed : bool)
    (count : Z) (ap : list arg) (buf : list Z) (p : P) : outcome (Z * list arg * list Z * P) :=
  match conv with
  | None => Done (count, ap, buf, p)
  | Some _ =>
      '(v, ap) ← va_word ap;
      '(count, buf, p) ← print_int conv count (if signed then i32 v else v) buf p;
      Done (count, ap, buf, p)
  end.

Definition print_long (conv : option (Z -> list Z -> outcome (Z * list Z))) (signed : bool)
    (count : Z) (ap : list arg) (buf : list Z) (p : P) : outcome (Z * list arg * list Z * P) :=
  match conv with
  | None => Done (count, ap, buf, p)
  | Some _ =>
      '(v, ap) ← va_long ap;
      '(count, buf, p) ← print_int conv count (if signed then swrap 64 v else v) buf p;
      Done (count, ap, buf, p)
  end.

Definition is_di (c : Z) : bool := (c =? 100) || (c =? 105).

(** The outer switch on [fmt[0]]: the pointer it leaves, the new count, the
    remaining arguments, the buffer and the pipe. *)
Definition conversion (fmt : cptr) (count : Z) (ap : list arg) (buf : list Z) (p : P)
    : outcome (cptr * Z * list arg * list Z * P) :=
  c ← at0 fmt;
  if c =? 122 (* z *) then
    let fmt := step fmt in
    c ← at0 fmt;
    '(count, ap, buf, p) ← print_word (int_conv c zi2a zu2a zx2a zX2a zo2a) (is_di c) count ap buf p;
    Done (fmt, count, ap, buf, p)
  else if c =? 116 (* t *) then
    let fmt := step fmt in
    c ← at0 fmt;
    '(count, ap, buf, p) ← print_word (int_conv c ti2a tu2a tx2a tX2a to2a) (is_di c) count ap buf p;
    Done (fmt, count, ap, buf, p)
  else if c =? 108 (* l *) then
    let fmt := step fmt in
    c ← at0 fmt;
    if c =? 108 (* l *) then
      let fmt := step fmt in
      c ← at0 fmt;
      '(count, ap, buf, p) ← print_long (int_conv c lli2a llu2a llx2a llX2a llo2a) (is_di c) count ap buf p;
      Done (fmt, count, ap, buf, p)
    else
      '(count, ap, buf, p) ← print_word (int_conv c li2a lu2a lx2a lX2a lo2a) (is_di c) count ap buf p;
      Done (fmt, count, ap, buf, p)
  else if c =? 112 (* p *) then
    '(count, ap, buf, p) ← print_word (Some p2a) false count ap buf p;
    Done (fmt, count, ap, buf, p)
  else if c =? 99 (* c *) then
    '(v, ap) ← va_word ap;
    buf ← put 0 (u8 v) buf;
    p ← emit (take 1 buf) p;
    Done (fmt, i32 (count + 1), ap, buf, p)
  else if c =? 115 (* s *) then
    '(s, ap) ← va_str ap;
    let nb := match s with Some s => s | None => [40; 110; 117; 108; 108; 41] end in
    p ← emit nb p;
    Done (fmt, i32 (count + length nb), ap, buf, p)
  else
    '(count, ap, buf, p) ← print_word (int_conv c i2a u2a x2a X2a o2a) (is_di c) count ap buf p;
    Done (fmt, count, ap, buf, p).

Fixpoint vioprintf_loop (fuel : nat) (fmt last : cptr) (count : Z) (ap : list arg) (buf : list Z)
    (p : P) : outcome (Z * P) :=
  match fuel with
  | O => OutOfFuel
  | S fuel =>
      c ← at0 fmt;
      if c =? 0 then
        let count := i32 (count + length (between last fmt)) in
        p ← emit_pending last fmt p;
        Done (count, p)
      else if negb (c =? 37) then vioprintf_loop fuel (step fmt) last count ap buf p
      else
        c1 ← at1 fmt;
        '(fmt, count, p) ←
          (if c1 =? 37 then
             let fmt := step fmt in
             let count := i32 (count + length (between last fmt)) in
             p ← emit_pending last fmt p;
             Done (fmt, count, p)
           else
             let count := i32 (count + length (between last fmt)) in
             p ← emit_pending last fmt p;
             Done (step fmt, count, p));
        '(fmt, count, ap, buf, p) ← conversion fmt count ap buf p;
        let fmt := step fmt in
        vioprintf_loop fuel fmt fmt count ap buf p
  end.

(** [buf] is the uninitialised [char numbuf[100]]. *)
Definition iopipe_vioprintf (fuel : nat) (buf : list Z) (fmt : list Z) (ap : list arg) (p : P)
    : outcome (Z * P) :=
  vioprintf_loop fuel (Some fmt) (Some fmt) 0 ap buf p.

(** [iopipe_printf] and [printf] collect their arguments into a [va_list]. *)
Definition iopipe_printf (fuel : nat) (buf fmt : list Z) (args : list arg) (p : P) : outcome (Z * P) :=
  iopipe_vioprintf fuel buf fmt args p.
End printf.

(** ** printinfo.c *)

(** [for(i=0;i<n;++i){ *--buffer = hex[paddr&0xF]; paddr>>=4; }] *)
Fixpoint render_loop (n : nat) (hex : list Z) (paddr pos : Z) (buf : list Z) : outcome (Z * list Z) :=
  match n with
  | O => Done (pos, buf)
  | S n =>
      c ← deref (hex !! Z.to_nat (Z.land paddr 0xF));
      buf ← put (pos - 1) c buf;
      render_loop n hex (Z.shiftr paddr 4) (pos - 1) buf
  end.

(** [2*sizeof(paddr)] is 8 for both address types. *)
Definition render_phys_low (paddr : Z) (buf : list Z) : outcome (Z * list Z) :=
  buf ← put 98 0 buf; render_loop 8 hexlow paddr 98 buf.
Definition render_phys_high (paddr : Z) (buf : list Z) : outcome (Z * list Z) :=
  buf ← put 98 0 buf; render_loop 8 hexhig paddr 98 buf.
Definition render_virt_low (paddr : Z) (buf : list Z) : outcome (Z * list Z) :=
  buf ← put 98 0 buf; render_loop 8 hexlow paddr 98 buf.
Definition render_virt_high (paddr : Z) (buf : list Z) : outcome (Z * list Z) :=
  buf ← put 98 0 buf; render_loop 8 hexhig paddr 98 buf.
Definition info_u2a (i : Z) := unsigned_to_a dec_digit dec_next i.

Section printinfo.
Context `{IoPipe P}.

Definition info_conv (c : Z) : option (Z -> list Z -> outcome (Z * list Z)) :=
  if c =? 104 then Some render_phys_low       (* h *)
  else if c =? 72 then Some render_phys_high  (* H *)
  else if c =? 112 then Some render_virt_low  (* p *)
  else if c =? 80 then Some render_virt_high  (* P *)
  else if (c =? 117) || (c =? 105) || (c =? 100) then Some info_u2a (* u i d *)
  else None.

Fixpoint vprintinfo_loop (fuel : nat) (fmt last : cptr) (ap : list arg) (buf : list Z) (p : P)
    : outcome P :=
  match fuel with
  | O => OutOfFuel
  | S fuel =>
      c ← at0 fmt;
      if c =? 0 then emit_pending last fmt p
      else if negb (c =? 126) then vprintinfo_loop fuel (step fmt) last ap buf p
      else
        p ← emit_pending last fmt p;
        let fmt := step fmt in
        c ← at0 fmt;
        '(ap, buf, p) ←
          match info_conv c with
          | None => Done (ap, buf, p)
          | Some f =>
              '(v, ap) ← va_word ap;
              '(pos, buf) ← f v buf;
              nb ← text_at buf pos;
              p ← emit nb p;
              Done (ap, buf, p)
          end;
        let fmt := step fmt in
        vprintinfo_loop fuel fmt fmt ap buf p
  end.

Definition iopipe_vprintinfo (fuel : nat) (buf fmt : list Z) (ap : list arg) (p : P) : outcome P :=
  vprintinfo_loop fuel (Some fmt) (Some fmt) ap buf p.

Definition iopipe_printinfo (fuel : nat) (buf fmt : list Z) (args : list arg) (p : P) : outcome P :=
  iopipe_vprintinfo fuel buf fmt args p.
End printinfo.
