(* ===== verification/PrintfProps.v ===== *)
(** * Correctness of formatted output

    The digit loops against positional numerals, and the two format
    interpreters against the relation [renders] between a format, its
    arguments and the text they stand for, over any pipe that satisfies
    [IoPipeLaws]. *)

From S2P Require Import Prelude IoPipe Printf.

(** ** Positional numerals *)

(** The digits of [i] to base [b], most significant first. *)
Fixpoint digits (fuel : nat) (b i : Z) : list Z :=
  match fuel with
  | O => []
  | S fuel => if i / b =? 0 then [i mod b] else digits fuel b (i / b) ++ [i mod b]
  end.

(** The number a list of digits stands for. *)
Definition value (b : Z) (ds : list Z) : Z := fold_left (fun acc d => acc * b + d) ds 0.

Lemma value_snoc b ds d : value b (ds ++ [d]) = value b ds * b + d.
Proof. unfold value. by rewrite fold_left_app. Qed.

Lemma digits_value (fuel : nat) b i : 2 <= b -> 0 <= i < b ^ fuel -> value b (digits fuel b i) = i.
Proof.
  intros Hb. revert i. induction fuel as [|fuel IH]; intros i Hi.
  - change (Z.of_nat 0) with 0 in Hi. simpl in *. unfold value. simpl. lia.
  - cbn [digits]. pose proof (Z.div_mod i b ltac:(lia)) as Hdm.
    destruct (Z.eqb_spec (i / b) 0) as [Hz|Hz].
    + unfold value. simpl. rewrite Hz in Hdm. lia.
    + rewrite value_snoc, IH; [lia|]. split; [apply Z.div_pos; lia|].
      apply Z.div_lt_upper_bound; [lia|]. rewrite Nat2Z.inj_succ, Z.pow_succ_r in Hi; lia.
Qed.

(** No leading zeros. *)
Lemma digits_head (fuel : nat) b i d ds :
  2 <= b -> 0 <= i < b ^ fuel -> digits fuel b i = d :: ds -> i <> 0 -> d <> 0.
Proof.
  intros Hb. revert i d ds. induction fuel as [|fuel IH]; intros i d ds Hi; [done|]. cbn [digits].
  pose proof (Z.div_mod i b ltac:(lia)) as Hdm.
  destruct (Z.eqb_spec (i / b) 0) as [Hz|Hz]; [intros [= <- <-]; rewrite Hz in Hdm; lia|].
  destruct (digits fuel b (i / b)) as [|d' ds'] eqn:E.
  - destruct fuel; simpl in E; [|case_match; simplify_eq; by destruct (digits _ _ _)].
    change (Z.of_nat 1) with 1 in Hi. rewrite Z.pow_1_r in Hi.
    rewrite Z.div_small in Hz by done. done.
  - simpl. intros [= -> <-] _. apply (IH (i / b) d ds'); [|done|done].
    split; [apply Z.div_pos; lia|]. apply Z.div_lt_upper_bound; [lia|].
    rewrite Nat2Z.inj_succ, Z.pow_succ_r in Hi; lia.
Qed.

Lemma digits_range fuel b i d : 2 <= b -> d ∈ digits fuel b i -> 0 <= d < b.
Proof.
  intros Hb. revert i. induction fuel as [|fuel IH]; intros i; simpl; [set_solver|].
  pose proof (Z.mod_pos_bound i b ltac:(lia)). case_match.
  - intros ->%list_elem_of_singleton. done.
  - intros [Hd|Hd%list_elem_of_singleton]%elem_of_app; [by eapply IH|by subst].
Qed.

Lemma digits_length fuel b i (n : nat) :
  2 <= b -> 0 <= i < b ^ n -> (1 <= n)%nat -> (length (digits fuel b i) <= n)%nat.
Proof.
  intros Hb. revert i n. induction fuel as [|fuel IH]; intros i n Hi Hn; simpl; [lia|].
  case_match eqn:E; simpl; [lia|]. apply Z.eqb_neq in E. rewrite length_app. simpl.
  destruct n as [|n]; [lia|]. rewrite Nat2Z.inj_succ, Z.pow_succ_r in Hi by lia.
  assert (0 <= i / b < b ^ n) as Hq.
  { split; [apply Z.div_pos; lia|]. apply Z.div_lt_upper_bound; lia. }
  destruct n as [|n]; [change (Z.of_nat 0) with 0 in Hq; simpl in Hq; lia|].
  specialize (IH (i / b) (S n) Hq ltac:(lia)). lia.
Qed.

(** ** The digit loops *)

Lemma put_ok pos c buf :
  0 <= pos < 100 -> put pos c buf = Done (<[Z.to_nat pos := c]> buf).
Proof.
  intros Hp. unfold put. destruct (Z.ltb_spec pos 0), (Z.leb_spec 100 pos); simpl; (done || lia).
Qed.

Lemma drop_put pos c (buf : list Z) :
  length buf = 100%nat -> 0 <= pos < 100 ->
  drop (Z.to_nat pos) (<[Z.to_nat pos := c]> buf) = c :: drop (Z.to_nat (pos + 1)) buf.
Proof.
  intros Hl Hp. rewrite (drop_S _ c (Z.to_nat pos)) by (apply list_lookup_insert_eq; lia). f_equal.
  rewrite drop_insert_lt by lia. f_equal. lia.
Qed.

Section digit_loop.
Context (b : Z) (digit : Z -> outcome Z) (next : Z -> Z) (chr : Z -> Z).
Hypothesis Hb : 2 <= b.
Hypothesis Hdigit : forall i, 0 <= i -> digit i = Done (chr (i mod b)).
Hypothesis Hnext : forall i, 0 <= i -> next i = i / b.

Lemma digit_loop_ok (fuel : nat) i pos buf :
  0 <= i < b ^ fuel -> (1 <= fuel)%nat -> length buf = 100%nat ->
  length (digits fuel b i) <= pos <= 98 ->
  exists buf', digit_loop fuel digit next i pos buf = Done (pos - length (digits fuel b i), buf') /\
    length buf' = 100%nat /\
    drop (Z.to_nat (pos - length (digits fuel b i))) buf' =
      (chr <$> digits fuel b i) ++ drop (Z.to_nat pos) buf.
Proof using Hb Hdigit Hnext.
  revert i pos buf. induction fuel as [|fuel IH]; intros i pos buf Hi Hf Hlen Hpos; [lia|].
  cbn [digit_loop digits] in *. rewrite Hdigit by lia. cbn [mbind outcome_bind].
  rewrite Hnext by lia.
  assert (Hd : 0 <= i / b) by (apply Z.div_pos; lia).
  destruct (Z.eqb_spec (i / b) 0) as [Hz|Hz].
  - simpl in Hpos. rewrite put_ok by lia. cbn [mbind outcome_bind].
    rewrite Hz. simpl. eexists. split; [done|]. split; [by rewrite length_insert|].
    rewrite drop_put by (done || lia). do 2 f_equal. lia.
  - rewrite length_app in Hpos. simpl in Hpos. rewrite put_ok by lia. cbn [mbind outcome_bind].
    rewrite (proj2 (truthy_true _) Hz).
    assert (Hq : 0 <= i / b < b ^ fuel).
    { split; [done|]. apply Z.div_lt_upper_bound; [lia|].
      rewrite Nat2Z.inj_succ, Z.pow_succ_r in Hi; lia. }
    destruct (IH (i / b) (pos - 1) (<[Z.to_nat (pos - 1) := chr (i mod b)]> buf))
      as (buf'&E&Hl'&Hdrop).
    { done. } { destruct fuel; [change (Z.of_nat 0) with 0 in Hq; simpl in Hq; lia|lia]. }
    { by rewrite length_insert. } { lia. }
    rewrite length_app. simpl. exists buf'.
    replace (pos - (length (digits fuel b (i / b)) + 1)%nat)
      with (pos - 1 - length (digits fuel b (i / b))) by lia.
    split; [done|]. split; [done|]. rewrite Hdrop, drop_put by (done || lia).
    rewrite fmap_app. simpl. rewrite <-app_assoc. simpl. do 3 f_equal. lia.
Qed.
End digit_loop.

Lemma cstring_app s rest : Forall (fun c => c <> 0) s -> cstring (s ++ 0 :: rest) = Done s.
Proof.
  induction 1 as [|c s Hc _ IH]; simpl; [done|].
  destruct (Z.eqb_spec c 0); [done|]. by rewrite IH.
Qed.

(** The text of a number to base [b]. *)
Definition numeral (b : Z) (chr : Z -> Z) (i : Z) : list Z := chr <$> digits 64 b i.

Definition dec_char (d : Z) : Z := 48 + d.
Definition low_char (d : Z) : Z := nth (Z.to_nat d) hexlow 0.
Definition high_char (d : Z) : Z := nth (Z.to_nat d) hexhig 0.

(** The two properties of a conversion function: the text it leaves in the
    buffer, and that the buffer is not overrun. *)
Definition prints (f : Z -> list Z -> outcome (Z * list Z)) (i : Z) (text : list Z) : Prop :=
  forall buf, length buf = 100%nat -> exists pos buf', f i buf = Done (pos, buf') /\
    length buf' = 100%nat /\ text_at buf' pos = Done text.

(** The NUL the functions put at the end of the buffer closes the text. *)
Lemma buffer_text buf buf' pos text :
  length buf = 100%nat -> Forall (fun c => c <> 0) text ->
  drop (Z.to_nat pos) buf' = text ++ drop (Z.to_nat 98) (<[Z.to_nat 98 := 0]> buf) ->
  text_at buf' pos = Done text.
Proof.
  intros Hl Ht Hd. unfold text_at. rewrite Hd, (drop_put 98) by (done || lia). by apply cstring_app.
Qed.

(** A base with its character table. *)
Record base_ok (b : Z) (digit : Z -> outcome Z) (next : Z -> Z) (chr : Z -> Z) : Prop := {
  bo_base : 8 <= b;
  bo_digit : forall i, 0 <= i -> digit i = Done (chr (i mod b));
  bo_next : forall i, 0 <= i -> next i = i / b;
  bo_chr : forall d, 0 <= d < b -> chr d <> 0;
}.

Lemma pow_64_bound b : 8 <= b -> 2 ^ 64 <= b ^ 22%nat /\ 2 ^ 64 <= b ^ 64%nat.
Proof.
  intros Hb. assert (2 ^ 64 <= 8 ^ 22%nat) as H22 by (vm_compute; done).
  assert (2 ^ 64 <= 8 ^ 64%nat) as H64 by (vm_compute; done).
  pose proof (Z.pow_le_mono_l 8 b 22%nat ltac:(lia)). pose proof (Z.pow_le_mono_l 8 b 64%nat ltac:(lia)).
  lia.
Qed.

Lemma numeral_nonzero b digit next chr i :
  base_ok b digit next chr -> Forall (fun c => c <> 0) (numeral b chr i).
Proof.
  intros [Hb _ _ Hc]. apply Forall_forall. intros c (d&->&Hd)%list_elem_of_fmap.
  apply Hc. eapply digits_range; [|done]. lia.
Qed.

(** The loop on a fresh buffer, started at its end. *)
Lemma digit_loop_fresh b digit next chr i buf :
  base_ok b digit next chr -> 0 <= i < 2 ^ 64 -> length buf = 100%nat ->
  exists pos buf', digit_loop 64 digit next i 98 (<[Z.to_nat 98 := 0]> buf) = Done (pos, buf') /\
    76 <= pos <= 98 /\ length buf' = 100%nat /\
    drop (Z.to_nat pos) buf' = numeral b chr i ++ drop (Z.to_nat 98) (<[Z.to_nat 98 := 0]> buf).
Proof.
  intros [Hb Hdg Hn Hc] Hi Hl. pose proof (pow_64_bound b Hb) as [H22 H64].
  pose proof (digits_length 64 b i 22 ltac:(lia) ltac:(lia) ltac:(lia)) as Hlen.
  destruct (digit_loop_ok b digit next chr ltac:(lia) Hdg Hn 64 i 98 (<[Z.to_nat 98 := 0]> buf))
    as (buf'&E&Hl'&Hd).
  { split; [lia|]. eapply Z.lt_le_trans; [apply Hi|done]. } { lia. } { by rewrite length_insert. } { lia. }
  eexists _, buf'. split; [exact E|]. split; [lia|]. done.
Qed.

Lemma unsigned_prints b digit next chr i :
  base_ok b digit next chr -> 0 <= i < 2 ^ 64 -> prints (unsigned_to_a digit next) i (numeral b chr i).
Proof.
  intros Hb Hi buf Hl. unfold unsigned_to_a. rewrite put_ok by lia. cbn [mbind outcome_bind].
  destruct (digit_loop_fresh b digit next chr i buf Hb Hi Hl) as (pos&buf'&E&_&Hl'&Hd).
  exists pos, buf'. split; [done|]. split; [done|].
  eapply buffer_text; [exact Hl|by eapply numeral_nonzero|exact Hd].
Qed.

Lemma dec_ok : base_ok 10 dec_digit dec_next dec_char.
Proof.
  split; [lia|..].
  - intros i Hi. unfold dec_digit, dec_char. rewrite Z.rem_mod_nonneg by lia.
    rewrite wrap_small; [done|]. pose proof (Z.mod_pos_bound i 10). lia.
  - intros i Hi. unfold dec_next. by rewrite Z.quot_div_nonneg by lia.
  - unfold dec_char. lia.
Qed.

Lemma oct_ok : base_ok 8 oct_digit oct_next dec_char.
Proof.
  split; [lia|..].
  - intros i Hi. unfold oct_digit, dec_char. change 7 with (2 ^ 3 - 1).
    rewrite (land_ones_mod i 3) by lia.
    rewrite wrap_small; [done|]. pose proof (Z.mod_pos_bound i (2 ^ 3)). lia.
  - intros i Hi. unfold oct_next. by rewrite Z.shiftr_div_pow2 by lia.
  - unfold dec_char. lia.
Qed.

Lemma hex_table_ok (table : list Z) digit :
  length table = 16%nat -> Forall (fun c => c <> 0) table ->
  (forall i, digit i = deref (table !! Z.to_nat (Z.land i 0xf))) ->
  base_ok 16 digit hex_next (fun d => nth (Z.to_nat d) table 0).
Proof.
  intros Hl Hnz Hd. split; [lia|..].
  - intros i Hi. rewrite Hd. change 0xf with (2 ^ 4 - 1). rewrite (land_ones_mod i 4) by lia. change (2 ^ 4) with 16.
    pose proof (Z.mod_pos_bound i 16).
    destruct (lookup_lt_is_Some_2 table (Z.to_nat (i mod 16))) as [c Hc]; [lia|].
    rewrite Hc. simpl. f_equal. symmetry. by apply nth_lookup_Some.
  - intros i Hi. unfold hex_next. by rewrite Z.shiftr_div_pow2 by lia.
  - intros d Hr. destruct (lookup_lt_is_Some_2 table (Z.to_nat d)) as [c Hc]; [lia|].
    rewrite (nth_lookup_Some _ _ _ c Hc). rewrite Forall_lookup in Hnz. by eapply Hnz.
Qed.

Lemma low_ok : base_ok 16 low_digit hex_next low_char.
Proof. apply (hex_table_ok hexlow); [done| |done]. unfold hexlow. repeat constructor; lia. Qed.

Lemma high_ok : base_ok 16 high_digit hex_next high_char.
Proof. apply (hex_table_ok hexhig); [done| |done]. unfold hexhig. repeat constructor; lia. Qed.

(** Signed numbers. *)
Definition signed_text (i : Z) : list Z :=
  if i <? 0 then 45 :: numeral 10 dec_char (- i) else numeral 10 dec_char i.

Lemma signed_prints w i :
  0 < w <= 64 -> - 2 ^ (w - 1) < i < 2 ^ (w - 1) -> prints (signed_to_a w) i (signed_text i).
Proof.
  intros Hw Hi buf Hl.
  assert (2 ^ (w - 1) <= 2 ^ 63) as Hp by (apply Z.pow_le_mono_r; lia).
  unfold signed_to_a, signed_text. rewrite put_ok by lia. cbn [mbind outcome_bind].
  destruct (Z.ltb_spec i 0).
  - rewrite swrap_small by lia.
    destruct (digit_loop_fresh 10 dec_digit dec_next dec_char (- i) buf dec_ok) as (pos&buf'&E&Hpos&Hl'&Hd);
      [lia|done|]. rewrite E. cbn [mbind outcome_bind truthy Z.eqb negb]. rewrite put_ok by lia.
    cbn [mbind outcome_bind]. eexists _, _. split; [done|]. split; [by rewrite length_insert|].
    eapply buffer_text; [exact Hl| |].
    + constructor; [done|]. eapply numeral_nonzero, dec_ok.
    + rewrite drop_put by (done || lia). simpl. f_equal. rewrite <-Hd. f_equal. lia.
  - destruct (digit_loop_fresh 10 dec_digit dec_next dec_char i buf dec_ok) as (pos&buf'&E&_&Hl'&Hd);
      [lia|done|]. rewrite E. cbn [mbind outcome_bind truthy Z.eqb negb].
    exists pos, buf'. split; [done|]. split; [done|].
    eapply buffer_text; [exact Hl|eapply numeral_nonzero, dec_ok|exact Hd].
Qed.

(** [p2a] puts 0x in front. *)
Lemma pointer_prints i : 0 <= i < 2 ^ 64 -> prints p2a i (48 :: 120 :: numeral 16 low_char i).
Proof.
  intros Hi buf Hl. unfold p2a. rewrite put_ok by lia. cbn [mbind outcome_bind].
  destruct (digit_loop_fresh 16 low_digit hex_next low_char i buf low_ok Hi Hl) as (pos&buf'&E&Hpos&Hl'&Hd).
  rewrite E. cbn [mbind outcome_bind]. rewrite put_ok by lia. cbn [mbind outcome_bind].
  rewrite put_ok by lia. cbn [mbind outcome_bind].
  eexists _, _. split; [done|]. split; [by rewrite !length_insert|].
  eapply buffer_text; [exact Hl| |].
  - constructor; [done|]. constructor; [done|]. eapply numeral_nonzero, low_ok.
  - rewrite drop_put by (rewrite ?length_insert; done || lia). simpl. f_equal.
    replace (pos - 2 + 1) with (pos - 1) by lia. rewrite drop_put by (done || lia). f_equal.
    rewrite <-Hd. f_equal. lia.
Qed.

(** C30: the number conversions round trip.  For every value of its type, what
    each of the 26 functions leaves in the buffer is its digits, without leading
    zeros, which read back as the value: [u2a], [lu2a], [zu2a], [tu2a] (32 bits)
    and [llu2a] (64 bits) to base 10, [x2a] and [X2a] with their variants to base
    16, [o2a] with its variants to base 8, [p2a] with 0x in front; the signed
    [i2a], [li2a], [zi2a], [ti2a] and [lli2a] print every number but the least of
    the type, with a minus sign and the digits of the absolute value where it is
    negative.  No call leaves the 100 byte buffer. *)
Theorem numbers_round_trip i :
  0 <= i < 2 ^ 64 ->
  (forall b, 8 <= b -> value b (digits 64 b i) = i /\
     forall d ds, digits 64 b i = d :: ds -> i <> 0 -> d <> 0) /\
  prints llu2a i (dec_char <$> digits 64 10 i) /\ prints llo2a i (dec_char <$> digits 64 8 i) /\
  prints llx2a i (low_char <$> digits 64 16 i) /\ prints llX2a i (high_char <$> digits 64 16 i) /\
  (i < 2 ^ 32 ->
     Forall (fun f => prints f i (dec_char <$> digits 64 10 i)) [u2a; lu2a; zu2a; tu2a] /\
     Forall (fun f => prints f i (dec_char <$> digits 64 8 i)) [o2a; lo2a; zo2a; to2a] /\
     Forall (fun f => prints f i (low_char <$> digits 64 16 i)) [x2a; lx2a; zx2a; tx2a] /\
     Forall (fun f => prints f i (high_char <$> digits 64 16 i)) [X2a; lX2a; zX2a; tX2a] /\
     prints p2a i (48 :: 120 :: (low_char <$> digits 64 16 i))) /\
  (i < 2 ^ 31 -> Forall (fun f => prints f i (dec_char <$> digits 64 10 i) /\
     (0 < i -> prints f (- i) (45 :: (dec_char <$> digits 64 10 i)))) [i2a; li2a; zi2a; ti2a]) /\
  (i < 2 ^ 63 -> prints lli2a i (dec_char <$> digits 64 10 i) /\
     (0 < i -> prints lli2a (- i) (45 :: (dec_char <$> digits 64 10 i)))).
Proof.
  intros Hi. assert (Hsig : forall w, (w = 32 \/ w = 64) -> i < 2 ^ (w - 1) ->
    prints (signed_to_a w) i (dec_char <$> digits 64 10 i) /\
    (0 < i -> prints (signed_to_a w) (- i) (45 :: (dec_char <$> digits 64 10 i)))).
  { intros w Hw Hlt. split; [|intros Hpos].
    - pose proof (signed_prints w i ltac:(lia) ltac:(lia)) as Hp. unfold signed_text in Hp.
      destruct (Z.ltb_spec i 0); [lia|]. exact Hp.
    - pose proof (signed_prints w (- i) ltac:(lia) ltac:(lia)) as Hp.
      unfold signed_text in Hp. destruct (Z.ltb_spec (- i) 0); [|lia]. rewrite Z.opp_involutive in Hp. exact Hp. }
  split_and!.
  - intros b Hb. pose proof (pow_64_bound b Hb) as [_ H64]. split.
    + apply digits_value; lia.
    + intros d ds. apply digits_head; lia.
  - apply unsigned_prints; [apply dec_ok|done].
  - apply unsigned_prints; [apply oct_ok|done].
  - apply unsigned_prints; [apply low_ok|done].
  - apply unsigned_prints; [apply high_ok|done].
  - intros _. split_and!; [..|by apply pointer_prints]; repeat (apply Forall_cons; split); try apply Forall_nil; try done;
      apply unsigned_prints; (done || apply dec_ok || apply oct_ok || apply low_ok || apply high_ok).
  - intros Hlt. repeat (apply Forall_cons; split); try apply Forall_nil; try done; (apply (Hsig 32); [by left|exact Hlt]).
  - intros Hlt. apply (Hsig 64); [by right|exact Hlt].
Qed.

Lemma numbers_round_trip_witness :
  prints llu2a 1234567 [49; 50; 51; 52; 53; 54; 55] /\ prints i2a (- 1234567) [45; 49; 50; 51; 52; 53; 54; 55] /\
  value 10 [1; 2; 3; 4; 5; 6; 7] = 1234567.
Proof.
  destruct (numbers_round_trip 1234567 ltac:(lia)) as (H1&H2&_&_&_&_&H3&_).
  destruct (H1 10 ltac:(lia)) as [Hv _]. split; [exact H2|]. split; [|exact Hv].
  specialize (H3 ltac:(lia)). apply Forall_inv in H3. exact (proj2 H3 ltac:(lia)).
Defined.

(** The least [int] negates to itself, and its digits come out as the
    characters below 0: the text is not a number. *)
Lemma i2a_int_min :
  ('(pos, buf) ← i2a (- 2 ^ 31) (replicate 100 0); text_at buf pos) =
  Done [45; 46; 47; 44; 41; 44; 40; 45; 42; 44; 40].
Proof. vm_compute. reflexivity. Qed.

(** ** What a format stands for *)

(** The text of one integer conversion with letter [c] of a [w]-bit argument;
    an unknown letter prints nothing and takes no argument.  The least signed
    value has no specified text. *)
Definition int_text (w c v : Z) : option (list Z) :=
  if is_di c then
    let i := swrap w v in if i =? - 2 ^ (w - 1) then None else Some (signed_text i)
  else if c =? 117 then Some (numeral 10 dec_char v)
  else if c =? 120 then Some (numeral 16 low_char v)
  else if c =? 88 then Some (numeral 16 high_char v)
  else if c =? 111 then Some (numeral 8 dec_char v)
  else None.

Definition is_int_letter (c : Z) : bool :=
  is_di c || (c =? 117) || (c =? 120) || (c =? 88) || (c =? 111).

Definition word_conv (c : Z) (rest : list Z) (ap : list arg) : option (list Z * list Z * list arg) :=
  if is_int_letter c then
    match ap with
    | AWord v :: ap => (fun o => (o, rest, ap)) <$> int_text 32 c v
    | _ => None
    end
  else Some ([], rest, ap).

Definition long_conv (c : Z) (rest : list Z) (ap : list arg) : option (list Z * list Z * list arg) :=
  if is_int_letter c then
    match ap with
    | ALong v :: ap => (fun o => (o, rest, ap)) <$> int_text 64 c v
    | _ => None
    end
  else Some ([], rest, ap).

(** One conversion: its text, the format behind it and the arguments left. *)
Definition conv_text (r : list Z) (ap : list arg) : option (list Z * list Z * list arg) :=
  match r with
  | [] => None
  | c :: r =>
      if (c =? 122) || (c =? 116) then
        match r with [] => None | c :: r => word_conv c r ap end
      else if c =? 108 then
        match r with
        | [] => None
        | c :: r => if c =? 108 then match r with [] => None | c :: r => long_conv c r ap end
                    else word_conv c r ap
        end
      else if c =? 112 then
        match ap with AWord v :: ap => Some (48 :: 120 :: numeral 16 low_char v, r, ap) | _ => None end
      else if c =? 99 then
        match ap with AWord v :: ap => Some ([u8 v], r, ap) | _ => None end
      else if c =? 115 then
        match ap with
        | AStr (Some s) :: ap => Some (s, r, ap)
        | AStr None :: ap => Some ([40; 110; 117; 108; 108; 41], r, ap)
        | _ => None
        end
      else word_conv c r ap
  end.

(** [renders fmt args text]. *)
Inductive renders : list Z -> list arg -> list Z -> Prop :=
| renders_end ap : renders [] ap []
| renders_char c fmt ap out :
    c <> 0 -> c <> 37 -> renders fmt ap out -> renders (c :: fmt) ap (c :: out)
| renders_percent fmt ap out : renders fmt ap out -> renders (37 :: 37 :: fmt) ap (37 :: out)
| renders_conv r o rest ap ap' out :
    hd 0 r <> 37 -> conv_text r ap = Some (o, rest, ap') -> renders rest ap' out ->
    renders (37 :: r) ap (o ++ out).

(** Arguments are words of their width and strings without NUL. *)
Definition arg_ok (a : arg) : Prop :=
  match a with
  | AWord z => 0 <= z < 2 ^ 32
  | ALong z => 0 <= z < 2 ^ 64
  | AStr (Some s) => Forall (fun c => 0 < c < 256) s
  | AStr None => True
  end.

(** ** The interpreter of printf *)

Lemma swrap_range w v : 0 < w -> - 2 ^ (w - 1) <= swrap w v < 2 ^ (w - 1).
Proof.
  intros Hw. unfold swrap. pose proof (wrap_range w ltac:(lia) v).
  assert (2 ^ w = 2 * 2 ^ (w - 1)) by (rewrite <-Z.pow_succ_r by lia; f_equal; lia).
  destruct (Z.ltb_spec (wrap w v) (2 ^ (w - 1))); lia.
Qed.

(** The conversion functions of one length modifier print [int_text]. *)
Lemma int_conv_prints w c v text (i u x X o : Z -> list Z -> outcome (Z * list Z)) :
  0 < w <= 64 -> 0 <= v < 2 ^ w ->
  i = signed_to_a w -> u = unsigned_to_a dec_digit dec_next -> x = unsigned_to_a low_digit hex_next ->
  X = unsigned_to_a high_digit hex_next -> o = unsigned_to_a oct_digit oct_next ->
  is_int_letter c = true -> int_text w c v = Some text ->
  exists f, int_conv c i u x X o = Some f /\ prints f (if is_di c then swrap w v else v) text.
Proof.
  intros Hw Hv -> -> -> -> -> Hl. unfold int_text, int_conv.
  assert (0 <= v < 2 ^ 64).
  { assert (2 ^ w <= 2 ^ 64) by (apply Z.pow_le_mono_r; lia). lia. }
  destruct (is_di c) eqn:Hdi; unfold is_di in Hdi; rewrite Hdi.
  - case_match eqn:E; [done|]. apply Z.eqb_neq in E. intros [= <-]. eexists. split; [done|].
    pose proof (swrap_range w v ltac:(lia)). apply signed_prints; lia.
  - destruct (c =? 117); [intros [= <-]; eexists; split; [done|]; by apply unsigned_prints, H; apply dec_ok|].
    destruct (c =? 120); [intros [= <-]; eexists; split; [done|]; by apply unsigned_prints, H; apply low_ok|].
    destruct (c =? 88); [intros [= <-]; eexists; split; [done|]; by apply unsigned_prints, H; apply high_ok|].
    destruct (c =? 111); [intros [= <-]; eexists; split; [done|]; by apply unsigned_prints, H; apply oct_ok|].
    done.
Qed.

Lemma int_conv_none c i u x X o :
  is_int_letter c = false -> int_conv c i u x X o = None.
Proof.
  unfold is_int_letter, int_conv, is_di. intros Hl.
  apply orb_false_iff in Hl as [[[[Hdi Hu]%orb_false_iff Hx]%orb_false_iff HX]%orb_false_iff Ho].
  by rewrite Hdi, Hu, Hx, HX, Ho.
Qed.

(** The characters a conversion can print are bytes. *)
Lemma numeral_bytes b chr i :
  2 <= b -> (forall d, 0 <= d < b -> 0 <= chr d < 256) -> Forall (fun c => 0 <= c < 256) (numeral b chr i).
Proof.
  intros Hb Hc. apply Forall_forall. intros c (d&->&Hd)%list_elem_of_fmap.
  apply Hc. by eapply digits_range.
Qed.

Lemma hex_char_byte (table : list Z) d :
  Forall (fun c => 0 <= c < 256) table -> 0 <= nth d table 0 < 256.
Proof.
  intros Ht. destruct (nth_in_or_default d table 0) as [Hin | ->]; [|lia].
  rewrite List.Forall_forall in Ht. by apply Ht.
Qed.

Lemma dec_bytes b i : 2 <= b <= 10 -> Forall (fun c => 0 <= c < 256) (numeral b dec_char i).
Proof. intros Hb. apply numeral_bytes; [lia|]. unfold dec_char. lia. Qed.

Lemma low_bytes i : Forall (fun c => 0 <= c < 256) (numeral 16 low_char i).
Proof. apply numeral_bytes; [lia|]. intros d _. apply hex_char_byte. unfold hexlow. repeat constructor; lia. Qed.

Lemma high_bytes i : Forall (fun c => 0 <= c < 256) (numeral 16 high_char i).
Proof. apply numeral_bytes; [lia|]. intros d _. apply hex_char_byte. unfold hexhig. repeat constructor; lia. Qed.

Lemma int_text_bytes w c v text : int_text w c v = Some text -> Forall (fun c => 0 <= c < 256) text.
Proof.
  unfold int_text, signed_text. intros Ht.
  repeat case_match; simplify_eq/=; try constructor; try lia;
    first [apply dec_bytes; lia | apply low_bytes | apply high_bytes].
Qed.

(** A conversion consumes at least one character of the format. *)
Lemma conv_text_suffix r ap o rest ap' :
  conv_text r ap = Some (o, rest, ap') -> exists pre, r = pre ++ rest /\ (1 <= length pre)%nat.
Proof.
  assert (Hw : forall c r ap t, word_conv c r ap = Some t -> t.1.2 = r).
  { intros c r0 ap0 t. unfold word_conv. repeat case_match; try done; [|by intros [= <-]].
    intros (?&?&->)%fmap_Some. done. }
  assert (Hl : forall c r ap t, long_conv c r ap = Some t -> t.1.2 = r).
  { intros c r0 ap0 t. unfold long_conv. repeat case_match; try done; [|by intros [= <-]].
    intros (?&?&->)%fmap_Some. done. }
  unfold conv_text. intros Hc. repeat case_match; simplify_eq/=;
    repeat match goal with
    | H : word_conv _ _ _ = Some _ |- _ => apply Hw in H; simpl in H; subst
    | H : long_conv _ _ _ = Some _ |- _ => apply Hl in H; simpl in H; subst
    end;
    first [by exists [c]; simpl; auto | by eexists [_]; simpl; auto
          | by eexists [_; _]; simpl; auto with lia | by eexists [_; _; _]; simpl; auto with lia].
Qed.

Section printf_ok.
Context {P V : Type} `{HP : IoPipe P} `{HL : !IoPipeLaws P V}.

(** The pipe [p'] shows [text] after what [p] shows. *)
Definition emits (p : P) (text : list Z) (p' : P) : Prop :=
  io_ok p' /\ io_view p' = fold_left io_feed text (io_view p).

Lemma emits_nil p : io_ok p -> emits p [] p.
Proof using. by split. Qed.

Lemma emits_app p t1 p1 t2 p2 : emits p t1 p1 -> emits p1 t2 p2 -> emits p (t1 ++ t2) p2.
Proof using. intros [_ H1] [Hok H2]. split; [done|]. by rewrite fold_left_app, H2, H1. Qed.

Lemma emit_ok p b :
  io_ok p -> Forall (fun c => 0 <= c < 256) b -> length b < 2 ^ 31 ->
  exists p', emit b p = Done p' /\ emits p b p'.
Proof using HL.
  intros Hok Hb Hl. destruct (io_write_law p b Hok Hb Hl) as (p'&E&Hok'&Hv).
  exists p'. unfold emit. rewrite E. done.
Qed.

Lemma between_suffix pend l : between (Some (pend ++ l)) (Some l) = pend.
Proof using.
  unfold between. rewrite length_app.
  replace (length pend + length l - length l)%nat with (length pend) by lia. apply take_app_length.
Qed.

Lemma emit_pending_ok p pend l :
  io_ok p -> Forall (fun c => 0 <= c < 256) pend -> length pend < 2 ^ 31 ->
  exists p', emit_pending (Some (pend ++ l)) (Some l) p = Done p' /\ emits p pend p'.
Proof using HL.
  intros Hok Hb Hl. unfold emit_pending. rewrite between_suffix.
  destruct (Z.ltb_spec 0 (length pend)).
  - apply emit_ok; done.
  - destruct pend; [|simpl in *; lia]. exists p. split; [done|by apply emits_nil].
Qed.

(** What a conversion does to the state of the interpreter. *)
Definition converts (res : outcome (Z * list arg * list Z * P)) (count : Z) (ap : list arg)
    (p : P) (text : list Z) : Prop :=
  exists buf' p', res = Done (count + length text, ap, buf', p') /\ length buf' = 100%nat /\ emits p text p'.

Lemma print_int_ok f v text count buf p :
  prints f v text -> Forall (fun c => 0 <= c < 256) text -> length buf = 100%nat -> io_ok p ->
  0 <= count -> count + length text < 2 ^ 31 ->
  exists buf' p', print_int (Some f) count v buf p = Done (count + length text, buf', p') /\
    length buf' = 100%nat /\ emits p text p'.
Proof using HL.
  intros Hp Hb Hl Hok Hc Hlen. destruct (Hp buf Hl) as (pos&buf'&E&Hl'&Ht).
  unfold print_int. rewrite E. cbn [mbind outcome_bind]. rewrite Ht. cbn [mbind outcome_bind].
  destruct (emit_ok p text Hok Hb ltac:(lia)) as (p'&E'&He). rewrite E'. cbn [mbind outcome_bind].
  exists buf', p'. rewrite swrap_small by lia. done.
Qed.

Section width.
Context (i u x X o : Z -> list Z -> outcome (Z * list Z)).
Hypothesis Hu : u = unsigned_to_a dec_digit dec_next.
Hypothesis Hx : x = unsigned_to_a low_digit hex_next.
Hypothesis HX : X = unsigned_to_a high_digit hex_next.
Hypothesis Ho : o = unsigned_to_a oct_digit oct_next.

Lemma print_word_ok c text rest rest' ap ap' count buf p :
  i = signed_to_a 32 -> word_conv c rest ap = Some (text, rest', ap') -> Forall arg_ok ap ->
  length buf = 100%nat -> io_ok p -> 0 <= count -> count + length text < 2 ^ 31 ->
  converts (print_word (int_conv c i u x X o) (is_di c) count ap buf p) count ap' p text /\
  rest' = rest /\ Forall arg_ok ap'.
Proof using HL Hu Hx HX Ho.
  intros Hi Hc Hap Hl Hok Hcnt Hlen. unfold word_conv in Hc. destruct (is_int_letter c) eqn:Hlet.
  - destruct ap as [|[v| |] ap]; try done. apply Forall_cons in Hap as [Hv Hap].
    apply fmap_Some in Hc as (t&Ht&[= -> -> ->]).
    destruct (int_conv_prints 32 c v t i u x X o ltac:(lia) Hv Hi Hu Hx HX Ho Hlet Ht) as (f&Ef&Hf).
    unfold print_word. rewrite Ef. cbn [va_word mbind outcome_bind].
    destruct (print_int_ok f _ t count buf p Hf (int_text_bytes _ _ _ _ Ht) Hl Hok Hcnt Hlen)
      as (buf'&p'&E&Hl'&He).
    rewrite E. cbn [mbind outcome_bind]. split; [|done]. by exists buf', p'.
  - injection Hc as <- <- <-. rewrite int_conv_none by done. split; [|done].
    exists buf, p. simpl. rewrite Z.add_0_r. split; [done|]. split; [done|by apply emits_nil].
Qed.

Lemma print_long_ok c text rest rest' ap ap' count buf p :
  i = signed_to_a 64 -> long_conv c rest ap = Some (text, rest', ap') -> Forall arg_ok ap ->
  length buf = 100%nat -> io_ok p -> 0 <= count -> count + length text < 2 ^ 31 ->
  converts (print_long (int_conv c i u x X o) (is_di c) count ap buf p) count ap' p text /\
  rest' = rest /\ Forall arg_ok ap'.
Proof using HL Hu Hx HX Ho.
  intros Hi Hc Hap Hl Hok Hcnt Hlen. unfold long_conv in Hc. destruct (is_int_letter c) eqn:Hlet.
  - destruct ap as [|[|v|] ap]; try done. apply Forall_cons in Hap as [Hv Hap].
    apply fmap_Some in Hc as (t&Ht&[= -> -> ->]).
    destruct (int_conv_prints 64 c v t i u x X o ltac:(lia) Hv Hi Hu Hx HX Ho Hlet Ht) as (f&Ef&Hf).
    unfold print_long. rewrite Ef. cbn [va_long mbind outcome_bind].
    destruct (print_int_ok f _ t count buf p Hf (int_text_bytes _ _ _ _ Ht) Hl Hok Hcnt Hlen)
      as (buf'&p'&E&Hl'&He).
    rewrite E. cbn [mbind outcome_bind]. split; [|done]. by exists buf', p'.
  - injection Hc as <- <- <-. rewrite int_conv_none by done. split; [|done].
    exists buf, p. simpl. rewrite Z.add_0_r. split; [done|]. split; [done|by apply emits_nil].
Qed.
End width.

(** The result of the whole conversion switch. *)
Definition converted (res : outcome (cptr * Z * list arg * list Z * P)) (count : Z) (rest : list Z)
    (ap : list arg) (p : P) (text : list Z) : Prop :=
  exists fmt' buf' p', res = Done (fmt', count + length text, ap, buf', p') /\
    step fmt' = Some rest /\ length buf' = 100%nat /\ emits p text p' /\ Forall arg_ok ap.

(** A case of the switch that prints one integer. *)
Lemma converted_int res count c rest ap' p text rest' :
  converts res count ap' p text /\ rest' = rest /\ Forall arg_ok ap' ->
  converted ('(count, ap, buf, p) ← res; Done (Some (c :: rest), count, ap, buf, p))
    count rest' ap' p text.
Proof using.
  intros ((buf'&p'&->&Hl'&He)&->&Hap). cbn [mbind outcome_bind].
  exists (Some (c :: rest)), buf', p'. done.
Qed.

(** A case of the switch that prints [text] as it is. *)
Lemma converted_emit c r text ap count buf p :
  Forall (fun c => 0 <= c < 256) text -> Forall arg_ok ap -> length buf = 100%nat -> io_ok p ->
  0 <= count -> count + length text < 2 ^ 31 ->
  converted (p ← emit text p; Done (Some (c :: r), i32 (count + length text), ap, buf, p)) count r ap p text.
Proof using HL.
  intros Hb Hap Hl Hok Hcnt Hlen. destruct (emit_ok p text) as (p'&->&He); [done|done|lia|].
  cbn [mbind outcome_bind]. exists (Some (c :: r)), buf, p'. by rewrite swrap_small by lia.
Qed.

Lemma conversion_ok r o rest ap ap' count buf p :
  conv_text r ap = Some (o, rest, ap') -> Forall arg_ok ap -> length buf = 100%nat -> io_ok p ->
  0 <= count -> count + length o < 2 ^ 31 ->
  converted (conversion (Some r) count ap buf p) count rest ap' p o.
Proof using HL.
  intros Hc Hap Hl Hok Hcnt Hlen. destruct r as [|c r]; [done|]. unfold conv_text in Hc.
  unfold conversion. cbn [at0 mbind outcome_bind].
  destruct (c =? 122) eqn:Ez; [|destruct (c =? 116) eqn:Et]; cbn [orb] in Hc.
  - destruct r as [|c' r]; [done|]. cbn [step at0 mbind outcome_bind].
    eapply converted_int, print_word_ok; done.
  - destruct r as [|c' r]; [done|]. cbn [step at0 mbind outcome_bind].
    eapply converted_int, print_word_ok; done.
  - destruct (c =? 108).
    { destruct r as [|c' r]; [done|]. cbn [step at0 mbind outcome_bind]. destruct (c' =? 108).
      - destruct r as [|c'' r]; [done|]. cbn [step at0 mbind outcome_bind].
        eapply converted_int, print_long_ok; done.
      - eapply converted_int, print_word_ok; done. }
    destruct (c =? 112).
    { destruct ap as [|[v| |] ap]; try done. apply Forall_cons in Hap as [Hv Hap].
      injection Hc as <- <- <-. unfold print_word. cbn [va_word mbind outcome_bind].
      destruct (print_int_ok p2a v (48 :: 120 :: numeral 16 low_char v) count buf p)
        as (buf'&p'&E&Hl'&He); [apply pointer_prints; simpl in Hv; lia| |done..|].
      { repeat constructor; try lia. apply low_bytes. }
      rewrite E. cbn [mbind outcome_bind]. by exists (Some (c :: r)), buf', p'. }
    destruct (c =? 99).
    { destruct ap as [|[v| |] ap]; try done. apply Forall_cons in Hap as [Hv Hap].
      injection Hc as <- <- <-. cbn [va_word mbind outcome_bind]. rewrite put_ok by lia.
      cbn [mbind outcome_bind]. assert (take 1 (<[Z.to_nat 0 := u8 v]> buf) = [u8 v]) as -> by (by destruct buf).
      apply (converted_emit c r [u8 v]); rewrite ?length_insert; try done.
      repeat constructor; pose proof (wrap_range 8 ltac:(lia) v); lia. }
    destruct (c =? 115).
    { assert (exists s ap1, ap = AStr s :: ap1 /\
        (o, rest, ap') = (match s with Some s => s | None => [40; 110; 117; 108; 108; 41] end, r, ap1))
        as (s&ap1&->&Heq).
      { destruct ap as [|[| |[s|]] ap]; try done; injection Hc as <- <- <-; eauto. }
      apply Forall_cons in Hap as [Hs Hap]. injection Heq as Ho -> ->.
      cbn [va_str mbind outcome_bind]. cbv zeta. rewrite <-Ho.
      apply converted_emit; try done. destruct s as [s|]; subst o; simpl in Hs; [|repeat constructor; lia].
      eapply Forall_impl; [exact Hs|]. simpl. lia. }
    eapply converted_int, print_word_ok; done.
Qed.

Lemma vioprintf_loop_ok l ap out :
  renders l ap out -> forall (fuel : nat) pend count buf p,
  Forall arg_ok ap -> Forall (fun c => 0 <= c < 256) (pend ++ l) -> length buf = 100%nat -> io_ok p ->
  (length l < fuel)%nat -> 0 <= count -> count + length pend + length out < 2 ^ 31 ->
  exists p', vioprintf_loop fuel (Some l) (Some (pend ++ l)) count ap buf p =
    Done (count + length pend + length out, p') /\ emits p (pend ++ out) p'.
Proof using HL.
  induction 1 as [ap|c fmt ap out Hc0 Hc Hr IH|fmt ap out Hr IH|r o rest ap ap' out Hhd Hconv Hr IH];
    intros fuel pend count buf p Hap Hb Hl Hok Hf Hcnt Hlen;
    (destruct fuel as [|fuel]; [simpl in Hf; lia|]); cbn [vioprintf_loop at0 mbind outcome_bind];
    pose proof Hb as [Hpend Hrest]%Forall_app.
  - rewrite Z.eqb_refl. simpl in Hlen. rewrite between_suffix.
    destruct (emit_pending_ok p pend []) as (p'&E&He); [done|done|lia|].
    rewrite E. cbn [mbind outcome_bind]. exists p'. rewrite swrap_small by lia. simpl.
    rewrite Z.add_0_r, app_nil_r. done.
  - destruct (Z.eqb_spec c 0); [done|]. destruct (Z.eqb_spec c 37); [done|]. cbn [negb step].
    destruct (IH fuel (pend ++ [c]) count buf p) as (p'&E&He);
      [done|by rewrite <-app_assoc|done|done|simpl in Hf; lia|done|rewrite length_app; simpl in *; lia|].
    rewrite <-app_assoc in E. exists p'. rewrite <-app_assoc in He. simpl in E, He |- *. rewrite E.
    split; [|done]. f_equal. f_equal. rewrite length_app. simpl. lia.
  - cbn [Z.eqb Pos.eqb negb at1 step at0 mbind outcome_bind].
    simpl in Hlen, Hf. assert (Hbt : between (Some (pend ++ 37 :: 37 :: fmt)) (Some (37 :: fmt)) = pend ++ [37]).
    { replace (pend ++ 37 :: 37 :: fmt) with ((pend ++ [37]) ++ 37 :: fmt) by by rewrite <-app_assoc.
      apply between_suffix. }
    destruct (emit_pending_ok p (pend ++ [37]) (37 :: fmt)) as (p1&E1&He1);
      [done|apply Forall_app; split; [done|repeat constructor; lia]|rewrite length_app; simpl; lia|].
    rewrite <-app_assoc in E1. simpl in E1. rewrite Hbt, E1. cbn [mbind outcome_bind].
    unfold conversion. cbn. rewrite (swrap_small 32) by (rewrite ?length_app; simpl; lia).
    destruct (IH fuel [] (count + length (pend ++ [37])) buf p1) as (p2&E2&He2);
      rewrite ?length_app; simpl; [done|by do 2 apply Forall_inv_tail in Hrest|done|apply He1|lia..|].
    rewrite length_app in E2. simpl in E2. exists p2. rewrite E2. split; [do 2 f_equal; lia|].
    replace (pend ++ 37 :: out) with ((pend ++ [37]) ++ out) by by rewrite <-app_assoc. by eapply emits_app.
  - cbn [Z.eqb Pos.eqb negb at1 step at0]. destruct r as [|c r]; [done|]. simpl in Hhd, Hf.
    cbn [at0 mbind outcome_bind]. destruct (Z.eqb_spec c 37); [done|]. rewrite length_app in Hlen.
    destruct (emit_pending_ok p pend (37 :: c :: r)) as (p1&E1&He1); [done|done|lia|].
    rewrite between_suffix, E1. cbn [mbind outcome_bind step].
    rewrite (swrap_small 32) by lia.
    destruct (conversion_ok (c :: r) o rest ap ap' (count + length pend) buf p1)
      as (fmt'&buf'&p2&E2&Hst&Hl2&He2&Hap2); [done|done|done|apply He1|lia|lia|].
    rewrite E2. cbn [mbind outcome_bind]. rewrite Hst.
    destruct (conv_text_suffix (c :: r) ap o rest ap') as (pre&Hpre&Hpl); [done|].
    assert (Hlr : (length rest <= length r)%nat).
    { apply (f_equal length) in Hpre. rewrite length_app in Hpre. simpl in Hpre. lia. }
    destruct (IH fuel [] (count + length pend + length o) buf' p2) as (p3&E3&He3);
      [done| |done|apply He2|lia|lia|simpl; lia|].
    { apply Forall_inv_tail in Hrest. rewrite Hpre in Hrest. by apply Forall_app in Hrest as [_ ?]. }
    simpl in E3. exists p3. rewrite E3. split; [rewrite length_app; do 2 f_equal; lia|].
    eapply emits_app; [exact He1|]. by eapply emits_app.
Qed.
(** C12: [iopipe_vioprintf] over any lawful pipe: when the format and its
    arguments render to a text of less than 2^31 characters, the call returns
    the length of the text, and the pipe shows exactly the text after what it
    showed before.  Fuel one more than the length of the format is enough. *)
Theorem iopipe_vioprintf_correct (fuel : nat) buf fmt ap out p :
  renders fmt ap out -> Forall arg_ok ap -> Forall (fun c => 0 <= c < 256) fmt ->
  length buf = 100%nat -> io_ok p -> (length fmt < fuel)%nat -> length out < 2 ^ 31 ->
  exists p', iopipe_vioprintf fuel buf fmt ap p = Done (Z.of_nat (length out), p') /\
    io_ok p' /\ io_view p' = fold_left io_feed out (io_view p).
Proof using HL.
  intros Hr Hap Hb Hl Hok Hf Hlen.
  destruct (vioprintf_loop_ok fmt ap out Hr fuel [] 0 buf p) as (p'&E&He); [done..|simpl; lia|].
  by exists p'.
Qed.

(** A format that ends in a single percent sign is read past its NUL. *)
Lemma vioprintf_trailing_percent pre (fuel : nat) count last ap buf p :
  Forall (fun c => c <> 0 /\ c <> 37) pre -> io_ok p -> (length pre + 2 < fuel)%nat ->
  (exists q, emit_pending (Some last) (Some [37]) p = Done q) ->
  vioprintf_loop fuel (Some (pre ++ [37])) (Some last) count ap buf p = Fault.
Proof using.
  intros Hpre Hok Hf [q Hq]. revert fuel Hf. induction Hpre as [|c pre [H0 H37] _ IH]; intros fuel Hf;
    (destruct fuel as [|fuel]; [simpl in Hf; lia|]).
  - simpl in Hf |- *. rewrite Hq. simpl. destruct fuel; [lia|]. done.
  - cbn [app vioprintf_loop at0 mbind outcome_bind].
    destruct (Z.eqb_spec c 0), (Z.eqb_spec c 37); try done. cbn [negb step].
    apply IH. simpl in Hf. lia.
Qed.
End printf_ok.

(** ** The interpreter of printinfo *)

(** The last [n] digits of a number, leading zeros included. *)
Fixpoint fixed_digits (n : nat) (v : Z) : list Z :=
  match n with O => [] | S n => fixed_digits n (v / 16) ++ [v mod 16] end.

Lemma fixed_digits_value (n : nat) v : value 16 (fixed_digits n v) = v mod 16 ^ n.
Proof.
  revert v. induction n as [|n IH]; intros v; cbn [fixed_digits].
  - change (Z.of_nat 0) with 0. simpl. by rewrite Z.mod_1_r.
  - rewrite value_snoc, IH, Nat2Z.inj_succ, Z.pow_succ_r by lia.
    rewrite (Z.rem_mul_r v 16 (16 ^ n)) by (try apply Z.pow_nonzero; lia). lia.
Qed.

Lemma fixed_digits_length n v : length (fixed_digits n v) = n.
Proof. revert v. induction n as [|n IH]; intros v; simpl; [done|]. rewrite length_app, IH. simpl. lia. Qed.

Lemma fixed_digits_range n v d : d ∈ fixed_digits n v -> 0 <= d < 16.
Proof.
  revert v. induction n as [|n IH]; intros v; simpl; [set_solver|].
  intros [Hd|Hd%list_elem_of_singleton]%elem_of_app; [by eapply IH|]. subst.
  apply Z.mod_pos_bound. lia.
Qed.

Section render.
Context (table : list Z) (Hlen : length table = 16%nat)
  (Hnz : Forall (fun c => 0 < c < 256) table).

Lemma render_loop_ok (n : nat) v pos (buf : list Z) :
  n <= pos <= 98 -> length buf = 100%nat ->
  exists buf', render_loop n table v pos buf = Done (pos - n, buf') /\ length buf' = 100%nat /\
    drop (Z.to_nat (pos - n)) buf' =
      ((fun d => nth (Z.to_nat d) table 0) <$> fixed_digits n v) ++ drop (Z.to_nat pos) buf.
Proof using Hlen.
  revert v pos buf. induction n as [|n IH]; intros v pos buf Hp Hl; cbn [render_loop fixed_digits].
  { exists buf. rewrite Z.sub_0_r. done. }
  change 0xF with (2 ^ 4 - 1). rewrite (land_ones_mod v 4) by lia. change (2 ^ 4) with 16.
  pose proof (Z.mod_pos_bound v 16).
  destruct (lookup_lt_is_Some_2 table (Z.to_nat (v mod 16))) as [c Hc]; [lia|].
  rewrite Hc. cbn [deref mbind outcome_bind]. rewrite put_ok by lia. cbn [mbind outcome_bind].
  rewrite Z.shiftr_div_pow2 by lia. change (2 ^ 4) with 16.
  destruct (IH (v / 16) (pos - 1) (<[Z.to_nat (pos - 1) := c]> buf)) as (buf'&E&Hl'&Hd);
    [lia|by rewrite length_insert|].
  exists buf'. replace (pos - S n) with (pos - 1 - n) by lia. split; [done|]. split; [done|].
  rewrite Hd, drop_put by (done || lia). rewrite fmap_app. simpl.
  rewrite (nth_lookup_Some _ _ 0 c Hc), <-app_assoc. simpl. do 3 f_equal. lia.
Qed.

Lemma render_prints v :
  prints (fun paddr buf => buf ← put 98 0 buf; render_loop 8 table paddr 98 buf) v
    ((fun d => nth (Z.to_nat d) table 0) <$> fixed_digits 8 v).
Proof using Hlen Hnz.
  intros buf Hl. rewrite put_ok by lia. cbn [mbind outcome_bind].
  destruct (render_loop_ok 8 v 98 (<[Z.to_nat 98 := 0]> buf)) as (buf'&E&Hl'&Hd);
    [lia|by rewrite length_insert|].
  eexists _, buf'. split; [exact E|]. split; [done|]. eapply buffer_text; [exact Hl| |exact Hd].
  apply Forall_forall. intros c (d&->&Hr%fixed_digits_range)%list_elem_of_fmap.
  destruct (lookup_lt_is_Some_2 table (Z.to_nat d)) as [c Hc]; [lia|].
  rewrite (nth_lookup_Some _ _ 0 c Hc). rewrite Forall_lookup in Hnz. specialize (Hnz _ _ Hc). simpl in Hnz. lia.
Qed.
End render.

(** The text of one printinfo conversion. *)
Definition info_text (c v : Z) : option (list Z) :=
  if (c =? 104) || (c =? 112) then Some (low_char <$> fixed_digits 8 v)
  else if (c =? 72) || (c =? 80) then Some (high_char <$> fixed_digits 8 v)
  else if (c =? 117) || (c =? 105) || (c =? 100) then Some (numeral 10 dec_char v)
  else None.

Inductive info_renders : list Z -> list arg -> list Z -> Prop :=
| info_end ap : info_renders [] ap []
| info_char c fmt ap out :
    c <> 0 -> c <> 126 -> info_renders fmt ap out -> info_renders (c :: fmt) ap (c :: out)
| info_conversion c fmt v ap o out :
    info_text c v = Some o -> info_renders fmt ap out ->
    info_renders (126 :: c :: fmt) (AWord v :: ap) (o ++ out)
| info_unknown c fmt ap out :
    (forall v, info_text c v = None) -> info_renders fmt ap out ->
    info_renders (126 :: c :: fmt) ap out.

Lemma hexlow_ok : length hexlow = 16%nat /\ Forall (fun c => 0 < c < 256) hexlow.
Proof. split; [done|]. unfold hexlow. repeat constructor; lia. Qed.
Lemma hexhig_ok : length hexhig = 16%nat /\ Forall (fun c => 0 < c < 256) hexhig.
Proof. split; [done|]. unfold hexhig. repeat constructor; lia. Qed.

Lemma fixed_bytes table n v :
  Forall (fun c => 0 < c < 256) table ->
  Forall (fun c => 0 <= c < 256) ((fun d => nth (Z.to_nat d) table 0) <$> fixed_digits n v).
Proof.
  intros Ht. apply Forall_forall. intros c (d&->&_)%list_elem_of_fmap. apply hex_char_byte.
  eapply Forall_impl; [exact Ht|]. simpl. lia.
Qed.

Lemma info_conv_prints c v o :
  0 <= v < 2 ^ 32 -> info_text c v = Some o ->
  exists f, info_conv c = Some f /\ prints f v o /\ Forall (fun c => 0 <= c < 256) o.
Proof.
  destruct hexlow_ok as [Ll Lh], hexhig_ok as [Hl Hh]. intros Hv. unfold info_text, info_conv.
  destruct (c =? 104) eqn:E1; [|destruct (c =? 112) eqn:E2]; cbn [orb].
  - intros <-%(inj Some). eexists. split; [done|]. split; [by apply (render_prints hexlow)|by apply (fixed_bytes _ 8)].
  - intros <-%(inj Some). destruct (c =? 72) eqn:E3; [lia|]. eexists. split; [done|].
    split; [by apply (render_prints hexlow)|by apply (fixed_bytes _ 8)].
  - destruct (c =? 72) eqn:E3; [|destruct (c =? 80) eqn:E4]; cbn [orb].
    + intros <-%(inj Some). eexists. split; [done|]. split; [by apply (render_prints hexhig)|by apply (fixed_bytes _ 8)].
    + intros <-%(inj Some). eexists. split; [done|]. split; [by apply (render_prints hexhig)|by apply (fixed_bytes _ 8)].
    + case_match; [|done]. intros <-%(inj Some). eexists. split; [done|].
      split; [apply unsigned_prints; [apply dec_ok|lia]|apply dec_bytes; lia].
Qed.

Lemma info_conv_none c : (forall v, info_text c v = None) -> info_conv c = None.
Proof.
  intros Hn. specialize (Hn 0). unfold info_text, info_conv in *.
  repeat (case_match; simplify_eq/=; try done).
Qed.

Section printinfo_ok.
Context {P V : Type} `{HP : IoPipe P} `{HL : !IoPipeLaws P V}.

Lemma vprintinfo_loop_ok l ap out :
  info_renders l ap out -> forall (fuel : nat) pend buf p,
  Forall arg_ok ap -> Forall (fun c => 0 <= c < 256) (pend ++ l) -> length buf = 100%nat -> io_ok p ->
  (length l < fuel)%nat -> length pend + length out < 2 ^ 31 ->
  exists p', vprintinfo_loop fuel (Some l) (Some (pend ++ l)) ap buf p = Done p' /\ emits p (pend ++ out) p'.
Proof using HL.
  induction 1 as [ap|c fmt ap out Hc0 Hc Hr IH|c fmt v ap o out Ht Hr IH|c fmt ap out Ht Hr IH];
    intros fuel pend buf p Hap Hb Hl Hok Hf Hlen;
    (destruct fuel as [|fuel]; [simpl in Hf; lia|]); cbn [vprintinfo_loop at0 mbind outcome_bind];
    pose proof Hb as [Hpend Hrest]%Forall_app.
  - rewrite Z.eqb_refl. rewrite app_nil_r.
    destruct (emit_pending_ok p pend []) as (p'&E&He); [done|done|simpl in Hlen; lia|].
    rewrite app_nil_r in E. by exists p'.
  - destruct (Z.eqb_spec c 0); [done|]. destruct (Z.eqb_spec c 126); [done|]. cbn [negb step].
    destruct (IH fuel (pend ++ [c]) buf p) as (p'&E&He);
      [done|by rewrite <-app_assoc|done|done|simpl in Hf; lia|rewrite length_app; simpl in *; lia|].
    rewrite <-app_assoc in E. exists p'. rewrite <-app_assoc in He. done.
  - cbn [Z.eqb Pos.eqb negb]. rewrite length_app in Hlen. apply Forall_cons in Hap as [Hv Hap].
    destruct (emit_pending_ok p pend (126 :: c :: fmt)) as (p1&E1&He1); [done|done|lia|].
    rewrite E1. cbn [mbind outcome_bind step at0].
    destruct (info_conv_prints c v o Hv Ht) as (f&Ef&Hp&Hob). rewrite Ef. cbn [va_word mbind outcome_bind].
    destruct (Hp buf Hl) as (pos&buf'&E2&Hl2&Htx). rewrite E2. cbn [mbind outcome_bind].
    rewrite Htx. cbn [mbind outcome_bind].
    destruct (emit_ok p1 o) as (p2&E3&He2); [apply He1|done|lia|]. rewrite E3. cbn [mbind outcome_bind].
    destruct (IH fuel [] buf' p2) as (p3&E4&He3);
      [done|by do 2 apply Forall_inv_tail in Hrest|done|apply He2|simpl in Hf; lia|simpl; lia|].
    simpl in E4. exists p3. split; [done|]. eapply emits_app; [exact He1|]. by eapply emits_app.
  - cbn [Z.eqb Pos.eqb negb].
    destruct (emit_pending_ok p pend (126 :: c :: fmt)) as (p1&E1&He1); [done|done|lia|].
    rewrite E1. cbn [mbind outcome_bind step at0]. rewrite info_conv_none by done.
    cbn [mbind outcome_bind].
    destruct (IH fuel [] buf p1) as (p3&E4&He3);
      [done|by do 2 apply Forall_inv_tail in Hrest|done|apply He1|simpl in Hf; lia|simpl; lia|].
    simpl in E4. exists p3. split; [done|]. eapply emits_app; [exact He1|done].
Qed.

(** [iopipe_vprintinfo] writes exactly the rendered text: physical and
    virtual addresses as eight hexadecimal digits, numbers in decimal. *)
Theorem iopipe_vprintinfo_correct (fuel : nat) buf fmt ap out p :
  info_renders fmt ap out -> Forall arg_ok ap -> Forall (fun c => 0 <= c < 256) fmt ->
  length buf = 100%nat -> io_ok p -> (length fmt < fuel)%nat -> length out < 2 ^ 31 ->
  exists p', iopipe_vprintinfo fuel buf fmt ap p = Done p' /\
    io_ok p' /\ io_view p' = fold_left io_feed out (io_view p).
Proof using HL.
  intros Hr Hap Hb Hl Hok Hf Hlen. exact (vprintinfo_loop_ok fmt ap out Hr fuel [] buf p Hap Hb Hl Hok Hf Hlen).
Qed.
End printinfo_ok.
