(* ===== verification/Terminal.v ===== *)
(** * The kernel terminal

    Models the text console ([platform/i686-pc/terminal.c], [vga.h]), the
    buffered terminal on top of it ([terminal/ccterm_base.c],
    [ccterm_output.c], [ccterm_output.h], [ansi_charmap.h]) and [kterm.c].
    The terminal is an [IoPipe]; [ccterm_laws] shows that it keeps the contract
    the printing functions are proved against. *)

From S2P Require Import Prelude IoPipe Printf PrintfProps.

(** ** The text console *)

Module Console.
Definition VGA_WIDTH : Z := 80.
Definition VGA_HEIGHT : Z := 25.
Definition VGA_COLOR_BLACK : Z := 0.
Definition VGA_COLOR_LIGHT_GREY : Z := 7.

Record console := Con {
  terminal_row : Z;
  terminal_column : Z;
  terminal_color : Z;
  terminal_buffer : list Z;
}.

Definition vga_entry_color (fg bg : Z) : Z := u8 (Z.lor fg (Z.shiftl bg 4)).
Definition vga_entry (uc color : Z) : Z := u16 (Z.lor uc (Z.shiftl color 8)).

(** The rows and columns of the nested loops of [console_init]. *)
Fixpoint clear_row (n : nat) (y x : Z) (v : Z) (buf : list Z) : outcome (list Z) :=
  match n with
  | O => Done buf
  | S n =>
      let index := y * VGA_WIDTH + x in
      _ ← deref (buf !! Z.to_nat index);
      clear_row n y (x + 1) v (<[Z.to_nat index := v]> buf)
  end.

Fixpoint clear_rows (n : nat) (y v : Z) (buf : list Z) : outcome (list Z) :=
  match n with
  | O => Done buf
  | S n => buf ← clear_row (Z.to_nat VGA_WIDTH) y 0 v buf; clear_rows n (y + 1) v buf
  end.

Definition console_init (c : console) : outcome console :=
  let color := vga_entry_color VGA_COLOR_LIGHT_GREY VGA_COLOR_BLACK in
  buf ← clear_rows (Z.to_nat VGA_HEIGHT) 0 (vga_entry 32 color) (terminal_buffer c);
  Done (Con 0 0 color buf).

Definition terminal_setcolor (color : Z) (c : console) : console :=
  Con (terminal_row c) (terminal_column c) color (terminal_buffer c).

Definition terminal_putentryat (ch color x y : Z) (c : console) : outcome console :=
  let index := y * VGA_WIDTH + x in
  _ ← deref (terminal_buffer c !! Z.to_nat index);
  Done (Con (terminal_row c) (terminal_column c) (terminal_color c)
          (<[Z.to_nat index := vga_entry ch color]> (terminal_buffer c))).

Definition console_get_col (c : console) : Z := terminal_column c.

Definition console_carriage_return (c : console) : console :=
  Con (terminal_row c) 0 (terminal_color c) (terminal_buffer c).

Definition console_newline (c : console) : console :=
  let row := terminal_row c +u 1 in
  Con (if row =? VGA_HEIGHT then 0 else row) (terminal_column c) (terminal_color c) (terminal_buffer c).

Definition console_putchar (ch : Z) (c : console) : outcome console :=
  let uc := u8 ch in
  c ← terminal_putentryat uc (terminal_color c) (terminal_column c) (terminal_row c) c;
  let col := terminal_column c +u 1 in
  if col =? VGA_WIDTH then
    let row := terminal_row c +u 1 in
    Done (Con (if row =? VGA_HEIGHT then 0 else row) 0 (terminal_color c) (terminal_buffer c))
  else Done (Con (terminal_row c) col (terminal_color c) (terminal_buffer c)).

Fixpoint console_write_text (data : list Z) (c : console) : outcome console :=
  match data with
  | [] => Done c
  | ch :: data => c ← console_putchar ch c; console_write_text data c
  end.

(** The cursor is on the screen and the buffer covers it. *)
Definition con_ok (c : console) : Prop :=
  0 <= terminal_row c < 25 /\ 0 <= terminal_column c < 80 /\ length (terminal_buffer c) = 2000%nat.

(** What a character does to the screen and the cursor. *)
Definition typed (ch : Z) (c : console) : console :=
  let pos := terminal_row c * 80 + terminal_column c in
  let next := (pos + 1) mod 2000 in
  Con (next / 80) (next mod 80) (terminal_color c)
    (<[Z.to_nat pos := vga_entry (u8 ch) (terminal_color c)]> (terminal_buffer c)).

Definition line_down (c : console) : console :=
  Con ((terminal_row c + 1) mod 25) (terminal_column c) (terminal_color c) (terminal_buffer c).

Lemma console_putchar_ok ch c : con_ok c -> console_putchar ch c = Done (typed ch c) /\ con_ok (typed ch c).
Proof.
  intros (Hr&Hc&Hl). unfold console_putchar, terminal_putentryat, typed, VGA_WIDTH, VGA_HEIGHT.
  destruct (lookup_lt_is_Some_2 (terminal_buffer c)
    (Z.to_nat (terminal_row c * 80 + terminal_column c))) as [w ->]; [lia|]. cbn.
  rewrite !u32_add_nowrap by lia.
  set (pos := terminal_row c * 80 + terminal_column c).
  assert (Hpos : 0 <= pos < 2000) by lia.
  split.
  - destruct (Z.eqb_spec (terminal_column c + 1) 80) as [E|E];
      [destruct (Z.eqb_spec (terminal_row c + 1) 25) as [E'|E']|].
    + by replace (pos + 1) with 2000 by lia.
    + rewrite (Z.mod_small (pos + 1)) by lia. replace (pos + 1) with ((terminal_row c + 1) * 80) by lia.
      by rewrite Z.div_mul, Z.mod_mul.
    + rewrite (Z.mod_small (pos + 1)) by lia.
      replace (pos + 1) with (terminal_column c + 1 + terminal_row c * 80) by lia.
      rewrite Z.div_add, Z.mod_add, Z.div_small, Z.mod_small by lia. done.
  - pose proof (Z.mod_pos_bound (pos + 1) 2000). pose proof (Z.mod_pos_bound ((pos + 1) mod 2000) 80).
    split_and!; cbn; try lia.
    + apply Z.div_pos; lia.
    + apply Z.div_lt_upper_bound; lia.
    + by rewrite length_insert.
Qed.

Lemma console_newline_ok c : con_ok c -> console_newline c = line_down c /\ con_ok (line_down c).
Proof.
  intros (Hr&Hc&Hl). unfold console_newline, line_down, VGA_HEIGHT. rewrite u32_add_nowrap by lia.
  split.
  - f_equal. destruct (Z.eqb_spec (terminal_row c + 1) 25) as [->|]; [done|].
    by rewrite Z.mod_small by lia.
  - pose proof (Z.mod_pos_bound (terminal_row c + 1) 25). split_and!; cbn; lia || done.
Qed.

Lemma console_write_text_ok data c :
  con_ok c -> console_write_text data c = Done (fold_left (fun c ch => typed ch c) data c) /\
    con_ok (fold_left (fun c ch => typed ch c) data c).
Proof.
  revert c. induction data as [|ch data IH]; intros c Hok; simpl; [done|].
  destruct (console_putchar_ok ch c Hok) as [E Hok']. rewrite E. cbn [mbind outcome_bind]. by apply IH.
Qed.
End Console.

Import Console.

(** ** The buffered terminal *)

(** The enumeration of [ansi_charmap.h] and its table; the entries the source
    does not list are [CM_DEFAULT]. *)
Inductive charmap_class := CM_DEFAULT | CM_PRINT | CM_IGNORE | CM_CR | CM_NL | CM_TAB | CM_BACKSPACE.

Definition ansi_charmap (c : Z) : charmap_class :=
  if c =? 13 then CM_CR
  else if c =? 10 then CM_NL
  else if c =? 0x08 then CM_BACKSPACE
  else if c =? 9 then CM_TAB
  else if c =? 0x0b then CM_TAB
  else if c =? 0x7f then CM_IGNORE
  else CM_DEFAULT.

(** [cmc = ansi_charmap[curb]; if(!cmc) cmc = (curb<0x20)?CM_IGNORE:CM_PRINT;] *)
Definition char_class (curb : Z) : charmap_class :=
  match ansi_charmap curb with
  | CM_DEFAULT => if curb <? 0x20 then CM_IGNORE else CM_PRINT
  | c => c
  end.

(** The two operation tables, [ccterm_std_ops] and [ccterm_lite_ops]. *)
Inductive ccterm_ops := ccterm_std_ops | ccterm_lite_ops.

(** [struct ccterm_buffer], with the console it prints on. *)
Record ccterm := Ccterm {
  o_buffer : list Z;
  o_begin : Z;
  o_end : Z;
  ops : option ccterm_ops;
  con : console;
}.

Definition CCTB_CUT (i : Z) : Z := Z.land i 1023.
Definition CCTB_IDX (b : ccterm) (i : Z) : outcome Z :=
  deref (o_buffer b !! Z.to_nat (Z.land (o_begin b + i) 1023)).
Definition CCTB_EOB (b : ccterm) (i : Z) : bool := Z.land (o_begin b + i) 1023 =? o_end b.

Definition TABWIDTH : Z := 4.

Fixpoint put_spaces (n : nat) (c : console) : outcome console :=
  match n with O => Done c | S n => c ← console_putchar 32 c; put_spaces n c end.

Definition cc_tab (c : console) : outcome console :=
  put_spaces (Z.to_nat (TABWIDTH - (console_get_col c mod TABWIDTH))) c.

(** The loops of the two [o_consume] functions: the number of bytes taken and
    the console. *)
Fixpoint std_loop (fuel : nat) (i : Z) (b : ccterm) (c : console) : outcome (Z * console) :=
  match fuel with
  | O => OutOfFuel
  | S fuel =>
      if CCTB_EOB b i then Done (i, c)
      else
        curb ← CCTB_IDX b i;
        c ← match char_class curb with
            | CM_PRINT => console_putchar curb c
            | CM_CR => Done (console_carriage_return c)
            | CM_NL => Done (console_newline c)
            | CM_TAB => cc_tab c
            | _ => Done c
            end;
        std_loop fuel (u16 (i + 1)) b c
  end.

Fixpoint lite_loop (fuel : nat) (i : Z) (b : ccterm) (c : console) : outcome (Z * console) :=
  match fuel with
  | O => OutOfFuel
  | S fuel =>
      if CCTB_EOB b i then Done (i, c)
      else
        curb ← CCTB_IDX b i;
        c ← match char_class curb with
            | CM_PRINT => console_putchar curb c
            | CM_NL => Done (console_newline (console_carriage_return c))
            | CM_TAB => cc_tab c
            | _ => Done c
            end;
        lite_loop fuel (u16 (i + 1)) b c
  end.

Definition ccterm_std_ops_consume (b : ccterm) : outcome ccterm :=
  '(i, c) ← std_loop 1025 0 b (con b);
  Done (Ccterm (o_buffer b) (CCTB_CUT (o_begin b + i)) (o_end b) (ops b) c).

Definition ccterm_lite_ops_consume (b : ccterm) : outcome ccterm :=
  '(i, c) ← lite_loop 1025 0 b (con b);
  Done (Ccterm (o_buffer b) (CCTB_CUT (o_begin b + i)) (o_end b) (ops b) c).

(** [cctb->ops->o_consume(cctb)] *)
Definition o_consume (b : ccterm) : outcome ccterm :=
  o ← deref (ops b);
  match o with
  | ccterm_std_ops => ccterm_std_ops_consume b
  | ccterm_lite_ops => ccterm_lite_ops_consume b
  end.

(** The inner loop [for(j=0;;j++)] of [ccterm_writeraw]: [Some next] when there
    is room at [o_end], [None] when the function gives up. *)
Fixpoint make_room (fuel : nat) (j : Z) (b : ccterm) : outcome (option Z * ccterm) :=
  match fuel with
  | O => OutOfFuel
  | S fuel =>
      let cur := o_end b in
      let next := CCTB_CUT (cur + 1) in
      if negb (o_begin b =? next) then Done (Some next, b)
      else if 3 <? j then Done (None, b)
      else b ← o_consume b; make_room fuel (j + 1) b
  end.

(** The outer loop, [i] bytes written: the result of the function, [None] when
    all bytes are in the buffer. *)
Fixpoint writeraw_loop (buf : list Z) (i : Z) (b : ccterm) : outcome (option Z * ccterm) :=
  match buf with
  | [] => Done (None, b)
  | c :: buf =>
      '(next, b) ← make_room 6 0 b;
      match next with
      | None => Done (Some i, b)
      | Some next =>
          _ ← deref (o_buffer b !! Z.to_nat (o_end b));
          writeraw_loop buf (i + 1)
            (Ccterm (<[Z.to_nat (o_end b) := c]> (o_buffer b)) (o_begin b) next (ops b) (con b))
      end
  end.

(** The result is converted to [ssize_t]. *)
Definition ccterm_writeraw (buf : list Z) (size : Z) (b : ccterm) : outcome (Z * ccterm) :=
  '(r, b) ← writeraw_loop (take (Z.to_nat size) buf) 0 b;
  match r with
  | Some i => Done (i32 i, b)
  | None =>
      b ← (if negb (o_begin b =? o_end b) then o_consume b else Done b);
      Done (i32 size, b)
  end.

Definition ccterm_read (kbu : kern_uio) (b : ccterm) : outcome (Z * kern_uio * ccterm) := Done (0, kbu, b).

Definition ccterm_write (kbu : kern_uio) (b : ccterm) : outcome (Z * ccterm) :=
  match kbu_space kbu with
  | KBU_AS_SYS =>
      if kbu_iovec_n kbu =? 1 then
        v ← deref (kbu_iovec kbu !! 0%nat); ccterm_writeraw (iov_base v) (iov_len v) b
      else Done (0, b)
  | KBU_AS_USR => Done (0, b)
  end.

#[export] Instance ccterm_pipe : IoPipe ccterm := {
  io_read := ccterm_read;
  io_write := ccterm_write;
}.

(** [ccterm_init]; [kterm_init] calls it and makes the terminal the kernel's. *)
Definition ccterm_init (b : ccterm) : outcome ccterm :=
  c ← console_init (con b);
  Done (Ccterm (o_buffer b) (o_begin b) (o_end b) (Some ccterm_lite_ops) c).

Definition kterm_init (b : ccterm) : outcome ccterm := ccterm_init b.

(** The static objects before [kterm_init], over the contents of the screen. *)
Definition ccterm_bss (screen : list Z) : ccterm :=
  Ccterm (replicate 1024 0) 0 0 None (Con 0 0 0 screen).

(** ** What the terminal shows *)

(** The effect of one byte written to the terminal. *)
Definition feed (c : console) (ch : Z) : console :=
  match char_class ch with
  | CM_PRINT => typed ch c
  | CM_NL => line_down (console_carriage_return c)
  | CM_TAB => Nat.iter (Z.to_nat (4 - terminal_column c mod 4)) (typed 32) c
  | _ => c
  end.

Lemma put_spaces_ok n c : con_ok c ->
  put_spaces n c = Done (Nat.iter n (typed 32) c) /\ con_ok (Nat.iter n (typed 32) c).
Proof.
  revert c. induction n as [|n IH]; intros c Hok; [done|]. cbn [put_spaces].
  destruct (console_putchar_ok 32 c Hok) as [-> Hok']. cbn [mbind outcome_bind].
  rewrite Nat.iter_succ_r. by apply IH.
Qed.

(** The body of [lite_loop] is [feed]. *)
Lemma lite_char_ok c ch : con_ok c ->
  match char_class ch with
  | CM_PRINT => console_putchar ch c
  | CM_NL => Done (console_newline (console_carriage_return c))
  | CM_TAB => cc_tab c
  | _ => Done c
  end = Done (feed c ch) /\ con_ok (feed c ch).
Proof.
  intros Hok. unfold feed. destruct (char_class ch); try done.
  - by apply console_putchar_ok.
  - assert (con_ok (console_carriage_return c)) as Hok' by (destruct Hok as (?&?&?); split_and!; simpl; lia || done).
    destruct (console_newline_ok _ Hok') as [-> ?]. done.
  - unfold cc_tab. by apply put_spaces_ok.
Qed.

(** The [n] bytes of the ring from [o_begin] on. *)
Definition ring_bytes (b : ccterm) (n : nat) : list Z :=
  (fun k : nat => nth (Z.to_nat ((o_begin b + k) mod 1024)) (o_buffer b) 0) <$> seq 0 n.

Record cc_inv (b : ccterm) (n : nat) : Prop := {
  ci_len : length (o_buffer b) = 1024%nat;
  ci_begin : 0 <= o_begin b < 1024;
  ci_end : o_end b = (o_begin b + n) mod 1024;
  ci_n : n < 1024;
  ci_ops : ops b = Some ccterm_lite_ops;
  ci_con : con_ok (con b);
}.

Lemma land_1023 x : Z.land x 1023 = x mod 1024.
Proof. apply (land_ones_mod x 10). lia. Qed.

Lemma mod_1024_inj a b : 0 <= a < 1024 -> 0 <= b < 1024 -> forall x, (x + a) mod 1024 = (x + b) mod 1024 -> a = b.
Proof.
  intros Ha Hb x Heq. assert ((a - b) mod 1024 = 0) as Hz.
  { replace (a - b) with ((x + a) - (x + b)) by lia. rewrite Zminus_mod, Heq, Z.sub_diag. done. }
  apply Z.mod_divide in Hz as [q Hq]; lia.
Qed.

Lemma lite_loop_ok fuel i n b c :
  cc_inv b n -> con_ok c -> (i <= n)%nat -> (n - i < fuel)%nat ->
  lite_loop fuel i b c = Done (Z.of_nat n, fold_left feed (drop i (ring_bytes b n)) c) /\
  con_ok (fold_left feed (drop i (ring_bytes b n)) c).
Proof.
  intros Hinv. pose proof (ci_n _ _ Hinv) as Hn. revert i c. induction fuel as [|fuel IH]; intros i c Hc Hi Hf; [lia|].
  cbn [lite_loop]. unfold CCTB_EOB, CCTB_IDX. rewrite land_1023, (ci_end _ _ Hinv).
  destruct (Z.eqb_spec ((o_begin b + i) mod 1024) ((o_begin b + n) mod 1024)) as [E|E].
  - apply mod_1024_inj in E; [|lia|lia]. apply Nat2Z.inj in E. subst i.
    rewrite drop_ge; [done|]. unfold ring_bytes. by rewrite length_fmap, length_seq.
  - assert (i < n)%nat as Hlt by (destruct (decide (i = n)); [by subst|lia]).
    pose proof (Z.mod_pos_bound (o_begin b + i) 1024).
    destruct (lookup_lt_is_Some_2 (o_buffer b) (Z.to_nat ((o_begin b + i) mod 1024))) as [ch Hch].
    { rewrite (ci_len _ _ Hinv). lia. }
    rewrite Hch. cbn [deref mbind outcome_bind].
    destruct (lite_char_ok c ch Hc) as [-> Hc']. cbn [mbind outcome_bind].
    assert (ring_bytes b n !! i = Some ch) as Hb.
    { unfold ring_bytes. rewrite list_lookup_fmap, lookup_seq_lt by done. simpl. f_equal.
      by apply nth_lookup_Some. }
    rewrite (drop_S _ _ _ Hb). cbn [fold_left]. rewrite wrap_small by lia.
    replace (Z.of_nat i + 1) with (Z.of_nat (S i)) by lia. apply IH; [done|lia|lia].
Qed.

#[local] Arguments lite_loop : simpl never.

(** What is shown once the ring is drained. *)
Definition shown (b : ccterm) (n : nat) : console := fold_left feed (ring_bytes b n) (con b).

Lemma o_consume_ok b n : cc_inv b n ->
  exists b', o_consume b = Done b' /\ cc_inv b' 0 /\ con b' = shown b n.
Proof.
  intros Hinv. unfold o_consume, ccterm_lite_ops_consume. rewrite (ci_ops _ _ Hinv).
  cbn [deref mbind outcome_bind]. pose proof (ci_n _ _ Hinv).
  destruct (lite_loop_ok 1025 0 n b (con b) Hinv (ci_con _ _ Hinv)) as [E Hok]; [lia|lia|].
  change (Z.of_nat 0) with 0 in E. rewrite E. cbn [mbind outcome_bind]. rewrite drop_0 in *.
  eexists. split; [done|]. destruct Hinv as [Hlen Hbg Hend Hn Hops Hcon].
  split; [|done]. split; cbn [o_buffer o_begin o_end ops con]; try done.
  - unfold CCTB_CUT. rewrite land_1023. apply Z.mod_pos_bound. lia.
  - unfold CCTB_CUT. rewrite land_1023, <-Hend. symmetry. rewrite Z.add_0_r.
    apply Z.mod_small. rewrite Hend. apply Z.mod_pos_bound. lia.
Qed.

Lemma make_room_ok b n : cc_inv b n ->
  exists b' n', make_room 6 0 b = Done (Some ((o_end b' + 1) mod 1024), b') /\ cc_inv b' n' /\
    (n' + 1 < 1024)%nat /\ shown b' n' = shown b n.
Proof.
  intros Hinv. pose proof (ci_n _ _ Hinv) as Hn. cbn [make_room]. unfold CCTB_CUT. rewrite land_1023.
  destruct (Z.eqb_spec (o_begin b) ((o_end b + 1) mod 1024)) as [E|E]; cbn [negb].
  - cbn [Z.ltb Z.compare]. destruct (o_consume_ok b n Hinv) as (b'&->&Hinv'&Hcon). cbn [mbind outcome_bind].
    rewrite land_1023. pose proof (ci_begin _ _ Hinv') as Hbg.
    assert (o_end b' = o_begin b') as He.
    { rewrite (ci_end _ _ Hinv'), Z.add_0_r, Z.mod_small; lia. }
    destruct (Z.eqb_spec (o_begin b') ((o_end b' + 1) mod 1024)) as [E'|E']; cbn [negb].
    + exfalso. rewrite He in E'. assert ((o_begin b' + 0) mod 1024 = (o_begin b' + 1) mod 1024) as E2.
      { rewrite Z.add_0_r, (Z.mod_small (o_begin b')) by lia. done. }
      apply mod_1024_inj in E2; lia.
    + exists b', 0%nat. split_and!; [done|done|lia|]. unfold shown, ring_bytes. simpl. done.
  - exists b, n. split_and!; [done|done| |done].
    destruct (decide (n + 1 < 1024)%nat); [done|]. exfalso. apply E.
    rewrite (ci_end _ _ Hinv), Zplus_mod_idemp_l. pose proof (ci_begin _ _ Hinv).
    replace (o_begin b + n + 1) with (o_begin b + 1 * 1024) by lia.
    rewrite Z.mod_add, Z.mod_small by lia. done.
Qed.

(** Appending one byte to a ring that has room. *)
Lemma push_ok b n ch :
  cc_inv b n -> (n + 1 < 1024)%nat ->
  let b' := Ccterm (<[Z.to_nat (o_end b) := ch]> (o_buffer b)) (o_begin b) ((o_end b + 1) mod 1024) (ops b) (con b) in
  is_Some (o_buffer b !! Z.to_nat (o_end b)) /\ cc_inv b' (S n) /\ shown b' (S n) = feed (shown b n) ch.
Proof.
  intros [Hlen Hbg Hend Hn Hops Hcon] Hroom b'. pose proof (Z.mod_pos_bound (o_begin b + n) 1024).
  split_and!.
  - apply lookup_lt_is_Some_2. rewrite Hend. lia.
  - split; cbn [b' o_buffer o_begin o_end ops con]; try done.
    + by rewrite length_insert.
    + rewrite Hend, Zplus_mod_idemp_l. f_equal. lia.
    + lia.
  - unfold shown, ring_bytes. rewrite seq_S, fmap_app, fold_left_app. cbn [fmap list_fmap fold_left].
    cbn [b' o_buffer o_begin con Nat.add]. f_equal.
    + f_equal. apply list_fmap_ext. intros k x Hk%elem_of_seq || intros k x Hk.
      apply lookup_seq in Hk as [-> Hk]. simpl.
      rewrite !nth_lookup, list_lookup_insert_ne; [done|]. rewrite Hend. intros Heq.
      pose proof (Z.mod_pos_bound (o_begin b + k) 1024).
      assert ((o_begin b + n) mod 1024 = (o_begin b + k) mod 1024) as E by lia.
      apply mod_1024_inj in E; lia.
    + rewrite nth_lookup, <-Hend, list_lookup_insert_eq; [done|]. rewrite Hend. lia.
Qed.

Lemma writeraw_loop_ok buf i b n :
  cc_inv b n ->
  exists b' n', writeraw_loop buf i b = Done (None, b') /\ cc_inv b' n' /\
    shown b' n' = fold_left feed buf (shown b n).
Proof.
  revert i b n. induction buf as [|ch buf IH]; intros i b n Hinv; cbn [writeraw_loop].
  { by exists b, n. }
  destruct (make_room_ok b n Hinv) as (b1&n1&->&Hinv1&Hroom&Hs1). cbn [mbind outcome_bind].
  destruct (push_ok b1 n1 ch Hinv1 Hroom) as ([w Hw]&Hinv2&Hs2). rewrite Hw. cbn [deref mbind outcome_bind].
  destruct (IH (i + 1) _ _ Hinv2) as (b'&n'&E&Hinv'&Hs'). exists b', n'.
  split; [exact E|]. split; [done|]. rewrite Hs', Hs2, Hs1. done.
Qed.

Lemma ccterm_writeraw_ok buf b n :
  cc_inv b n ->
  exists b', ccterm_writeraw buf (length buf) b = Done (i32 (length buf), b') /\
    cc_inv b' 0 /\ con b' = fold_left feed buf (shown b n).
Proof.
  intros Hinv. unfold ccterm_writeraw. rewrite Nat2Z.id, take_ge by done.
  destruct (writeraw_loop_ok buf 0 b n Hinv) as (b1&n1&->&Hinv1&Hs). cbn [mbind outcome_bind].
  destruct (Z.eqb_spec (o_begin b1) (o_end b1)) as [E|E]; cbn [negb].
  - pose proof Hinv1 as [Hlen Hbg Hend Hn Hops Hcon]. rewrite Hend in E.
    assert (n1 = 0)%nat as ->.
    { assert ((o_begin b1 + 0) mod 1024 = (o_begin b1 + n1) mod 1024) as E2
        by (rewrite Z.add_0_r, (Z.mod_small (o_begin b1)) by lia; done).
      apply mod_1024_inj in E2; lia. }
    exists b1. split; [done|]. split; [done|]. exact Hs.
  - destruct (o_consume_ok b1 n1 Hinv1) as (b2&->&Hinv2&Hc). cbn [mbind outcome_bind].
    exists b2. split; [done|]. split; [done|]. rewrite Hc. exact Hs.
Qed.

Lemma size_fits (n : nat) : n < 2 ^ 31 -> i32 n = n.
Proof. intros Hn. apply swrap_small; lia. Qed.

Lemma ccterm_pipe_write b buf :
  cc_inv b 0 -> length buf < 2 ^ 31 ->
  exists b', iopipe_write buf (length buf) b = Done (Z.of_nat (length buf), b') /\ cc_inv b' 0 /\
    con b' = fold_left feed buf (con b).
Proof.
  intros Hok Hl. destruct (ccterm_writeraw_ok buf b 0 Hok) as (b'&E&Hok'&Hc). rewrite size_fits in E by done. by exists b'.
Qed.

(** The terminal keeps the contract of a pipe. *)
#[export] Instance ccterm_laws : IoPipeLaws ccterm console := {
  io_ok := fun b => cc_inv b 0;
  io_view := con;
  io_feed := feed;
  io_write_law := fun b buf Hok _ Hl => ccterm_pipe_write b buf Hok Hl;
}.

(** C31: a write to the terminal with the operations [ccterm_init] gives it
    ([ccterm_lite_ops]), of any number of bytes a [size_t] can hold and whatever
    the fill of its ring, is complete: every byte has been printed, in order,
    exactly once, and the ring is empty again.  The result is the size as a
    [ssize_t]: the size itself below 2^31 bytes, and a negative number from there
    on.  The cursor stays on the screen and no access leaves the ring or the
    screen buffer. *)
Theorem ccterm_write_correct buf b n :
  cc_inv b n -> length buf < 2 ^ 32 ->
  exists r b', ccterm_write (Kern_uio [Iovec buf (length buf)] 1 (length buf) KBU_WRITE KBU_AS_SYS) b = Done (r, b') /\
    (length buf < 2 ^ 31 -> r = length buf) /\ (2 ^ 31 <= length buf -> r = length buf - 2 ^ 32) /\
    cc_inv b' 0 /\ con b' = fold_left feed (ring_bytes b n ++ buf) (con b).
Proof.
  intros Hinv Hl. rewrite fold_left_app. destruct (ccterm_writeraw_ok buf b n Hinv) as (b'&E&Hinv'&Hc).
  exists (i32 (length buf)), b'. split; [exact E|]. split; [apply size_fits|]. split; [|done].
  intros Hge. unfold swrap, wrap. rewrite Z.mod_small by lia.
  destruct (Z.ltb_spec (length buf) (2 ^ (32 - 1))); lia.
Qed.

(** ** Start of the terminal *)

Lemma clear_row_ok (n : nat) y x v (buf : list Z) :
  0 <= y -> 0 <= x -> y * 80 + x + n <= length buf ->
  exists buf', clear_row n y x v buf = Done buf' /\ length buf' = length buf.
Proof.
  revert x buf. induction n as [|n IH]; intros x buf Hy Hx Hl; cbn [clear_row]; [by exists buf|].
  unfold VGA_WIDTH. destruct (lookup_lt_is_Some_2 buf (Z.to_nat (y * 80 + x))) as [w ->]; [lia|].
  cbn [deref mbind outcome_bind].
  destruct (IH (x + 1) (<[Z.to_nat (y * 80 + x) := v]> buf)) as (buf'&E&Hl'); [lia|lia|rewrite length_insert; lia|].
  exists buf'. rewrite length_insert in Hl'. done.
Qed.

Lemma clear_rows_ok (n : nat) y v (buf : list Z) :
  0 <= y -> (y + n) * 80 <= length buf ->
  exists buf', clear_rows n y v buf = Done buf' /\ length buf' = length buf.
Proof.
  revert y buf. induction n as [|n IH]; intros y buf Hy Hl; cbn [clear_rows]; [by exists buf|].
  destruct (clear_row_ok (Z.to_nat VGA_WIDTH) y 0 v buf) as (b1&->&Hl1); [lia|lia|unfold VGA_WIDTH; lia|].
  cbn [mbind outcome_bind]. destruct (IH (y + 1) b1) as (b2&E&Hl2); [lia|lia|].
  exists b2. split; [done|]. congruence.
Qed.

(** [kterm_init] on zeroed objects and a screen of 80 by 25 leaves a terminal
    that is ready for the printing functions. *)
Lemma kterm_init_ok screen :
  length screen = 2000%nat -> exists b, kterm_init (ccterm_bss screen) = Done b /\ io_ok b.
Proof.
  intros Hl. unfold kterm_init, ccterm_init, console_init. cbn [ccterm_bss con terminal_buffer].
  destruct (clear_rows_ok (Z.to_nat VGA_HEIGHT) 0 (vga_entry 32 (vga_entry_color VGA_COLOR_LIGHT_GREY VGA_COLOR_BLACK))
    screen) as (buf&->&Hb); [lia|unfold VGA_HEIGHT; lia|].
  cbn [mbind outcome_bind]. eexists. split; [done|]. split; cbn; try lia; try done.
  split_and!; cbn; lia.
Qed.

(** ** A run of the terminal *)

Module TerminalExample.
Definition term0 : ccterm :=
  Ccterm (replicate 1024 0) 0 0 (Some ccterm_lite_ops) (Con 0 0 7 (replicate 2000 0)).

Lemma term0_ok : cc_inv term0 0.
Proof. split; vm_compute; try reflexivity; try (split; [discriminate|reflexivity]); repeat split; discriminate. Defined.

Lemma ccterm_write_correct_witness : exists b',
  ccterm_write (Kern_uio [Iovec [72; 105; 10] 3] 1 3 KBU_WRITE KBU_AS_SYS) term0 = Done (3, b') /\
  terminal_row (con b') = 1 /\ terminal_column (con b') = 0.
Proof.
  destruct (ccterm_write_correct [72; 105; 10] term0 0 term0_ok) as (r&b'&E&Hr&_&_&Hc); [cbn; lia|].
  rewrite Hr in E by (cbn; lia). exists b'. split; [exact E|]. rewrite Hc. split; vm_compute; reflexivity.
Defined.

(** The format %d%% with a newline, for -42. *)
Definition fmt : list Z := [37; 100; 37; 37; 10].

Lemma fmt_renders : renders fmt [AWord (2 ^ 32 - 42)] [45; 52; 50; 37; 10].
Proof.
  apply (renders_conv [100; 37; 37; 10] [45; 52; 50] [37; 37; 10] _ []); [discriminate|vm_compute; reflexivity|].
  apply renders_percent. apply renders_char; [discriminate|discriminate|]. apply renders_end.
Defined.

Lemma iopipe_vioprintf_correct_witness : exists p',
  iopipe_vioprintf 6 (replicate 100 0) fmt [AWord (2 ^ 32 - 42)] term0 = Done (5, p') /\
  io_view p' = fold_left io_feed [45; 52; 50; 37; 10] (io_view term0).
Proof.
  destruct (iopipe_vioprintf_correct (P := ccterm) (V := console) 6 (replicate 100 0) fmt
    [AWord (2 ^ 32 - 42)] [45; 52; 50; 37; 10] term0 fmt_renders) as (p'&E&_&Hv).
  - repeat constructor; simpl; lia.
  - unfold fmt. repeat constructor; lia.
  - reflexivity.
  - exact term0_ok.
  - simpl. lia.
  - simpl. lia.
  - exists p'. split; [exact E|exact Hv].
Defined.

Lemma iopipe_vprintinfo_correct_witness : exists p',
  iopipe_vprintinfo 3 (replicate 100 0) [126; 104] [AWord 0xB8000] term0 = Done p' /\
  io_view p' = fold_left io_feed [48; 48; 48; 98; 56; 48; 48; 48] (io_view term0).
Proof.
  destruct (iopipe_vprintinfo_correct (P := ccterm) (V := console) 3 (replicate 100 0) [126; 104]
    [AWord 0xB8000] [48; 48; 48; 98; 56; 48; 48; 48] term0) as (p'&E&_&Hv).
  - apply (info_conversion 104 [] 0xB8000 [] [48; 48; 48; 98; 56; 48; 48; 48] []); [vm_compute; reflexivity|].
    apply info_end.
  - repeat constructor; simpl; lia.
  - repeat constructor; lia.
  - reflexivity.
  - exact term0_ok.
  - simpl. lia.
  - simpl. lia.
  - exists p'. split; [exact E|exact Hv].
Defined.

(** A lone percent sign at the end of the format runs past its NUL. *)
Lemma printf_trailing_percent_faults :
  iopipe_vioprintf 6 (replicate 100 0) [97; 37] [] term0 = Fault.
Proof. vm_compute. reflexivity. Qed.
End TerminalExample.
