(* ===== verification/Mmu.v ===== *)
(** * Page tables of the i686 port

    Models [arch/i686/physmem.c] (temporary mappings of physical pages in the
    kernel page table), [arch/i686/mmu.c] (the [pmap] interface and the TLB),
    [x86/mmu.h], [x86/pmap.h] and the cross-CPU wrappers [xcpu/vm.c].

    Physical memory is a map from word addresses to 32-bit words; a kernel
    virtual address between 0xC0000000 and 0xC1000000 is translated by the
    kernel page table [kpt] ([_i686_kernel_page_table], the four tables set up
    by the boot code), as the processor does.  The tables behind the directory
    entries 772 to 1023 are ordinary pages of physical memory. *)

From S2P Require Import Prelude Spinlock PhysAlloc.

(** ** x86/mmu.h *)

Definition PTE_P : Z := 0x001.
Definition PTE_W : Z := 0x002.
Definition PTE_PW : Z := 0x003.
Definition PTE_ADDR (pte : Z) : Z := Z.land pte (not32 0xFFF).
Definition PTE_FLAGS (pte : Z) : Z := Z.land pte 0xFFF.
Definition PDX (va : Z) : Z := Z.land (Z.shiftr va 22) 0x3FF.
Definition PTX (va : Z) : Z := Z.land (Z.shiftr va 12) 0x3FF.

Definition VM_PROT_READ : Z := 4.
Definition VM_PROT_WRITE : Z := 2.
Definition VM_PROT_EXECUTE : Z := 1.

(** ** State *)

(** The objects of the MMU code; [tlb] lists the addresses given to [invlpg],
    the latest first ([None] is a flush of the whole TLB). *)
Record mmu := Mmu {
  kpt : list Z;
  kpd : list Z;
  ram : gmap Z Z;
  map_sl : Z;
  tlb : list (option Z);
}.

Definition with_kpt (t : list Z) (s : mmu) : mmu := Mmu t (kpd s) (ram s) (map_sl s) (tlb s).
Definition with_kpd (d : list Z) (s : mmu) : mmu := Mmu (kpt s) d (ram s) (map_sl s) (tlb s).
Definition with_ram (r : gmap Z Z) (s : mmu) : mmu := Mmu (kpt s) (kpd s) r (map_sl s) (tlb s).
Definition with_map_sl (l : Z) (s : mmu) : mmu := Mmu (kpt s) (kpd s) (ram s) l (tlb s).
Definition invlpg (va : Z) (s : mmu) : mmu := Mmu (kpt s) (kpd s) (ram s) (map_sl s) (Some va :: tlb s).

(** Translation of a kernel address below 0xC1000000. *)
Definition translate (va : Z) (s : mmu) : outcome Z :=
  pte ← deref (kpt s !! Z.to_nat (Z.shiftr (va -u 0xC0000000) 12));
  if truthy (Z.land pte PTE_P) then Done (PTE_ADDR pte + Z.land va 0xFFF) else Fault.

Definition va_load (va : Z) (s : mmu) : outcome Z := pa ← translate va s; deref (ram s !! pa).

Definition va_store (va w : Z) (s : mmu) : outcome mmu :=
  pa ← translate va s; _ ← deref (ram s !! pa); Done (with_ram (<[pa := w]> (ram s)) s).

(** ** physmem.c *)

Definition KPTMIN : Z := 3072.
Definition KPTMAX : Z := 4096.

(** The first free slot of the window, [KPTMAX] when there is none. *)
Definition first_free (t : list Z) : Z :=
  match find_index (fun e => e =? 0) (take 1024 (drop 3072 t)) with
  | Some k => KPTMIN + k
  | None => KPTMAX
  end.

Definition map_page (pa : Z) (s : mmu) : outcome (Z * mmu) :=
  l ← kernlock_lock 1 (map_sl s);
  let s := with_map_sl l s in
  let i := first_free (kpt s) in
  let '(res, s) :=
    if (KPTMIN <=? i) && (i <? KPTMAX) then
      let s := with_kpt (<[Z.to_nat i := Z.lor (PTE_ADDR pa) PTE_PW]> (kpt s)) s in
      let res := 0xC0000000 +u u32 (Z.shiftl i 12) in
      (res, invlpg res s)
    else (0, s) in
  Done (res, with_map_sl (kernlock_unlock (map_sl s)) s).

(** The inner loop of [map_page_range]: how many entries from [j] on, at most
    [n] and below [KPTMAX], are free. *)
Fixpoint run_length (n : nat) (j : Z) (t : list Z) : Z :=
  match n with
  | O => 0
  | S n =>
      if j <? KPTMAX then
        match t !! Z.to_nat j with
        | Some e => if e =? 0 then 1 + run_length n (j + 1) t else 0
        | None => 0
        end
      else 0
  end.

(** The outer loop, with [k] slots left to try: the slot a run of [n] free
    entries starts at, [KPTMAX] when there is none. *)
Fixpoint find_run (k : nat) (i n : Z) (t : list Z) : Z :=
  match k with
  | O => i
  | S k =>
      match t !! Z.to_nat i with
      | Some e => if e =? 0 then (if run_length (Z.to_nat n) i t =? n then i else find_run k (i + 1) n t)
                  else find_run k (i + 1) n t
      | None => i
      end
  end.

(** The entries written for the range. *)
Fixpoint enter_run (n : nat) (i pa : Z) (s : mmu) : outcome mmu :=
  match n with
  | O => Done s
  | S n =>
      _ ← deref (kpt s !! Z.to_nat i);
      let s := with_kpt (<[Z.to_nat i := Z.lor (PTE_ADDR pa) PTE_PW]> (kpt s)) s in
      enter_run n (i + 1) (pa +u 0x1000) (invlpg (0xC0000000 +u u32 (Z.shiftl i 12)) s)
  end.

(** The slots [i] runs over. *)
Definition KPTSLOTS : nat := Z.to_nat (KPTMAX - KPTMIN).

Definition map_page_range (pa n : Z) (s : mmu) : outcome (Z * mmu) :=
  if n =? 0 then Done (0, s)
  else
    l ← kernlock_lock 1 (map_sl s);
    let s := with_map_sl l s in
    let i := find_run KPTSLOTS KPTMIN n (kpt s) in
    '(res, s) ← (if (KPTMIN <=? i) && (i <? KPTMAX) then
                   s ← enter_run (Z.to_nat n) i pa s;
                   Done (0xC0000000 +u u32 (Z.shiftl i 12), s)
                 else Done (0, s));
    Done (res, with_map_sl (kernlock_unlock (map_sl s)) s).

Definition unmap_page (va : Z) (s : mmu) : outcome mmu :=
  let i := Z.shiftr (va -u 0xC0000000) 12 in
  _ ← deref (kpt s !! Z.to_nat i);
  Done (invlpg va (with_kpt (<[Z.to_nat i := 0]> (kpt s)) s)).

(** A byte of memory, from the little-endian word that holds it. *)
Definition va_load_byte (va : Z) (s : mmu) : outcome Z :=
  w ← va_load (va - va mod 4) s; Done (Z.land (Z.shiftr w (8 * (va mod 4))) 0xFF).

(** The EBDA and base memory addresses from the BIOS data area. *)
Definition _i686_get_mp (s : mmu) : outcome (Z * Z * mmu) :=
  '(va, s) ← map_page 0 s;
  if va =? 0 then Done (0, 0, s)
  else
    let ptr := va + 0x400 in
    b0 ← va_load_byte (ptr + 0x0F) s; b1 ← va_load_byte (ptr + 0x0E) s;
    b2 ← va_load_byte (ptr + 0x14) s; b3 ← va_load_byte (ptr + 0x13) s;
    s ← unmap_page va s;
    Done (u32 (Z.shiftl (Z.lor (Z.shiftl b0 8) b1) 4), u32 (Z.shiftl (Z.lor (Z.shiftl b2 8) b3) 10), s).

Definition __i686_mp_map_range (pa n : Z) (s : mmu) : outcome (Z * mmu) :=
  let off := Z.land pa 0xFFF in
  let m := Z.shiftr (off +u (n + 0xFFF)) 12 in
  '(va, s) ← map_page_range pa m s;
  Done (if va =? 0 then 0 else va +u off, s).

(** [for(i=first;i<=last;i += 0x1000) unmap_page(i);] *)
Fixpoint unmap_from (fuel : nat) (i last : Z) (s : mmu) : outcome mmu :=
  match fuel with
  | O => OutOfFuel
  | S fuel => if i <=? last then s ← unmap_page i s; unmap_from fuel (i +u 0x1000) last s else Done s
  end.

Definition __i686_mp_unmap_range (fuel : nat) (va n : Z) (s : mmu) : outcome mmu :=
  let first := Z.land va (not32 0xFFF) in
  let last := Z.land (va +u (n - 1)) (not32 0xFFF) in
  unmap_from fuel first last s.

(** [memset((void* )va,0,4096)], a word at a time. *)
Fixpoint clear_page (n : nat) (va : Z) (s : mmu) : outcome mmu :=
  match n with
  | O => Done s
  | S n => s ← va_store va 0 s; clear_page n (va + 4) s
  end.

Definition pmap_zero_page (pa : Z) (s : mmu) : outcome mmu :=
  '(va, s) ← map_page pa s;
  if va =? 0 then Panic "Cannot map Physical page."
  else s ← clear_page 1024 va s; unmap_page va s.

Definition _i686_pmap_pte_set (pa i pte : Z) (s : mmu) : outcome mmu :=
  '(va, s) ← map_page pa s;
  if va =? 0 then Panic "Cannot map Physical page."
  else s ← va_store (va + 4 * i) pte s; unmap_page va s.

Definition _i686_pmap_pte_get (pa i : Z) (s : mmu) : outcome (Z * mmu) :=
  '(va, s) ← map_page pa s;
  if va =? 0 then Done (0, s)
  else pte ← va_load (va + 4 * i) s; s ← unmap_page va s; Done (pte, s).

(** The two loops of [_i686_pmap_pdinit]. *)
Fixpoint pdinit_user (n : nat) (i va : Z) (s : mmu) : outcome mmu :=
  match n with
  | O => Done s
  | S n => s ← va_store (va + 4 * i) 0 s; pdinit_user n (i + 1) va s
  end.
Fixpoint pdinit_kernel (n : nat) (i va : Z) (s : mmu) : outcome mmu :=
  match n with
  | O => Done s
  | S n => e ← deref (kpd s !! Z.to_nat i); s ← va_store (va + 4 * i) e s; pdinit_kernel n (i + 1) va s
  end.

Definition _i686_pmap_pdinit (pa : Z) (s : mmu) : outcome mmu :=
  '(va, s) ← map_page pa s;
  if va =? 0 then Panic "Cannot map Physical page."
  else s ← pdinit_user 768 0 va s; s ← pdinit_kernel 256 768 va s; unmap_page va s.

(** ** mmu.c *)

(** [struct pmap]; the kernel slice is given by the page allocator of the
    machine.  [p_inst_kernel] is the only instance there is. *)
Record pmap := Pmap { pdir : Z; vab : Z; vae : Z }.

Inductive pmap_t := PNull | PKernel.

#[export] Instance pmap_t_eq_dec : EqDecision pmap_t.
Proof. solve_decision. Defined.

(** The kernel address space: its page directory is [_i686_kernel_page_dir]. *)
Definition p_inst_kernel (page_dir : Z) : pmap :=
  Pmap (page_dir -u 0xC0000000) 0xC1000000 (0xFE000000 - 1).

(** The loop of [pmap_init] over the directory entries. *)
Fixpoint pmap_init_from (n : nat) (i : Z) (p : physmem) (s : mmu) : outcome (physmem * mmu) :=
  match n with
  | O => Done (p, s)
  | S n =>
      '(res, p) ← vm_phys_alloc p;
      '(phys, s) ← match res with
                   | Some phys => s ← pmap_zero_page phys s; Done (Z.lor phys PTE_PW, s)
                   | None => Done (0, s)
                   end;
      _ ← deref (kpd s !! Z.to_nat i);
      pmap_init_from n (i + 1) p (with_kpd (<[Z.to_nat i := phys]> (kpd s)) s)
  end.

Definition pmap_init (page_dir : Z) (p : physmem) (s : mmu) : outcome (pmap * physmem * mmu) :=
  '(p, s) ← pmap_init_from (Z.to_nat (1024 - (768 + 4))) (768 + 4) p s;
  Done (p_inst_kernel page_dir, p, s).

Definition pmap_kernel : pmap_t := PKernel.
Definition pmap_create : pmap_t := PNull.
Definition pmap_destroy (pm : pmap_t) (s : mmu) : mmu := s.

Definition pmap_get_address_range (pm : pmap) : Z * Z := (vab pm, vae pm).

Definition pmap_enter (pm : pmap_t) (va pa prot flags : Z) (s : mmu) : outcome (Z * mmu) :=
  let i := PDX va in
  let j := PTX va in
  let pte := Z.lor (PTE_ADDR pa) PTE_P in
  let pte := if truthy (Z.land prot VM_PROT_WRITE) then Z.lor pte PTE_W else pte in
  if decide (pm = PKernel) then
    pta ← deref (kpd s !! Z.to_nat i);
    if PTE_FLAGS pta =? 0 then Done (1, s)
    else s ← _i686_pmap_pte_set (PTE_ADDR pta) j pte s; Done (0, s)
  else Done (1, s).

Definition pmap_remove (pm : pmap_t) (vab vae : Z) (s : mmu) : Z * mmu := (0, s).
Definition pmap_remove_all (pm : pmap_t) (s : mmu) : Z * mmu := (0, s).
Definition pmap_protect (pm : pmap_t) (vab vae prot : Z) (s : mmu) : Z * mmu := (0, s).

Definition mmu_tlb_flush_all (s : mmu) : mmu := Mmu (kpt s) (kpd s) (ram s) (map_sl s) (None :: tlb s).

Fixpoint flush_from (fuel : nat) (begin_ end_ : Z) (s : mmu) : outcome mmu :=
  match fuel with
  | O => OutOfFuel
  | S fuel => if begin_ <=? end_ then flush_from fuel (begin_ +u 0x1000) end_ (invlpg begin_ s) else Done s
  end.

Definition mmu_tlb_flush_range (fuel : nat) (begin_ end_ : Z) (s : mmu) : outcome mmu :=
  flush_from fuel (Z.land begin_ (not32 0xfff)) (Z.land end_ (not32 0xfff)) s.

Definition mmu_tlb_flush_page (pos : Z) (s : mmu) : mmu := invlpg pos s.
Definition mmu_cache_flush_all (s : mmu) : mmu := s.
Definition mmu_cache_flush_range (begin_ end_ : Z) (s : mmu) : mmu := s.
Definition mmu_cache_flush_page (pos : Z) (s : mmu) : mmu := s.

(** ** xcpu/vm.c *)

Definition xcpu_tlb_flush_all (pm : pmap_t) (s : mmu) : mmu := mmu_tlb_flush_all s.
Definition xcpu_tlb_flush_range (fuel : nat) (pm : pmap_t) (begin_ end_ : Z) (s : mmu) : outcome mmu :=
  mmu_tlb_flush_range fuel begin_ end_ s.
Definition xcpu_tlb_flush_page (pm : pmap_t) (pos : Z) (s : mmu) : mmu := mmu_tlb_flush_page pos s.
Definition xcpu_cache_flush_all (pm : pmap_t) (s : mmu) : mmu := s.
Definition xcpu_cache_flush_range (pm : pmap_t) (begin_ end_ : Z) (s : mmu) : mmu := s.
Definition xcpu_cache_flush_page (pm : pmap_t) (pos : Z) (s : mmu) : mmu := s.
