(* ===== verification/MmuProps.v ===== *)
(** * Correctness of the page table code

    The temporary mappings of [physmem.c] leave no trace, and [pmap_enter] and
    [pmap_init] are related to [walk], the page walk of the processor. *)

From S2P Require Import Prelude Spinlock PhysAlloc Mmu.

(** ** Bits of page table entries *)

Lemma PTE_ADDR_eq x : in_u32 x -> PTE_ADDR x = x - x mod 4096.
Proof. intros Hx. unfold PTE_ADDR. change 0xFFF with (2 ^ 12 - 1). by apply land_not_mask. Qed.

Lemma land_fff x : Z.land x 0xFFF = x mod 4096.
Proof. apply (land_ones_mod x 12). lia. Qed.

Lemma land_3ff x : Z.land x 0x3FF = x mod 1024.
Proof. apply (land_ones_mod x 10). lia. Qed.

Lemma land_aligned a g : a mod 4096 = 0 -> 0 <= g < 4096 -> Z.land a g = 0.
Proof.
  intros Ha Hg. apply Z.bits_inj'. intros i Hi. rewrite Z.land_spec, Z.bits_0.
  destruct (Z.lt_ge_cases i 12).
  - rewrite <-(Z.mod_pow2_bits_low a 12 i) by lia. change (2 ^ 12) with 4096. by rewrite Ha, Z.bits_0.
  - replace g with (g mod 2 ^ 12) by (apply Z.mod_small; lia).
    by rewrite Z.mod_pow2_bits_high, andb_false_r by lia.
Qed.

(** A page address with flag bits below 12. *)
Lemma lor_flags a f : a mod 4096 = 0 -> 0 <= f < 4096 -> Z.lor a f = a + f.
Proof. intros Ha Hf. pose proof (Z.add_lor_land a f). rewrite land_aligned in *; lia. Qed.

Lemma PTE_ADDR_aligned x : in_u32 x -> PTE_ADDR x mod 4096 = 0 /\ 0 <= PTE_ADDR x <= x /\ PTE_ADDR x + 4096 <= 2 ^ 32.
Proof.
  intros Hx. rewrite PTE_ADDR_eq by done. unfold in_u32 in Hx.
  pose proof (Z.mod_pos_bound x 4096). pose proof (Z.mod_le x 4096).
  pose proof (Z.div_mod x 4096 ltac:(done)). split; [|split]; [|lia|].
  - rewrite Zminus_mod_idemp_r, Z.sub_diag. done.
  - assert (x / 4096 < 2 ^ 20) by (apply Z.div_lt_upper_bound; lia). lia.
Qed.

(** An entry made of a page address and flags. *)
Lemma entry_addr a f : a mod 4096 = 0 -> 0 <= a < 2 ^ 32 -> 0 <= f < 4096 ->
  PTE_ADDR (Z.lor a f) = a /\ (forall g, Z.land (Z.lor a f) g = Z.lor (Z.land a g) (Z.land f g)).
Proof.
  intros Ha Hr Hf. split; [|intros g; by rewrite Z.land_lor_distr_l].
  rewrite lor_flags by done.
  assert (a + f < 2 ^ 32) by (pose proof (Z.div_mod a 4096 ltac:(done)); lia).
  rewrite PTE_ADDR_eq by (split; lia).
  rewrite Zplus_mod, Ha, Z.add_0_l, Z.mod_mod, (Z.mod_small f) by lia. lia.
Qed.

(** ** Temporary mappings *)

Record mmu_ok (s : mmu) : Prop := {
  mo_kpt : length (kpt s) = 4096%nat;
  mo_kpd : length (kpd s) = 1024%nat;
  mo_lock : map_sl s = 0;
}.

(** Some slot of the window for temporary mappings is free. *)
Definition window_free (s : mmu) : Prop := first_free (kpt s) < 4096.

(** The virtual address of slot [i]. *)
Definition slot_va (i : Z) : Z := 0xC0000000 + 4096 * i.

Lemma first_free_spec t :
  length t = 4096%nat -> first_free t < 4096 ->
  3072 <= first_free t < 4096 /\ t !! Z.to_nat (first_free t) = Some 0.
Proof.
  intros Hl. unfold first_free, KPTMIN, KPTMAX.
  destruct (find_index _ _) as [k|] eqn:E; [|lia].
  apply find_index_Some in E as [(e&He&Hz%Z.eqb_eq) _]. subst e.
  apply lookup_take_Some in He as [He Hk]. rewrite lookup_drop in He. intros _. split; [lia|].
  by replace (Z.to_nat (3072 + k)) with (3072 + k)%nat by lia.
Qed.

Lemma map_page_ok pa s :
  mmu_ok s -> window_free s ->
  exists i, 3072 <= i < 4096 /\ kpt s !! Z.to_nat i = Some 0 /\
    map_page pa s = Done (slot_va i,
      Mmu (<[Z.to_nat i := Z.lor (PTE_ADDR pa) PTE_PW]> (kpt s)) (kpd s) (ram s) 0 (Some (slot_va i) :: tlb s)).
Proof.
  intros [Hk Hd Hl] Hw. destruct (first_free_spec _ Hk Hw) as [Hi Hz].
  exists (first_free (kpt s)). split; [done|]. split; [done|]. unfold map_page.
  rewrite Hl, kernlock_lock_free. cbn [mbind outcome_bind with_map_sl kpt]. unfold KPTMIN, KPTMAX.
  destruct (Z.leb_spec 3072 (first_free (kpt s))), (Z.ltb_spec (first_free (kpt s)) 4096); try lia.
  cbn [andb]. assert (0xC0000000 +u u32 (Z.shiftl (first_free (kpt s)) 12) = slot_va (first_free (kpt s))) as Hva.
  { unfold slot_va. rewrite Z.shiftl_mul_pow2 by lia.
    rewrite (wrap_small 32 (first_free (kpt s) * 2 ^ 12)) by lia. rewrite wrap_small; lia. }
  rewrite Hva. done.
Qed.

(** Accesses through the mapped slot reach the physical page. *)
Lemma translate_slot pa i off s :
  in_u32 pa -> 3072 <= i < 4096 -> 0 <= off < 4096 ->
  kpt s !! Z.to_nat i = Some (Z.lor (PTE_ADDR pa) PTE_PW) ->
  translate (slot_va i + off) s = Done (PTE_ADDR pa + off).
Proof.
  intros Hpa Hi Hoff Hk. unfold translate, slot_va.
  destruct (PTE_ADDR_aligned pa Hpa) as (Hal&Hr&_). unfold in_u32 in Hpa.
  assert (0xC0000000 + 4096 * i + off -u 0xC0000000 = off + i * 4096) as -> by (rewrite u32_sub_nowrap; lia).
  rewrite Z.shiftr_div_pow2 by lia. change (2 ^ 12) with 4096. rewrite Z.div_add, Z.div_small by lia.
  rewrite Z.add_0_l, Hk. cbn [deref mbind outcome_bind].
  destruct (entry_addr (PTE_ADDR pa) PTE_PW) as [Ha Hf]; [done|lia|unfold PTE_PW; lia|].
  rewrite Hf, Ha, land_aligned by (done || unfold PTE_P; lia). cbn [Z.lor PTE_PW PTE_P Z.land Pos.land truthy].
  rewrite land_fff. replace (0xC0000000 + 4096 * i + off) with (off + (0xC0000 + i) * 4096) by lia.
  rewrite Z.mod_add, Z.mod_small by lia. done.
Qed.

Lemma unmap_slot_ok i s :
  3072 <= i < 4096 -> length (kpt s) = 4096%nat ->
  unmap_page (slot_va i) s = Done (invlpg (slot_va i) (with_kpt (<[Z.to_nat i := 0]> (kpt s)) s)).
Proof.
  intros Hi Hl. unfold unmap_page, slot_va.
  assert (0xC0000000 + 4096 * i -u 0xC0000000 = i * 4096) as -> by (rewrite u32_sub_nowrap; lia).
  rewrite Z.shiftr_div_pow2 by lia. change (2 ^ 12) with 4096. rewrite Z.div_mul by lia.
  destruct (lookup_lt_is_Some_2 (kpt s) (Z.to_nat i)) as [e ->]; [lia|]. done.
Qed.

(** The slot is as before once it is unmapped. *)
Lemma slot_restored (t : list Z) n e : t !! n = Some 0 -> <[n := 0]> (<[n := e]> t) = t.
Proof. intros Ht. rewrite list_insert_insert_eq. by apply list_insert_id. Qed.

Definition only_ram (s s' : mmu) (r : gmap Z Z) : Prop :=
  kpt s' = kpt s /\ kpd s' = kpd s /\ map_sl s' = map_sl s /\ ram s' = r.

Lemma pte_set_ok pa i v s :
  mmu_ok s -> window_free s -> in_u32 pa -> 0 <= i < 1024 -> is_Some (ram s !! (PTE_ADDR pa + 4 * i)) ->
  exists s', _i686_pmap_pte_set pa i v s = Done s' /\
    only_ram s s' (<[PTE_ADDR pa + 4 * i := v]> (ram s)).
Proof.
  intros Hok Hw Hpa Hi [w Hram]. destruct (map_page_ok pa s Hok Hw) as (n&Hn&Hz&E).
  unfold _i686_pmap_pte_set. rewrite E. cbn [mbind outcome_bind].
  destruct (Z.eqb_spec (slot_va n) 0); [unfold slot_va in *; lia|].
  unfold va_store. rewrite (translate_slot pa n (4 * i)); [|done|done|lia|].
  2: { cbn [kpt]. apply list_lookup_insert_eq. rewrite (mo_kpt _ Hok). lia. }
  cbn [mbind outcome_bind ram]. rewrite Hram. cbn [deref mbind outcome_bind].
  rewrite unmap_slot_ok; [|done|cbn; rewrite length_insert; apply Hok].
  eexists. split; [done|]. split_and!; cbn; [by apply slot_restored|done|by rewrite (mo_lock _ Hok)|done].
Qed.

Lemma pte_get_ok pa i v s :
  mmu_ok s -> window_free s -> in_u32 pa -> 0 <= i < 1024 -> ram s !! (PTE_ADDR pa + 4 * i) = Some v ->
  exists s', _i686_pmap_pte_get pa i s = Done (v, s') /\ only_ram s s' (ram s).
Proof.
  intros Hok Hw Hpa Hi Hram. destruct (map_page_ok pa s Hok Hw) as (n&Hn&Hz&E).
  unfold _i686_pmap_pte_get. rewrite E. cbn [mbind outcome_bind].
  destruct (Z.eqb_spec (slot_va n) 0); [unfold slot_va in *; lia|].
  unfold va_load. rewrite (translate_slot pa n (4 * i)); [|done|done|lia|].
  2: { cbn [kpt]. apply list_lookup_insert_eq. rewrite (mo_kpt _ Hok). lia. }
  cbn [mbind outcome_bind ram]. rewrite Hram. cbn [deref mbind outcome_bind].
  rewrite unmap_slot_ok; [|done|cbn; rewrite length_insert; apply Hok].
  eexists. split; [done|]. split_and!; cbn; [by apply slot_restored|done|by rewrite (mo_lock _ Hok)|done].
Qed.

(** Page table entries round trip through physical memory: after
    [_i686_pmap_pte_set] the same entry read with [_i686_pmap_pte_get] is the
    value written and every other word of memory is unchanged; both calls give
    their temporary mapping back, and both fail in the documented way when no
    slot is free: the first panics, the second returns 0. *)
Theorem pte_set_get pa i v s :
  mmu_ok s -> in_u32 pa -> 0 <= i < 1024 -> is_Some (ram s !! (PTE_ADDR pa + 4 * i)) ->
  (window_free s ->
     exists s1 s2, _i686_pmap_pte_set pa i v s = Done s1 /\ _i686_pmap_pte_get pa i s1 = Done (v, s2) /\
       kpt s2 = kpt s /\ kpd s2 = kpd s /\ ram s2 = <[PTE_ADDR pa + 4 * i := v]> (ram s)) /\
  (~ window_free s ->
     _i686_pmap_pte_set pa i v s = Panic "Cannot map Physical page." /\
     exists s', _i686_pmap_pte_get pa i s = Done (0, s') /\ only_ram s s' (ram s)).
Proof.
  intros Hok Hpa Hi Hram. split.
  - intros Hw. destruct (pte_set_ok pa i v s Hok Hw Hpa Hi Hram) as (s1&E1&(Hk&Hd&Hl&Hr)).
    destruct (pte_get_ok pa i v s1) as (s2&E2&(Hk2&Hd2&_&Hr2)).
    + split; [rewrite Hk; apply Hok|rewrite Hd; apply Hok|rewrite Hl; apply Hok].
    + unfold window_free. by rewrite Hk.
    + done.
    + done.
    + rewrite Hr. apply lookup_insert_eq.
    + exists s1, s2. split_and!; congruence.
  - intros Hw. unfold _i686_pmap_pte_set, _i686_pmap_pte_get.
    assert (map_page pa s = Done (0, Mmu (kpt s) (kpd s) (ram s) 0 (tlb s))) as ->.
    { unfold map_page. rewrite (mo_lock _ Hok), kernlock_lock_free. cbn [mbind outcome_bind with_map_sl kpt].
      unfold KPTMAX. unfold window_free in Hw. destruct (Z.ltb_spec (first_free (kpt s)) 4096); [lia|].
      by rewrite andb_false_r. }
    cbn [mbind outcome_bind Z.eqb]. split; [done|]. eexists. split; [done|].
    split_and!; try done. by rewrite (mo_lock _ Hok).
Qed.

(** ** The kernel address space *)

(** The page walk of the processor, for addresses from 0xC1000000 on: the
    physical address and whether the page may be written. *)
Definition walk (s : mmu) (va : Z) : option (Z * bool) :=
  match kpd s !! Z.to_nat (PDX va) with
  | Some pde =>
      if truthy (Z.land pde PTE_P) then
        match ram s !! (PTE_ADDR pde + 4 * PTX va) with
        | Some pte =>
            if truthy (Z.land pte PTE_P)
            then Some (PTE_ADDR pte + va mod 4096, truthy (Z.land pte PTE_W))
            else None
        | None => None
        end
      else None
  | None => None
  end.

(** Directory entries are 32-bit words, and no two present ones share a page
    table. *)
Definition tables_distinct (s : mmu) : Prop :=
  (forall i e, kpd s !! i = Some e -> in_u32 e) /\
  forall i j e f, kpd s !! i = Some e -> kpd s !! j = Some f ->
    truthy (Z.land e PTE_P) = true -> truthy (Z.land f PTE_P) = true -> PTE_ADDR e = PTE_ADDR f -> i = j.

Lemma PDX_eq va : in_u32 va -> PDX va = va / 4096 / 1024 /\ 0 <= PDX va < 1024.
Proof.
  unfold in_u32, PDX. intros Hva. rewrite land_3ff, Z.shiftr_div_pow2 by lia.
  rewrite Z.div_div by lia. change (2 ^ 22) with (4096 * 1024).
  assert (0 <= va / (4096 * 1024) < 1024).
  { split; [apply Z.div_pos; lia|apply Z.div_lt_upper_bound; lia]. }
  rewrite Z.mod_small by lia. done.
Qed.

Lemma PTX_eq va : PTX va = va / 4096 mod 1024 /\ 0 <= PTX va < 1024.
Proof.
  unfold PTX. rewrite land_3ff, Z.shiftr_div_pow2 by lia. change (2 ^ 12) with 4096.
  split; [done|]. apply Z.mod_pos_bound. lia.
Qed.

Lemma same_page va va' :
  in_u32 va -> in_u32 va' -> PDX va = PDX va' -> PTX va = PTX va' -> va / 4096 = va' / 4096.
Proof.
  intros H H'. destruct (PDX_eq va H) as [-> _], (PDX_eq va' H') as [-> _].
  destruct (PTX_eq va) as [-> _], (PTX_eq va') as [-> _]. intros Hd Hm.
  rewrite (Z.div_mod (va / 4096) 1024), (Z.div_mod (va' / 4096) 1024) by lia. lia.
Qed.

(** Entries of different tables, or different entries of one, are different
    words. *)
Lemma entry_word_inj a b i j :
  a mod 4096 = 0 -> b mod 4096 = 0 -> 0 <= i < 1024 -> 0 <= j < 1024 ->
  a + 4 * i = b + 4 * j -> a = b /\ i = j.
Proof.
  intros Ha Hb Hi Hj Heq. pose proof (Z.div_mod a 4096). pose proof (Z.div_mod b 4096).
  assert (a / 4096 = b / 4096) by lia. lia.
Qed.

(** The entry [pmap_enter] writes. *)
Definition pte_of (pa prot : Z) : Z :=
  let pte := Z.lor (PTE_ADDR pa) PTE_P in
  if truthy (Z.land prot VM_PROT_WRITE) then Z.lor pte PTE_W else pte.

Lemma pte_of_ok pa prot :
  in_u32 pa -> PTE_ADDR (pte_of pa prot) = PTE_ADDR pa /\ truthy (Z.land (pte_of pa prot) PTE_P) = true /\
    truthy (Z.land (pte_of pa prot) PTE_W) = truthy (Z.land prot VM_PROT_WRITE).
Proof.
  intros Hpa. destruct (PTE_ADDR_aligned pa Hpa) as (Hal&Hr&Hend).
  assert (Hf : exists f, 0 <= f < 4096 /\ pte_of pa prot = Z.lor (PTE_ADDR pa) f /\
    truthy (Z.land f PTE_P) = true /\ truthy (Z.land f PTE_W) = truthy (Z.land prot VM_PROT_WRITE)).
  { unfold pte_of. destruct (truthy _) eqn:E.
    - exists 3. rewrite <-Z.lor_assoc. done.
    - exists 1. done. }
  destruct Hf as (f&Hf&->&HP&HW).
  destruct (entry_addr (PTE_ADDR pa) f Hal ltac:(lia) Hf) as [Ha Hl].
  rewrite !Hl, !(land_aligned _ _ Hal) by (unfold PTE_P, PTE_W; lia). by rewrite !Z.lor_0_l.
Qed.

Lemma pmap_enter_ok va pa prot flags s pde :
  mmu_ok s -> window_free s -> in_u32 va -> in_u32 pa ->
  kpd s !! Z.to_nat (PDX va) = Some pde -> in_u32 pde -> truthy (Z.land pde PTE_P) = true ->
  is_Some (ram s !! (PTE_ADDR pde + 4 * PTX va)) ->
  exists s', pmap_enter PKernel va pa prot flags s = Done (0, s') /\
    only_ram s s' (<[PTE_ADDR pde + 4 * PTX va := pte_of pa prot]> (ram s)).
Proof.
  intros Hok Hw Hva Hpa Hpde Hu HP Hram. unfold pmap_enter. rewrite decide_True by done.
  rewrite Hpde. cbn [deref mbind outcome_bind].
  destruct (PTE_ADDR_aligned pde Hu) as (Hal&Hr&Hend).
  assert (PTE_FLAGS pde <> 0) as Hfl.
  { intros Hz. apply truthy_true in HP. apply HP. unfold PTE_FLAGS, PTE_P in *.
    replace 1 with (Z.land 0xFFF 1) by done. by rewrite Z.land_assoc, Hz. }
  destruct (Z.eqb_spec (PTE_FLAGS pde) 0); [done|].
  assert (Hidem : PTE_ADDR (PTE_ADDR pde) = PTE_ADDR pde).
  { rewrite PTE_ADDR_eq by (split; lia). rewrite Hal. lia. }
  destruct (pte_set_ok (PTE_ADDR pde) (PTX va) (pte_of pa prot) s) as (s'&E&Hs');
    [done|done|split; lia|apply PTX_eq|by rewrite Hidem|].
  unfold pte_of in E. rewrite E. cbn [mbind outcome_bind]. exists s'. split; [done|].
  rewrite Hidem in Hs'. exact Hs'.
Qed.

(** [pmap_enter] and the page walk. *)
Lemma pmap_enter_walk va pa prot flags s :
  mmu_ok s -> window_free s -> tables_distinct s -> in_u32 va -> in_u32 pa ->
  (forall pde, kpd s !! Z.to_nat (PDX va) = Some pde -> truthy (Z.land pde PTE_P) = true ->
     is_Some (ram s !! (PTE_ADDR pde + 4 * PTX va)) ->
     exists s', pmap_enter PKernel va pa prot flags s = Done (0, s') /\
       walk s' va = Some (PTE_ADDR pa + va mod 4096, truthy (Z.land prot VM_PROT_WRITE)) /\
       (forall va', in_u32 va' -> va' / 4096 <> va / 4096 -> walk s' va' = walk s va') /\
       kpt s' = kpt s /\ kpd s' = kpd s) /\
  (forall pde, kpd s !! Z.to_nat (PDX va) = Some pde -> PTE_FLAGS pde = 0 ->
     pmap_enter PKernel va pa prot flags s = Done (1, s)).
Proof.
  intros Hok Hw [Hu Hdist] Hva Hpa. split.
  - intros pde Hpde HP Hram.
    destruct (pmap_enter_ok va pa prot flags s pde) as (s'&E&(Hk&Hd&_&Hr)); try done; [by eapply Hu|].
    destruct (pte_of_ok pa prot Hpa) as (Ha&HPte&HWte).
    exists s'. split; [done|]. split_and!; [| |done|done].
    + unfold walk. rewrite Hd, Hpde, HP, Hr, lookup_insert_eq, HPte, HWte, Ha. done.
    + intros va' Hva' Hne. unfold walk. rewrite Hd, Hr.
      destruct (kpd s !! Z.to_nat (PDX va')) as [pde'|] eqn:Hpde'; [|done].
      destruct (truthy (Z.land pde' PTE_P)) eqn:HP'; [|done].
      rewrite lookup_insert_ne; [done|]. intros Heq. apply Hne.
      destruct (PTE_ADDR_aligned pde (Hu _ _ Hpde)) as (Hal&_).
      destruct (PTE_ADDR_aligned pde' (Hu _ _ Hpde')) as (Hal'&_).
      apply entry_word_inj in Heq as [Hpt Hptx]; [|done|done|apply PTX_eq|apply PTX_eq].
      apply same_page; [done|done| |done].
      pose proof (Hdist _ _ _ _ Hpde Hpde' HP HP' Hpt).
      pose proof (proj2 (PDX_eq va Hva)). pose proof (proj2 (PDX_eq va' Hva')). lia.
  - intros pde Hpde Hf. unfold pmap_enter. rewrite decide_True by done. rewrite Hpde.
    cbn [deref mbind outcome_bind]. rewrite Hf. done.
Qed.


(** The loop of [mmu_tlb_flush_range] covers every page of an inclusive
    range: after it, the pages of the range, in order, are the addresses given
    to [invlpg]; for a range that ends in the last page of the address space
    the loop variable wraps and no amount of fuel ends it. *)
Theorem mmu_tlb_flush_range_correct (begin_ end_ : Z) s (fuel : nat) :
  in_u32 begin_ -> in_u32 end_ ->
  (end_ < 0xFFFFF000 -> (Z.max 0 (end_ / 4096 - begin_ / 4096 + 1) < fuel) ->
     exists s', mmu_tlb_flush_range fuel begin_ end_ s = Done s' /\
       tlb s' = reverse ((fun k => Some (4096 * k)) <$>
         seqZ (begin_ / 4096) (end_ / 4096 - begin_ / 4096 + 1)) ++ tlb s) /\
  (0xFFFFF000 <= end_ -> mmu_tlb_flush_range fuel begin_ end_ s = OutOfFuel).
Proof.
  intros Hb He. unfold mmu_tlb_flush_range.
  assert (Hrd : forall x, in_u32 x -> Z.land x (not32 0xfff) = 4096 * (x / 4096)).
  { intros x Hx. pose proof (PTE_ADDR_eq x Hx) as H. unfold PTE_ADDR in H. rewrite H.
    pose proof (Z.div_mod x 4096). lia. }
  rewrite !Hrd by done. unfold in_u32 in *. split.
  - intros Hend. assert (He' : end_ / 4096 < 0xFFFFF) by (apply Z.div_lt_upper_bound; lia).
    assert (Hb0 : 0 <= begin_ / 4096) by (apply Z.div_pos; lia). clear Hb He Hrd Hend.
    revert Hb0. generalize (begin_ / 4096). generalize dependent s.
    induction fuel as [|fuel IH]; intros s k Hk Hf; [lia|]. cbn [flush_from].
    destruct (Z.leb_spec (4096 * k) (4096 * (end_ / 4096))).
    + rewrite u32_add_nowrap by lia. replace (4096 * k + 0x1000) with (4096 * (k + 1)) by lia.
      destruct (IH (invlpg (4096 * k) s) (k + 1)) as (s'&E&Ht); [lia|lia|].
      exists s'. split; [done|]. rewrite Ht, (seqZ_cons k) by lia. rewrite fmap_cons, reverse_cons.
      rewrite <-app_assoc. cbn [tlb invlpg app]. do 4 f_equal; lia.
    + exists s. split; [done|]. rewrite seqZ_nil by lia. done.
  - intros Hend. assert (He' : end_ / 4096 = 0xFFFFF).
    { symmetry. apply (Z.div_unique _ _ _ (end_ - 0xFFFFF000)); lia. }
    rewrite He'. clear He Hrd. assert (Hb0 : 0 <= begin_ / 4096 <= 0xFFFFF).
    { split; [apply Z.div_pos; lia|]. apply Z.lt_succ_r, Z.div_lt_upper_bound; lia. }
    clear Hb. revert Hb0. generalize (begin_ / 4096). generalize dependent s.
    induction fuel as [|fuel IH]; intros s k Hk; [done|]. cbn [flush_from].
    destruct (Z.leb_spec (4096 * k) (4096 * 0xFFFFF)); [|lia].
    destruct (decide (k = 0xFFFFF)) as [->|].
    + apply (IH _ 0). lia.
    + rewrite u32_add_nowrap by lia. replace (4096 * k + 0x1000) with (4096 * (k + 1)) by lia.
      apply IH. lia.
Qed.

(** ** Setting the kernel address space up *)

#[local] Arguments clear_page : simpl never.

(** Memory after [n] words from [a] on are set to 0. *)
Fixpoint zero_words (n : nat) (a : Z) (r : gmap Z Z) : gmap Z Z :=
  match n with O => r | S n => zero_words n (a + 4) (<[a := 0]> r) end.
#[local] Arguments zero_words : simpl never.

(** Words that are 0 stay 0, words that exist keep existing. *)
Lemma zero_words_keep n a r x v : r !! x = Some v -> exists w, zero_words n a r !! x = Some w /\ (v = 0 -> w = 0).
Proof.
  revert a r v. induction n as [|n IH]; intros a r v Hx; [by exists v|].
  destruct (decide (a = x)) as [->|].
  - destruct (IH (x + 4) (<[x := 0]> r) 0) as (w&Hw&Hz); [apply lookup_insert_eq|]. exists w. auto.
  - apply IH. by rewrite lookup_insert_ne.
Qed.

Lemma zero_words_in n a r (j : nat) : (j < n)%nat -> zero_words n a r !! (a + 4 * j) = Some 0.
Proof.
  revert a r j. induction n as [|n IH]; intros a r j Hj; [lia|]. destruct j as [|j].
  - rewrite Z.mul_0_r, Z.add_0_r.
    destruct (zero_words_keep n (a + 4) (<[a := 0]> r) a 0) as (w&Hw&Hz); [apply lookup_insert_eq|].
    specialize (Hz eq_refl). subst w. exact Hw.
  - replace (a + 4 * S j) with (a + 4 + 4 * j) by lia. apply (IH (a + 4) (<[a := 0]> r)). lia.
Qed.

(** A page of memory: its 1024 words exist. *)
Definition has_page (r : gmap Z Z) (a : Z) : Prop := forall j : nat, (j < 1024)%nat -> is_Some (r !! (a + 4 * j)).

Lemma clear_page_ok pa i (k : nat) off s :
  in_u32 pa -> 3072 <= i < 4096 -> 0 <= off -> off + 4 * k <= 4096 ->
  kpt s !! Z.to_nat i = Some (Z.lor (PTE_ADDR pa) PTE_PW) ->
  (forall j : nat, (j < k)%nat -> is_Some (ram s !! (PTE_ADDR pa + off + 4 * j))) ->
  clear_page k (slot_va i + off) s = Done (with_ram (zero_words k (PTE_ADDR pa + off) (ram s)) s).
Proof.
  intros Hpa Hi. revert off s. induction k as [|k IH]; intros off s Ho Hk Hslot Hram.
  { by destruct s. }
  change (clear_page (S k) (slot_va i + off) s)
    with (s ← va_store (slot_va i + off) 0 s; clear_page k (slot_va i + off + 4) s).
  unfold va_store. rewrite (translate_slot pa i off) by (done || lia). cbn [mbind outcome_bind].
  destruct (Hram 0%nat ltac:(lia)) as [w Hw]. rewrite Z.mul_0_r, Z.add_0_r in Hw. rewrite Hw.
  cbn [deref mbind outcome_bind]. rewrite <-Z.add_assoc.
  rewrite (IH (off + 4)); [|lia|lia|done|].
  - unfold with_ram. cbn [ram kpt kpd map_sl tlb]. rewrite Z.add_assoc. done.
  - intros j Hj. cbn [ram with_ram]. destruct (Hram (S j) ltac:(lia)) as [w' Hw'].
    replace (PTE_ADDR pa + (off + 4) + 4 * j) with (PTE_ADDR pa + off + 4 * S j) by lia.
    rewrite lookup_insert_ne by lia. eauto.
Qed.

Lemma pmap_zero_page_ok pa s :
  mmu_ok s -> window_free s -> in_u32 pa -> has_page (ram s) (PTE_ADDR pa) ->
  exists s', pmap_zero_page pa s = Done s' /\ only_ram s s' (zero_words 1024 (PTE_ADDR pa) (ram s)).
Proof.
  intros Hok Hw Hpa Hram. destruct (map_page_ok pa s Hok Hw) as (n&Hn&Hz&E).
  unfold pmap_zero_page. rewrite E. cbn [mbind outcome_bind].
  destruct (Z.eqb_spec (slot_va n) 0); [unfold slot_va in *; lia|].
  replace (clear_page 1024 (slot_va n)) with (clear_page 1024 (slot_va n + 0)) by (by rewrite Z.add_0_r).
  rewrite (clear_page_ok pa n 1024 0); [|done|done|lia|lia| |].
  - cbn [mbind outcome_bind]. rewrite unmap_slot_ok; [|done|cbn; rewrite length_insert; apply Hok].
    eexists. split; [done|].
    split_and!; cbn [kpt kpd ram map_sl invlpg with_kpt with_ram];
      [by apply slot_restored|done|by rewrite (mo_lock _ Hok)|by rewrite Z.add_0_r].
  - cbn [kpt]. apply list_lookup_insert_eq. rewrite (mo_kpt _ Hok). lia.
  - intros j Hj. rewrite Z.add_0_r. by apply Hram.
Qed.

Lemma pmap_init_from_ok pages p ms s (i : nat) rest :
  mmu_ok s -> window_free s -> phys_rep p ms -> pmb_lock p = 0 -> free_pages p ms = pages ++ rest ->
  (i + length pages <= 1024)%nat ->
  Forall (fun a => in_u32 a /\ a mod 4096 = 0 /\ has_page (ram s) a) pages ->
  exists p' s', pmap_init_from (length pages) i p s = Done (p', s') /\
    phys_rep p' ms /\ pmb_lock p' = 0 /\ free_pages p' ms = rest /\ mmu_ok s' /\ kpt s' = kpt s /\
    (forall k a, pages !! k = Some a -> kpd s' !! (i + k)%nat = Some (Z.lor a PTE_PW) /\
       forall j : nat, (j < 1024)%nat -> ram s' !! (a + 4 * j) = Some 0) /\
    (forall k, (k < i)%nat -> kpd s' !! k = kpd s !! k) /\
    (forall x v, ram s !! x = Some v -> exists w, ram s' !! x = Some w /\ (v = 0 -> w = 0)).
Proof.
  revert p s i. induction pages as [|a pages IH]; intros p s i Hok Hw Hrep Hlk Hfree Hlen Hall;
    cbn [length pmap_init_from].
  { exists p, s. split_and!; try done. eauto. }
  apply Forall_cons in Hall as [(Hu&Hal&Hpg) Hall].
  pose proof (vm_phys_alloc_ok p ms Hrep Hlk) as Halloc. rewrite Hfree in Halloc. cbn [app] in Halloc.
  destruct Halloc as (p1&->&Hrep1&Hlk1&Hfree1). cbn [mbind outcome_bind].
  assert (Ha : PTE_ADDR a = a) by (rewrite PTE_ADDR_eq by done; lia).
  destruct (pmap_zero_page_ok a s) as (s1&->&(Hk1&Hd1&Hl1&Hr1)); [done|done|done|by rewrite Ha|].
  cbn [mbind outcome_bind]. rewrite Ha in Hr1. rewrite Nat2Z.id. cbn [length] in Hlen.
  destruct (lookup_lt_is_Some_2 (kpd s1) i) as [e ->]; [rewrite Hd1, (mo_kpd _ Hok); lia|].
  cbn [deref mbind outcome_bind].
  replace (Z.of_nat i + 1) with (Z.of_nat (S i)) by lia.
  destruct (IH p1 (with_kpd (<[i := Z.lor a PTE_PW]> (kpd s1)) s1) (S i))
    as (p'&s'&E&Hrep'&Hlk'&Hfree'&Hok'&Hkpt'&Hnew&Hold&Hram').
  { split; cbn; [rewrite Hk1; apply Hok|rewrite length_insert, Hd1; apply Hok|rewrite Hl1; apply Hok]. }
  { unfold window_free. cbn. by rewrite Hk1. }
  { done. } { done. } { done. } { lia. }
  { eapply Forall_impl; [exact Hall|]. intros b (Hub&Hab&Hpb). split_and!; [done|done|].
    intros j Hj. destruct (Hpb j Hj) as [v Hv]. cbn. rewrite Hr1.
    destruct (zero_words_keep 1024 a (ram s) _ v Hv) as (w&Hw'&_). eauto. }
  exists p', s'. split_and!; [exact E|done|done|done|done|cbn in Hkpt'; congruence|..].
  - intros [|k] b Hb; cbn in Hb.
    + injection Hb as <-. rewrite Nat.add_0_r. split.
      * rewrite Hold by lia. cbn. apply list_lookup_insert_eq. rewrite Hd1, (mo_kpd _ Hok). lia.
      * intros j Hj. destruct (Hram' (a + 4 * j) 0) as (w&Hw'&Hz).
        { cbn. rewrite Hr1. by apply zero_words_in. }
        specialize (Hz eq_refl). by subst w.
    + replace (i + S k)%nat with (S i + k)%nat by lia. by apply Hnew.
  - intros k Hk. rewrite Hold by lia. cbn. rewrite list_lookup_insert_ne by lia. by rewrite Hd1.
  - intros x v Hx. destruct (zero_words_keep 1024 a (ram s) x v Hx) as (w&Hw'&Hz).
    destruct (Hram' x w) as (w2&Hw2&Hz2); [cbn; by rewrite Hr1|]. exists w2. split; [done|]. auto.
Qed.

(** C29: [pmap_init] with at least 252 free pages of memory gives each of the
    directory entries 772 to 1023 a page table of its own: the free pages in
    order, present and writable, with all entries 0; it takes exactly those
    pages from the allocator and touches no other directory entry. *)
Theorem pmap_init_correct page_dir p ms s pages rest :
  mmu_ok s -> window_free s -> phys_rep p ms -> pmb_lock p = 0 ->
  free_pages p ms = pages ++ rest -> length pages = 252%nat ->
  Forall (fun a => in_u32 a /\ a mod 4096 = 0 /\ has_page (ram s) a) pages ->
  exists pm p' s', pmap_init page_dir p s = Done (pm, p', s') /\
    pmap_get_address_range pm = (0xC1000000, 0xFDFFFFFF) /\
    phys_rep p' ms /\ free_pages p' ms = rest /\ mmu_ok s' /\ kpt s' = kpt s /\
    (forall k a, pages !! k = Some a -> kpd s' !! (772 + k)%nat = Some (Z.lor a PTE_PW) /\
       forall j : nat, (j < 1024)%nat -> ram s' !! (a + 4 * j) = Some 0) /\
    (forall k, (k < 772)%nat -> kpd s' !! k = kpd s !! k).
Proof.
  intros Hok Hw Hrep Hlk Hfree Hlen Hall.
  destruct (pmap_init_from_ok pages p ms s 772 rest) as (p'&s'&E&Hrep'&Hlk'&Hfree'&Hok'&Hkpt'&Hnew&Hold&_);
    [done|done|done|done|done|lia|done|].
  unfold pmap_init. change (Z.to_nat (1024 - (768 + 4))) with 252%nat.
  rewrite Hlen in E. change (Z.of_nat 772) with (768 + 4) in E. rewrite E. cbn [mbind outcome_bind].
  eexists _, p', s'. split; [done|]. split_and!; done.
Qed.

(** ** Concrete machines *)

Module MmuExample.
(** One page table, at physical address 0x5000, for the directory entry 772. *)
Definition s0 : mmu :=
  Mmu (replicate 4096 0) (<[772%nat := 0x5003]> (replicate 1024 0)) (list_to_map [(0x5000, 0); (0x501C, 9)]) 0 [].

Lemma s0_ok : mmu_ok s0.
Proof. split; vm_compute; reflexivity. Defined.

Lemma s0_window : window_free s0.
Proof. vm_compute. reflexivity. Defined.

Lemma s0_kpd i e : kpd s0 !! i = Some e -> e = 0 \/ i = 772%nat /\ e = 0x5003.
Proof.
  unfold s0. cbn [kpd]. intros [(<-&<-&_)|[_ He]]%list_lookup_insert_Some; [by right|].
  left. by apply lookup_replicate in He as [-> _].
Qed.

Lemma s0_distinct : tables_distinct s0.
Proof.
  split.
  - intros i e [->|[_ ->]]%s0_kpd; unfold in_u32; lia.
  - intros i j e f [->|[-> ->]]%s0_kpd [->|[-> ->]]%s0_kpd; done.
Defined.

Lemma pte_set_get_witness : exists s1 s2,
  _i686_pmap_pte_set 0x5000 7 42 s0 = Done s1 /\ _i686_pmap_pte_get 0x5000 7 s1 = Done (42, s2).
Proof.
  destruct (pte_set_get 0x5000 7 42 s0 s0_ok) as [H _];
    [split; lia|lia|eexists; vm_compute; reflexivity|].
  destruct (H s0_window) as (s1&s2&E1&E2&_). exists s1, s2. split; [exact E1|exact E2].
Defined.


Lemma mmu_tlb_flush_range_correct_witness : exists s',
  mmu_tlb_flush_range 4 0xC1000010 0xC1001FFF s0 = Done s' /\
  tlb s' = [Some 0xC1001000; Some 0xC1000000].
Proof.
  destruct (mmu_tlb_flush_range_correct 0xC1000010 0xC1001FFF s0 4) as [H _]; [split; lia|split; lia|].
  destruct H as (s'&E&Ht); [lia|vm_compute; reflexivity|].
  exists s'. split; [exact E|]. rewrite Ht. vm_compute. reflexivity.
Defined.

(** A machine with 256 pages of memory, all free. *)
Definition big_map : physmem_bmalloc := Physmem_bmalloc (Physmem_range 0 0x100000) 0 256.
Definition big_phys : physmem := Physmem (replicate 4096 0) [big_map] [Some 0%nat] 1 0.
Definition big_mmu : mmu :=
  Mmu (replicate 4096 0) (replicate 1024 0) (gset_to_gmap 0 (list_to_set (Z.mul 4 <$> seqZ 0 262144))) 0 [].
Definition big_pages : list Z := Z.mul 4096 <$> seqZ 0 252.

Lemma big_phys_rep : phys_rep big_phys [big_map].
Proof.
  split.
  - vm_compute. reflexivity.
  - reflexivity.
  - intros [|i] m Hm; [injection Hm as <-; reflexivity|discriminate].
  - intros m Hm. apply list_elem_of_singleton in Hm as ->. simpl. lia.
  - apply (bool_decide_eq_true_1 _). vm_compute. reflexivity.
Qed.

Lemma big_pages_ok : Forall (fun a => in_u32 a /\ a mod 4096 = 0 /\ has_page (ram big_mmu) a) big_pages.
Proof.
  apply Forall_forall. intros a (k&->&Hk%elem_of_seqZ)%list_elem_of_fmap. split_and!.
  - split; lia.
  - rewrite Z.mul_comm. by apply Z.mod_mul.
  - intros j Hj. exists 0. unfold big_mmu. cbn [ram]. apply lookup_gset_to_gmap_Some. split; [|done].
    apply elem_of_list_to_set, list_elem_of_fmap. exists (1024 * k + j). split; [lia|].
    apply elem_of_seqZ. lia.
Qed.

Lemma pmap_init_correct_witness : exists pm p' s',
  pmap_init 0xC0105000 big_phys big_mmu = Done (pm, p', s') /\
  free_pages p' [big_map] = [0xFC000; 0xFD000; 0xFE000; 0xFF000].
Proof.
  destruct (pmap_init_correct 0xC0105000 big_phys [big_map] big_mmu big_pages
    [0xFC000; 0xFD000; 0xFE000; 0xFF000]) as (pm&p'&s'&E&_&_&Hf&_).
  - split; unfold big_mmu; cbn [kpt kpd map_sl]; [apply length_replicate|apply length_replicate|reflexivity].
  - unfold window_free, big_mmu. cbn [kpt]. vm_compute. reflexivity.
  - exact big_phys_rep.
  - reflexivity.
  - vm_compute. reflexivity.
  - vm_compute. reflexivity.
  - exact big_pages_ok.
  - exists pm, p', s'. split; [exact E|exact Hf].
Defined.
End MmuExample.
