(* ===== verification/Ring.v ===== *)
(** * Circular doubly linked lists

    Models [system/kern/kern_ring.c] with [kern/ring.h], and
    [system/include/utils/list.h].  Both files link nodes through [next] and
    [prev]; the first also carries a [data] pointer.  The heap is a finite map
    from node addresses to nodes, a pointer is an [option] of an address
    ([None] is the null pointer), and every load and store is explicit, in the
    order of the source.

    The representation predicate [ring h hd l] says that the heap holds a ring
    with head [hd] whose elements, in [next] order, are [l].  The theorems say
    that the operations implement insertion into and removal from that list
    and leave every other node alone. *)

From S2P Require Import Prelude.

(** ** Nodes with links

    [LinkNode] is what the list operations need of a node; [LinkNodeLaws] are
    the laws the representation lemmas are proved against. *)

Class LinkNode (A N : Type) := {
  next : N -> option A;
  prev : N -> option A;
  set_next : option A -> N -> N;
  set_prev : option A -> N -> N;
}.

Class LinkNodeLaws (A N : Type) `{LinkNode A N} := {
  next_set_next p n : next (set_next p n) = p;
  prev_set_next p n : prev (set_next p n) = prev n;
  next_set_prev p n : next (set_prev p n) = next n;
  prev_set_prev p n : prev (set_prev p n) = p;
  set_next_set_next p q n : set_next p (set_next q n) = set_next p n;
  set_prev_set_prev p q n : set_prev p (set_prev q n) = set_prev p n;
  set_next_set_prev p q n : set_next p (set_prev q n) = set_prev q (set_next p n);
}.

(** [struct linked_ring] of [kern/ring.h]; [D] is what [data] points to. *)
Record linked_ring (A D : Type) := Linked_ring {
  lr_next : option A;
  lr_prev : option A;
  lr_data : option D;
}.
Arguments Linked_ring {A D}.
Arguments lr_next {A D}.
Arguments lr_prev {A D}.
Arguments lr_data {A D}.

(** [struct list_node] of [utils/list.h]. *)
Record list_node (A : Type) := List_node {
  ln_next : option A;
  ln_prev : option A;
}.
Arguments List_node {A}.
Arguments ln_next {A}.
Arguments ln_prev {A}.

#[export] Instance linked_ring_link {A D} : LinkNode A (linked_ring A D) := {
  next := lr_next;
  prev := lr_prev;
  set_next p n := Linked_ring p (lr_prev n) (lr_data n);
  set_prev p n := Linked_ring (lr_next n) p (lr_data n);
}.

#[export] Instance linked_ring_laws {A D} : LinkNodeLaws A (linked_ring A D).
Proof. by split; intros; try destruct n. Qed.

#[export] Instance list_node_link {A} : LinkNode A (list_node A) := {
  next := ln_next;
  prev := ln_prev;
  set_next p n := List_node p (ln_prev n);
  set_prev p n := List_node (ln_next n) p;
}.

#[export] Instance list_node_laws {A} : LinkNodeLaws A (list_node A).
Proof. by split; intros; try destruct n. Qed.

(** ** Operations *)

Section ops.
Context {A N : Type} `{Countable A} `{LinkNode A N}.
Implicit Types (h : gmap A N) (p q : option A).

(** [p->next], [p->prev] as loads and stores. *)
Definition get_next p h : outcome (option A) :=
  a ← deref p; n ← deref (h !! a); Done (next n).
Definition get_prev p h : outcome (option A) :=
  a ← deref p; n ← deref (h !! a); Done (prev n).
Definition put_next p q h : outcome (gmap A N) :=
  a ← deref p; n ← deref (h !! a); Done (<[a := set_next q n]> h).
Definition put_prev p q h : outcome (gmap A N) :=
  a ← deref p; n ← deref (h !! a); Done (<[a := set_prev q n]> h).

(** *** kern_ring.c *)

Definition linked_ring_insert (list elem : option A) (after : bool) h
  : outcome (gmap A N) :=
  '(a, c) ← (if after then c ← get_next list h; Done (list, c)
             else a ← get_prev list h; Done (a, list));
  let b := elem in
  (* a->b->c *)
  h ← put_next a b h;
  h ← put_next b c h;
  (* a<-b<-c *)
  h ← put_prev c b h;
  put_prev b a h.

Definition linked_ring_remove (elem : option A) h : outcome (gmap A N) :=
  (* a <-> elem <-> c *)
  a ← get_prev elem h;
  c ← get_next elem h;
  (* a <-> c *)
  h ← put_next a c h;
  put_prev c a h.

(** Returns -1 when the ring is empty, 0 otherwise. *)
Definition linked_ring_empty (list : option A) h : outcome Z :=
  n ← get_next list h; Done (if decide (n = list) then -1 else 0).

Definition linked_ring_init (list : option A) h : outcome (gmap A N) :=
  h ← put_next list list h; put_prev list list h.

(** *** utils/list.h *)

Definition list_init (lst : option A) h : outcome (gmap A N) :=
  h ← put_next lst lst h; put_prev lst lst h.

Definition list_clear (lst : option A) h : outcome (gmap A N) :=
  h ← put_next lst None h; put_prev lst None h.

Definition list_is_in_list (node : option A) h : outcome bool :=
  p ← get_prev node h; n ← get_next node h;
  Done (bool_decide (p <> None) && bool_decide (n <> None)).

Definition list_add_after (a b : option A) h : outcome (gmap A N) :=
  c ← get_next a h;
  h ← put_next a b h;
  h ← put_next b c h;
  h ← put_prev c b h;
  put_prev b a h.

Definition list_add_before (c b : option A) h : outcome (gmap A N) :=
  a ← get_prev c h;
  h ← put_next a b h;
  h ← put_next b c h;
  h ← put_prev c b h;
  put_prev b a h.

Definition list_push_tail (list item : option A) := list_add_before list item.
Definition list_push_head (list item : option A) := list_add_after list item.

Definition list_item_remove (elem : option A) h : outcome (gmap A N) :=
  a ← get_prev elem h;
  c ← get_next elem h;
  h ← put_next a c h;
  put_prev c a h.

Definition list_pop_tail (list : option A) h : outcome (option A * gmap A N) :=
  ret ← get_prev list h;
  if decide (ret = list \/ ret = None) then Done (None, h)
  else h ← list_item_remove ret h; Done (ret, h).

Definition list_pop_head (list : option A) h : outcome (option A * gmap A N) :=
  ret ← get_next list h;
  if decide (ret = list \/ ret = None) then Done (None, h)
  else h ← list_item_remove ret h; Done (ret, h).

(** [list_foreach(list,node)]: the nodes the loop visits, in order.  The
    fuel bounds the number of iterations. *)
Fixpoint list_foreach_from (fuel : nat) (list node : option A) h
  : outcome (Datatypes.list A) :=
  if decide (node = list) then Done []
  else match fuel with
       | O => OutOfFuel
       | S fuel =>
           a ← deref node;
           node' ← get_next node h;
           rest ← list_foreach_from fuel list node' h;
           Done (a :: rest)
       end.

Definition list_foreach (fuel : nat) (list : option A) h
  : outcome (Datatypes.list A) :=
  node ← get_next list h; list_foreach_from fuel list node h.
End ops.

(** ** Representation *)

Section rep.
Context {A N : Type} `{Countable A} `{!LinkNode A N} `{!LinkNodeLaws A N}.
Implicit Types (h : gmap A N) (a b c x : A) (l : list A).

Definition next_of h a : option A := h !! a ≫= next.
Definition prev_of h a : option A := h !! a ≫= prev.

(** Everything of a heap but the links. *)
Definition payload h : gmap A N := (fun n => set_next None (set_prev None n)) <$> h.

Fixpoint chain h a l b : Prop :=
  match l with
  | [] => next_of h a = Some b /\ prev_of h b = Some a
  | x :: l => next_of h a = Some x /\ prev_of h x = Some a /\ chain h x l b
  end.

(** The ring with head [hd] and elements [l] in [next] order. *)
Definition ring h hd l : Prop := NoDup (hd :: l) /\ chain h hd l hd.

Lemma chain_app h a l x k b :
  chain h a (l ++ x :: k) b <-> chain h a l x /\ chain h x k b.
Proof.
  revert a. induction l as [|y l IH]; intros a; simpl; [naive_solver|].
  rewrite IH. naive_solver.
Qed.

Lemma chain_ext h h' a l b :
  (forall x, x ∈ a :: l -> next_of h' x = next_of h x) ->
  (forall x, x ∈ l ++ [b] -> prev_of h' x = prev_of h x) ->
  chain h a l b -> chain h' a l b.
Proof.
  revert a. induction l as [|y l IH]; intros a Hn Hp; simpl.
  - rewrite Hn, Hp by set_solver. done.
  - rewrite Hn, Hp by set_solver. intros (?&?&?). split_and!; [done..|].
    apply IH; [set_solver..|done].
Qed.

Lemma ring_rotate h hd l x k : ring h hd (l ++ x :: k) <-> ring h x (k ++ hd :: l).
Proof.
  unfold ring. rewrite !chain_app.
  assert ((hd :: l) ++ x :: k ≡ₚ (x :: k) ++ hd :: l) as Hp by apply Permutation_app_comm.
  simpl in Hp. rewrite Hp. naive_solver.
Qed.

(** The predecessor of an element [x] of a ring, and the ring read from it. *)
Lemma ring_pred h hd l :
  ring h hd l -> exists a k, ring h a (hd :: k) /\ l = k ++ [a] \/ l = [] /\ a = hd /\ k = [].
Proof.
  intros Hr. destruct l as [|y l _] using rev_ind; [naive_solver|].
  exists y, l. left. split; [|done]. by apply ring_rotate in Hr.
Qed.

Lemma ring_frame h h' hd l :
  (forall x, x ∈ hd :: l -> h' !! x = h !! x) -> ring h hd l -> ring h' hd l.
Proof.
  intros Heq [Hnd Hc]. split; [done|]. revert Hc. unfold next_of, prev_of.
  apply chain_ext; intros x Hx; unfold next_of, prev_of; rewrite Heq; set_solver.
Qed.

Lemma chain_next h a l b : chain h a l b -> next_of h a = Some (hd b l).
Proof. destruct l; simpl; naive_solver. Qed.

Lemma chain_prev h a l b : chain h a l b -> prev_of h b = Some (default a (last l)).
Proof.
  revert a. induction l as [|y l IH]; intros a; [simpl; naive_solver|].
  intros (_&_&Hc). rewrite (IH _ Hc), last_cons. by destruct (last l).
Qed.

Lemma ring_next h a l : ring h a l -> next_of h a = Some (hd a l).
Proof. intros [_ Hc]. by apply chain_next. Qed.

Lemma ring_prev h a l : ring h a l -> prev_of h a = Some (default a (last l)).
Proof. intros [_ Hc]. by apply chain_prev. Qed.

Lemma ring_in_dom h a l x : ring h a l -> x ∈ a :: l -> is_Some (h !! x).
Proof.
  intros Hr Hx. assert (is_Some (next_of h x)) as [y Hy].
  - apply elem_of_cons in Hx as [->|Hx]; [apply ring_next in Hr; eauto|].
    apply list_elem_of_split in Hx as (l1&l2&->).
    apply ring_rotate, ring_next in Hr. eauto.
  - unfold next_of in Hy. destruct (h !! x); [eauto|done].
Qed.

Lemma get_next_of h a b : next_of h a = Some b -> get_next (Some a) h = Done (Some b).
Proof. unfold next_of, get_next. simpl. destruct (h !! a); simpl; [by intros ->|done]. Qed.

Lemma get_prev_of h a b : prev_of h a = Some b -> get_prev (Some a) h = Done (Some b).
Proof. unfold prev_of, get_prev. simpl. destruct (h !! a); simpl; [by intros ->|done]. Qed.

(** Effect of one store on the links and on the payload. *)
Lemma put_next_spec h a q :
  is_Some (h !! a) -> exists h', put_next (Some a) q h = Done h' /\
    (forall x, next_of h' x = if decide (x = a) then q else next_of h x) /\
    (forall x, prev_of h' x = prev_of h x) /\
    (forall x, x <> a -> h' !! x = h !! x) /\ payload h' = payload h.
Proof.
  intros [n Hn]. unfold put_next. simpl. rewrite Hn. eexists. split; [done|].
  unfold next_of, prev_of, payload. split_and!.
  - intros x. case_decide; simplify_map_eq; by rewrite ?next_set_next.
  - intros x. destruct (decide (x = a)) as [->|]; simplify_map_eq; by rewrite ?prev_set_next.
  - intros x Hx. by simplify_map_eq.
  - rewrite fmap_insert. apply insert_id. rewrite lookup_fmap, Hn. simpl.
    by rewrite !set_next_set_prev, set_next_set_next.
Qed.

Lemma put_prev_spec h a q :
  is_Some (h !! a) -> exists h', put_prev (Some a) q h = Done h' /\
    (forall x, next_of h' x = next_of h x) /\
    (forall x, prev_of h' x = if decide (x = a) then q else prev_of h x) /\
    (forall x, x <> a -> h' !! x = h !! x) /\ payload h' = payload h.
Proof.
  intros [n Hn]. unfold put_prev. simpl. rewrite Hn. eexists. split; [done|].
  unfold next_of, prev_of, payload. split_and!.
  - intros x. destruct (decide (x = a)) as [->|]; simplify_map_eq; by rewrite ?next_set_prev.
  - intros x. case_decide; simplify_map_eq; by rewrite ?prev_set_prev.
  - intros x Hx. by simplify_map_eq.
  - rewrite fmap_insert. apply insert_id. rewrite lookup_fmap, Hn. simpl.
    by rewrite set_prev_set_prev.
Qed.

Lemma payload_is_Some h h' x : payload h' = payload h -> is_Some (h !! x) -> is_Some (h' !! x).
Proof.
  intros Hp [n Hn]. apply (f_equal (.!! x)) in Hp. unfold payload in Hp.
  rewrite !lookup_fmap, Hn in Hp. destruct (h' !! x); [eauto|done].
Qed.
End rep.

(** ** The operations on a represented ring *)

Section specs.
Context {A N : Type} `{Countable A} `{!LinkNode A N} `{!LinkNodeLaws A N}.
Implicit Types (h : gmap A N) (a b c x : A) (l k : list A).

(** The four stores shared by every insertion: [b] goes between [a] and [c]. *)
Definition link_stores a b c h : outcome (gmap A N) :=
  h ← put_next (Some a) (Some b) h;
  h ← put_next (Some b) (Some c) h;
  h ← put_prev (Some c) (Some b) h;
  put_prev (Some b) (Some a) h.

(** What an operation that may write the nodes [touched] guarantees of the
    rest of the heap. *)
Definition keeps (touched : list A) h h' : Prop :=
  (forall x, x ∉ touched -> h' !! x = h !! x) /\ payload h' = payload h.

Lemma link_stores_spec h a b c :
  is_Some (h !! a) -> is_Some (h !! b) -> is_Some (h !! c) -> b <> a -> b <> c ->
  exists h', link_stores a b c h = Done h' /\
    (forall x, next_of h' x =
       if decide (x = b) then Some c else if decide (x = a) then Some b else next_of h x) /\
    (forall x, prev_of h' x =
       if decide (x = b) then Some a else if decide (x = c) then Some b else prev_of h x) /\
    keeps [a; b; c] h h'.
Proof.
  intros Ha Hb Hc Hba Hbc. unfold link_stores.
  destruct (put_next_spec h a (Some b) Ha) as (h1&E1&N1&P1&L1&Y1).
  destruct (put_next_spec h1 b (Some c)) as (h2&E2&N2&P2&L2&Y2).
  { by eapply payload_is_Some. }
  destruct (put_prev_spec h2 c (Some b)) as (h3&E3&N3&P3&L3&Y3).
  { eapply payload_is_Some; [|done]. congruence. }
  destruct (put_prev_spec h3 b (Some a)) as (h4&E4&N4&P4&L4&Y4).
  { eapply payload_is_Some; [|done]. congruence. }
  exists h4. rewrite E1. simpl. rewrite E2. simpl. rewrite E3. simpl.
  split; [done|]. split_and!.
  - intros x. by rewrite N4, N3, N2, N1.
  - intros x. by rewrite P4, P3, P2, P1.
  - split; [|congruence]. intros x Hx. rewrite L4, L3, L2, L1 by set_solver. done.
Qed.

Lemma link_ring h a b l :
  ring h a l -> b ∉ a :: l -> is_Some (h !! b) ->
  exists h', link_stores a b (hd a l) h = Done h' /\ ring h' a (b :: l) /\
    keeps (b :: a :: l) h h'.
Proof.
  intros Hr Hb Hbd. destruct (link_stores_spec h a b (hd a l)) as (h'&E&Hn&Hp&Hk).
  { eapply ring_in_dom; [done|set_solver]. } { done. }
  { eapply ring_in_dom; [done|]. destruct l; set_solver. }
  { set_solver. } { destruct l; set_solver. }
  exists h'. split; [done|]. destruct Hr as [Hnd Hc]. split; [split|].
  - apply NoDup_cons in Hnd as [? ?]. constructor; [set_solver|]. by constructor; [set_solver|].
  - assert (a <> b) by set_solver.
    destruct l as [|y l]; simpl; rewrite !Hn, !Hp; [by repeat case_decide|].
    assert (y <> b) by set_solver. simpl in Hc. destruct Hc as (_&_&Hc).
    split_and!; [by repeat case_decide..|]. revert Hc.
    apply NoDup_cons in Hnd as [Hal Hnd]. apply NoDup_cons in Hnd as [Hyl _].
    apply chain_ext; intros x Hx.
    + rewrite Hn, !decide_False by set_solver. done.
    + rewrite Hp, !decide_False by set_solver. done.
  - destruct Hk as [Hk ?]. split; [|done]. intros x Hx. apply Hk.
    destruct l; set_solver.
Qed.

(** Insertion at the front ([after]) or the back of the ring. *)
Lemma linked_ring_insert_ok h head b l after :
  ring h head l -> b ∉ head :: l -> is_Some (h !! b) ->
  exists h', linked_ring_insert (Some head) (Some b) after h = Done h' /\
    ring h' head (if after then b :: l else l ++ [b]) /\ keeps (b :: head :: l) h h'.
Proof.
  intros Hr Hb Hbd. unfold linked_ring_insert. destruct after.
  - rewrite (get_next_of _ _ _ (ring_next _ _ _ Hr)). simpl.
    by apply link_ring.
  - rewrite (get_prev_of _ _ _ (ring_prev _ _ _ Hr)). simpl.
    destruct l as [|a l _] using rev_ind; [by apply (link_ring h head b [])|].
    rewrite last_snoc. simpl.
    assert (Hr' : ring h a (head :: l)) by by apply ring_rotate in Hr.
    destruct (link_ring h a b (head :: l)) as (h'&E&Hring&Hk); [done|set_solver|done|].
    exists h'. split; [exact E|]. split.
    + rewrite <-app_assoc. simpl. apply ring_rotate. simpl.
      apply (ring_rotate h' a [b] head l) in Hring. simpl in Hring.
      apply (ring_rotate h' head l a [b]) in Hring. done.
    + destruct Hk as [Hk ?]. split; [|done]. intros x Hx. apply Hk. set_solver.
Qed.

(** Unlinking the node [e] that follows [a]. *)
Lemma unlink_ring h a e l :
  ring h a (e :: l) ->
  exists h', (h1 ← put_next (Some a) (Some (hd a l)) h;
              put_prev (Some (hd a l)) (Some a) h1) = Done h' /\
    ring h' a l /\ keeps (a :: l) h h'.
Proof.
  intros Hr.
  destruct (put_next_spec h a (Some (hd a l))) as (h1&E1&N1&P1&L1&Y1).
  { eapply ring_in_dom; [done|set_solver]. }
  destruct (put_prev_spec h1 (hd a l) (Some a)) as (h2&E2&N2&P2&L2&Y2).
  { eapply payload_is_Some; [done|]. eapply ring_in_dom; [done|]. destruct l; set_solver. }
  exists h2. rewrite E1. split; [exact E2|]. destruct Hr as [Hnd (Hne&Hpe&Hc)].
  apply NoDup_cons in Hnd as [Ha Hnd]. apply NoDup_cons in Hnd as [He Hnd].
  split; [split|].
  - constructor; [set_solver|done].
  - destruct l as [|y l]; simpl in *.
    + by rewrite N2, N1, P2, !decide_True.
    + rewrite N2, N1, P2, !decide_True by done. split_and!; [done..|].
      destruct Hc as (_&_&Hc). revert Hc. apply NoDup_cons in Hnd as [Hy _].
      apply chain_ext; intros x Hx.
      * rewrite N2, N1, decide_False by set_solver. done.
      * rewrite P2, P1, decide_False by set_solver. done.
  - split; [|congruence]. intros x Hx. rewrite L2, L1; [done|set_solver|destruct l; set_solver].
Qed.

Lemma linked_ring_remove_ok h head e l k :
  ring h head (l ++ e :: k) ->
  exists h', linked_ring_remove (Some e) h = Done h' /\ ring h' head (l ++ k) /\
    keeps (head :: l ++ k) h h'.
Proof.
  intros Hr. unfold linked_ring_remove.
  pose proof (proj1 (ring_rotate _ _ _ _ _) Hr) as He.
  rewrite (get_prev_of _ _ _ (ring_prev _ _ _ He)), (get_next_of _ _ _ (ring_next _ _ _ He)). simpl.
  destruct l as [|a l _] using rev_ind.
  - rewrite last_snoc. simpl in *.
    replace (hd e (k ++ [head])) with (hd head k) by by destruct k.
    by apply (unlink_ring h head e k).
  - rewrite last_app_cons, last_cons, last_snoc. simpl.
    rewrite <-app_assoc in Hr. simpl in Hr. apply ring_rotate in Hr. simpl in Hr.
    replace (hd e (k ++ head :: l ++ [a])) with (hd a (k ++ head :: l)) by by destruct k.
    destruct (unlink_ring _ _ _ _ Hr) as (h'&E&Hring&Hk).
    exists h'. split; [exact E|]. split.
    + rewrite <-app_assoc. simpl. by apply ring_rotate.
    + destruct Hk as [Hk ?]. split; [|done]. intros x Hx. apply Hk. set_solver.
Qed.

Lemma linked_ring_empty_ok h head l :
  ring h head l ->
  linked_ring_empty (Some head) h = Done (if decide (l = []) then -1 else 0).
Proof.
  intros Hr. unfold linked_ring_empty. rewrite (get_next_of _ _ _ (ring_next _ _ _ Hr)). simpl.
  destruct Hr as [Hnd _]. apply NoDup_cons in Hnd as [Hhd _].
  destruct l as [|y l]; simpl; [by rewrite decide_True|].
  assert (y <> head) by set_solver. repeat case_decide; congruence.
Qed.

Lemma linked_ring_init_ok h head :
  is_Some (h !! head) ->
  exists h', linked_ring_init (Some head) h = Done h' /\ ring h' head [] /\ keeps [head] h h'.
Proof.
  intros Hh. unfold linked_ring_init.
  destruct (put_next_spec h head (Some head) Hh) as (h1&E1&N1&P1&L1&Y1).
  destruct (put_prev_spec h1 head (Some head)) as (h2&E2&N2&P2&L2&Y2).
  { by eapply payload_is_Some. }
  exists h2. rewrite E1. split; [exact E2|]. split; [split|split].
  - apply NoDup_singleton.
  - simpl. by rewrite N2, N1, P2, !decide_True.
  - intros x Hx. rewrite L2, L1; set_solver.
  - congruence.
Qed.
End specs.

(** ** [utils/list.h] on a represented ring *)

Section list_specs.
Context {A N : Type} `{Countable A} `{!LinkNode A N} `{!LinkNodeLaws A N}.
Implicit Types (h : gmap A N) (a b c x : A) (l k : list A).

Lemma list_add_after_insert (p q : option A) h :
  list_add_after p q h = linked_ring_insert p q true h.
Proof. unfold list_add_after, linked_ring_insert. by destruct (get_next p h). Qed.

Lemma list_add_before_insert (p q : option A) h :
  list_add_before p q h = linked_ring_insert p q false h.
Proof. unfold list_add_before, linked_ring_insert. by destruct (get_prev p h). Qed.

Lemma keeps_perm (s t : list A) h h' : s ⊆ t -> keeps s h h' -> keeps t h h'.
Proof. intros Hst [Hk Hp]. split; [|done]. intros x Hx. apply Hk. set_solver. Qed.

Lemma keeps_trans (s : list A) h1 h2 h3 : keeps s h1 h2 -> keeps s h2 h3 -> keeps s h1 h3.
Proof.
  intros [Hk1 Hp1] [Hk2 Hp2]. split; [|congruence].
  intros x Hx. by rewrite Hk2, Hk1.
Qed.

Lemma keeps_ring (s : list A) h h' hd l :
  keeps s h h' -> (forall x, x ∈ hd :: l -> x ∉ s) -> ring h hd l -> ring h' hd l.
Proof. intros [Hk _] Hd. apply ring_frame. auto. Qed.

Lemma keeps_is_Some (s : list A) h h' x : keeps s h h' -> is_Some (h !! x) -> is_Some (h' !! x).
Proof. intros [_ Hp]. by apply payload_is_Some. Qed.

(** Insertion before an element of the ring. *)
Lemma list_add_before_ok h head l c k b :
  ring h head (l ++ c :: k) -> b ∉ head :: l ++ c :: k -> is_Some (h !! b) ->
  exists h', list_add_before (Some c) (Some b) h = Done h' /\
    ring h' head (l ++ b :: c :: k) /\ keeps (b :: head :: l ++ c :: k) h h'.
Proof.
  intros Hr Hb Hbd. rewrite list_add_before_insert.
  destruct (linked_ring_insert_ok h c b (k ++ head :: l) false) as (h'&E&Hr'&Hk).
  { by apply ring_rotate. } { set_solver. } { done. }
  exists h'. split; [done|]. split.
  - rewrite <-app_assoc in Hr'. simpl in Hr'. apply ring_rotate in Hr'.
    by rewrite <-app_assoc in Hr'.
  - eapply keeps_perm; [|done]. set_solver.
Qed.

Lemma list_push_tail_ok h head l b :
  ring h head l -> b ∉ head :: l -> is_Some (h !! b) ->
  exists h', list_push_tail (Some head) (Some b) h = Done h' /\
    ring h' head (l ++ [b]) /\ keeps (b :: head :: l) h h'.
Proof.
  intros. unfold list_push_tail. rewrite list_add_before_insert.
  by apply (linked_ring_insert_ok h head b l false).
Qed.

Lemma list_foreach_from_ok h head a l k fuel :
  (length l <= fuel)%nat -> head ∉ a :: l -> chain h a l head ->
  list_foreach_from (S fuel) (Some head) (Some a) h = Done (a :: l).
Proof.
  revert a fuel. induction l as [|y l IH]; intros a fuel Hf Ha; simpl.
  - intros [Hn _]. rewrite decide_False by set_solver.
    rewrite (get_next_of _ _ _ Hn). simpl. destruct fuel; simpl; by rewrite decide_True.
  - intros (Hn&_&Hc). rewrite decide_False by set_solver.
    rewrite (get_next_of _ _ _ Hn). simpl. simpl in Hf. destruct fuel as [|fuel]; [lia|].
    rewrite (IH y fuel); [done|lia|set_solver|done].
Qed.

Lemma list_foreach_ok h head l fuel :
  ring h head l -> (length l <= fuel)%nat -> list_foreach fuel (Some head) h = Done l.
Proof.
  intros [Hnd Hc] Hf. unfold list_foreach.
  rewrite (get_next_of _ _ _ (chain_next _ _ _ _ Hc)). simpl.
  destruct l as [|y l]; simpl.
  - destruct fuel; simpl; by rewrite decide_True.
  - destruct fuel as [|fuel]; simpl in Hf; [lia|]. simpl in Hc.
    apply (list_foreach_from_ok h head y l []); [lia| |naive_solver].
    by apply NoDup_cons in Hnd as [? _].
Qed.
End list_specs.

Create HintDb ring.
#[export] Hint Resolve ring_frame keeps_ring keeps_is_Some : ring.

(** ** Properties *)

Section properties.
Context {A N : Type} `{Countable A} `{!LinkNode A N} `{!LinkNodeLaws A N}.
Implicit Types (h : gmap A N) (head b e : A) (l k : list A).

(** C19: [linked_ring_insert] implements insertion into the list a ring
    represents: at the front when [after] is set, at the back otherwise.  It
    returns, writes only nodes of that ring and the new node, and leaves the
    [data] fields of all nodes as they were. *)
Theorem ring_insert_refines h head b l after :
  ring h head l -> b ∉ head :: l -> is_Some (h !! b) ->
  exists h', linked_ring_insert (Some head) (Some b) after h = Done h' /\
    ring h' head (if after then b :: l else l ++ [b]) /\
    (forall x, x ∉ b :: head :: l -> h' !! x = h !! x) /\ payload h' = payload h.
Proof. intros. by apply linked_ring_insert_ok. Qed.

(** C20: [linked_ring_remove] takes exactly the given element out of the ring
    it is in, wherever it stands, and inserting an element and removing it
    again gives back a heap that represents the same ring. *)
Theorem ring_remove_refines h head e l k :
  ring h head (l ++ e :: k) ->
  exists h', linked_ring_remove (Some e) h = Done h' /\ ring h' head (l ++ k) /\
    (forall x, x ∉ head :: l ++ k -> h' !! x = h !! x) /\ payload h' = payload h /\
    (forall after, exists h'', linked_ring_insert (Some head) (Some e) after h' = Done h'' /\
       exists h3, linked_ring_remove (Some e) h'' = Done h3 /\ ring h3 head (l ++ k)).
Proof.
  intros Hr. destruct (linked_ring_remove_ok _ _ _ _ _ Hr) as (h'&E&Hr'&Hk).
  exists h'. split_and!; [done..|by destruct Hk|by destruct Hk|]. intros after.
  destruct (linked_ring_insert_ok h' head e (l ++ k) after) as (h''&E'&Hr''&_); [done|..].
  - destruct Hr as [Hnd _]. rewrite app_comm_cons in Hnd.
    apply NoDup_app in Hnd as (_&Hd&Hnd). apply NoDup_cons in Hnd as [Hek _].
    set_solver.
  - eapply keeps_is_Some; [done|]. eapply ring_in_dom; [done|]. set_solver.
  - exists h''. split; [done|]. destruct after.
    + destruct (linked_ring_remove_ok h'' head e [] (l ++ k)) as (h3&?&?&_); [done|]. eauto.
    + destruct (linked_ring_remove_ok h'' head e (l ++ k) []) as (h3&?&?&_); [done|].
      rewrite app_nil_r in *. eauto.
Qed.

(** The pops of [utils/list.h]: on an empty list they return null and
    change nothing; otherwise they return the first (last) element and leave
    the list without it. *)
Theorem list_pop_refines h head l :
  ring h head l ->
  (exists h', list_pop_head (Some head) h = Done (List.hd_error l, h') /\ ring h' head (tail l) /\
     (l = [] -> h' = h)) /\
  (exists h', list_pop_tail (Some head) h = Done (last l, h') /\ ring h' head (removelast l) /\
     (l = [] -> h' = h)).
Proof.
  intros Hr. unfold list_pop_head, list_pop_tail.
  rewrite (get_next_of _ _ _ (ring_next _ _ _ Hr)), (get_prev_of _ _ _ (ring_prev _ _ _ Hr)). simpl.
  assert (Hh : head ∉ l) by by destruct Hr as [[? _]%NoDup_cons _]. split.
  - destruct l as [|y l]; simpl; [rewrite decide_True by auto; eauto|].
    rewrite decide_False by set_solver.
    destruct (linked_ring_remove_ok h head y [] l Hr) as (h'&E&Hr'&_).
    exists h'. change (list_item_remove (Some y) h) with (linked_ring_remove (Some y) h).
    by rewrite E.
  - destruct l as [|y l _] using rev_ind; simpl; [rewrite decide_True by auto; eauto|].
    rewrite last_snoc, removelast_last. simpl. rewrite decide_False by set_solver.
    destruct (linked_ring_remove_ok h head y l [] Hr) as (h'&E&Hr'&_).
    exists h'. change (list_item_remove (Some y) h) with (linked_ring_remove (Some y) h).
    rewrite E, app_nil_r in *. split_and!; [done..|]. by destruct l.
Qed.
End properties.

(** ** Witnesses *)

#[export] Instance chain_dec {A N} `{Countable A} `{!LinkNode A N} (h : gmap A N) a l b :
  Decision (chain h a l b).
Proof. revert a. induction l; simpl; apply _. Defined.

#[export] Instance ring_dec {A N} `{Countable A} `{!LinkNode A N} (h : gmap A N) hd l :
  Decision (ring h hd l).
Proof. unfold ring. apply _. Defined.

(** A heap with the ring [100 -> 1 -> 2 -> 100] and the unlinked node [3]. *)
Definition example_heap : gmap Z (linked_ring Z Z) :=
  list_to_map [ (100, Linked_ring (Some 1) (Some 2) None);
                (1, Linked_ring (Some 2) (Some 100) (Some 11));
                (2, Linked_ring (Some 100) (Some 1) (Some 22));
                (3, Linked_ring None None (Some 33)) ].

Lemma example_heap_ring : ring example_heap 100 [1; 2].
Proof. apply (bool_decide_eq_true_1 _). vm_compute. reflexivity. Defined.

Lemma ring_insert_refines_witness :
  exists h', linked_ring_insert (Some 100) (Some 3) true example_heap = Done h' /\
    ring h' 100 [3; 1; 2].
Proof.
  destruct (ring_insert_refines example_heap 100 3 [1; 2] true) as (h'&E&Hr&_).
  - exact example_heap_ring.
  - apply (bool_decide_eq_true_1 _). vm_compute. reflexivity.
  - eexists. vm_compute. reflexivity.
  - exists h'. split; [exact E|exact Hr].
Defined.

Lemma ring_remove_refines_witness :
  exists h', linked_ring_remove (Some 1) example_heap = Done h' /\ ring h' 100 [2].
Proof.
  destruct (ring_remove_refines example_heap 100 1 [] [2]) as (h'&E&Hr&_).
  - exact example_heap_ring.
  - exists h'. split; [exact E|exact Hr].
Defined.

Lemma list_pop_refines_witness :
  exists h', list_pop_tail (Some 100) example_heap = Done (Some 2, h') /\ ring h' 100 [1].
Proof.
  destruct (list_pop_refines example_heap 100 [1; 2] example_heap_ring) as [_ (h'&E&Hr&_)].
  exists h'. split; [exact E|exact Hr].
Defined.
