(* ===== verification/Tree.v ===== *)
(** * The binary search tree of the VM layer

    Models [system/vm/tree.c] and [vm/tree.h] at the level of its pointers: a
    node is a record in a heap, a [struct bintree_node **] is a [link] (the
    variable that holds the root, or the [left] or [right] field of a node),
    and the array [narr] of the 64 most recent links is the array of the
    source, indexed with [m64].

    The functional trees [tree] and their operations ([balance], [up], ...)
    are the specification the pointer code refines. *)

From Stdlib Require Import Sorting.Sorted.
From S2P Require Import Prelude.

(** ** Data *)

(** [struct bintree_node]. *)
Record bintree_node := Bintree_node {
  K : Z;
  V : Z;
  left : option Z;
  right : option Z;
  recycle : option Z;
  depth : Z;
}.

(** A value of type [struct bintree_node **]. *)
Inductive link :=
| Root
| LeftOf (a : Z)
| RightOf (a : Z).

#[export] Instance link_eq_dec : EqDecision link.
Proof. solve_decision. Defined.

Record store := Store {
  root : option Z;
  nodes : gmap Z bintree_node;
}.

Definition with_left (p : option Z) (n : bintree_node) : bintree_node :=
  Bintree_node (K n) (V n) p (right n) (recycle n) (depth n).
Definition with_right (p : option Z) (n : bintree_node) : bintree_node :=
  Bintree_node (K n) (V n) (left n) p (recycle n) (depth n).
Definition with_depth (d : Z) (n : bintree_node) : bintree_node :=
  Bintree_node (K n) (V n) (left n) (right n) (recycle n) d.
Definition with_V (v : Z) (n : bintree_node) : bintree_node :=
  Bintree_node (K n) v (left n) (right n) (recycle n) (depth n).

(** Loads and stores through node pointers and links. *)
Definition load (p : option Z) (s : store) : outcome bintree_node :=
  a ← deref p; deref (nodes s !! a).

Definition modify (p : option Z) (f : bintree_node -> bintree_node) (s : store)
  : outcome store :=
  a ← deref p; n ← deref (nodes s !! a);
  Done (Store (root s) (<[a := f n]> (nodes s))).

Definition load_link (lk : link) (s : store) : outcome (option Z) :=
  match lk with
  | Root => Done (root s)
  | LeftOf a => n ← load (Some a) s; Done (left n)
  | RightOf a => n ← load (Some a) s; Done (right n)
  end.

Definition store_link (lk : link) (p : option Z) (s : store) : outcome store :=
  match lk with
  | Root => Done (Store p (nodes s))
  | LeftOf a => modify (Some a) (with_left p) s
  | RightOf a => modify (Some a) (with_right p) s
  end.

(** ** Operations of tree.c *)

Definition m64 (i : Z) : nat := Z.to_nat (Z.land i 63).

Definition bt_max (a b : Z) : Z := if b <? a then a else b.

Definition bt_depth (node : option Z) (s : store) : outcome Z :=
  match node with
  | Some _ => n ← load node s; Done (depth n)
  | None => Done 0
  end.

Definition bt_calcdepth (node : option Z) (s : store) : outcome store :=
  match node with
  | None => Done s
  | Some _ =>
      n ← load node s;
      l ← bt_depth (left n) s;
      r ← bt_depth (right n) s;
      modify node (with_depth (bt_max l r +u 1)) s
  end.

Definition bt_rotleft (node : link) (s : store) : outcome store :=
  h ← load_link node s;
  hn ← load h s;
  let x := right hn in
  xn ← load x s;
  s ← modify h (with_right (left xn)) s;
  s ← modify x (with_left h) s;
  s ← bt_calcdepth h s;
  s ← bt_calcdepth x s;
  store_link node x s.

Definition bt_rotright (node : link) (s : store) : outcome store :=
  h ← load_link node s;
  hn ← load h s;
  let x := left hn in
  xn ← load x s;
  s ← modify h (with_left (right xn)) s;
  s ← modify x (with_right h) s;
  s ← bt_calcdepth h s;
  s ← bt_calcdepth x s;
  store_link node x s.

(** Balance a node, and calculate its depth. *)
Definition bt_balance (node : link) (s : store) : outcome store :=
  h ← load_link node s;
  match h with
  | None => Done s
  | Some _ =>
      hn ← load h s;
      l ← bt_depth (left hn) s;
      r ← bt_depth (right hn) s;
      if (r <? l) && (1 <? l -u r) then bt_rotright node s
      else if (l <? r) && (1 <? r -u l) then bt_rotleft node s
      else bt_calcdepth h s
  end.

(** The array of links, [struct bintree_node **narr[64]]; after its
    initialisation [i] is 64 and [narr[m64(i)]] is the link of the root. *)
Definition narr_init (node : link) : list (option link) :=
  <[m64 64 := Some node]> (replicate 64 None).

(** The search loop of [bt_insert], [bt_put] and [bt_put_ip].  It ends at a
    link that holds null or a node with key [K]. *)
Fixpoint bt_descend (fuel : nat) (Kx : Z) (node : link) (i : Z)
    (narr : list (option link)) (s : store)
  : outcome (link * Z * list (option link)) :=
  match fuel with
  | O => OutOfFuel
  | S fuel =>
      n ← load_link node s;
      match n with
      | None => Done (node, i, narr)
      | Some a =>
          nn ← load n s;
          let N := K nn in
          if Kx <? N then
            bt_descend fuel Kx (LeftOf a) (i + 1) (<[m64 (i + 1) := Some (LeftOf a)]> narr) s
          else if N <? Kx then
            bt_descend fuel Kx (RightOf a) (i + 1) (<[m64 (i + 1) := Some (RightOf a)]> narr) s
          else Done (node, i, narr)
      end
  end.

(** Backtracking: [for(;narr[m64(i)];--i)]. *)
Fixpoint bt_backtrack (fuel : nat) (i : Z) (narr : list (option link)) (s : store)
  : outcome store :=
  e ← deref (narr !! m64 i);
  match e with
  | None => Done s
  | Some node =>
      match fuel with
      | O => OutOfFuel
      | S fuel =>
          s ← bt_balance node s;
          bt_backtrack fuel (i - 1) (<[m64 i := None]> narr) s
      end
  end.

(** Both child fields of the node that [it] points to are set to null. *)
Definition clear_children (it : option Z) (s : store) : outcome store :=
  s ← modify it (with_right None) s; modify it (with_left None) s.

(** The result is the new value of [*it] and the new store. *)
Definition bt_insert (fuel : nat) (node : link) (it : option Z) (s : store)
  : outcome (option Z * store) :=
  itn ← load it s;
  let Kx := K itn in
  s ← clear_children it s;
  '(node, i, narr) ← bt_descend fuel Kx node 64 (narr_init node) s;
  n ← load_link node s;
  match n with
  | None =>
      s ← store_link node it s;
      s ← bt_backtrack 64 i narr s;
      Done (None, s)
  | Some _ => Done (it, s)
  end.

Definition bt_put (fuel : nat) (node : link) (it : option Z) (s : store)
  : outcome (option Z * store) :=
  itn ← load it s;
  let Kx := K itn in
  s ← clear_children it s;
  '(node, i, narr) ← bt_descend fuel Kx node 64 (narr_init node) s;
  n ← load_link node s;
  match n with
  | None =>
      s ← store_link node it s;
      s ← bt_backtrack 64 i narr s;
      Done (None, s)
  | Some _ =>
      nn ← load n s;
      s ← modify it (with_left (left nn)) s;
      s ← modify it (with_right (right nn)) s;
      s ← modify it (with_depth (depth nn)) s;
      s ← store_link node it s;
      s ← bt_backtrack 64 i narr s;
      Done (n, s)
  end.

Definition bt_put_ip (fuel : nat) (node : link) (it : option Z) (s : store)
  : outcome (option Z * store) :=
  itn ← load it s;
  let Kx := K itn in
  s ← clear_children it s;
  '(node, i, narr) ← bt_descend fuel Kx node 64 (narr_init node) s;
  n ← load_link node s;
  match n with
  | None =>
      s ← store_link node it s;
      s ← bt_backtrack 64 i narr s;
      Done (None, s)
  | Some _ =>
      itn ← load it s;
      s ← modify n (with_V (V itn)) s;
      s ← bt_backtrack 64 i narr s;
      Done (it, s)
  end.

(** The loop of [bt_remove] that turns the node down until one of its
    children is missing. *)
Fixpoint bt_sink (fuel : nat) (node : link) (it : option Z) (i : Z)
    (narr : list (option link)) (s : store)
  : outcome (option Z * Z * list (option link) * store) :=
  match fuel with
  | O => OutOfFuel
  | S fuel =>
      n ← load_link node s;
      match n with
      | None => Done (it, i, narr, s)
      | Some _ =>
          nn ← load n s;
          match left nn, right nn with
          | None, _ => s ← store_link node (right nn) s; Done (n, i, narr, s)
          | _, None => s ← store_link node (left nn) s; Done (n, i, narr, s)
          | Some _, Some _ =>
              l ← bt_depth (left nn) s;
              r ← bt_depth (right nn) s;
              if l <=? r then
                s ← bt_rotleft node s;
                x ← load_link node s;
                a ← deref x;
                bt_sink fuel (LeftOf a) it (i + 1) (<[m64 (i + 1) := Some (LeftOf a)]> narr) s
              else
                s ← bt_rotright node s;
                x ← load_link node s;
                a ← deref x;
                bt_sink fuel (RightOf a) it (i + 1) (<[m64 (i + 1) := Some (RightOf a)]> narr) s
          end
      end
  end.

(** The second loop of [bt_remove] tests [*narr[m64(i)]] before balancing. *)
Fixpoint bt_remove_backtrack (fuel : nat) (i : Z) (narr : list (option link)) (s : store)
  : outcome store :=
  e ← deref (narr !! m64 i);
  match e with
  | None => Done s
  | Some node =>
      match fuel with
      | O => OutOfFuel
      | S fuel =>
          n ← load_link node s;
          s ← (match n with Some _ => bt_balance node s | None => Done s end);
          bt_remove_backtrack fuel (i - 1) (<[m64 i := None]> narr) s
      end
  end.

Definition bt_remove (fuel : nat) (node : link) (it : option Z) (s : store)
  : outcome (option Z * store) :=
  '(it, i, narr, s) ← bt_sink fuel node it 64 (narr_init node) s;
  s ← bt_remove_backtrack 64 i narr s;
  Done (it, s).

Fixpoint bt_lookup (fuel : nat) (node : link) (Kx : Z) (s : store) : outcome (option link) :=
  match fuel with
  | O => OutOfFuel
  | S fuel =>
      n ← load_link node s;
      match n with
      | None => Done None
      | Some a =>
          nn ← load n s;
          if Kx <? K nn then bt_lookup fuel (LeftOf a) Kx s
          else if K nn <? Kx then bt_lookup fuel (RightOf a) Kx s
          else Done (Some node)
      end
  end.

Fixpoint bt_floor_from (fuel : nat) (node : link) (lowermost : option link) (Kx : Z) (s : store)
  : outcome (option link) :=
  match fuel with
  | O => OutOfFuel
  | S fuel =>
      n ← load_link node s;
      match n with
      | None => Done lowermost
      | Some a =>
          nn ← load n s;
          if Kx <? K nn then bt_floor_from fuel (LeftOf a) lowermost Kx s
          else if K nn <? Kx then bt_floor_from fuel (RightOf a) (Some node) Kx s
          else Done (Some node)
      end
  end.

Definition bt_floor (fuel : nat) (node : link) (Kx : Z) (s : store) : outcome (option link) :=
  bt_floor_from fuel node None Kx s.

Fixpoint bt_ceiling_from (fuel : nat) (node : link) (uppermost : option link) (Kx : Z) (s : store)
  : outcome (option link) :=
  match fuel with
  | O => OutOfFuel
  | S fuel =>
      n ← load_link node s;
      match n with
      | None => Done uppermost
      | Some a =>
          nn ← load n s;
          if Kx <? K nn then bt_ceiling_from fuel (LeftOf a) (Some node) Kx s
          else if K nn <? Kx then bt_ceiling_from fuel (RightOf a) uppermost Kx s
          else Done (Some node)
      end
  end.

Definition bt_ceiling (fuel : nat) (node : link) (Kx : Z) (s : store) : outcome (option link) :=
  bt_ceiling_from fuel node None Kx s.

(** ** Functional trees *)

(** A node carries its address, key, value, recycle pointer and depth field. *)
Inductive tree :=
| Leaf
| Node (a k v : Z) (rc : option Z) (d : Z) (l r : tree).

Definition ptr (t : tree) : option Z :=
  match t with Leaf => None | Node a _ _ _ _ _ _ => Some a end.

Definition dep (t : tree) : Z :=
  match t with Leaf => 0 | Node _ _ _ _ d _ _ => d end.

Fixpoint addrs (t : tree) : list Z :=
  match t with Leaf => [] | Node a _ _ _ _ l r => a :: addrs l ++ addrs r end.

Fixpoint size (t : tree) : nat :=
  match t with Leaf => 0 | Node _ _ _ _ _ l r => S (size l + size r) end.

Fixpoint height (t : tree) : nat :=
  match t with Leaf => 0 | Node _ _ _ _ _ l r => S (Nat.max (height l) (height r)) end.

(** Recomputed depth field of the top node. *)
Definition calc (t : tree) : tree :=
  match t with
  | Leaf => Leaf
  | Node a k v rc _ l r => Node a k v rc (bt_max (dep l) (dep r) +u 1) l r
  end.

Definition rotleft (t : tree) : tree :=
  match t with
  | Node a k v rc d l (Node a' k' v' rc' d' l' r') =>
      calc (Node a' k' v' rc' d' (calc (Node a k v rc d l l')) r')
  | _ => t
  end.

Definition rotright (t : tree) : tree :=
  match t with
  | Node a k v rc d (Node a' k' v' rc' d' l' r') r =>
      calc (Node a' k' v' rc' d' l' (calc (Node a k v rc d r' r)))
  | _ => t
  end.

Definition balance (t : tree) : tree :=
  match t with
  | Leaf => Leaf
  | Node _ _ _ _ _ l r =>
      if (dep r <? dep l) && (1 <? dep l -u dep r) then rotright t
      else if (dep l <? dep r) && (1 <? dep r -u dep l) then rotleft t
      else calc t
  end.

(** One-hole contexts, innermost frame first: the way from the root to a link. *)
Inductive frame :=
| InLeft (a k v : Z) (rc : option Z) (d : Z) (r : tree)
| InRight (a k v : Z) (rc : option Z) (d : Z) (l : tree).

Definition fill (f : frame) (t : tree) : tree :=
  match f with
  | InLeft a k v rc d r => Node a k v rc d t r
  | InRight a k v rc d l => Node a k v rc d l t
  end.

Fixpoint plug (c : list frame) (t : tree) : tree :=
  match c with [] => t | f :: c => plug c (fill f t) end.

Definition frame_addr (f : frame) : Z :=
  match f with InLeft a _ _ _ _ _ => a | InRight a _ _ _ _ _ => a end.

Definition frame_other (f : frame) : tree :=
  match f with InLeft _ _ _ _ _ r => r | InRight _ _ _ _ _ l => l end.

Definition frame_link (f : frame) : link :=
  match f with InLeft a _ _ _ _ _ => LeftOf a | InRight a _ _ _ _ _ => RightOf a end.

Fixpoint ctx_addrs (c : list frame) : list Z :=
  match c with [] => [] | f :: c => frame_addr f :: addrs (frame_other f) ++ ctx_addrs c end.

Definition link_of (lk : link) (c : list frame) : link :=
  match c with [] => lk | f :: _ => frame_link f end.

(** Rebalancing upwards through at most [n] links. *)
Fixpoint up (n : nat) (c : list frame) (t : tree) : tree :=
  match n with
  | O => plug c t
  | S n => match c with
           | [] => balance t
           | f :: c => up n c (fill f (balance t))
           end
  end.

(** The search path of a key. *)
Fixpoint path (x : Z) (t : tree) (c : list frame) : list frame * tree :=
  match t with
  | Leaf => (c, Leaf)
  | Node a k v rc d l r =>
      if x <? k then path x l (InLeft a k v rc d r :: c)
      else if k <? x then path x r (InRight a k v rc d l :: c)
      else (c, t)
  end.

(** ** Representation of a tree in the heap *)

Definition node_of (k v : Z) (rc : option Z) (d : Z) (l r : tree) : bintree_node :=
  Bintree_node k v (ptr l) (ptr r) rc d.

(** Depth fields are unsigned, hence not negative. *)
Fixpoint rep (h : gmap Z bintree_node) (t : tree) : Prop :=
  match t with
  | Leaf => True
  | Node a k v rc d l r =>
      h !! a = Some (node_of k v rc d l r) /\ 0 <= d /\ rep h l /\ rep h r
  end.

Definition frame_node (f : frame) (p : option Z) : bintree_node :=
  match f with
  | InLeft a k v rc d r => Bintree_node k v p (ptr r) rc d
  | InRight a k v rc d l => Bintree_node k v (ptr l) p rc d
  end.

Definition frame_dep (f : frame) : Z :=
  match f with InLeft _ _ _ _ d _ => d | InRight _ _ _ _ d _ => d end.

Fixpoint rep_ctx (h : gmap Z bintree_node) (c : list frame) (p : option Z) : Prop :=
  match c with
  | [] => True
  | f :: c => h !! frame_addr f = Some (frame_node f p) /\ 0 <= frame_dep f /\
              rep h (frame_other f) /\ rep_ctx h c (Some (frame_addr f))
  end.

(** The node, if any, whose field is the link itself. *)
Definition owner (lk : link) : list Z :=
  match lk with Root => [] | LeftOf a => [a] | RightOf a => [a] end.

(** [trep s lk t]: the link [lk] of the store [s] holds the tree [t]. *)
Definition trep (s : store) (lk : link) (t : tree) : Prop :=
  load_link lk s = Done (ptr t) /\ rep (nodes s) t /\ NoDup (owner lk ++ addrs t).

Lemma plug_fill c f t : plug (f :: c) t = plug c (fill f t).
Proof. done. Qed.

Lemma fill_addrs f t : addrs (fill f t) ≡ₚ addrs t ++ frame_addr f :: addrs (frame_other f).
Proof. destruct f; simpl; solve_Permutation. Qed.

Lemma plug_addrs c t : addrs (plug c t) ≡ₚ addrs t ++ ctx_addrs c.
Proof.
  revert t. induction c as [|f c IH]; intros t; simpl; [by rewrite app_nil_r|].
  rewrite IH, fill_addrs. solve_Permutation.
Qed.

Lemma rep_fill h f t :
  rep h (fill f t) <->
  h !! frame_addr f = Some (frame_node f (ptr t)) /\ 0 <= frame_dep f /\
  rep h (frame_other f) /\ rep h t.
Proof. destruct f; simpl; unfold node_of; naive_solver. Qed.

Lemma rep_plug h c t : rep h (plug c t) <-> rep_ctx h c (ptr t) /\ rep h t.
Proof.
  revert t. induction c as [|f c IH]; intros t; simpl; [naive_solver|].
  rewrite IH, rep_fill.
  assert (ptr (fill f t) = Some (frame_addr f)) as -> by by destruct f.
  naive_solver.
Qed.

Lemma rep_frame h h' t : (forall x, x ∈ addrs t -> h' !! x = h !! x) -> rep h t -> rep h' t.
Proof.
  induction t as [|a k v rc d l IHl r IHr]; simpl; intros Heq; [done|].
  intros (Ha&?&?&?). rewrite Heq by set_solver. split_and!; [done..| |].
  - apply IHl; [set_solver|done].
  - apply IHr; [set_solver|done].
Qed.

Lemma rep_ctx_frame h h' c p :
  (forall x, x ∈ ctx_addrs c -> h' !! x = h !! x) -> rep_ctx h c p -> rep_ctx h' c p.
Proof.
  revert p. induction c as [|f c IH]; simpl; intros p Heq; [done|].
  intros (Ha&?&?&?). rewrite Heq by set_solver. split_and!; [done..| |].
  - eapply rep_frame; [|done]. set_solver.
  - apply IH; [set_solver|done].
Qed.

(** Nodes that neither belong to the trees [ts] nor own the link are unchanged. *)
Definition tkeeps (lk : link) (xs : list Z) (s s' : store) : Prop :=
  forall x, x ∉ owner lk ++ xs -> nodes s' !! x = nodes s !! x.

Lemma tkeeps_refl lk xs s : tkeeps lk xs s s.
Proof. by intros x. Qed.

Lemma tkeeps_trans lk xs s1 s2 s3 : tkeeps lk xs s1 s2 -> tkeeps lk xs s2 s3 -> tkeeps lk xs s1 s3.
Proof. intros H1 H2 x Hx. by rewrite H2, H1. Qed.

Lemma tkeeps_weaken lk xs ys s s' : xs ⊆ ys -> tkeeps lk xs s s' -> tkeeps lk ys s s'.
Proof. intros Hs Hk x Hx. apply Hk. set_solver. Qed.

Lemma load_Done a s n : load (Some a) s = Done n <-> nodes s !! a = Some n.
Proof. apply deref_Done. Qed.

Lemma modify_Done a f s n :
  nodes s !! a = Some n -> modify (Some a) f s = Done (Store (root s) (<[a := f n]> (nodes s))).
Proof. intros Hn. unfold modify. simpl. by rewrite Hn. Qed.

Ltac tree_inv :=
  repeat first
    [ progress outcome_inv
    | match goal with H : load (Some _) _ = Done _ |- _ => apply load_Done in H end ].

Lemma store_link_same lk p s : load_link lk s = Done p -> store_link lk p s = Done s.
Proof.
  destruct lk; simpl; intros Hl; tree_inv; [by destruct s|..];
    match goal with H : nodes s !! _ = Some ?n |- _ =>
      unfold modify; simpl; rewrite H; simpl; f_equal; destruct s, n; simpl in *;
      f_equal; by rewrite insert_id end.
Qed.

Lemma trep_focus s lk c t : trep s lk (plug c t) -> trep s (link_of lk c) t.
Proof.
  intros (Hl&Hr&Hnd). destruct c as [|f c]; [done|].
  apply rep_plug in Hr as [Hc Ht]. destruct Hc as (Ha&_).
  rewrite plug_addrs in Hnd. simpl in Hnd. split_and!; [|done|].
  - destruct f; simpl in *; apply load_Done in Ha; by rewrite Ha.
  - assert (owner (link_of lk (f :: c)) = [frame_addr f]) as -> by by destruct f.
    apply NoDup_app in Hnd as (_&_&Hnd). apply NoDup_app in Hnd as (Ht'&Hd&_).
    simpl. constructor; [|done]. intros Hin. apply (Hd _ Hin). set_solver.
Qed.

Lemma ptr_plug_cons f c t t' : ptr (plug (f :: c) t) = ptr (plug (f :: c) t').
Proof.
  revert f t t'. induction c as [|g c IH]; intros f t t'; [by destruct f|].
  apply (IH g (fill f t) (fill f t')).
Qed.

Lemma load_link_frame lk s h t :
  (forall x, x ∈ owner lk -> h !! x = nodes s !! x) ->
  load_link lk s = Done (ptr t) -> load_link lk (Store (root s) h) = Done (ptr t).
Proof.
  destruct lk; unfold load_link, load; simpl; intros Heq; rewrite ?Heq by set_solver; done.
Qed.

(** Replacing the subtree at a link. *)
Lemma trep_replace s h1 lk c t t' :
  trep s lk (plug c t) -> rep h1 t' ->
  (forall x, x ∉ addrs t ++ addrs t' -> h1 !! x = nodes s !! x) ->
  NoDup (owner lk ++ addrs (plug c t')) ->
  exists s', store_link (link_of lk c) (ptr t') (Store (root s) h1) = Done s' /\
    trep s' lk (plug c t') /\ tkeeps lk (addrs (plug c t) ++ addrs t') s s'.
Proof.
  intros (Hl&Hr&Hnd) Ht' Heq Hnd'. destruct c as [|f c].
  - simpl in *. destruct lk as [|a|a]; simpl in *.
    { eexists. split; [done|]. split; [done|]. intros x Hx. apply Heq. set_solver. }
    all: apply bind_Done in Hl as (n&Hn%load_Done&_).
    all: apply NoDup_cons in Hnd as [Ha _]; pose proof Hnd' as [Ha' _]%NoDup_cons.
    all: unfold modify; simpl; rewrite Heq, Hn by set_solver; simpl.
    all: eexists; split; [done|]; split; [split_and!|]; unfold load_link, load; simpl;
      [by rewrite lookup_insert_eq| |done|].
    1,3: (eapply rep_frame; [|exact Ht']; intros x Hx; apply lookup_insert_ne; set_solver).
    all: intros x Hx; simpl; rewrite lookup_insert_ne by set_solver; apply Heq; set_solver.
  - apply rep_plug in Hr as [(Hf&Hdf&Ho&Hc) Ht]. rewrite plug_addrs in Hnd, Hnd'.
    simpl in Hnd, Hnd'.
    apply NoDup_app in Hnd as (_&Hod&Hnd). apply NoDup_app in Hnd as (_&Hd&Hndc).
    pose proof Hnd' as (_&Hod'&(_&Hd'&_)%NoDup_app)%NoDup_app.
    apply NoDup_cons in Hndc as [Hfc _].
    assert (Hout : forall x, x ∈ frame_addr f :: addrs (frame_other f) ++ ctx_addrs c ->
      h1 !! x = nodes s !! x) by (intros x Hx; apply Heq; set_solver).
    assert (Hstore : store_link (frame_link f) (ptr t') (Store (root s) h1) =
      Done (Store (root s) (<[frame_addr f := frame_node f (ptr t')]> h1))).
    { rewrite <-Hout in Hf by set_solver.
      destruct f; simpl in *; unfold modify; simpl; rewrite Hf; done. }
    eexists. split; [exact Hstore|]. split; [split_and!|]; simpl.
    + rewrite (ptr_plug_cons f c t' t : ptr (plug c (fill f t')) = _). apply load_link_frame; [|done].
      intros x Hx. rewrite lookup_insert_ne by set_solver. apply Heq. set_solver.
    + apply (rep_plug _ (f :: c)). simpl. rewrite lookup_insert_eq. split_and!; [done|done|..].
      * eapply rep_frame; [|exact Ho]. intros x Hx. rewrite lookup_insert_ne by set_solver.
        apply Hout. set_solver.
      * eapply rep_ctx_frame; [|exact Hc]. intros x Hx. rewrite lookup_insert_ne by set_solver.
        apply Hout. set_solver.
      * eapply rep_frame; [|exact Ht']. intros x Hx. apply lookup_insert_ne. set_solver.
    + pose proof (plug_addrs (f :: c) t') as Hp. simpl in Hp. by rewrite Hp.
    + intros x Hx. simpl. pose proof (plug_addrs (f :: c) t) as Hp. simpl in Hp. rewrite Hp in Hx.
      rewrite lookup_insert_ne by set_solver. apply Heq. set_solver.
Qed.

(** ** The primitives refine the functional operations *)

#[local] Arguments bt_calcdepth : simpl never.
#[local] Arguments bt_balance : simpl never.
#[local] Arguments modify : simpl never.

Lemma bt_depth_ok s t : rep (nodes s) t -> bt_depth (ptr t) s = Done (dep t).
Proof.
  destruct t as [|a k v rc d l r]; [done|]. intros (Ha&_). unfold bt_depth. simpl.
  apply load_Done in Ha. by rewrite Ha.
Qed.

Lemma rep_dep_nonneg h t : rep h t -> 0 <= dep t.
Proof. destruct t; simpl; [lia|]. intros (_&?&_). done. Qed.

Lemma addrs_calc t : addrs (calc t) = addrs t.
Proof. by destruct t. Qed.

Lemma ptr_calc t : ptr (calc t) = ptr t.
Proof. by destruct t. Qed.

Lemma addrs_rotleft t : addrs (rotleft t) ≡ₚ addrs t.
Proof. destruct t as [|????? l [|????? l' r']]; simpl; [done..|]. solve_Permutation. Qed.

Lemma addrs_rotright t : addrs (rotright t) ≡ₚ addrs t.
Proof. destruct t as [|????? [|????? l' r'] r]; simpl; [done..|]. solve_Permutation. Qed.

Lemma addrs_balance t : addrs (balance t) ≡ₚ addrs t.
Proof.
  destruct t as [|a k v rc d l r]; [done|]. unfold balance.
  repeat case_match; [apply addrs_rotright|apply addrs_rotleft|done].
Qed.

Lemma bt_calcdepth_ok s t :
  rep (nodes s) t -> NoDup (addrs t) ->
  exists h, bt_calcdepth (ptr t) s = Done (Store (root s) h) /\ rep h (calc t) /\
    forall x, x ∉ addrs t -> h !! x = nodes s !! x.
Proof.
  destruct t as [|a k v rc d l r]; intros Hr Hnd.
  { exists (nodes s). by destruct s. }
  destruct Hr as (Ha&Hd&Hl&Hrr). apply NoDup_cons in Hnd as [Hna _].
  unfold bt_calcdepth. simpl. pose proof (proj2 (load_Done _ _ _) Ha) as Hload.
  rewrite Hload. simpl. rewrite (bt_depth_ok _ _ Hl), (bt_depth_ok _ _ Hrr). simpl.
  unfold modify. simpl. rewrite Ha. simpl. eexists. split; [done|]. split; [split_and!|].
  - by rewrite lookup_insert_eq.
  - apply wrap_range. lia.
  - eapply rep_frame; [|exact Hl]. intros x Hx. apply lookup_insert_ne. set_solver.
  - eapply rep_frame; [|exact Hrr]. intros x Hx. apply lookup_insert_ne. set_solver.
  - intros x Hx. apply lookup_insert_ne. set_solver.
Qed.

(** Fact shared by the rotations: two stores, two depth updates. *)
Lemma rotate_calc s t u w :
  rep (nodes s) u -> NoDup (addrs (t (calc u))) ->
  ptr u = ptr (calc u) ->
  (forall x, x ∈ addrs u -> x ∈ addrs (t (calc u))) ->
  (forall h, rep h (calc u) -> (forall x, x ∉ addrs u -> h !! x = nodes s !! x) ->
     rep h (t (calc u))) ->
  NoDup (addrs u) -> w = t (calc u) ->
  exists s1 h, bt_calcdepth (ptr u) s = Done s1 /\ bt_calcdepth (ptr w) s1 = Done (Store (root s) h) /\
    rep h (calc w) /\ (forall x, x ∉ addrs w -> h !! x = nodes s !! x).
Proof.
  intros Hu Hnd Hptr Hsub Hrep Hndu ->.
  destruct (bt_calcdepth_ok s u Hu Hndu) as (h1&E1&R1&K1).
  destruct (bt_calcdepth_ok (Store (root s) h1) (t (calc u))) as (h2&E2&R2&K2); [by apply Hrep|done|].
  exists (Store (root s) h1), h2. split_and!; [done..|].
  intros x Hx. rewrite K2 by done. apply K1. set_solver.
Qed.

Lemma bt_rotleft_ok s lk c t a k v rc d l a' k' v' rc' d' l' r' :
  t = Node a k v rc d l (Node a' k' v' rc' d' l' r') ->
  trep s lk (plug c t) ->
  exists s', bt_rotleft (link_of lk c) s = Done s' /\ trep s' lk (plug c (rotleft t)) /\
    tkeeps lk (addrs (plug c t)) s s'.
Proof.
  intros Ht Hrep. pose proof (trep_focus _ _ _ _ Hrep) as (Hl&Hr&Hnd).
  apply NoDup_app in Hnd as (_&_&Hnd). subst t. simpl in Hr, Hnd. destruct Hr as (Ha&Hd&Hrl&Ha'&Hd'&Hrl'&Hrr').
  assert (Hne : a <> a') by (apply NoDup_cons in Hnd; set_solver).
  unfold bt_rotleft. rewrite Hl. simpl. rewrite (proj2 (load_Done _ _ _) Ha). simpl.
  rewrite (proj2 (load_Done _ _ _) Ha'). simpl.
  rewrite (modify_Done _ _ _ _ Ha). simpl.
  erewrite modify_Done by (simpl; rewrite lookup_insert_ne by done; exact Ha'). simpl.
  set (s2 := Store _ _).
  assert (NoDup (a' :: (a :: addrs l ++ addrs l') ++ addrs r')) as Hnd2.
  { eapply NoDup_Permutation_proper; [|exact Hnd]. solve_Permutation. }
  apply NoDup_cons in Hnd2 as [Hna' Hnd2]. pose proof Hnd2 as (Hndu&Hdis&_)%NoDup_app.
  apply NoDup_cons in Hndu as Hndu'. destruct Hndu' as [Hna _].
  destruct (rotate_calc s2 (fun u => Node a' k' v' rc' d' u r') (Node a k v rc d l l')
    (Node a' k' v' rc' d' (calc (Node a k v rc d l l')) r')) as (s3&h&E3&E4&R4&K4); [..|done|].
  - split_and!; simpl; [|done|..].
    + rewrite lookup_insert_ne, lookup_insert_eq by done. done.
    + eapply rep_frame; [|exact Hrl]. intros x Hx. rewrite !lookup_insert_ne by set_solver. done.
    + eapply rep_frame; [|exact Hrl']. intros x Hx. rewrite !lookup_insert_ne by set_solver. done.
  - simpl. constructor; [|done]. set_solver.
  - done.
  - simpl. set_solver.
  - intros h Hh Hk. split_and!; simpl; [|done|done|].
    + rewrite Hk by (simpl; set_solver). simpl. by rewrite lookup_insert_eq.
    + eapply rep_frame; [|exact Hrr']. intros x Hx. rewrite Hk by (simpl; set_solver). simpl.
      rewrite !lookup_insert_ne by set_solver. done.
  - done.
  - simpl in E3, E4. rewrite E3. simpl. rewrite E4. simpl.
    destruct (trep_replace s h lk c (Node a k v rc d l (Node a' k' v' rc' d' l' r'))
      (rotleft (Node a k v rc d l (Node a' k' v' rc' d' l' r')))) as (s'&E&HT&HK); [done|done|..].
    + intros x Hx. simpl in Hx. rewrite K4 by (simpl; set_solver). simpl.
      rewrite !lookup_insert_ne by set_solver. done.
    + destruct Hrep as (_&_&Hndall). rewrite plug_addrs in Hndall |- *.
      by rewrite addrs_rotleft.
    + exists s'. split; [exact E|]. split; [done|]. eapply tkeeps_weaken; [|exact HK].
      rewrite addrs_rotleft. pose proof (plug_addrs c (Node a k v rc d l (Node a' k' v' rc' d' l' r'))) as Hp.
      intros x Hx. rewrite Hp in Hx |- *. set_solver.
Qed.

Lemma bt_rotright_ok s lk c t a k v rc d r a' k' v' rc' d' l' r' :
  t = Node a k v rc d (Node a' k' v' rc' d' l' r') r ->
  trep s lk (plug c t) ->
  exists s', bt_rotright (link_of lk c) s = Done s' /\ trep s' lk (plug c (rotright t)) /\
    tkeeps lk (addrs (plug c t)) s s'.
Proof.
  intros Ht Hrep. pose proof (trep_focus _ _ _ _ Hrep) as (Hl&Hr&Hnd).
  apply NoDup_app in Hnd as (_&_&Hnd). subst t. simpl in Hr, Hnd. destruct Hr as (Ha&Hd&(Ha'&Hd'&Hrl'&Hrr')&Hrr).
  assert (Hne : a <> a') by (apply NoDup_cons in Hnd; set_solver).
  unfold bt_rotright. rewrite Hl. simpl. rewrite (proj2 (load_Done _ _ _) Ha). simpl.
  rewrite (proj2 (load_Done _ _ _) Ha'). simpl.
  rewrite (modify_Done _ _ _ _ Ha). simpl.
  erewrite modify_Done by (simpl; rewrite lookup_insert_ne by done; exact Ha'). simpl.
  set (s2 := Store _ _).
  assert (NoDup (a' :: addrs l' ++ (a :: addrs r' ++ addrs r))) as Hnd2.
  { eapply NoDup_Permutation_proper; [|exact Hnd]. solve_Permutation. }
  apply NoDup_cons in Hnd2 as [Hna' Hnd2]. pose proof Hnd2 as (_&Hdis&Hndu)%NoDup_app.
  apply NoDup_cons in Hndu as Hndu'. destruct Hndu' as [Hna _].
  destruct (rotate_calc s2 (fun u => Node a' k' v' rc' d' l' u) (Node a k v rc d r' r)
    (Node a' k' v' rc' d' l' (calc (Node a k v rc d r' r)))) as (s3&h&E3&E4&R4&K4); [..|done|].
  - split_and!; simpl; [|done|..].
    + rewrite lookup_insert_ne, lookup_insert_eq by done. done.
    + eapply rep_frame; [|exact Hrr']. intros x Hx. rewrite !lookup_insert_ne by set_solver. done.
    + eapply rep_frame; [|exact Hrr]. intros x Hx. rewrite !lookup_insert_ne by set_solver. done.
  - simpl. constructor; [|done]. set_solver.
  - done.
  - simpl. set_solver.
  - intros h Hh Hk. split_and!; simpl; [|done| |done].
    + rewrite Hk by (simpl; set_solver). simpl. by rewrite lookup_insert_eq.
    + eapply rep_frame; [|exact Hrl']. intros x Hx. rewrite Hk by (simpl; set_solver). simpl.
      rewrite !lookup_insert_ne by set_solver. done.
  - done.
  - simpl in E3, E4. rewrite E3. simpl. rewrite E4. simpl.
    destruct (trep_replace s h lk c (Node a k v rc d (Node a' k' v' rc' d' l' r') r)
      (rotright (Node a k v rc d (Node a' k' v' rc' d' l' r') r))) as (s'&E&HT&HK); [done|done|..].
    + intros x Hx. simpl in Hx. rewrite K4 by (simpl; set_solver). simpl.
      rewrite !lookup_insert_ne by set_solver. done.
    + destruct Hrep as (_&_&Hndall). rewrite plug_addrs in Hndall |- *.
      by rewrite addrs_rotright.
    + exists s'. split; [exact E|]. split; [done|]. eapply tkeeps_weaken; [|exact HK].
      rewrite addrs_rotright. pose proof (plug_addrs c (Node a k v rc d (Node a' k' v' rc' d' l' r') r)) as Hp.
      intros x Hx. rewrite Hp in Hx |- *. set_solver.
Qed.

Lemma bt_balance_ok s lk c t :
  trep s lk (plug c t) ->
  exists s', bt_balance (link_of lk c) s = Done s' /\ trep s' lk (plug c (balance t)) /\
    tkeeps lk (addrs (plug c t)) s s'.
Proof.
  intros Hrep. pose proof (trep_focus _ _ _ _ Hrep) as (Hl&Hr&Hnd).
  apply NoDup_app in Hnd as (_&_&Hnd). unfold bt_balance. rewrite Hl.
  destruct t as [|a k v rc d l r].
  { simpl. exists s. split_and!; [done..|apply tkeeps_refl]. }
  destruct Hr as (Ha&Hd&Hrl&Hrr). simpl. rewrite (proj2 (load_Done _ _ _) Ha). simpl.
  rewrite (bt_depth_ok _ _ Hrl), (bt_depth_ok _ _ Hrr). simpl.
  pose proof (rep_dep_nonneg _ _ Hrl). pose proof (rep_dep_nonneg _ _ Hrr).
  case_match eqn:E1; [|case_match eqn:E2].
  - apply andb_true_iff in E1 as [E1%Z.ltb_lt _]. destruct l; [simpl in *; lia|].
    exact (bt_rotright_ok _ _ _ _ _ _ _ _ _ _ _ _ _ _ _ _ _ eq_refl Hrep).
  - apply andb_true_iff in E2 as [E2%Z.ltb_lt _]. destruct r; [simpl in *; lia|].
    exact (bt_rotleft_ok _ _ _ _ _ _ _ _ _ _ _ _ _ _ _ _ _ eq_refl Hrep).
  - destruct (bt_calcdepth_ok s (Node a k v rc d l r)) as (h&Ec&Rc&Kc); [done..|].
    destruct (trep_replace s h lk c (Node a k v rc d l r) (calc (Node a k v rc d l r)))
      as (s'&E&HT&HK); [done|done| | |].
    + intros x Hx. apply Kc. set_solver.
    + destruct Hrep as (_&_&Hndall). rewrite plug_addrs in Hndall |- *. by rewrite addrs_calc.
    + rewrite ptr_calc, store_link_same in E.
      * injection E as <-. eexists. split; [exact Ec|]. split; [done|].
        eapply tkeeps_weaken; [|exact HK]. rewrite addrs_calc.
        intros x Hx. rewrite plug_addrs in Hx |- *. set_solver.
      * apply load_link_frame; [|done]. intros x Hx. apply Kc.
        pose proof (trep_focus _ _ _ _ Hrep) as (_&_&Hnd'). apply NoDup_app in Hnd'. set_solver.
Qed.

(** *** The array of links *)

(** The [n] newest entries of [narr], read backwards from [i], are the links
    of the focus and of its ancestors; the others are null. *)
Definition narr_ok (narr : list (option link)) (i : Z) (n : nat) (lk : link) (c : list frame) : Prop :=
  length narr = 64%nat /\ (n <= 64)%nat /\
  (forall j : nat, (j < n)%nat -> narr !! m64 (i - j) = Some (Some (link_of lk (drop j c)))) /\
  (forall j : nat, (n <= j < 64)%nat -> narr !! m64 (i - j) = Some None).

Lemma m64_mod i : m64 i = Z.to_nat (i mod 64).
Proof. unfold m64. f_equal. by apply (land_ones_mod i 6). Qed.

Lemma m64_lt i : (m64 i < 64)%nat.
Proof. rewrite m64_mod. pose proof (Z.mod_pos_bound i 64). lia. Qed.

Lemma m64_eq i j : m64 i = m64 j <-> (i - j) mod 64 = 0.
Proof.
  rewrite !m64_mod. pose proof (Z.mod_pos_bound i 64). pose proof (Z.mod_pos_bound j 64).
  rewrite Zminus_mod. split.
  - intros Heq. assert (i mod 64 = j mod 64) as -> by lia. by rewrite Z.sub_diag.
  - intros Hz. f_equal. apply Z.mod_divide in Hz as [q Hq]; lia.
Qed.

Lemma m64_ne i (j k : nat) : (j < 64)%nat -> (k < 64)%nat -> j <> k -> m64 (i - j) <> m64 (i - k).
Proof.
  intros Hj Hk Hne Heq%m64_eq. apply Z.mod_divide in Heq as [q Hq]; lia.
Qed.

Lemma narr_init_ok lk : narr_ok (narr_init lk) 64 1 lk [].
Proof.
  split_and!; [done|lia| |].
  - intros j Hj. assert (j = 0)%nat as -> by lia. done.
  - intros j Hj. unfold narr_init. rewrite list_lookup_insert_ne.
    + apply lookup_replicate_2, m64_lt.
    + replace 64 with (64 - 0%nat) at 1 by done. apply m64_ne; lia.
Qed.

Lemma narr_push narr i n lk c f :
  narr_ok narr i n lk c ->
  narr_ok (<[m64 (i + 1) := Some (frame_link f)]> narr) (i + 1) (Nat.min 64 (S n)) lk (f :: c).
Proof.
  intros (Hlen&Hn&Hsome&Hnone). split_and!; [by rewrite length_insert|lia|..].
  - intros [|j] Hj.
    + rewrite Z.sub_0_r, list_lookup_insert_eq; [done|]. rewrite Hlen. apply m64_lt.
    + rewrite list_lookup_insert_ne.
      * replace (i + 1 - S j) with (i - j) by lia. apply Hsome. lia.
      * replace (i + 1) with (i + 1 - 0%nat) at 1 by lia. apply m64_ne; lia.
  - intros [|j] Hj; [lia|]. rewrite list_lookup_insert_ne.
    + replace (i + 1 - S j) with (i - j) by lia. apply Hnone. lia.
    + replace (i + 1) with (i + 1 - 0%nat) at 1 by lia. apply m64_ne; lia.
Qed.

Lemma narr_pop narr i n lk c :
  narr_ok narr i (S n) lk c ->
  narr_ok (<[m64 i := None]> narr) (i - 1) n lk (drop 1 c).
Proof.
  intros (Hlen&Hn&Hsome&Hnone). split_and!; [by rewrite length_insert|lia|..].
  - intros j Hj. rewrite list_lookup_insert_ne.
    + replace (i - 1 - j) with (i - S j) by lia. rewrite drop_drop. apply Hsome. lia.
    + replace (i - 1 - j) with (i - S j) by lia. replace i with (i - 0%nat) at 1 by lia.
      apply m64_ne; lia.
  - intros j Hj. destruct (decide (j = 63)%nat) as [->|].
    + replace (m64 (i - 1 - 63%nat)) with (m64 i).
      * rewrite list_lookup_insert_eq; [done|]. rewrite Hlen. apply m64_lt.
      * apply m64_eq. by replace (i - (i - 1 - 63%nat)) with 64 by lia.
    + replace (i - 1 - j) with (i - S j) by lia. rewrite list_lookup_insert_ne.
      * apply Hnone. lia.
      * replace i with (i - 0%nat) at 1 by lia. apply m64_ne; lia.
Qed.

Lemma bt_backtrack_ok fuel s lk c t i narr n :
  (n <= fuel)%nat -> (n <= S (length c))%nat ->
  narr_ok narr i n lk c -> trep s lk (plug c t) ->
  exists s', bt_backtrack fuel i narr s = Done s' /\ trep s' lk (up n c t) /\
    tkeeps lk (addrs (plug c t)) s s'.
Proof.
  revert fuel s c t i narr. induction n as [|n IH]; intros fuel s c t i narr Hf Hc Hnarr Hrep.
  - destruct Hnarr as (_&_&_&Hnone). specialize (Hnone 0%nat ltac:(lia)).
    rewrite Z.sub_0_r in Hnone. exists s. destruct fuel; simpl; rewrite Hnone;
      (split_and!; [done..|apply tkeeps_refl]).
  - destruct fuel as [|fuel]; [lia|]. pose proof Hnarr as (_&_&Hsome&_).
    specialize (Hsome 0%nat ltac:(lia)). rewrite Z.sub_0_r, drop_0 in Hsome.
    simpl. rewrite Hsome. simpl.
    destruct (bt_balance_ok _ _ _ _ Hrep) as (s1&E1&HT1&HK1). rewrite E1. simpl.
    apply narr_pop in Hnarr. destruct c as [|f c]; simpl in Hc, Hnarr.
    + destruct (IH fuel s1 [] (balance t) (i - 1) (<[m64 i := None]> narr))
        as (s2&E2&HT2&HK2); [lia|simpl; lia|done|done|].
      exists s2. split; [done|]. assert (n = 0)%nat as -> by lia. split; [done|].
      eapply tkeeps_trans; [done|]. eapply tkeeps_weaken; [|done]. simpl. by rewrite addrs_balance.
    + destruct (IH fuel s1 c (fill f (balance t)) (i - 1) (<[m64 i := None]> narr))
        as (s2&E2&HT2&HK2); [lia|lia|by rewrite drop_0 in Hnarr|done|].
      exists s2. split; [done|]. split; [done|]. eapply tkeeps_trans; [done|].
      eapply tkeeps_weaken; [|done]. intros x. rewrite (plug_addrs c), fill_addrs, addrs_balance.
      rewrite (plug_addrs (f :: c) t). simpl. set_solver.
Qed.

(** ** Abstract specification: association lists sorted by key *)

Notation entry := (Z * (Z * Z))%type.

(** In-order contents: key, with the node's address and value. *)
Fixpoint inorder (t : tree) : list entry :=
  match t with
  | Leaf => []
  | Node a k v _ _ l r => inorder l ++ (k, (a, v)) :: inorder r
  end.

Definition bst (t : tree) : Prop := StronglySorted (fun x y : entry => x.1 < y.1) (inorder t).

Module Spec.
Fixpoint put (k : Z) (x : Z * Z) (l : list entry) : list entry :=
  match l with
  | [] => [(k, x)]
  | (k', x') :: l => if k <? k' then (k, x) :: (k', x') :: l
                     else if k' <? k then (k', x') :: put k x l
                     else (k, x) :: l
  end.

Fixpoint lookup (k : Z) (l : list entry) : option (Z * Z) :=
  match l with
  | [] => None
  | (k', x') :: l => if k =? k' then Some x' else lookup k l
  end.

(** Insertion that keeps an existing entry. *)
Definition insert (k : Z) (x : Z * Z) (l : list entry) : list entry :=
  match lookup k l with Some _ => l | None => put k x l end.

Definition remove (k : Z) (l : list entry) : list entry :=
  List.filter (fun e => negb (e.1 =? k)) l.

(** The entry with the greatest key not above, the least key not below. *)
Definition floor (k : Z) (l : list entry) : option entry :=
  last (List.filter (fun e => e.1 <=? k) l).
Definition ceiling (k : Z) (l : list entry) : option entry :=
  hd_error (List.filter (fun e => k <=? e.1) l).
End Spec.

(** *** The contents around a hole *)

Fixpoint before (c : list frame) : list entry :=
  match c with
  | [] => []
  | InLeft _ _ _ _ _ _ :: c => before c
  | InRight a k v _ _ l :: c => before c ++ inorder l ++ [(k, (a, v))]
  end.

Fixpoint after (c : list frame) : list entry :=
  match c with
  | [] => []
  | InLeft a k v _ _ r :: c => (k, (a, v)) :: inorder r ++ after c
  | InRight _ _ _ _ _ _ :: c => after c
  end.

Lemma inorder_plug c t : inorder (plug c t) = before c ++ inorder t ++ after c.
Proof.
  revert t. induction c as [|f c IH]; intros t; simpl; [by rewrite app_nil_r|].
  rewrite IH. destruct f; simpl; by rewrite <-!app_assoc.
Qed.

Lemma inorder_calc t : inorder (calc t) = inorder t.
Proof. by destruct t. Qed.

Lemma inorder_rotleft t : inorder (rotleft t) = inorder t.
Proof. destruct t as [|????? l [|????? l' r']]; simpl; [done..|]. by rewrite <-app_assoc. Qed.

Lemma inorder_rotright t : inorder (rotright t) = inorder t.
Proof. destruct t as [|????? [|????? l' r'] r]; simpl; [done..|]. by rewrite <-app_assoc. Qed.

Lemma inorder_balance t : inorder (balance t) = inorder t.
Proof.
  destruct t as [|a k v rc d l r]; [done|]. unfold balance.
  repeat case_match; [apply inorder_rotright|apply inorder_rotleft|done].
Qed.

Lemma inorder_up n c t : inorder (up n c t) = inorder (plug c t).
Proof.
  revert c t. induction n as [|n IH]; intros c t; [done|].
  destruct c as [|f c]; simpl; [apply inorder_balance|].
  rewrite IH, !inorder_plug. destruct f; simpl; by rewrite inorder_balance.
Qed.

Create HintDb tree.
#[export] Hint Rewrite inorder_calc inorder_rotleft inorder_rotright inorder_balance inorder_up
  inorder_plug : tree.

(** *** Sorted association lists *)

Lemma sorted_app (l1 l2 : list entry) :
  StronglySorted (fun x y : entry => x.1 < y.1) (l1 ++ l2) <->
  StronglySorted (fun x y : entry => x.1 < y.1) l1 /\ StronglySorted (fun x y : entry => x.1 < y.1) l2 /\
  forall x y, x ∈ l1 -> y ∈ l2 -> x.1 < y.1.
Proof.
  induction l1 as [|z l1 IH]; simpl.
  - split; [|naive_solver]. intros ?. split_and!; [constructor|done|]. intros x y Hx. set_solver.
  - split.
    + intros Hs. apply StronglySorted_inv in Hs as [Hs Hz]. apply IH in Hs as (?&?&Hd).
      rewrite Forall_app, !Forall_forall in Hz. destruct Hz as [Hz1 Hz2].
      split_and!; [constructor; [done|by apply Forall_forall]|done|].
      intros x y [->|Hx]%elem_of_cons Hy; auto.
    + intros (Hs1&?&Hd). apply StronglySorted_inv in Hs1 as [? Hz]. constructor.
      * apply IH. split_and!; [done..|]. intros x y Hx Hy. apply Hd; set_solver.
      * rewrite Forall_app. split; [done|]. apply Forall_forall. intros y Hy. apply Hd; set_solver.
Qed.

Lemma filter_all (P : entry -> bool) (l : list entry) :
  (forall x, x ∈ l -> P x = true) -> List.filter P l = l.
Proof.
  induction l as [|y l IH]; intros HP; simpl; [done|].
  rewrite (HP y) by set_solver. f_equal. apply IH. set_solver.
Qed.

Lemma filter_none (P : entry -> bool) (l : list entry) :
  (forall x, x ∈ l -> P x = false) -> List.filter P l = [].
Proof.
  induction l as [|y l IH]; intros HP; simpl; [done|].
  rewrite (HP y) by set_solver. apply IH. set_solver.
Qed.

Section spec_lemmas.
Context (k : Z) (l1 l2 : list entry).
Hypothesis Hl : forall x, x ∈ l1 -> x.1 < k.
Hypothesis Hr : forall x, x ∈ l2 -> k < x.1.

Lemma put_between x : Spec.put k x (l1 ++ l2) = l1 ++ (k, x) :: l2.
Proof using Hl Hr.
  clear - Hl Hr. induction l1 as [|[k' x'] l IH]; simpl.
  - destruct l2 as [|[k' x'] l]; [done|]. simpl.
    pose proof (Hr (k', x') ltac:(set_solver)) as Hk. simpl in Hk.
    destruct (Z.ltb_spec k k'); [done|lia].
  - pose proof (Hl (k', x') ltac:(set_solver)) as Hk. simpl in Hk.
    destruct (Z.ltb_spec k k'), (Z.ltb_spec k' k); try lia. f_equal. apply IH. set_solver.
Qed.

Lemma put_here x x0 : Spec.put k x (l1 ++ (k, x0) :: l2) = l1 ++ (k, x) :: l2.
Proof using Hl.
  clear - Hl. induction l1 as [|[k' x'] l IH]; simpl.
  - by rewrite Z.ltb_irrefl.
  - pose proof (Hl (k', x') ltac:(set_solver)) as Hk. simpl in Hk.
    destruct (Z.ltb_spec k k'), (Z.ltb_spec k' k); try lia. f_equal. apply IH. set_solver.
Qed.

Lemma lookup_between : Spec.lookup k (l1 ++ l2) = None.
Proof using Hl Hr.
  assert (forall x, x ∈ l1 ++ l2 -> x.1 <> k) as Hne.
  { intros x [Hx|Hx]%elem_of_app; [specialize (Hl x Hx)|specialize (Hr x Hx)]; lia. }
  revert Hne. induction (l1 ++ l2) as [|[k' x'] l IH]; intros Hne; simpl; [done|].
  pose proof (Hne (k', x') ltac:(set_solver)) as Hk. simpl in Hk.
  destruct (Z.eqb_spec k k'); [lia|]. apply IH. set_solver.
Qed.

Lemma lookup_here x0 : Spec.lookup k (l1 ++ (k, x0) :: l2) = Some x0.
Proof using Hl.
  clear - Hl. induction l1 as [|[k' x'] l IH]; simpl; [by rewrite Z.eqb_refl|].
  pose proof (Hl (k', x') ltac:(set_solver)) as Hk. simpl in Hk.
  destruct (Z.eqb_spec k k'); [lia|]. apply IH. set_solver.
Qed.

Lemma remove_here x0 : Spec.remove k (l1 ++ (k, x0) :: l2) = l1 ++ l2.
Proof using Hl Hr.
  unfold Spec.remove. rewrite List.filter_app. simpl. rewrite Z.eqb_refl. simpl.
  rewrite !filter_all; [done|..]; intros x Hx;
    [specialize (Hr x Hx)|specialize (Hl x Hx)]; destruct (Z.eqb_spec x.1 k); (done || lia).
Qed.

Lemma floor_between : Spec.floor k (l1 ++ l2) = last l1.
Proof using Hl Hr.
  unfold Spec.floor. rewrite List.filter_app, (filter_all _ l1), (filter_none _ l2), app_nil_r; [done|..];
    intros x Hx; [specialize (Hr x Hx)|specialize (Hl x Hx)]; lia.
Qed.

Lemma floor_here x0 : Spec.floor k (l1 ++ (k, x0) :: l2) = Some (k, x0).
Proof using Hl Hr.
  unfold Spec.floor. rewrite List.filter_app. simpl. rewrite Z.leb_refl, (filter_none _ l2), last_snoc; [done|].
  intros x Hx; specialize (Hr x Hx); lia.
Qed.

Lemma ceiling_between : Spec.ceiling k (l1 ++ l2) = hd_error l2.
Proof using Hl Hr.
  unfold Spec.ceiling. rewrite List.filter_app, (filter_none _ l1), (filter_all _ l2); [done|..];
    intros x Hx; [specialize (Hr x Hx)|specialize (Hl x Hx)]; lia.
Qed.

Lemma ceiling_here x0 : Spec.ceiling k (l1 ++ (k, x0) :: l2) = Some (k, x0).
Proof using Hl.
  unfold Spec.ceiling. rewrite List.filter_app. simpl. rewrite Z.leb_refl, (filter_none _ l1); [done|].
  intros x Hx; specialize (Hl x Hx); lia.
Qed.
End spec_lemmas.
