(* ===== verification/TreeProps.v ===== *)
(** * Correctness of the tree operations

    The pointer operations of [Tree] on a represented search tree against
    [Tree.Spec], the sorted association lists: search, insertion, replacement,
    removal, and the depth fields. *)

From Stdlib Require Import Sorting.Sorted.
From S2P Require Import Prelude Tree.

(** The two backtracking loops agree: [bt_balance] does its own null test. *)
Lemma bt_remove_backtrack_eq fuel i narr s :
  bt_remove_backtrack fuel i narr s = bt_backtrack fuel i narr s.
Proof.
  revert i narr s. induction fuel as [|fuel IH]; intros i narr s; [done|].
  cbn [bt_remove_backtrack bt_backtrack].
  destruct (deref (narr !! m64 i)) as [[node|]| | |]; [|done..]. cbn [mbind outcome_bind].
  destruct (load_link node s) as [[a|]| | |] eqn:E; cbn [mbind outcome_bind].
  - destruct (bt_balance node s); cbn [mbind outcome_bind]; auto.
  - unfold bt_balance. rewrite E. apply IH.
  - unfold bt_balance. by rewrite E.
  - unfold bt_balance. by rewrite E.
  - unfold bt_balance. by rewrite E.
Qed.

#[local] Arguments bt_calcdepth : simpl never.
#[local] Arguments bt_balance : simpl never.
#[local] Arguments modify : simpl never.
#[local] Arguments load_link : simpl never.
#[local] Arguments bt_backtrack : simpl never.
#[local] Arguments bt_remove_backtrack : simpl never.
#[local] Arguments Nat.min : simpl never.

(** ** Search paths *)

(** What a search path for [x] looks like. *)
Record path_spec (x : Z) (c : list frame) (t : tree) (T : tree) : Prop := {
  path_plug : plug c t = T;
  path_before : forall e, e ∈ before c -> e.1 < x;
  path_after : forall e, e ∈ after c -> x < e.1;
  path_key : match t with Leaf => True | Node _ k _ _ _ _ _ => k = x end;
}.

Lemma bst_plug c a k v rc d l r :
  bst (plug c (Node a k v rc d l r)) ->
  (forall e, e ∈ before c ++ inorder l -> e.1 < k) /\
  (forall e, e ∈ inorder r ++ after c -> k < e.1).
Proof.
  unfold bst. rewrite inorder_plug. simpl. rewrite <-!app_assoc. simpl.
  rewrite app_assoc. intros (_&Hs&Hd)%sorted_app. split.
  - intros e He. apply (Hd e (k, (a, v))); set_solver.
  - apply StronglySorted_inv in Hs as [_ Hs]. rewrite Forall_forall in Hs.
    intros e He. by apply Hs.
Qed.

Lemma path_ok x t c c' t' :
  bst (plug c t) ->
  (forall e, e ∈ before c -> e.1 < x) -> (forall e, e ∈ after c -> x < e.1) ->
  path x t c = (c', t') -> path_spec x c' t' (plug c t).
Proof.
  revert c. induction t as [|a k v rc d l IHl r IHr]; intros c Hbst Hb Ha Hp; simpl in Hp.
  { injection Hp as <- <-. by split. }
  pose proof (bst_plug _ _ _ _ _ _ _ _ Hbst) as [Hbk Hak].
  destruct (Z.ltb_spec x k); [|destruct (Z.ltb_spec k x)].
  - apply IHl in Hp; [done|done|done|]. simpl.
    intros e [->|He]%elem_of_cons; [done|]. pose proof (Hak e ltac:(set_solver)). lia.
  - apply IHr in Hp; [done|done| |done]. simpl.
    intros e He. rewrite app_assoc in He.
    apply elem_of_app in He as [He|He%list_elem_of_singleton]; [|by subst].
    pose proof (Hbk e He). lia.
  - injection Hp as <- <-. split; [done..|lia].
Qed.

(** The depth of a context: how many links the search went through. *)
Lemma path_length x t c c' t' :
  path x t c = (c', t') -> (length c <= length c' <= length c + height t)%nat.
Proof.
  revert c. induction t as [|a k v rc d l IHl r IHr]; intros c; simpl; [intros [= <- <-]; lia|].
  repeat case_match; [intros Hp%IHl|intros Hp%IHr|intros [= <- <-]]; simpl in *; lia.
Qed.

Lemma narr_push_min narr i lk c b f :
  narr_ok narr i (Nat.min 64 (S (length c - b))) lk c -> (b <= length c)%nat ->
  narr_ok (<[m64 (i + 1) := Some (frame_link f)]> narr) (i + 1)
    (Nat.min 64 (S (length (f :: c) - b))) lk (f :: c).
Proof.
  intros Hn Hb. apply (narr_push _ _ _ _ _ f) in Hn.
  replace (Nat.min 64 (S (length (f :: c) - b)))
    with (Nat.min 64 (S (Nat.min 64 (S (length c - b))))) by (cbn [length]; lia).
  done.
Qed.

(** The search loop of the three insertions. *)
Lemma bt_descend_ok fuel x s lk c t i narr c' t' :
  trep s lk (plug c t) -> (height t < fuel)%nat -> path x t c = (c', t') ->
  narr_ok narr i (Nat.min 64 (S (length c))) lk c ->
  exists i' narr', bt_descend fuel x (link_of lk c) i narr s = Done (link_of lk c', i', narr') /\
    narr_ok narr' i' (Nat.min 64 (S (length c'))) lk c'.
Proof.
  revert fuel c i narr. induction t as [|a k v rc d l IHl r IHr];
    intros fuel c i narr Hrep Hf Hp Hn; (destruct fuel as [|fuel]; [simpl in Hf; lia|]);
    pose proof (trep_focus _ _ _ _ Hrep) as (Hl&Hr&_); simpl; rewrite Hl; simpl.
  { injection Hp as <- <-. eauto. }
  destruct Hr as (Ha&_). rewrite (proj2 (load_Done _ _ _) Ha). simpl. simpl in Hp, Hf.
  destruct (x <? k); [|destruct (k <? x)].
  - apply (IHl fuel (InLeft a k v rc d r :: c)); [done|lia|done|].
    rewrite <-(Nat.sub_0_r (length _)). apply (narr_push_min _ _ _ _ 0 (InLeft a k v rc d r)); [|lia].
    by rewrite Nat.sub_0_r.
  - apply (IHr fuel (InRight a k v rc d l :: c)); [done|lia|done|].
    rewrite <-(Nat.sub_0_r (length _)). apply (narr_push_min _ _ _ _ 0 (InRight a k v rc d l)); [|lia].
    by rewrite Nat.sub_0_r.
  - injection Hp as <- <-. eauto.
Qed.

Lemma trep_store s h lk t :
  (forall x, x ∈ owner lk ++ addrs t -> h !! x = nodes s !! x) ->
  trep s lk t -> trep (Store (root s) h) lk t.
Proof.
  intros Heq (Hl&Hr&Hnd). split_and!; [|simpl|done].
  - apply load_link_frame; [|done]. set_solver.
  - eapply rep_frame; [|done]. set_solver.
Qed.

(** ** Insertion *)

Lemma clear_children_ok s it n :
  nodes s !! it = Some n ->
  clear_children (Some it) s =
  Done (Store (root s) (<[it := Bintree_node (K n) (V n) None None (recycle n) (depth n)]> (nodes s))).
Proof.
  intros Hn. unfold clear_children. rewrite (modify_Done _ _ _ _ Hn). simpl.
  erewrite modify_Done by apply lookup_insert_eq. simpl. by rewrite insert_insert_eq.
Qed.

Lemma store_eta s : Store (root s) (nodes s) = s.
Proof. by destruct s. Qed.

(** A new leaf is linked in and the tree is rebalanced upwards. *)
Lemma attach_ok s lk c it k v rc d i narr :
  trep s lk (plug c Leaf) -> nodes s !! it = Some (node_of k v rc d Leaf Leaf) -> 0 <= d ->
  it ∉ owner lk ++ addrs (plug c Leaf) -> narr_ok narr i (Nat.min 64 (S (length c))) lk c ->
  exists s1 s', store_link (link_of lk c) (Some it) s = Done s1 /\
    bt_backtrack 64 i narr s1 = Done s' /\
    trep s' lk (up (Nat.min 64 (S (length c))) c (Node it k v rc d Leaf Leaf)) /\
    tkeeps lk (it :: addrs (plug c Leaf)) s s'.
Proof.
  intros Hrep Hit Hd Hfresh Hn. pose proof Hrep as (_&_&Hnd).
  pose proof (plug_addrs c Leaf) as Hp0. simpl in Hp0.
  pose proof (plug_addrs c (Node it k v rc d Leaf Leaf)) as Hp1. simpl in Hp1.
  destruct (trep_replace s (nodes s) lk c Leaf (Node it k v rc d Leaf Leaf)) as (s1&E1&HT1&HK1).
  - done.
  - simpl. auto.
  - done.
  - rewrite Hp0 in Hnd, Hfresh. rewrite Hp1, <-Permutation_middle. constructor; done.
  - destruct (bt_backtrack_ok 64 s1 lk c (Node it k v rc d Leaf Leaf) i narr (Nat.min 64 (S (length c))))
      as (s'&E2&HT2&HK2); [lia|lia|done|done|].
    exists s1, s'. rewrite store_eta in E1. split_and!; [exact E1|exact E2|exact HT2|].
    apply (tkeeps_trans _ _ _ s1).
    + eapply tkeeps_weaken; [|exact HK1]. simpl. clear. set_solver.
    + eapply tkeeps_weaken; [|exact HK2]. intros x. rewrite Hp1, Hp0. clear. set_solver.
Qed.

(** The store and the search of all three insertions, up to the final link. *)
Lemma insertion_start fuel s lk t it n c t0 :
  trep s lk t -> nodes s !! it = Some n -> it ∉ owner lk ++ addrs t ->
  (height t < fuel)%nat -> path (K n) t [] = (c, t0) ->
  exists s1 i narr,
    load (Some it) s = Done n /\ clear_children (Some it) s = Done s1 /\
    bt_descend fuel (K n) lk 64 (narr_init lk) s1 = Done (link_of lk c, i, narr) /\
    load_link (link_of lk c) s1 = Done (ptr t0) /\
    trep s1 lk t /\ tkeeps lk [it] s s1 /\
    nodes s1 !! it = Some (node_of (K n) (V n) (recycle n) (depth n) Leaf Leaf) /\
    narr_ok narr i (Nat.min 64 (S (length c))) lk c /\ plug c t0 = t /\
    s1 = Store (root s) (<[it := Bintree_node (K n) (V n) None None (recycle n) (depth n)]> (nodes s)).
Proof.
  intros Hrep Hit Hfresh Hf Hp.
  assert (Hrep1 : trep (Store (root s) (<[it := Bintree_node (K n) (V n) None None (recycle n) (depth n)]> (nodes s))) lk t).
  { apply trep_store; [|done]. intros x Hx. apply lookup_insert_ne. set_solver. }
  destruct (bt_descend_ok fuel (K n) _ lk [] t 64 (narr_init lk) c t0 Hrep1) as (i&narr&E&Hn);
    [done|done|apply narr_init_ok|].
  assert (Hplug : plug c t0 = t).
  { clear - Hp. change t with (plug [] t). revert Hp. generalize (@nil frame).
    induction t as [|a k v rc d l IHl r IHr]; intros c1; simpl; [by intros [= <- <-]|].
    repeat case_match; [intros Hp%IHl|intros Hp%IHr|by intros [= <- <-]]; done. }
  eexists _, i, narr. split_and!.
  - by apply load_Done.
  - by apply clear_children_ok.
  - exact E.
  - rewrite <-Hplug in Hrep1. by apply trep_focus in Hrep1 as [? _].
  - done.
  - intros x Hx. simpl. apply lookup_insert_ne. set_solver.
  - simpl. by rewrite lookup_insert_eq.
  - done.
  - done.
  - done.
Qed.

(** The three insertions when the key is absent. *)
Lemma insertion_absent fuel s lk t it n c :
  trep s lk t -> nodes s !! it = Some n -> it ∉ owner lk ++ addrs t -> 0 <= depth n ->
  (height t < fuel)%nat -> path (K n) t [] = (c, Leaf) ->
  exists s',
    bt_insert fuel lk (Some it) s = Done (None, s') /\
    bt_put fuel lk (Some it) s = Done (None, s') /\
    bt_put_ip fuel lk (Some it) s = Done (None, s') /\
    trep s' lk (up (Nat.min 64 (S (length c))) c (Node it (K n) (V n) (recycle n) (depth n) Leaf Leaf)) /\
    tkeeps lk (it :: addrs t) s s'.
Proof.
  intros Hrep Hit Hfresh Hd Hf Hp.
  destruct (insertion_start fuel s lk t it n c Leaf) as (s1&i&narr&El&Ec&Ed&Ell&HT1&HK1&Hit1&Hn&Hplug&Hs1); [done..|].
  destruct (attach_ok s1 lk c it (K n) (V n) (recycle n) (depth n) i narr) as (s2&s'&E2&E3&HT2&HK2);
    [by rewrite Hplug|done|done|by rewrite Hplug|done|].
  exists s'. unfold bt_insert, bt_put, bt_put_ip.
  rewrite El. cbn [mbind outcome_bind]. rewrite Ec. cbn [mbind outcome_bind].
  rewrite Ed. cbn [mbind outcome_bind]. rewrite Ell. cbn [mbind outcome_bind ptr].
  rewrite E2. cbn [mbind outcome_bind]. rewrite E3. cbn [mbind outcome_bind].
  split_and!; [done..|]. rewrite Hplug in HK2.
  apply (tkeeps_trans _ _ _ s1); [|exact HK2]. eapply tkeeps_weaken; [|exact HK1]. clear. set_solver.
Qed.

Lemma bt_insert_present fuel s lk t it n c a k v rc d l r :
  trep s lk t -> nodes s !! it = Some n -> it ∉ owner lk ++ addrs t ->
  (height t < fuel)%nat -> path (K n) t [] = (c, Node a k v rc d l r) ->
  let s' := Store (root s) (<[it := Bintree_node (K n) (V n) None None (recycle n) (depth n)]> (nodes s)) in
  bt_insert fuel lk (Some it) s = Done (Some it, s') /\ trep s' lk t /\ tkeeps lk [it] s s'.
Proof.
  intros Hrep Hit Hfresh Hf Hp.
  destruct (insertion_start fuel s lk t it n c _ Hrep Hit Hfresh Hf Hp)
    as (s1&i&narr&El&Ec&Ed&Ell&HT1&HK1&Hit1&Hn&Hplug&Hs1).
  cbv zeta. rewrite <-Hs1. unfold bt_insert. rewrite El. cbn [mbind outcome_bind]. rewrite Ec. cbn [mbind outcome_bind].
  rewrite Ed. cbn [mbind outcome_bind]. rewrite Ell. done.
Qed.

(** Replacing the top node [a] of a subtree by the node [it], which has taken
    over its children and depth. *)
Lemma trep_swap s h lk c a it k v k0 v0 rc rc0 d0 l r :
  trep s lk (plug c (Node a k0 v0 rc0 d0 l r)) ->
  it ∉ owner lk ++ addrs (plug c (Node a k0 v0 rc0 d0 l r)) ->
  h !! it = Some (node_of k v rc d0 l r) ->
  (forall x, x <> it -> h !! x = nodes s !! x) ->
  exists s', store_link (link_of lk c) (Some it) (Store (root s) h) = Done s' /\
    trep s' lk (plug c (Node it k v rc d0 l r)) /\
    tkeeps lk (it :: addrs (plug c (Node a k0 v0 rc0 d0 l r))) s s'.
Proof.
  intros Hrep Hfresh Hit Heq. pose proof Hrep as (_&Hr&Hnd).
  apply rep_plug in Hr as [_ (Ha&Hd&Hl&Hrr)].
  pose proof (plug_addrs c (Node a k0 v0 rc0 d0 l r)) as Hp0. simpl in Hp0.
  pose proof (plug_addrs c (Node it k v rc d0 l r)) as Hp1. simpl in Hp1.
  rewrite Hp0 in Hnd, Hfresh.
  destruct (trep_replace s h lk c (Node a k0 v0 rc0 d0 l r) (Node it k v rc d0 l r))
    as (s'&E&HT&HK).
  - done.
  - split_and!; [done|done|..]; (eapply rep_frame; [|eassumption]);
      intros x Hx; apply Heq; clear - Hx Hfresh; set_solver.
  - intros x Hx. apply Heq. clear - Hx. simpl in Hx. set_solver.
  - rewrite Hp1. apply NoDup_app in Hnd as (Hno&Hod&Hnd). apply NoDup_cons in Hnd as [_ Hnd].
    apply NoDup_app. split_and!; [done| |].
    + intros x Hx. clear - Hx Hod Hfresh. specialize (Hod x Hx). set_solver.
    + constructor; [|done]. clear - Hfresh. set_solver.
  - exists s'. split; [exact E|]. split; [exact HT|]. eapply tkeeps_weaken; [|exact HK].
    intros x. rewrite Hp0. simpl. clear. set_solver.
Qed.

Lemma bt_put_present fuel s lk t it n c a k v rc d l r :
  trep s lk t -> nodes s !! it = Some n -> it ∉ owner lk ++ addrs t ->
  (height t < fuel)%nat -> path (K n) t [] = (c, Node a k v rc d l r) ->
  exists s', bt_put fuel lk (Some it) s = Done (Some a, s') /\
    trep s' lk (up (Nat.min 64 (S (length c))) c (Node it (K n) (V n) (recycle n) d l r)) /\
    tkeeps lk (it :: addrs t) s s'.
Proof.
  intros Hrep Hit Hfresh Hf Hp.
  destruct (insertion_start fuel s lk t it n c _ Hrep Hit Hfresh Hf Hp)
    as (s1&i&narr&El&Ec&Ed&Ell&HT1&HK1&Hit1&Hn&Hplug&Hs1).
  unfold bt_put. rewrite El. cbn [mbind outcome_bind]. rewrite Ec. cbn [mbind outcome_bind].
  rewrite Ed. cbn [mbind outcome_bind]. rewrite Ell. cbn [mbind outcome_bind ptr].
  rewrite <-Hplug in HT1, Hfresh. pose proof (trep_focus _ _ _ _ HT1) as (_&(Ha&_)&_).
  rewrite (proj2 (load_Done _ _ _) Ha). cbn [mbind outcome_bind].
  rewrite (modify_Done _ _ _ _ Hit1). cbn [mbind outcome_bind].
  erewrite modify_Done by apply lookup_insert_eq. cbn [mbind outcome_bind].
  erewrite modify_Done by apply lookup_insert_eq. cbn [mbind outcome_bind root nodes].
  rewrite !insert_insert_eq.
  destruct (trep_swap s1 (<[it := node_of (K n) (V n) (recycle n) d l r]> (nodes s1)) lk c a it
    (K n) (V n) k v (recycle n) rc d l r) as (s2&E2&HT2&HK2).
  { done. } { done. } { apply lookup_insert_eq. }
  { intros x Hx. by apply lookup_insert_ne. }
  unfold with_depth, with_right, with_left, node_of in E2 |- *. simpl in E2 |- *. rewrite E2. simpl.
  destruct (bt_backtrack_ok 64 s2 lk c (Node it (K n) (V n) (recycle n) d l r) i narr (Nat.min 64 (S (length c))))
    as (s3&E3&HT3&HK3); [lia|lia|done|done|].
  rewrite E3. exists s3. split; [done|]. split; [exact HT3|]. rewrite Hplug in HK2.
  pose proof (plug_addrs c (Node it (K n) (V n) (recycle n) d l r)) as Hp1.
  pose proof (plug_addrs c (Node a k v rc d l r)) as Hp0. rewrite Hplug in Hp0. simpl in Hp0, Hp1.
  apply (tkeeps_trans _ _ _ s1); [|apply (tkeeps_trans _ _ _ s2)].
  - eapply tkeeps_weaken; [|exact HK1]. clear. set_solver.
  - exact HK2.
  - eapply tkeeps_weaken; [|exact HK3]. intros x. rewrite Hp1, elem_of_cons, Hp0. clear. set_solver.
Qed.

Lemma bt_put_ip_present fuel s lk t it n c a k v rc d l r :
  trep s lk t -> nodes s !! it = Some n -> it ∉ owner lk ++ addrs t ->
  (height t < fuel)%nat -> path (K n) t [] = (c, Node a k v rc d l r) ->
  exists s', bt_put_ip fuel lk (Some it) s = Done (Some it, s') /\
    trep s' lk (up (Nat.min 64 (S (length c))) c (Node a k (V n) rc d l r)) /\
    tkeeps lk (it :: addrs t) s s'.
Proof.
  intros Hrep Hit Hfresh Hf Hp.
  destruct (insertion_start fuel s lk t it n c _ Hrep Hit Hfresh Hf Hp)
    as (s1&i&narr&El&Ec&Ed&Ell&HT1&HK1&Hit1&Hn&Hplug&Hs1).
  unfold bt_put_ip. rewrite El. cbn [mbind outcome_bind]. rewrite Ec. cbn [mbind outcome_bind].
  rewrite Ed. cbn [mbind outcome_bind]. rewrite Ell. cbn [mbind outcome_bind ptr].
  rewrite (proj2 (load_Done _ _ _) Hit1). cbn [mbind outcome_bind].
  rewrite <-Hplug in HT1. pose proof (trep_focus _ _ _ _ HT1) as (Hl&(Ha&Hd&Hrl&Hrr)&Hndf).
  rewrite (modify_Done _ _ _ _ Ha). cbn [mbind outcome_bind].
  apply NoDup_app in Hndf as (_&Hof&Hndf). simpl in Hndf. apply NoDup_cons in Hndf as [Hna _].
  destruct (trep_replace s1 (<[a := node_of k (V n) rc d l r]> (nodes s1)) lk c
    (Node a k v rc d l r) (Node a k (V n) rc d l r)) as (s2&E2&HT2&HK2).
  { done. }
  { split_and!; [by rewrite lookup_insert_eq|done|..]; (eapply rep_frame; [|eassumption]);
      intros x Hx; apply lookup_insert_ne; clear - Hx Hna; set_solver. }
  { intros x Hx. apply lookup_insert_ne. clear - Hx. simpl in Hx. set_solver. }
  { destruct HT1 as (_&_&Hnd). rewrite plug_addrs in Hnd |- *. done. }
  rewrite store_link_same in E2.
  2: { apply (load_link_frame _ _ _ (Node a k v rc d l r)); [|exact Hl]. intros x Hx.
       apply lookup_insert_ne. specialize (Hof x Hx). clear - Hof. simpl in Hof. set_solver. }
  injection E2 as <-. cbn [with_V K V left right recycle depth node_of] in *.
  destruct (bt_backtrack_ok 64 (Store (root s1) (<[a := node_of k (V n) rc d l r]> (nodes s1))) lk c
    (Node a k (V n) rc d l r) i narr (Nat.min 64 (S (length c))))
    as (s3&E3&HT3&HK3); [lia|lia|done|done|].
  unfold with_V, node_of in E3 |- *. simpl in E3 |- *. rewrite E3. exists s3.
  split; [done|]. split; [exact HT3|].
  pose proof (plug_addrs c (Node a k (V n) rc d l r)) as Hp1.
  pose proof (plug_addrs c (Node a k v rc d l r)) as Hp0. rewrite Hplug in Hp0, HK2. simpl in Hp0, Hp1.
  apply (tkeeps_trans _ _ _ s1); [|eapply tkeeps_trans; [|exact HK3 || eapply tkeeps_weaken; [|exact HK3]]].
  - eapply tkeeps_weaken; [|exact HK1]. clear. set_solver.
  - eapply tkeeps_weaken; [|exact HK2]. intros x Hx. apply elem_of_cons. right.
    apply elem_of_app in Hx as [Hx|Hx]; [done|]. rewrite Hp0. revert Hx. clear. simpl. set_solver.
  - intros x. rewrite Hp1, elem_of_cons, Hp0. clear. set_solver.
Qed.

Lemma addrs_up n c t : addrs (up n c t) ≡ₚ addrs (plug c t).
Proof.
  revert c t. induction n as [|n IH]; intros c t; [done|].
  destruct c as [|f c]; simpl; [apply addrs_balance|].
  rewrite IH, !plug_addrs, !fill_addrs. by rewrite addrs_balance.
Qed.

(** ** Depth fields *)

(** Every depth field below, or in, a tree is the height of its subtree. *)
Fixpoint depths_exact (t : tree) : Prop :=
  match t with
  | Leaf => True
  | Node _ _ _ _ d l r => d = height t /\ depths_exact l /\ depths_exact r
  end.

Definition children_exact (t : tree) : Prop :=
  match t with Leaf => True | Node _ _ _ _ _ l r => depths_exact l /\ depths_exact r end.

#[export] Instance depths_exact_dec t : Decision (depths_exact t).
Proof. induction t; simpl; apply _. Defined.

Lemma dep_exact t : depths_exact t -> dep t = height t.
Proof. destruct t; simpl; [done|tauto]. Qed.

Lemma height_size t : (height t <= size t)%nat.
Proof. induction t; simpl; lia. Qed.

Lemma bt_max_of_nat (a b : nat) : bt_max a b = Nat.max a b.
Proof. unfold bt_max. destruct (Z.ltb_spec b a); lia. Qed.

Lemma calc_exact t : children_exact t -> size t < 2 ^ 32 -> depths_exact (calc t).
Proof.
  destruct t as [|a k v rc d l r]; [done|]. intros [Hl Hr] Hs. cbn [size calc] in *.
  pose proof (height_size l). pose proof (height_size r).
  cbn [depths_exact]. split_and!; [|done..].
  rewrite !dep_exact by done. rewrite bt_max_of_nat. cbn [height].
  rewrite u32_add_nowrap; lia.
Qed.

Lemma size_calc t : size (calc t) = size t.
Proof. by destruct t. Qed.

Lemma size_addrs t : size t = length (addrs t).
Proof. induction t as [|a k v rc d l IHl r IHr]; simpl; [done|]. rewrite length_app. lia. Qed.

Lemma balance_exact t : children_exact t -> size t < 2 ^ 32 -> depths_exact (balance t).
Proof.
  destruct t as [|a k v rc d l r]; [done|]. intros [Hl Hr] Hs. unfold balance.
  case_match; [|case_match]; [| |by apply calc_exact].
  - destruct l as [|a' k' v' rc' d' l' r']; [by rewrite (dep_exact r Hr) in H; destruct (Z.ltb_spec (height r) (dep Leaf)); simpl in *; [lia|]|].
    destruct Hl as (_&Hl'&Hr'). simpl in Hs. cbn [rotright]. apply calc_exact.
    + split; [done|]. apply calc_exact; [done|]. simpl. lia.
    + cbn [size]. rewrite size_calc. simpl. lia.
  - destruct r as [|a' k' v' rc' d' l' r']; [by rewrite (dep_exact l Hl) in H0; destruct (Z.ltb_spec (height l) (dep Leaf)); simpl in *; [lia|]|].
    destruct Hr as (_&Hl'&Hr'). simpl in Hs. cbn [rotleft]. apply calc_exact.
    + split; [|done]. apply calc_exact; [done|]. simpl. lia.
    + cbn [size]. rewrite size_calc. simpl. lia.
Qed.

Definition others_exact (c : list frame) : Prop := Forall (fun f => depths_exact (frame_other f)) c.

Lemma up_exact n c t :
  children_exact t -> others_exact c -> (length c < n)%nat -> size (plug c t) < 2 ^ 32 ->
  depths_exact (up n c t).
Proof.
  revert c t. induction n as [|n IH]; intros c t Ht Hc Hn Hs; [lia|].
  assert (Hst : size t < 2 ^ 32).
  { revert Hs. rewrite !size_addrs. rewrite plug_addrs, length_app. lia. }
  destruct c as [|f c]; simpl; [by apply balance_exact|].
  apply Forall_cons in Hc as [Hf Hc]. pose proof (balance_exact t Ht Hst).
  apply IH; [by destruct f|done|simpl in Hn; lia|].
  revert Hs. rewrite !size_addrs. simpl. by rewrite !plug_addrs, !fill_addrs, addrs_balance.
Qed.

Lemma path_others x t c c' t' :
  depths_exact t -> others_exact c -> path x t c = (c', t') ->
  others_exact c' /\ depths_exact t'.
Proof.
  revert c. induction t as [|a k v rc d l IHl r IHr]; intros c Ht Hc; simpl; [by intros [= <- <-]|].
  destruct Ht as (Hd&Hl&Hr).
  repeat case_match; [apply IHl|apply IHr|by intros [= <- <-]]; try done; by constructor.
Qed.

(** ** Removal *)

Lemma narr_init_focus lk c : narr_ok (narr_init (link_of lk c)) 64 1 lk c.
Proof.
  destruct (narr_init_ok (link_of lk c)) as (Hlen&Hn&Hs&Hnone). split_and!; [done..| |done].
  intros j Hj. rewrite (Hs j Hj). assert (j = 0)%nat as -> by lia. by rewrite drop_0.
Qed.

(** A node with at most one child is cut out. *)
Lemma cut_ok s lk c a k v rc d l r u :
  trep s lk (plug c (Node a k v rc d l r)) -> (l = Leaf /\ u = r \/ r = Leaf /\ u = l) ->
  exists s', store_link (link_of lk c) (ptr u) s = Done s' /\ trep s' lk (plug c u) /\
    tkeeps lk (addrs (plug c (Node a k v rc d l r))) s s'.
Proof.
  intros Hrep Hu. pose proof Hrep as (_&Hr&Hnd).
  apply rep_plug in Hr as [_ (Ha&Hd&Hl&Hrr)].
  pose proof (plug_addrs c (Node a k v rc d l r)) as Hp0. simpl in Hp0.
  assert (addrs l ++ addrs r = addrs u) as Hlr.
  { destruct Hu as [[-> ->]|[-> ->]]; simpl; by rewrite ?app_nil_r. }
  rewrite Hlr in Hp0.
  destruct (trep_replace s (nodes s) lk c (Node a k v rc d l r) u) as (s'&E&HT&HK).
  - done.
  - by destruct Hu as [[_ ->]|[_ ->]].
  - done.
  - rewrite Hp0 in Hnd. rewrite plug_addrs. simpl in Hnd. rewrite <-Permutation_middle in Hnd.
    by apply NoDup_cons in Hnd as [_ ?].
  - rewrite store_eta in E. exists s'. split; [done|]. split; [done|].
    eapply tkeeps_weaken; [|exact HK]. intros x. rewrite Hp0. clear. set_solver.
Qed.

(** What sinking the node [a] leaves: the entries [order], in cells of [A]. *)
Definition sunk (b : nat) (lk : link) (a : Z) (order : list entry) (A : list Z) (s : store)
    (res : outcome (option Z * Z * list (option link) * store)) : Prop :=
  exists c' t' s' i' narr', res = Done (Some a, i', narr', s') /\
    trep s' lk (plug c' t') /\ (b <= length c')%nat /\
    narr_ok narr' i' (Nat.min 64 (S (length c' - b))) lk c' /\
    inorder (plug c' t') = order /\ addrs (plug c' t') ⊆ A /\ tkeeps lk A s s'.

(** A rotation before it. *)
Lemma sunk_after b lk a order order' A A1 s s1 res :
  tkeeps lk A s s1 -> A1 ⊆ A -> order = order' -> sunk b lk a order A1 s1 res -> sunk b lk a order' A s res.
Proof.
  intros HK1 Hsub1 -> (c'&t'&s'&i'&narr'&E&HT&Hb'&Hn'&Hin&Hsub&HK). exists c', t', s', i', narr'.
  split_and!; try done; [clear - Hsub Hsub1; set_solver|].
  eapply tkeeps_trans; [exact HK1|]. by eapply tkeeps_weaken.
Qed.

(** A node with a child missing is cut out. *)
Lemma sunk_cut b s lk c a k v rc d l r u i narr :
  trep s lk (plug c (Node a k v rc d l r)) -> l = Leaf /\ u = r \/ r = Leaf /\ u = l -> (b <= length c)%nat ->
  narr_ok narr i (Nat.min 64 (S (length c - b))) lk c ->
  sunk b lk a (before c ++ (inorder l ++ inorder r) ++ after c) (addrs (plug c (Node a k v rc d l r))) s
    (s' ← store_link (link_of lk c) (ptr u) s; Done (Some a, i, narr, s')).
Proof.
  intros Hrep Hu Hb Hn. destruct (cut_ok s lk c a k v rc d l r u Hrep) as (s'&->&HT&HK); [naive_solver|].
  exists c, u, s', i, narr. split_and!; try done.
  - rewrite inorder_plug. destruct Hu as [[-> ->]|[-> ->]]; simpl; by rewrite ?app_nil_r.
  - intros x. rewrite (plug_addrs c u), (plug_addrs c (Node _ _ _ _ _ _ _)).
    destruct Hu as [[-> ->]|[-> ->]]; clear; simpl; set_solver.
Qed.

Lemma bt_sink_sunk fuel b s lk c a k v rc d l r it i narr :
  trep s lk (plug c (Node a k v rc d l r)) ->
  (size (Node a k v rc d l r) <= fuel)%nat -> (b <= length c)%nat ->
  narr_ok narr i (Nat.min 64 (S (length c - b))) lk c ->
  sunk b lk a (before c ++ (inorder l ++ inorder r) ++ after c) (addrs (plug c (Node a k v rc d l r))) s
    (bt_sink fuel (link_of lk c) it i narr s).
Proof.
  revert s c d l r i narr. induction fuel as [|fuel IH]; intros s c d l r i narr Hrep Hf Hb Hn;
    [simpl in Hf; lia|].
  pose proof (trep_focus _ _ _ _ Hrep) as (Hl&(Ha&_&Hrl&Hrr)&_).
  cbn [bt_sink]. rewrite Hl. simpl. rewrite (proj2 (load_Done _ _ _) Ha). simpl.
  destruct l as [|al kl vl rcl dl ll rl]; [|destruct r as [|ar kr vr rcr dr lr rr]].
  - by apply (sunk_cut b s lk c a k v rc d Leaf r r); [|left| |].
  - by apply (sunk_cut b s lk c a k v rc d (Node al kl vl rcl dl ll rl) Leaf (Node al kl vl rcl dl ll rl)); [|right| |].
  - simpl ptr. cbv iota. rewrite (bt_depth_ok _ _ Hrl : bt_depth (Some al) s = _),
      (bt_depth_ok _ _ Hrr : bt_depth (Some ar) s = _). cbn [mbind outcome_bind].
    set (lt := Node al kl vl rcl dl ll rl) in *. set (rt := Node ar kr vr rcr dr lr rr) in *.
    destruct (dep lt <=? dep rt).
    + destruct (bt_rotleft_ok s lk c _ a k v rc d lt ar kr vr rcr dr lr rr eq_refl Hrep) as (s1&E1&HT1&HK1).
      rewrite E1. simpl. pose proof (trep_focus _ _ _ _ HT1) as (Hl1&_&_). simpl in Hl1. rewrite Hl1. simpl.
      set (D := bt_max (dep lt) (dep lr) +u 1) in *. set (f := InLeft ar kr vr rcr (bt_max D (dep rr) +u 1) rr).
      eapply sunk_after; [exact HK1| | |eapply (IH s1 (f :: c) D lt lr); [exact HT1|simpl in *; lia|simpl; lia|]].
      * intros x. rewrite (plug_addrs (f :: c) _), !(plug_addrs c _). simpl. clear. set_solver.
      * simpl. rewrite <-!app_assoc. simpl. done.
      * by apply (narr_push_min _ _ _ _ b f).
    + destruct (bt_rotright_ok s lk c _ a k v rc d rt al kl vl rcl dl ll rl eq_refl Hrep) as (s1&E1&HT1&HK1).
      rewrite E1. simpl. pose proof (trep_focus _ _ _ _ HT1) as (Hl1&_&_). simpl in Hl1. rewrite Hl1. simpl.
      set (D := bt_max (dep rl) (dep rt) +u 1) in *. set (f := InRight al kl vl rcl (bt_max (dep ll) D +u 1) ll).
      eapply sunk_after; [exact HK1| | |eapply (IH s1 (f :: c) D rl rt); [exact HT1|simpl in *; lia|simpl; lia|]].
      * intros x. rewrite (plug_addrs (f :: c) _), !(plug_addrs c _). simpl. clear. set_solver.
      * simpl. rewrite <-!app_assoc. simpl. done.
      * by apply (narr_push_min _ _ _ _ b f).
Qed.

Lemma bt_remove_ok fuel s lk c a k v rc d l r it :
  trep s lk (plug c (Node a k v rc d l r)) -> (size (Node a k v rc d l r) <= fuel)%nat ->
  exists s' T, bt_remove fuel (link_of lk c) it s = Done (Some a, s') /\ trep s' lk T /\
    inorder T = before c ++ (inorder l ++ inorder r) ++ after c /\
    addrs T ⊆ addrs (plug c (Node a k v rc d l r)) /\
    tkeeps lk (addrs (plug c (Node a k v rc d l r))) s s'.
Proof.
  intros Hrep Hf.
  destruct (bt_sink_sunk fuel (length c) s lk c a k v rc d l r it 64 (narr_init (link_of lk c)))
    as (c'&t'&s1&i&narr&E1&HT1&Hb&Hn&Hin&Hsub&HK1); [done|done|done| |].
  { rewrite Nat.sub_diag. apply narr_init_focus. }
  destruct (bt_backtrack_ok 64 s1 lk c' t' i narr (Nat.min 64 (S (length c' - length c))))
    as (s2&E2&HT2&HK2); [lia|lia|done|done|].
  exists s2, (up (Nat.min 64 (S (length c' - length c))) c' t').
  unfold bt_remove. rewrite E1. cbn [mbind outcome_bind].
  rewrite bt_remove_backtrack_eq, E2. cbn [mbind outcome_bind].
  split_and!; [done|done|by rewrite inorder_up| |].
  - intros x Hx. apply Hsub. by rewrite addrs_up in Hx.
  - eapply tkeeps_trans; [exact HK1|]. eapply tkeeps_weaken; [|exact HK2]. done.
Qed.

(** ** Search *)

(** The link a search returns: null when the path ends in a null link. *)
Definition found (lk : link) (p : list frame * tree) : option link :=
  match p with (_, Leaf) => None | (c, Node _ _ _ _ _ _ _) => Some (link_of lk c) end.

Lemma bt_lookup_ok fuel x s lk c t :
  trep s lk (plug c t) -> (height t < fuel)%nat ->
  bt_lookup fuel (link_of lk c) x s = Done (found lk (path x t c)).
Proof.
  revert fuel c. induction t as [|a k v rc d l IHl r IHr];
    intros fuel c Hrep Hf; (destruct fuel as [|fuel]; [simpl in Hf; lia|]);
    pose proof (trep_focus _ _ _ _ Hrep) as (Hl&Hr&_); simpl; rewrite Hl; simpl; [done|].
  destruct Hr as (Ha&_). rewrite (proj2 (load_Done _ _ _) Ha). simpl. simpl in Hf.
  destruct (x <? k); [|destruct (k <? x)]; [| |done].
  - apply (IHl fuel (InLeft a k v rc d r :: c)); [done|lia].
  - apply (IHr fuel (InRight a k v rc d l :: c)); [done|lia].
Qed.

(** Two contexts of one tree: the link [olk] holds the node that is the last
    entry before, respectively the first entry after, the hole of [c]. *)
Definition holds (s : store) (olk : option link) (oe : option entry) : Prop :=
  match olk, oe with
  | None, None => True
  | Some lk, Some (k, (a, v)) =>
      exists n, load_link lk s = Done (Some a) /\ nodes s !! a = Some n /\ K n = k /\ V n = v
  | _, _ => False
  end.

Lemma bt_floor_ok fuel x s lk c t low :
  bst (plug c t) -> trep s lk (plug c t) -> (height t < fuel)%nat ->
  (forall e, e ∈ before c -> e.1 < x) -> (forall e, e ∈ after c -> x < e.1) ->
  holds s low (last (before c)) ->
  exists olk, bt_floor_from fuel (link_of lk c) low x s = Done olk /\
    holds s olk (Spec.floor x (inorder (plug c t))).
Proof.
  revert fuel c low. induction t as [|a k v rc d l IHl r IHr];
    intros fuel c low Hbst Hrep Hf Hb Ha Hlow; (destruct fuel as [|fuel]; [simpl in Hf; lia|]);
    pose proof (trep_focus _ _ _ _ Hrep) as (Hl&Hr&_); simpl; rewrite Hl; simpl.
  { exists low. split; [done|]. rewrite inorder_plug. simpl. by rewrite floor_between. }
  destruct Hr as (Hn&_). rewrite (proj2 (load_Done _ _ _) Hn). simpl. simpl in Hf.
  pose proof (bst_plug _ _ _ _ _ _ _ _ Hbst) as [Hbk Hak].
  destruct (Z.ltb_spec x k); [|destruct (Z.ltb_spec k x)].
  - apply (IHl fuel (InLeft a k v rc d r :: c)); [done|done|lia|done| |done]. simpl.
    intros e [->|He]%elem_of_cons; [done|]. pose proof (Hak e He). lia.
  - apply (IHr fuel (InRight a k v rc d l :: c)); [done|done|lia| |done|].
    + simpl. intros e He. rewrite app_assoc in He.
      apply elem_of_app in He as [He|He%list_elem_of_singleton]; [|by subst].
      pose proof (Hbk e He). lia.
    + simpl. rewrite app_assoc, last_snoc. simpl. by exists (node_of k v rc d l r).
  - assert (k = x) as -> by lia. exists (Some (link_of lk c)). split; [done|].
    rewrite inorder_plug. simpl. rewrite <-app_assoc. simpl. rewrite app_assoc, floor_here by done.
    simpl. by exists (node_of x v rc d l r).
Qed.

Lemma bt_ceiling_ok fuel x s lk c t upp :
  bst (plug c t) -> trep s lk (plug c t) -> (height t < fuel)%nat ->
  (forall e, e ∈ before c -> e.1 < x) -> (forall e, e ∈ after c -> x < e.1) ->
  holds s upp (hd_error (after c)) ->
  exists olk, bt_ceiling_from fuel (link_of lk c) upp x s = Done olk /\
    holds s olk (Spec.ceiling x (inorder (plug c t))).
Proof.
  revert fuel c upp. induction t as [|a k v rc d l IHl r IHr];
    intros fuel c upp Hbst Hrep Hf Hb Ha Hupp; (destruct fuel as [|fuel]; [simpl in Hf; lia|]);
    pose proof (trep_focus _ _ _ _ Hrep) as (Hl&Hr&_); simpl; rewrite Hl; simpl.
  { exists upp. split; [done|]. rewrite inorder_plug. simpl. by rewrite ceiling_between. }
  destruct Hr as (Hn&_). rewrite (proj2 (load_Done _ _ _) Hn). simpl. simpl in Hf.
  pose proof (bst_plug _ _ _ _ _ _ _ _ Hbst) as [Hbk Hak].
  destruct (Z.ltb_spec x k); [|destruct (Z.ltb_spec k x)].
  - apply (IHl fuel (InLeft a k v rc d r :: c)); [done|done|lia|done| |].
    + simpl. intros e [->|He]%elem_of_cons; [done|]. pose proof (Hak e He). lia.
    + simpl. by exists (node_of k v rc d l r).
  - apply (IHr fuel (InRight a k v rc d l :: c)); [done|done|lia| |done|done].
    simpl. intros e He. rewrite app_assoc in He.
    apply elem_of_app in He as [He|He%list_elem_of_singleton]; [|by subst].
    pose proof (Hbk e He). lia.
  - assert (k = x) as -> by lia. exists (Some (link_of lk c)). split; [done|].
    rewrite inorder_plug. simpl. rewrite <-app_assoc. simpl. rewrite app_assoc, ceiling_here by done.
    simpl. by exists (node_of x v rc d l r).
Qed.

(** ** The operations against the sorted association list *)

(** The contents of a search tree, split at the search path of [x]. *)
Lemma path_split x t :
  bst t -> exists c t0, path x t [] = (c, t0) /\ path_spec x c t0 t /\ (length c <= height t)%nat /\
    Spec.lookup x (inorder t) = match t0 with Leaf => None | Node a _ v _ _ _ _ => Some (a, v) end /\
    forall y, Spec.put x y (inorder t) =
      before c ++ match t0 with
                  | Leaf => [(x, y)]
                  | Node _ _ _ _ _ l r => inorder l ++ (x, y) :: inorder r
                  end ++ after c.
Proof.
  intros Hbst. destruct (path x t []) as [c t0] eqn:Hp.
  pose proof (path_ok x t [] c t0 Hbst ltac:(set_solver) ltac:(set_solver) Hp) as Hps.
  change (plug [] t) with t in Hps. pose proof (path_length _ _ _ _ _ Hp) as Hlen.
  exists c, t0. split; [done|]. split; [done|]. split; [simpl in Hlen; lia|].
  destruct Hps as [Hplug Hb Ha Hk]. rewrite <-Hplug in Hbst |- *. rewrite inorder_plug.
  destruct t0 as [|a k v rc d l r]; simpl.
  - split; [by apply lookup_between|]. intros y. by apply put_between.
  - subst k. pose proof (bst_plug _ _ _ _ _ _ _ _ Hbst) as [Hb' Ha'].
    rewrite <-app_assoc. simpl. rewrite app_assoc. split; [by apply lookup_here|].
    intros y. rewrite put_here by done. by rewrite <-!app_assoc.
Qed.

(** [Spec.put] keeps a list sorted. *)
Lemma put_sorted x y l :
  StronglySorted (fun a b : entry => a.1 < b.1) l ->
  StronglySorted (fun a b : entry => a.1 < b.1) (Spec.put x y l).
Proof.
  induction l as [|[k z] l IH]; intros Hs; simpl; [by repeat constructor|].
  apply StronglySorted_inv in Hs as [Hs Hk]. rewrite Forall_forall in Hk.
  destruct (Z.ltb_spec x k); [|destruct (Z.ltb_spec k x)].
  - constructor; [by constructor; [|apply Forall_forall]|]. apply Forall_forall.
    intros e [->|He]%elem_of_cons; simpl; [lia|]. specialize (Hk e He). simpl in Hk. lia.
  - constructor; [by apply IH|]. apply Forall_forall. intros e He.
    assert (e.1 = x \/ e ∈ l) as [->|He']; [|done|by apply Hk].
    clear - He. induction l as [|[k' z'] l IH]; simpl in He.
    + apply list_elem_of_singleton in He as ->. by left.
    + repeat case_match; set_solver.
  - assert (k = x) as -> by lia. constructor; [done|]. apply Forall_forall. by apply Hk.
Qed.

(** C3: [bt_insert] on a search tree, given a node [it] outside it: the node
    is linked in (and [*it] becomes null) exactly when its key is new, no memory
    outside the tree and the node is written, and the tree stays a search tree;
    when the key exists [*it] still is the caller's node and nothing is written
    but its two child fields, which are cleared: every node of the tree, with its
    links and its depth, and the root are as before.  The call ends whenever the
    fuel exceeds the height of the tree. *)
Theorem bt_insert_correct fuel s lk t it n :
  trep s lk t -> bst t -> nodes s !! it = Some n -> 0 <= depth n ->
  it ∉ owner lk ++ addrs t -> (height t < fuel)%nat ->
  exists t' s',
    bt_insert fuel lk (Some it) s =
      Done (match Spec.lookup (K n) (inorder t) with None => None | Some _ => Some it end, s') /\
    trep s' lk t' /\ bst t' /\ inorder t' = Spec.insert (K n) (it, V n) (inorder t) /\
    tkeeps lk (it :: addrs t) s s' /\
    (is_Some (Spec.lookup (K n) (inorder t)) ->
       t' = t /\ s' = Store (root s) (<[it := Bintree_node (K n) (V n) None None (recycle n) (depth n)]> (nodes s))).
Proof.
  intros Hrep Hbst Hit Hd Hfr Hf. destruct (path_split (K n) t Hbst) as (c&t0&Hp&Hps&_&Hlk&Hput).
  unfold bst, Spec.insert. rewrite Hlk. destruct t0 as [|a k v rc d l r].
  - destruct (insertion_absent fuel s lk t it n c) as (s'&E&_&_&HT&HK); [done..|].
    eexists _, s'. split; [exact E|]. split; [exact HT|].
    assert (Hin : inorder (up (Nat.min 64 (S (length c))) c
      (Node it (K n) (V n) (recycle n) (depth n) Leaf Leaf)) = Spec.put (K n) (it, V n) (inorder t))
      by by rewrite inorder_up, inorder_plug, Hput.
    rewrite Hin. split_and!; [by apply put_sorted|done|done|by intros []].
  - destruct (bt_insert_present fuel s lk t it n c a k v rc d l r) as (E&HT&HK); [done..|].
    eexists t, _. split_and!; [exact E|exact HT|done..| |done]. eapply tkeeps_weaken; [|exact HK]. clear. set_solver.
Qed.

(** [bt_put] links the new node in and gives back the node it replaced:
    [*it] becomes the previous node with that key, or null. *)
Theorem bt_put_correct fuel s lk t it n :
  trep s lk t -> bst t -> nodes s !! it = Some n -> 0 <= depth n ->
  it ∉ owner lk ++ addrs t -> (height t < fuel)%nat ->
  exists t' s',
    bt_put fuel lk (Some it) s = Done (fst <$> Spec.lookup (K n) (inorder t), s') /\
    trep s' lk t' /\ bst t' /\ inorder t' = Spec.put (K n) (it, V n) (inorder t) /\
    tkeeps lk (it :: addrs t) s s'.
Proof.
  intros Hrep Hbst Hit Hd Hfr Hf. destruct (path_split (K n) t Hbst) as (c&t0&Hp&Hps&_&Hlk&Hput).
  unfold bst. rewrite Hlk. destruct t0 as [|a k v rc d l r].
  - destruct (insertion_absent fuel s lk t it n c) as (s'&_&E&_&HT&HK); [done..|].
    eexists _, s'. split; [exact E|]. split; [exact HT|].
    rewrite inorder_up, inorder_plug. simpl. simpl in Hput. rewrite <-Hput.
    split_and!; [by apply put_sorted|done|done].
  - destruct (bt_put_present fuel s lk t it n c a k v rc d l r) as (s'&E&HT&HK); [done..|].
    eexists _, s'. split; [exact E|]. split; [exact HT|].
    rewrite inorder_up, inorder_plug. simpl. rewrite <-Hput.
    split_and!; [by apply put_sorted|done|done].
Qed.

(** [bt_put_ip] changes the value in place: when the key exists its node
    stays, with the new value, and [*it] still is the caller's node; otherwise
    the caller's node is linked in. *)
Theorem bt_put_ip_correct fuel s lk t it n :
  trep s lk t -> bst t -> nodes s !! it = Some n -> 0 <= depth n ->
  it ∉ owner lk ++ addrs t -> (height t < fuel)%nat ->
  exists t' s',
    bt_put_ip fuel lk (Some it) s =
      Done (match Spec.lookup (K n) (inorder t) with None => None | Some _ => Some it end, s') /\
    trep s' lk t' /\ bst t' /\
    inorder t' = Spec.put (K n) (match Spec.lookup (K n) (inorder t) with
                                 | Some (a, _) => (a, V n) | None => (it, V n) end) (inorder t) /\
    tkeeps lk (it :: addrs t) s s'.
Proof.
  intros Hrep Hbst Hit Hd Hfr Hf. destruct (path_split (K n) t Hbst) as (c&t0&Hp&Hps&_&Hlk&Hput).
  unfold bst. rewrite Hlk. destruct t0 as [|a k v rc d l r].
  - destruct (insertion_absent fuel s lk t it n c) as (s'&_&_&E&HT&HK); [done..|].
    eexists _, s'. split; [exact E|]. split; [exact HT|].
    rewrite inorder_up, inorder_plug. simpl. simpl in Hput. rewrite <-Hput.
    split_and!; [by apply put_sorted|done|done].
  - destruct (bt_put_ip_present fuel s lk t it n c a k v rc d l r) as (s'&E&HT&HK); [done..|].
    pose proof (path_key _ _ _ _ Hps) as Hk. simpl in Hk. subst k.
    eexists _, s'. split; [exact E|]. split; [exact HT|].
    rewrite inorder_up, inorder_plug. simpl. rewrite <-Hput.
    split_and!; [by apply put_sorted|done|done].
Qed.

(** C23: the depth fields: when every depth field of the tree is the height of
    its subtree and the tree is less than 64 levels deep (the links recorded in
    [narr]), so it is after each of the three insertions. *)
Theorem insertion_keeps_depths fuel s lk t it n :
  trep s lk t -> bst t -> nodes s !! it = Some n -> 0 <= depth n ->
  it ∉ owner lk ++ addrs t -> (height t < fuel)%nat ->
  depths_exact t -> (height t < 64)%nat -> size t + 1 < 2 ^ 32 ->
  Forall (fun op : nat -> link -> option Z -> store -> outcome (option Z * store) =>
    exists t' s' r, op fuel lk (Some it) s = Done (r, s') /\ trep s' lk t' /\ depths_exact t')
    [bt_insert; bt_put; bt_put_ip].
Proof.
  intros Hrep Hbst Hit Hd Hfr Hf Hex Hh Hs.
  destruct (path_split (K n) t Hbst) as (c&t0&Hp&Hps&Hlen&_&_).
  destruct (path_others _ _ _ _ _ Hex (Forall_nil_2 _) Hp) as [Hoth Ht0].
  assert (Hup : forall u, children_exact u -> (size u <= S (size t0))%nat ->
    depths_exact (up (Nat.min 64 (S (length c))) c u)).
  { intros u Hu Hsu. apply up_exact; [done|done|lia|]. pose proof (path_plug _ _ _ _ Hps) as Hpl.
    revert Hs Hsu. rewrite <-Hpl. rewrite !size_addrs, !plug_addrs, !length_app. lia. }
  destruct t0 as [|a k v rc d l r].
  - destruct (insertion_absent fuel s lk t it n c) as (s'&E1&E2&E3&HT&_); [done..|].
    repeat constructor; (eexists _, s', _; split_and!; [eassumption|exact HT|]; by apply Hup).
  - destruct Ht0 as (_&Hl&Hr).
    destruct (bt_insert_present fuel s lk t it n c a k v rc d l r) as (E1&HT1&_); [done..|].
    destruct (bt_put_present fuel s lk t it n c a k v rc d l r) as (s2&E2&HT2&_); [done..|].
    destruct (bt_put_ip_present fuel s lk t it n c a k v rc d l r) as (s3&E3&HT3&_); [done..|].
    repeat constructor.
    + eexists t, _, (Some it). by split_and!.
    + eexists _, s2, _. split_and!; [exact E2|exact HT2|]. apply Hup; [done|]. simpl. lia.
    + eexists _, s3, _. split_and!; [exact E3|exact HT3|]. apply Hup; [done|]. simpl. lia.
Qed.

(** C21: [bt_lookup] finds the link of the node with the key, or null when
    there is none, and [bt_remove] at that link takes exactly that node out:
    [*it] becomes the node, the other entries stay in order. *)
Theorem bt_lookup_remove_correct fuel s lk t x it :
  trep s lk t -> bst t -> (size t < fuel)%nat ->
  exists olk, bt_lookup fuel lk x s = Done olk /\
    match olk, Spec.lookup x (inorder t) with
    | None, None => True
    | Some nlk, Some (a, v) =>
        load_link nlk s = Done (Some a) /\
        exists t' s', bt_remove fuel nlk it s = Done (Some a, s') /\ trep s' lk t' /\ bst t' /\
          inorder t' = Spec.remove x (inorder t) /\ tkeeps lk (addrs t) s s'
    | _, _ => False
    end.
Proof.
  intros Hrep Hbst Hf. pose proof (height_size t).
  destruct (path_split x t Hbst) as (c&t0&Hp&Hps&_&Hlk&_).
  exists (found lk (c, t0)). rewrite <-Hp. split; [apply (bt_lookup_ok fuel x s lk [] t); [done|lia]|].
  rewrite Hp, Hlk. destruct t0 as [|a k v rc d l r]; [done|].
  destruct Hps as [Hplug Hb Ha Hk]. subst k t. cbn [found].
  pose proof (bst_plug _ _ _ _ _ _ _ _ Hbst) as [Hb' Ha'].
  split; [by apply trep_focus in Hrep as [? _]|].
  assert (Hsz : (size (Node a x v rc d l r) <= fuel)%nat).
  { revert Hf. rewrite !size_addrs, plug_addrs, length_app. lia. }
  destruct (bt_remove_ok fuel s lk c a x v rc d l r it Hrep Hsz) as (s'&T&E&HT&Hin&_&HK).
  exists T, s'. split; [exact E|]. split; [exact HT|].
  assert (Hspec : inorder T = Spec.remove x (inorder (plug c (Node a x v rc d l r)))).
  { rewrite Hin, inorder_plug. simpl. rewrite <-!app_assoc. simpl.
    rewrite (app_assoc (before c) (inorder l) ((x, _) :: _)), remove_here by done.
    by rewrite <-!app_assoc. }
  split_and!; [|done|exact HK]. unfold bst in Hbst |- *. rewrite Hin.
  rewrite inorder_plug in Hbst. simpl in Hbst.
  rewrite <-!app_assoc in Hbst |- *. simpl in Hbst. rewrite app_assoc in Hbst |- *.
  apply sorted_app in Hbst as (H1&H2&H3). apply StronglySorted_inv in H2 as [H2 _].
  apply sorted_app. split_and!; [done..|]. intros e1 e2 He1 He2. apply H3; set_solver.
Qed.

(** C22: [bt_floor] and [bt_ceiling] return the link that holds the node with
    the greatest key not above, the least key not below, the one asked for, or
    null when there is none. *)
Theorem bt_floor_ceiling_correct fuel s lk t x :
  trep s lk t -> bst t -> (height t < fuel)%nat ->
  (exists f, bt_floor fuel lk x s = Done f /\ holds s f (Spec.floor x (inorder t))) /\
  (exists c, bt_ceiling fuel lk x s = Done c /\ holds s c (Spec.ceiling x (inorder t))).
Proof.
  intros Hrep Hbst Hf. split.
  - by apply (bt_floor_ok fuel x s lk [] t None); [..|set_solver|set_solver|].
  - by apply (bt_ceiling_ok fuel x s lk [] t None); [..|set_solver|set_solver|].
Qed.

(** ** A concrete tree *)

Module TreeExample.
Definition leaf_node (k v : Z) : bintree_node := Bintree_node k v None None None 1.

(** Keys 10, 20, 30 under the root 20, and a node 4 outside the tree. *)
Definition s0 : store := Store (Some 2) (list_to_map
  [(1, leaf_node 10 100); (2, Bintree_node 20 200 (Some 1) (Some 3) None 2);
   (3, leaf_node 30 300); (4, Bintree_node 25 250 None None None 0)]).

Definition t0 : tree :=
  Node 2 20 200 None 2 (Node 1 10 100 None 1 Leaf Leaf) (Node 3 30 300 None 1 Leaf Leaf).

Lemma rep_s0 : trep s0 Root t0.
Proof.
  split_and!; [reflexivity| |].
  - repeat (split; [vm_compute; first [reflexivity|done]|]). repeat split; vm_compute; done.
  - apply (bool_decide_eq_true_1 _). vm_compute. reflexivity.
Defined.

Lemma bst_t0 : bst t0.
Proof. unfold bst. simpl. repeat constructor. Defined.

Lemma fresh_4 : 4 ∉ owner Root ++ addrs t0.
Proof. apply (bool_decide_eq_true_1 _). vm_compute. reflexivity. Defined.

Lemma bt_insert_correct_witness : exists t' s',
  bt_insert 3 Root (Some 4) s0 = Done (None, s') /\ trep s' Root t' /\
  inorder t' = [(10, (1, 100)); (20, (2, 200)); (25, (4, 250)); (30, (3, 300))].
Proof.
  destruct (bt_insert_correct 3 s0 Root t0 4 (Bintree_node 25 250 None None None 0)
    rep_s0 bst_t0) as (t'&s'&E&HT&_&Hin&_&_); [reflexivity|simpl; lia|exact fresh_4|simpl; lia|].
  exists t', s'. split; [exact E|]. split; [exact HT|]. exact Hin.
Defined.

Lemma bt_put_correct_witness : exists t' s',
  bt_put 3 Root (Some 4) s0 = Done (None, s') /\ trep s' Root t' /\
  inorder t' = [(10, (1, 100)); (20, (2, 200)); (25, (4, 250)); (30, (3, 300))].
Proof.
  destruct (bt_put_correct 3 s0 Root t0 4 (Bintree_node 25 250 None None None 0)
    rep_s0 bst_t0) as (t'&s'&E&HT&_&Hin&_); [reflexivity|simpl; lia|exact fresh_4|simpl; lia|].
  exists t', s'. split; [exact E|]. split; [exact HT|]. exact Hin.
Defined.

Lemma bt_put_ip_correct_witness : exists t' s',
  bt_put_ip 3 Root (Some 4) s0 = Done (None, s') /\ trep s' Root t' /\
  inorder t' = [(10, (1, 100)); (20, (2, 200)); (25, (4, 250)); (30, (3, 300))].
Proof.
  destruct (bt_put_ip_correct 3 s0 Root t0 4 (Bintree_node 25 250 None None None 0)
    rep_s0 bst_t0) as (t'&s'&E&HT&_&Hin&_); [reflexivity|simpl; lia|exact fresh_4|simpl; lia|].
  exists t', s'. split; [exact E|]. split; [exact HT|]. exact Hin.
Defined.

Lemma insertion_keeps_depths_witness : exists t' s' r,
  bt_insert 3 Root (Some 4) s0 = Done (r, s') /\ trep s' Root t' /\ depths_exact t'.
Proof.
  assert (H := insertion_keeps_depths 3 s0 Root t0 4 (Bintree_node 25 250 None None None 0)
    rep_s0 bst_t0 eq_refl ltac:(simpl; lia) fresh_4 ltac:(simpl; lia)
    ltac:(apply (bool_decide_eq_true_1 _); vm_compute; reflexivity)
    ltac:(simpl; lia) ltac:(simpl; lia)).
  exact (Forall_inv H).
Defined.

Lemma bt_lookup_remove_correct_witness : exists t' s',
  bt_lookup 4 Root 20 s0 = Done (Some Root) /\
  bt_remove 4 Root None s0 = Done (Some 2, s') /\ trep s' Root t' /\
  inorder t' = [(10, (1, 100)); (30, (3, 300))].
Proof.
  destruct (bt_lookup_remove_correct 4 s0 Root t0 20 None rep_s0 bst_t0 ltac:(simpl; lia))
    as (olk&E&H).
  assert (bt_lookup 4 Root 20 s0 = Done (Some Root)) as E' by (vm_compute; reflexivity).
  rewrite E' in E. injection E as <-. destruct H as (_&t'&s'&E2&HT&_&Hin&_).
  exists t', s'. split; [exact E'|]. split; [exact E2|]. split; [exact HT|]. exact Hin.
Defined.

Lemma bt_floor_ceiling_correct_witness :
  (exists f, bt_floor 3 Root 25 s0 = Done f /\ holds s0 f (Some (20, (2, 200)))) /\
  (exists c, bt_ceiling 3 Root 25 s0 = Done c /\ holds s0 c (Some (30, (3, 300)))).
Proof. exact (bt_floor_ceiling_correct 3 s0 Root t0 25 rep_s0 bst_t0 ltac:(simpl; lia)). Defined.

(** Inserting 10, 30, 20 in this order leaves the root with a subtree of
    depth two beside an empty one: the single rotations of [bt_balance] move
    the imbalance to the other side. *)
Definition unlinked : store := Store None (list_to_map
  [(1, Bintree_node 10 100 None None None 0); (2, Bintree_node 20 200 None None None 0);
   (3, Bintree_node 30 300 None None None 0)]).

Lemma single_rotation_not_enough :
  ('(_, s) ← bt_insert 4 Root (Some 1) unlinked;
   '(_, s) ← bt_insert 4 Root (Some 3) s;
   '(_, s) ← bt_insert 4 Root (Some 2) s;
   h ← load (root s) s; l ← bt_depth (left h) s; r ← bt_depth (right h) s;
   Done (depth h, l, r)) = Done (3, 2, 0).
Proof. vm_compute. reflexivity. Qed.
End TreeExample.
