(* ===== verification/Vm.v ===== *)
(** * The virtual memory layer

    Models [system/vm]: data spaces ([dataspace.c]), region mappers
    ([region_mapper.c]), the page fault path ([rm_pager.c]), protection domains
    ([protection_domain.c]), the growth of the kernel heap ([kmem_util2.c]) and
    [vm_init.c], with their headers.

    Region mapper objects are linked through [list_node]s; the address of a
    node is [inl r] for the head [rm_childs] of the mapper [r] and [inr o] for
    the member [rmo_member] of the object [o], so that [containerof] is the
    passage from [inr o] to [o].  The text the code prints is kept as a list of
    format strings with their argument. *)

From S2P Require Import Prelude Ring Spinlock PhysAlloc Mmu.

(** ** Data *)

Definition VM_OK : Z := 0.
Definition VM_FAILURE : Z := 1.
Definition VM_SEGFAULT : Z := 2.
Definition VM_AGAIN : Z := 3.

(** [struct dataspace]; [ds_pages] is the array behind the structure. *)
Record dataspace := Dataspace {
  ds_lock : Z;
  ds_n_pages : Z;
  ds_refc : Z;
  ds_size : Z;
  ds_pages : list Z;
}.

(** The types of region mapper objects, and what [rmo_object] points to. *)
Inductive rmo_kind := RMO_UNDEFINED | RMO_DATASPACE | RMO_REGION_MAPPER.
Inductive vmobj := NullObj | DsObj (d : Z) | RmObj (r : Z).

#[export] Instance rmo_kind_eq_dec : EqDecision rmo_kind.
Proof. solve_decision. Defined.
#[export] Instance vmobj_eq_dec : EqDecision vmobj.
Proof. solve_decision. Defined.

Record region_mapper := Region_mapper { rm_size : Z; rm_refc : Z; rm_lock : Z }.

Record region_mapper_object := Rmo {
  rmo_offset : Z;
  rmo_size : Z;
  rmo_object : vmobj;
  rmo_type : rmo_kind;
  rmo_static : Z;
}.

(** [struct page_fault]. *)
Record page_fault := Page_fault { pf_offset : Z; pf_ptr : Z; pf_size : Z; pf_type : Z }.

Record protection_domain := Protection_domain {
  pd_begin : Z;
  pd_end : Z;
  pd_pmap : pmap_t;
  pd_refc : Z;
  pd_lock : Z;
  pd_refclock : Z;
}.

Notation node := (Z + Z)%type.
Notation links := (gmap node (list_node node)).

(** The objects of the layer, over the page tables and the page allocator. *)
Record vm := Vm {
  nodes : links;
  rms : gmap Z region_mapper;
  rmos : gmap Z region_mapper_object;
  dss : gmap Z dataspace;
  kernel_lock : Z;
  kernel_rmoi : Z;
  kernel_pd : protection_domain;
  mm : mmu;
  phys : physmem;
  printed : list (string * Z);
}.

(** The kernel's region mapper. *)
Definition kernel_rm : Z := 0.
Definition N_RMOS : Z := 4.

Definition with_nodes (h : links) (s : vm) : vm :=
  Vm h (rms s) (rmos s) (dss s) (kernel_lock s) (kernel_rmoi s) (kernel_pd s) (mm s) (phys s) (printed s).
Definition with_rm (r : Z) (m : region_mapper) (s : vm) : vm :=
  Vm (nodes s) (<[r := m]> (rms s)) (rmos s) (dss s) (kernel_lock s) (kernel_rmoi s) (kernel_pd s) (mm s) (phys s) (printed s).
Definition with_rmo (o : Z) (m : region_mapper_object) (s : vm) : vm :=
  Vm (nodes s) (rms s) (<[o := m]> (rmos s)) (dss s) (kernel_lock s) (kernel_rmoi s) (kernel_pd s) (mm s) (phys s) (printed s).
Definition with_ds (d : Z) (m : dataspace) (s : vm) : vm :=
  Vm (nodes s) (rms s) (rmos s) (<[d := m]> (dss s)) (kernel_lock s) (kernel_rmoi s) (kernel_pd s) (mm s) (phys s) (printed s).
Definition with_klock (l : Z) (s : vm) : vm :=
  Vm (nodes s) (rms s) (rmos s) (dss s) l (kernel_rmoi s) (kernel_pd s) (mm s) (phys s) (printed s).
Definition with_rmoi (i : Z) (s : vm) : vm :=
  Vm (nodes s) (rms s) (rmos s) (dss s) (kernel_lock s) i (kernel_pd s) (mm s) (phys s) (printed s).
Definition with_pd (p : protection_domain) (s : vm) : vm :=
  Vm (nodes s) (rms s) (rmos s) (dss s) (kernel_lock s) (kernel_rmoi s) p (mm s) (phys s) (printed s).
Definition with_mm (m : mmu) (s : vm) : vm :=
  Vm (nodes s) (rms s) (rmos s) (dss s) (kernel_lock s) (kernel_rmoi s) (kernel_pd s) m (phys s) (printed s).
Definition with_phys (p : physmem) (s : vm) : vm :=
  Vm (nodes s) (rms s) (rmos s) (dss s) (kernel_lock s) (kernel_rmoi s) (kernel_pd s) (mm s) p (printed s).
Definition print (fmt : string) (v : Z) (s : vm) : vm :=
  Vm (nodes s) (rms s) (rmos s) (dss s) (kernel_lock s) (kernel_rmoi s) (kernel_pd s) (mm s) (phys s) (printed s ++ [(fmt, v)]).

(** [ROUND_DOWN(x)] *)
Definition ROUND_DOWN (x : Z) : Z := Z.land x (not32 (2 ^ SYSARCH_PAGESIZE_SHIFT - 1)).

(** ** dataspace.c *)

(** [sizeof(struct dataspace)]: lock byte, bit field word, reference count and
    size. *)
Definition SIZEOF_DATASPACE : Z := 16.
Definition SIZEOF_VADDR : Z := 4.

Definition ds_construct (ds : dataspace) (bufsize : Z) : dataspace :=
  let size := bufsize -u SIZEOF_DATASPACE in
  let size := size / SIZEOF_VADDR in
  let size := if 2 ^ 27 <=? size then 2 ^ 27 - 1 else size in
  Dataspace (kernlock_init (ds_lock ds)) size 1 0 (ds_pages ds).

(** ** region_mapper.c *)

Definition rm_construct (rm size : Z) (s : vm) : outcome vm :=
  h ← list_init (Some (inl rm)) (nodes s);
  m ← deref (rms s !! rm);
  Done (with_rm rm (Region_mapper size 1 (kernlock_init (rm_lock m))) (with_nodes h s)).

Definition rmo_construct (rmo : Z) (s : vm) : outcome vm :=
  h ← list_clear (Some (inr rmo)) (nodes s);
  m ← deref (rmos s !! rmo);
  Done (with_rmo rmo (Rmo (rmo_offset m) (rmo_size m) NullObj RMO_UNDEFINED 0) (with_nodes h s)).

(** [for(i = 0;i<ds->ds_n_pages;++i) ds->ds_pages[i] = 0;] *)
Fixpoint clear_pages (n i : nat) (l : list Z) : outcome (list Z) :=
  match n with
  | O => Done l
  | S n => _ ← deref (l !! i); clear_pages n (S i) (<[i := 0]> l)
  end.

(** [sizeof( *kernel_rmodss)]: a data space with 130 page entries.  The object
    and data space number [i] of the static arrays are the keys [i]. *)
Definition SIZEOF_RMODS : Z := SIZEOF_DATASPACE + 130 * 4.

Definition rm_kalloc (s : vm) : outcome (option Z * vm) :=
  l ← kernlock_lock 1 (kernel_lock s);
  let s := with_klock l s in
  if N_RMOS <=? kernel_rmoi s then Done (None, s)
  else
    let i := kernel_rmoi s in
    let s := with_rmoi (kernel_rmoi s +u 1) s in
    s ← rmo_construct i s;
    ds ← deref (dss s !! i);
    let ds := ds_construct ds SIZEOF_RMODS in
    let n := if 128 <? ds_n_pages ds then 128 else ds_n_pages ds in
    pages ← clear_pages (Z.to_nat n) 0 (ds_pages ds);
    let ds := Dataspace (ds_lock ds) n (ds_refc ds) (n *u SYSARCH_PAGESIZE) pages in
    let s := with_ds i ds s in
    let s := print "Capacity: ds->ds_size %d" (i32 (ds_size ds)) s in
    rmo ← deref (rmos s !! i);
    let s := with_rmo i (Rmo (rmo_offset rmo) (ds_size ds) (DsObj i) RMO_DATASPACE 1) s in
    Done (Some i, with_klock (kernlock_unlock (kernel_lock s)) s).

(** The loop of [rm_insert] from [node] on, for an object of size [size]: the
    object to insert before, if any, and the place found. *)
Fixpoint rm_insert_from (fuel : nat) (list cur : option node) (begin_ size : Z) (s : vm)
  : outcome (option Z * Z) :=
  if decide (cur = list) then Done (None, begin_)
  else match fuel with
  | O => OutOfFuel
  | S fuel =>
      let end_ := begin_ +u size in
      a ← deref cur;
      match a with
      | inl _ => Fault
      | inr o =>
          other ← deref (rmos s !! o);
          if rmo_offset other <? end_ then
            cur' ← get_next cur (nodes s);
            rm_insert_from fuel list cur' (rmo_offset other +u rmo_size other) size s
          else Done (Some o, begin_)
      end
  end.

(** [true] is the result -1. *)
Definition rm_insert (fuel : nat) (rm rmo : Z) (s : vm) : outcome (bool * vm) :=
  let list := Some (inl rm) in
  n ← deref (rmos s !! rmo);
  first ← get_next list (nodes s);
  '(other, begin_) ← rm_insert_from fuel list first 0 (rmo_size n) s;
  let n' := Rmo begin_ (rmo_size n) (rmo_object n) (rmo_type n) (rmo_static n) in
  match other with
  | Some o =>
      let s := with_rmo rmo n' s in
      h ← list_add_before (Some (inr o)) (Some (inr rmo)) (nodes s);
      Done (true, with_nodes h s)
  | None =>
      m ← deref (rms s !! rm);
      let end_ := begin_ +u rmo_size n in
      if rm_size m <? end_ then Done (false, s)
      else
        let s := with_rmo rmo n' s in
        h ← list_push_tail list (Some (inr rmo)) (nodes s);
        Done (true, with_nodes h s)
  end.

(** [rm_init]; [pm] is the kernel's [pmap]. *)
Definition rm_init (fuel : nat) (pm : pmap) (s : vm) : outcome vm :=
  let '(start, end_) := pmap_get_address_range pm in
  let s := with_rmoi 0 (with_klock (kernlock_init (kernel_lock s)) s) in
  let end_ := ROUND_DOWN end_ in
  let end_ := end_ -u start in
  let end_ := end_ +u SYSARCH_PAGESIZE in
  s ← rm_construct kernel_rm end_ s;
  '(rmo, s) ← rm_kalloc s;
  o ← deref rmo;
  '(_, s) ← rm_insert fuel kernel_rm o s;
  Done s.

Definition rm_get_kernel : Z := kernel_rm.

(** The loop of [rm_ll_lookup]: the object returned, the fault and [*type]. *)
Fixpoint rm_ll_lookup_from (fuel : nat) (list cur : option node) (fault : page_fault) (type : rmo_kind)
    (s : vm) : outcome (vmobj * page_fault * rmo_kind) :=
  if decide (cur = list) then Done (NullObj, fault, type)
  else match fuel with
  | O => OutOfFuel
  | S fuel =>
      a ← deref cur;
      match a with
      | inl _ => Fault
      | inr o =>
          object ← deref (rmos s !! o);
          if pf_ptr fault <? rmo_offset object then Done (NullObj, fault, type)
          else if pf_ptr fault <? rmo_offset object +u rmo_size object then
            if decide (rmo_type object = RMO_UNDEFINED) then Done (NullObj, fault, type)
            else
              let size := pf_size fault -u rmo_offset object in
              let size := if rmo_size object <? size then rmo_size object else size in
              Done (rmo_object object,
                    Page_fault (pf_offset fault +u rmo_offset object) (pf_ptr fault -u rmo_offset object)
                      size (pf_type fault),
                    rmo_type object)
          else cur' ← get_next cur (nodes s); rm_ll_lookup_from fuel list cur' fault type s
      end
  end.

(** [rm] is null when a lookup has returned null before. *)
Definition rm_ll_lookup (fuel : nat) (rm : option Z) (fault : page_fault) (type : rmo_kind) (s : vm)
  : outcome (vmobj * page_fault * rmo_kind) :=
  r ← deref rm;
  first ← get_next (Some (inl r)) (nodes s);
  rm_ll_lookup_from fuel (Some (inl r)) first fault type s.

(** ** protection_domain.c *)

(** [pd_init]; [pm] is the kernel's [pmap]. *)
Definition pd_init (pm : pmap) (s : vm) : vm :=
  let '(start, end_) := pmap_get_address_range pm in
  with_pd (Protection_domain start end_ pmap_kernel (pd_refc (kernel_pd s))
             (kernlock_init (pd_lock (kernel_pd s))) (kernlock_init (pd_refclock (kernel_pd s)))) s.

(** [pd_enter] and [pd_remove] on the kernel's domain. *)
Definition pd_enter (va pa prot flags : Z) (s : vm) : outcome (Z * vm) :=
  let dom := kernel_pd s in
  l ← kernlock_lock 1 (pd_lock dom);
  '(ret, m) ← pmap_enter (pd_pmap dom) va pa prot flags (mm s);
  Done (ret, with_pd (Protection_domain (pd_begin dom) (pd_end dom) (pd_pmap dom) (pd_refc dom)
                        (kernlock_unlock l) (pd_refclock dom)) (with_mm m s)).

Definition pd_remove (vab vae : Z) (s : vm) : outcome (Z * vm) :=
  let dom := kernel_pd s in
  l ← kernlock_lock 1 (pd_lock dom);
  let '(ret, m) := pmap_remove (pd_pmap dom) vab vae (mm s) in
  Done (ret, with_pd (Protection_domain (pd_begin dom) (pd_end dom) (pd_pmap dom) (pd_refc dom)
                        (kernlock_unlock l) (pd_refclock dom)) (with_mm m s)).

(** Reference counts of any domain; [is_kernel] is the test [dom==&kernel_pd].
    [pd_drop] also tells whether it calls [zfree(dom)]. *)
Definition pd_grab (is_kernel : bool) (dom : protection_domain) : outcome protection_domain :=
  if is_kernel then Done dom
  else
    l ← kernlock_lock 1 (pd_refclock dom);
    Done (Protection_domain (pd_begin dom) (pd_end dom) (pd_pmap dom) (pd_refc dom +u 1)
            (pd_lock dom) (kernlock_unlock l)).

Definition pd_drop (is_kernel : bool) (dom : protection_domain) : outcome (bool * protection_domain) :=
  if is_kernel then Done (false, dom)
  else
    l ← kernlock_lock 1 (pd_refclock dom);
    let refc := pd_refc dom -u 1 in
    let f := truthy refc in
    Done (negb f, Protection_domain (pd_begin dom) (pd_end dom) (pd_pmap dom) refc
                    (pd_lock dom) (kernlock_unlock l)).

(** ** rm_pager.c *)

(** The loop of [dataspace_map]. *)
Fixpoint dataspace_map_from (n i : nat) (pages : list Z) (base prot : Z) (s : vm) : outcome vm :=
  match n with
  | O => Done s
  | S n =>
      p ← deref (pages !! i);
      '(_, s) ← pd_enter base p prot 0 s;
      dataspace_map_from n (S i) pages (base +u SYSARCH_PAGESIZE) prot s
  end.

Definition dataspace_map (ds : Z) (base size prot : Z) (s : vm) : outcome vm :=
  d ← deref (dss s !! ds);
  let size := if ds_size d <? size then ds_size d else size in
  let n := DIV_PAGESIZE size in
  let n := if ds_n_pages d <? n then ds_n_pages d else n in
  dataspace_map_from (Z.to_nat n) 0 (ds_pages d) base prot s.

(** The pointer of an object as the code casts it. *)
Definition as_rm (o : vmobj) : option Z := match o with RmObj r => Some r | _ => None end.

Definition rm_dispatch_pagefault (fuel : nat) (object : vmobj) (type : rmo_kind) (pfo : page_fault) (s : vm)
  : outcome (Z * vmobj * rmo_kind * page_fault * vm) :=
  match type with
  | RMO_UNDEFINED => Done (VM_FAILURE, object, type, pfo, s)
  | RMO_DATASPACE =>
      match object with
      | DsObj d =>
          s ← dataspace_map d (pf_offset pfo) (pf_size pfo) (pf_type pfo) s;
          Done (VM_OK, object, type, pfo, s)
      | _ => Fault
      end
  | RMO_REGION_MAPPER =>
      '(object, pfo, type) ← rm_ll_lookup fuel (as_rm object) pfo type s;
      Done (VM_AGAIN, object, type, pfo, s)
  end.

(** [for(;;)] of [rm_pagefault]. *)
Fixpoint pagefault_loop (fuel : nat) (lfuel : nat) (object : vmobj) (type : rmo_kind) (pfo : page_fault)
    (s : vm) : outcome (Z * vm) :=
  match fuel with
  | O => OutOfFuel
  | S fuel =>
      '(ret, object, type, pfo, s) ← rm_dispatch_pagefault lfuel object type pfo s;
      if ret =? VM_AGAIN then pagefault_loop fuel lfuel object type pfo s else Done (ret, s)
  end.

Definition rm_pagefault (fuel lfuel : nat) (rm va fault_type : Z) (s : vm) : outcome (Z * vm) :=
  let pd := kernel_pd s in
  if va <? pd_begin pd then Done (VM_SEGFAULT, s)
  else
    let offset := pd_begin pd in
    let ptr := va -u offset in
    let size := pd_end pd -u offset in
    let size := size +u (SYSARCH_PAGESIZE - 1) in
    let size := ROUND_DOWN size in
    if size <=? ptr then Done (VM_SEGFAULT, s)
    else pagefault_loop fuel lfuel (RmObj rm) RMO_REGION_MAPPER (Page_fault offset ptr size fault_type) s.

(** ** kmem_util2.c *)

Definition VM_PROT_KMEM : Z := Z.lor VM_PROT_READ VM_PROT_WRITE.

(** The second loop of [grow_critical], [n] turns left: [sr] and the state. *)
Fixpoint grow_loop (n : nat) (d i va sr : Z) (s : vm) : outcome (Z * vm) :=
  match n with
  | O => Done (sr, s)
  | S n =>
      ds ← deref (dss s !! d);
      if i =? ds_n_pages ds then Done (sr, s)
      else
        '(res, p) ← vm_phys_alloc (phys s);
        let s := with_phys p s in
        match res with
        | None => Done (sr, s)
        | Some curpage =>
            _ ← deref (ds_pages ds !! Z.to_nat i);
            let s := with_ds d (Dataspace (ds_lock ds) (ds_n_pages ds) (ds_refc ds) (ds_size ds)
                                  (<[Z.to_nat i := curpage]> (ds_pages ds))) s in
            '(_, s) ← pd_enter va curpage VM_PROT_KMEM 0 s;
            grow_loop n d (i + 1) (va +u SYSARCH_PAGESIZE) (sr +u SYSARCH_PAGESIZE) s
        end
  end.

(** The result is the status with [*addr] (when it is written) and [*size]. *)
Definition grow_critical (size n : Z) (s : vm) : outcome (Z * option Z * Z * vm) :=
  let list := Some (inl rm_get_kernel) in
  first ← get_next list (nodes s);
  if decide (first = list) then Done (0, None, size, s)
  else
    a ← deref first;
    match a with
    | inl _ => Fault
    | inr o =>
        rmo ← deref (rmos s !! o);
        match rmo_type rmo, rmo_object rmo with
        | RMO_DATASPACE, DsObj d =>
            ds ← deref (dss s !! d);
            let i := match find_index (fun e => e =? 0) (take (Z.to_nat (ds_n_pages ds)) (ds_pages ds)) with
                     | Some i => Z.of_nat i
                     | None => ds_n_pages ds
                     end in
            if ds_n_pages ds <=? i then Done (0, None, size, s)
            else
              let va := pd_begin (kernel_pd s) +u rmo_offset rmo in
              let va := va +u (i *u SYSARCH_PAGESIZE) in
              '(sr, s) ← grow_loop (Z.to_nat n) d i va 0 s;
              Done (if sr =? 0 then 0 else 1, Some va, sr, s)
        | RMO_DATASPACE, _ => Fault
        | _, _ => Done (0, None, size, s)
        end
    end.

Definition vm_alloc_critical (size : Z) (s : vm) : outcome (Z * option Z * Z * vm) :=
  let sz := ROUND_DOWN (size +u (SYSARCH_PAGESIZE - 1)) in
  let s := print "Critical: %d" (i32 (Z.shiftr sz 12)) s in
  grow_critical size (DIV_PAGESIZE sz) s.

Definition vm_kalloc_ll (size : Z) (s : vm) : outcome (Z * option Z * Z * vm) :=
  let sz := ROUND_DOWN (size +u (SYSARCH_PAGESIZE - 1)) in
  let s := print "LL: %d" (i32 (Z.shiftr sz 12)) s in
  grow_critical size (DIV_PAGESIZE sz) s.

(** ** vm_init.c *)

(** [vm_init] after [zone_bootstrap], which belongs to the zone allocator. *)
Definition vm_init_layers (fuel : nat) (page_dir : Z) (s : vm) : outcome vm :=
  '(pm, p, m) ← pmap_init page_dir (phys s) (mm s);
  let s := with_phys p (with_mm m s) in
  let s := pd_init pm s in
  rm_init fuel pm s.

Definition vm_refill (s : vm) : vm := s.
