(* ===== verification/VmProps.v ===== *)
(** * Correctness of the virtual memory layer

    Region mappers as sorted lists of disjoint regions ([mapper], [laid]),
    first-fit insertion, lookup, the page fault path and the growth of the
    kernel heap. *)

From S2P Require Import Prelude Ring Spinlock PhysAlloc Mmu MmuProps Vm.

(** ** Regions *)

Notation region := (Z * region_mapper_object)%type.

(** The children of the mapper [r], in list order. *)
Definition mapper (s : vm) (r : Z) (l : list region) : Prop :=
  ring (nodes s) (inl r) ((fun e : region => inr e.1) <$> l) /\
  Forall (fun e : region => rmos s !! e.1 = Some e.2) l.

(** The regions lie in order, without overlap, between [base] and [lim]. *)
Fixpoint laid (base : Z) (l : list region) (lim : Z) : Prop :=
  match l with
  | [] => base <= lim
  | e :: l => base <= rmo_offset e.2 /\ 0 <= rmo_size e.2 /\ laid (rmo_offset e.2 + rmo_size e.2) l lim
  end.

#[export] Instance laid_dec base l lim : Decision (laid base l lim).
Proof. revert base. induction l; intros base; simpl; apply _. Defined.

Lemma laid_app base l1 l2 lim :
  laid base (l1 ++ l2) lim <-> exists m, laid base l1 m /\ laid m l2 lim.
Proof.
  revert base. induction l1 as [|e l1 IH]; intros base; simpl.
  - split; [exists base; split; [lia|done]|]. intros (m&Hm&Hl). destruct l2 as [|e l2]; simpl in *; [lia|].
    destruct Hl as (?&?&?). split_and!; [lia|done|done].
  - rewrite IH. naive_solver.
Qed.

Lemma laid_le base l lim : laid base l lim -> base <= lim.
Proof.
  revert base. induction l as [|e l IH]; intros base; simpl; [done|].
  intros (?&?&H%IH). lia.
Qed.

Lemma laid_in base l lim e : laid base l lim -> e ∈ l ->
  base <= rmo_offset e.2 /\ 0 <= rmo_size e.2 /\ rmo_offset e.2 + rmo_size e.2 <= lim.
Proof.
  intros Hl (l1&l2&->)%list_elem_of_split. apply laid_app in Hl as (m&H1%laid_le&(?&?&H2%laid_le)). lia.
Qed.

(** First fit: the regions before, the place, the regions behind. *)
Fixpoint fit (base size : Z) (l : list region) : list region * Z * list region :=
  match l with
  | [] => ([], base, [])
  | e :: l' =>
      if rmo_offset e.2 <? base + size
      then let '(l1, b, l2) := fit (rmo_offset e.2 + rmo_size e.2) size l' in (e :: l1, b, l2)
      else ([], base, l)
  end.

Lemma fit_ok base size l lim l1 b l2 :
  laid base l lim -> fit base size l = (l1, b, l2) ->
  l = l1 ++ l2 /\ laid base l1 b /\ base <= b <= lim /\
  match l2 with [] => True | e :: _ => b + size <= rmo_offset e.2 end.
Proof.
  revert base l1 b l2. induction l as [|e l IH]; intros base l1 b l2; simpl.
  - intros Hl [= <- <- <-]. split_and!; try done; simpl; lia.
  - intros (Hb&Hs&Hl). pose proof (laid_le _ _ _ Hl). destruct (Z.ltb_spec (rmo_offset e.2) (base + size)).
    + destruct (fit _ _ l) as [[l1' b'] l2'] eqn:E. intros [= <- <- <-].
      destruct (IH _ _ _ _ Hl E) as (->&H1&?&H2). split_and!; [done|simpl; done|lia|lia|done].
    + intros [= <- <- <-]. split_and!; try done; simpl; lia.
Qed.

(** The list stays laid out with the new region at the place found. *)
Lemma fit_laid base size l lim l1 b l2 o n :
  laid base l lim -> fit base size l = (l1, b, l2) -> 0 <= size -> (l2 = [] -> b + size <= lim) ->
  rmo_offset n = b -> rmo_size n = size -> laid base (l1 ++ (o, n) :: l2) lim.
Proof.
  intros Hl E Hs Hlast Ho Hsz. destruct (fit_ok _ _ _ _ _ _ _ Hl E) as (->&H1&_&H2).
  apply laid_app in Hl as (m&_&Hl2). apply laid_app. exists b. split; [done|]. simpl. rewrite Ho, Hsz.
  split_and!; [lia|done|]. destruct l2 as [|e l2]; simpl in *; [by apply Hlast|].
  destruct Hl2 as (_&?&?). done.
Qed.

(** ** Walking the children *)

Lemma ring_next_elem (h : links) (hd : node) l x k :
  ring h hd (l ++ x :: k) -> get_next (Some x) h = Done (Some (List.hd hd k)).
Proof.
  intros Hr%ring_rotate. apply get_next_of. rewrite (ring_next _ _ _ Hr). f_equal. by destruct k.
Qed.

(** The node a traversal is at when the regions [l] are still to come. *)
Definition at_region (r : Z) (l : list region) : option node :=
  Some (List.hd (inl r) ((fun e : region => inr e.1) <$> l)).

Lemma mapper_first s r l : mapper s r l -> get_next (Some (inl r)) (nodes s) = Done (at_region r l).
Proof. intros [Hr _]. apply get_next_of. by rewrite (ring_next _ _ _ Hr). Qed.

Lemma mapper_step s r pre e l :
  mapper s r (pre ++ e :: l) ->
  get_next (at_region r (e :: l)) (nodes s) = Done (at_region r l) /\ rmos s !! e.1 = Some e.2.
Proof.
  intros [Hr Hf]. rewrite fmap_app, fmap_cons in Hr. split; [by eapply ring_next_elem|].
  apply Forall_app in Hf as [_ Hf]. by apply Forall_inv in Hf.
Qed.

Lemma rm_insert_from_ok (fuel : nat) s r pre l base size lim l1 b l2 :
  mapper s r (pre ++ l) -> laid base l lim -> 0 <= base -> 0 <= size -> lim + size < 2 ^ 32 ->
  fit base size l = (l1, b, l2) -> (length l <= fuel)%nat ->
  rm_insert_from fuel (Some (inl r)) (at_region r l) base size s =
    Done (match l2 with [] => None | e :: _ => Some e.1 end, b).
Proof.
  revert pre l base l1 b l2. induction fuel as [|fuel IH]; intros pre [|e l] base l1 b l2 Hm Hl Hb Hs Hov E Hf;
    try (simpl in Hf; lia).
  1,2: simpl in E; injection E as <- <- <-; simpl; by rewrite decide_True.
  pose proof (mapper_step _ _ _ _ _ Hm) as [Hnext Ho].
  cbn [rm_insert_from]. rewrite decide_False by done. cbn [at_region List.hd fmap list_fmap deref mbind outcome_bind].
  rewrite Ho. cbn [deref mbind outcome_bind]. simpl in E, Hl. destruct Hl as (Hbo&Hsz&Hl).
  pose proof (laid_le _ _ _ Hl). rewrite u32_add_nowrap by lia.
  destruct (Z.ltb_spec (rmo_offset e.2) (base + size)).
  - change (Some (inr e.1)) with (at_region r (e :: l)). rewrite Hnext. cbn [mbind outcome_bind].
    rewrite u32_add_nowrap by lia. destruct (fit _ _ l) as [[l1' b'] l2'] eqn:E'. injection E as <- <- <-.
    apply (IH (pre ++ [e]) l _ l1'); [by rewrite <-app_assoc|done|lia|done|done|done|simpl in Hf; lia].
  - injection E as <- <- <-. done.
Qed.

(** Changing the object [o], which is not a child of [r]. *)
Lemma mapper_with_rmo s r l o n : mapper s r l -> o ∉ l.*1 -> mapper (with_rmo o n s) r l.
Proof.
  intros [Hr Hf] Ho. split; [done|]. apply Forall_forall. intros e He. cbn [rmos with_rmo].
  rewrite lookup_insert_ne.
  - rewrite Forall_forall in Hf. by apply Hf.
  - intros ->. apply Ho. by apply list_elem_of_fmap_2.
Qed.

Definition with_offset (b : Z) (n : region_mapper_object) : region_mapper_object :=
  Rmo b (rmo_size n) (rmo_object n) (rmo_type n) (rmo_static n).

(** C14: [rm_insert] is first fit: on a mapper whose regions lie in order
    without overlap it puts the object at the lowest offset where it fits,
    between the right neighbours, and the regions again lie in order, without
    overlap, within the mapper; it refuses exactly when no gap is large enough
    and then changes nothing.  This is so for an object whose size and that of the
    mapper add up to less than 2^32; beyond that the end of a gap wraps around and
    an object larger than the mapper can be accepted ([rm_insert_wraps]). *)
Theorem rm_insert_correct (fuel : nat) s r rm l o n l1 b l2 :
  mapper s r l -> rms s !! r = Some rm -> laid 0 l (rm_size rm) ->
  rmos s !! o = Some n -> o ∉ l.*1 -> is_Some (nodes s !! inr o) ->
  0 <= rmo_size n -> rm_size rm + rmo_size n < 2 ^ 32 -> (length l <= fuel)%nat ->
  fit 0 (rmo_size n) l = (l1, b, l2) ->
  if bool_decide (l2 = [] /\ rm_size rm < b + rmo_size n)
  then rm_insert fuel r o s = Done (false, s)
  else exists s', rm_insert fuel r o s = Done (true, s') /\
    mapper s' r (l1 ++ (o, with_offset b n) :: l2) /\
    laid 0 (l1 ++ (o, with_offset b n) :: l2) (rm_size rm) /\
    rms s' = rms s /\ dss s' = dss s /\ (forall o', o' <> o -> rmos s' !! o' = rmos s !! o').
Proof.
  intros Hm Hrm Hl Ho Hfresh Hnode Hs Hov Hf E.
  pose proof (fit_ok _ _ _ _ _ _ _ Hl E) as (Hsplit&Hl1&Hb&_).
  unfold rm_insert. rewrite Ho. cbn [deref mbind outcome_bind]. rewrite (mapper_first _ _ _ Hm).
  cbn [mbind outcome_bind].
  rewrite (rm_insert_from_ok fuel s r [] l 0 _ _ l1 b l2 Hm Hl) by (done || lia). cbn [mbind outcome_bind].
  assert (Hm' : mapper (with_rmo o (with_offset b n) s) r (l1 ++ l2)) by (rewrite <-Hsplit; by apply mapper_with_rmo).
  assert (Hno : (inr o : node) ∉ inl r :: ((fun e : region => inr e.1) <$> (l1 ++ l2) : list node)).
  { rewrite <-Hsplit. intros [?|(e&[= ->]&He)%list_elem_of_fmap]%elem_of_cons; [done|].
    apply Hfresh. by apply list_elem_of_fmap_2. }
  assert (Hfin : forall h', ring h' (inl r) ((fun e : region => inr e.1) <$> (l1 ++ (o, with_offset b n) :: l2)) ->
    mapper (with_nodes h' (with_rmo o (with_offset b n) s)) r (l1 ++ (o, with_offset b n) :: l2)).
  { intros h' Hr'. split; [exact Hr'|]. destruct Hm' as [_ Hf']. apply Forall_app in Hf' as [Hf1 Hf2].
    apply Forall_app. split; [done|]. constructor; [|done]. cbn. apply lookup_insert_eq. }
  destruct Hm' as [Hr' _]. rewrite fmap_app in Hr', Hno. destruct l2 as [|e l2].
  - rewrite Hrm. cbn [deref mbind outcome_bind]. rewrite u32_add_nowrap by lia.
    destruct (Z.ltb_spec (rm_size rm) (b + rmo_size n)).
    { rewrite bool_decide_true by done. done. }
    rewrite bool_decide_false by (intros [_ ?]; lia). rewrite app_nil_r in Hr', Hno.
    destruct (list_push_tail_ok (nodes s) (inl r) _ (inr o) Hr' Hno Hnode) as (h'&Eh&Hr2&_).
    cbn [with_rmo nodes]. rewrite Eh. cbn [mbind outcome_bind]. eexists. split; [done|].
    split; [apply Hfin; by rewrite fmap_app|]. split; [eapply fit_laid; (done || lia)|].
    split_and!; [done|done|]. intros o' Ho'. by apply lookup_insert_ne.
  - rewrite bool_decide_false by (by intros [? _]). rewrite fmap_cons in Hr', Hno.
    destruct (list_add_before_ok (nodes s) (inl r) _ (inr e.1) _ (inr o) Hr' Hno Hnode) as (h'&Eh&Hr2&_).
    cbn [with_rmo nodes]. rewrite Eh. cbn [mbind outcome_bind]. eexists. split; [done|].
    split; [apply Hfin; by rewrite fmap_app|]. split; [eapply fit_laid; (done || lia)|].
    split_and!; [done|done|]. intros o' Ho'. by apply lookup_insert_ne.
Qed.

(** ** Lookup *)

(** The region an address belongs to. *)
Definition covers (ptr : Z) (e : region) : bool :=
  (rmo_offset e.2 <=? ptr) && (ptr <? rmo_offset e.2 + rmo_size e.2).

Lemma covers_none base l lim ptr : laid base l lim -> ptr < base -> List.find (covers ptr) l = None.
Proof.
  revert base. induction l as [|e l IH]; intros base; simpl; [done|].
  intros (?&?&?) Hp. unfold covers. destruct (Z.leb_spec (rmo_offset e.2) ptr); [lia|]. cbn [andb].
  eapply IH; [done|lia].
Qed.

(** At most one region covers an address. *)
Lemma covers_one base l lim ptr o m :
  laid base l lim -> (o, m) ∈ l -> rmo_offset m <= ptr < rmo_offset m + rmo_size m ->
  List.find (covers ptr) l = Some (o, m).
Proof.
  intros Hl Hin Hc. apply list_elem_of_split in Hin as (l1&l2&->).
  apply laid_app in Hl as (mid&H1&(Hmo&_&_)). cbn [snd] in *.
  revert base H1. induction l1 as [|e l1 IH]; intros base; simpl.
  - intros _. unfold covers. cbn [snd].
    destruct (Z.leb_spec (rmo_offset m) ptr), (Z.ltb_spec ptr (rmo_offset m + rmo_size m)); (done || lia).
  - intros (?&?&H1). pose proof (laid_le _ _ _ H1). unfold covers at 1.
    destruct (Z.ltb_spec ptr (rmo_offset e.2 + rmo_size e.2)); [lia|].
    rewrite andb_false_r. by eapply IH.
Qed.

(** The new fault description inside the region found. *)
Definition descend (f : page_fault) (m : region_mapper_object) : page_fault :=
  Page_fault (pf_offset f +u rmo_offset m) (pf_ptr f - rmo_offset m)
    (Z.min (rmo_size m) (pf_size f - rmo_offset m)) (pf_type f).

Definition lookup_result (f : page_fault) (type : rmo_kind) (e : option region)
  : vmobj * page_fault * rmo_kind :=
  match e with
  | Some (_, m) => if decide (rmo_type m = RMO_UNDEFINED) then (NullObj, f, type)
                   else (rmo_object m, descend f m, rmo_type m)
  | None => (NullObj, f, type)
  end.

Lemma rm_ll_lookup_from_ok (fuel : nat) s r pre l base lim f type :
  mapper s r (pre ++ l) -> laid base l lim -> 0 <= base -> lim < 2 ^ 32 ->
  pf_ptr f <= pf_size f < 2 ^ 32 -> (length l <= fuel)%nat ->
  rm_ll_lookup_from fuel (Some (inl r)) (at_region r l) f type s =
    Done (lookup_result f type (List.find (covers (pf_ptr f)) l)).
Proof.
  revert pre l base. induction fuel as [|fuel IH]; intros pre [|e l] base Hm Hl Hb Hlim Hpf Hf;
    try (simpl in Hf; lia).
  1,2: simpl; by rewrite decide_True.
  pose proof (mapper_step _ _ _ _ _ Hm) as [Hnext Ho].
  cbn [rm_ll_lookup_from]. rewrite decide_False by done.
  cbn [at_region List.hd fmap list_fmap deref mbind outcome_bind]. rewrite Ho. cbn [deref mbind outcome_bind].
  simpl in Hl. destruct Hl as (Hbo&Hsz&Hl). pose proof (laid_le _ _ _ Hl).
  cbn [List.find]. unfold covers at 1. rewrite u32_add_nowrap by lia.
  destruct (Z.ltb_spec (pf_ptr f) (rmo_offset e.2)), (Z.leb_spec (rmo_offset e.2) (pf_ptr f)); try lia; cbn [andb].
  - by rewrite (covers_none _ _ _ _ Hl) by lia.
  - destruct (Z.ltb_spec (pf_ptr f) (rmo_offset e.2 + rmo_size e.2)).
    + destruct e as [o m]. cbn [snd lookup_result] in *. destruct (decide _); [done|].
      unfold descend. rewrite !u32_sub_nowrap by lia.
      do 4 f_equal. destruct (Z.ltb_spec (rmo_size m) (pf_size f - rmo_offset m)); lia.
    + change (Some (inr e.1)) with (at_region r (e :: l)). rewrite Hnext. cbn [mbind outcome_bind].
      apply (IH (pre ++ [e]) l (rmo_offset e.2 + rmo_size e.2));
        [by rewrite <-app_assoc|done|lia|done|done|simpl in Hf; lia].
Qed.

Lemma rm_ll_lookup_ok (fuel : nat) s r rm l f type :
  mapper s r l -> laid 0 l (rm_size rm) -> rm_size rm < 2 ^ 32 ->
  pf_ptr f <= pf_size f < 2 ^ 32 -> (length l <= fuel)%nat ->
  rm_ll_lookup fuel (Some r) f type s = Done (lookup_result f type (List.find (covers (pf_ptr f)) l)).
Proof.
  intros Hm Hl Hlim Hpf Hf. unfold rm_ll_lookup. cbn [deref mbind outcome_bind].
  rewrite (mapper_first _ _ _ Hm). cbn [mbind outcome_bind].
  by apply (rm_ll_lookup_from_ok fuel s r [] l 0 (rm_size rm)).
Qed.

(** [rm_ll_lookup] on a well-formed mapper returns the object of the
    region that covers the faulting address, with the fault re-based to that
    region and its size cut to the region; for an address in no region, or in
    one of undefined type, it returns null and leaves the fault and the type
    as they were. *)
Theorem rm_ll_lookup_correct (fuel : nat) s r rm l f type :
  mapper s r l -> laid 0 l (rm_size rm) -> rm_size rm < 2 ^ 32 ->
  pf_ptr f <= pf_size f < 2 ^ 32 -> (length l <= fuel)%nat ->
  (forall o m, (o, m) ∈ l -> rmo_offset m <= pf_ptr f < rmo_offset m + rmo_size m ->
     rmo_type m <> RMO_UNDEFINED ->
     rm_ll_lookup fuel (Some r) f type s = Done (rmo_object m, descend f m, rmo_type m)) /\
  ((forall o m, (o, m) ∈ l -> ~ rmo_offset m <= pf_ptr f < rmo_offset m + rmo_size m) ->
     rm_ll_lookup fuel (Some r) f type s = Done (NullObj, f, type)).
Proof.
  intros Hm Hl Hlim Hpf Hf. rewrite (rm_ll_lookup_ok fuel s r rm l f type Hm Hl Hlim Hpf Hf). split.
  - intros o m Hin Hc Hty. rewrite (covers_one _ _ _ _ o m Hl Hin Hc). unfold lookup_result. by rewrite decide_False.
  - intros Hno. assert (List.find (covers (pf_ptr f)) l = None) as ->; [|done].
    clear - Hno. induction l as [|[o m] l IH]; simpl; [done|].
    pose proof (Hno o m ltac:(set_solver)). unfold covers at 1. cbn [snd].
    destruct (Z.leb_spec (rmo_offset m) (pf_ptr f)), (Z.ltb_spec (pf_ptr f) (rmo_offset m + rmo_size m));
      try lia; cbn [andb]; apply IH; set_solver.
Qed.

(** ** Page faults *)

(** C40: the bounds and the missing error of [rm_pagefault]: a fault outside
    the protection domain is answered with [VM_SEGFAULT] and changes nothing;
    a fault inside the domain that no region covers is not answered at all:
    the failed lookup leaves the type at region mapper with a null object, and
    the next turn of the loop dereferences it. *)
Theorem rm_pagefault_bounds (fuel lfuel : nat) s r rm l va prot :
  mapper s r l -> laid 0 l (rm_size rm) -> rm_size rm < 2 ^ 32 -> (length l <= lfuel)%nat ->
  in_u32 va -> 0 <= pd_begin (kernel_pd s) -> pd_end (kernel_pd s) < 2 ^ 32 ->
  pd_begin (kernel_pd s) < pd_end (kernel_pd s) -> (2 <= fuel)%nat ->
  pd_end (kernel_pd s) - pd_begin (kernel_pd s) + 4095 < 2 ^ 32 ->
  let size := ROUND_DOWN (pd_end (kernel_pd s) - pd_begin (kernel_pd s) + 4095) in
  (va < pd_begin (kernel_pd s) \/ pd_begin (kernel_pd s) + size <= va ->
     rm_pagefault fuel lfuel r va prot s = Done (VM_SEGFAULT, s)) /\
  (pd_begin (kernel_pd s) <= va < pd_begin (kernel_pd s) + size ->
     (forall o m, (o, m) ∈ l ->
        ~ rmo_offset m <= va - pd_begin (kernel_pd s) < rmo_offset m + rmo_size m) ->
     rm_pagefault fuel lfuel r va prot s = Fault).
Proof.
  intros Hm Hl Hlim Hlf Hva Hb He Hbe Hf Hov size. unfold in_u32 in Hva. unfold rm_pagefault.
  assert (Hsz : ROUND_DOWN ((pd_end (kernel_pd s) -u pd_begin (kernel_pd s)) +u (SYSARCH_PAGESIZE - 1)) = size).
  { unfold size, SYSARCH_PAGESIZE. f_equal. rewrite u32_sub_nowrap, u32_add_nowrap; lia. }
  rewrite Hsz.
  assert (Hs2 : 0 <= size < 2 ^ 32).
  { unfold size, ROUND_DOWN, SYSARCH_PAGESIZE_SHIFT.
    destruct (PTE_ADDR_aligned (pd_end (kernel_pd s) - pd_begin (kernel_pd s) + 4095)) as (_&Hr&_);
      [split; lia|]. unfold PTE_ADDR in Hr. change (2 ^ 12 - 1) with 0xFFF. lia. }
  destruct (Z.ltb_spec va (pd_begin (kernel_pd s))).
  { split; [done|lia]. }
  rewrite (u32_sub_nowrap va) by lia. split.
  - intros Hout. destruct (Z.leb_spec size (va - pd_begin (kernel_pd s))); [done|lia].
  - intros Hin Hno. destruct (Z.leb_spec size (va - pd_begin (kernel_pd s))); [lia|].
    destruct fuel as [|[|fuel]]; [lia|lia|]. cbn [pagefault_loop rm_dispatch_pagefault as_rm].
    set (pf := Page_fault _ _ _ _).
    assert (List.find (covers (pf_ptr pf)) l = None) as Hnone.
    { clear - Hno. induction l as [|[o m] l IH]; simpl; [done|].
      pose proof (Hno o m ltac:(set_solver)). unfold covers at 1. cbn [snd].
      destruct (Z.leb_spec (rmo_offset m) (va - pd_begin (kernel_pd s))),
        (Z.ltb_spec (va - pd_begin (kernel_pd s)) (rmo_offset m + rmo_size m));
        try lia; cbn [andb]; apply IH; set_solver. }
    rewrite (rm_ll_lookup_ok lfuel s r rm l pf) by (done || (cbn; lia)). rewrite Hnone. done.
Qed.

(** ** Growth of the kernel heap *)

(** A virtual page whose page table exists. *)
Definition has_table (m : mmu) (va : Z) : Prop :=
  exists pde, kpd m !! Z.to_nat (PDX va) = Some pde /\ truthy (Z.land pde PTE_P) = true /\
    is_Some (ram m !! (PTE_ADDR pde + 4 * PTX va)).

(** The page tables are in order, and the locks are free. *)
Record grow_ok (s : vm) : Prop := {
  go_mmu : mmu_ok (mm s);
  go_win : window_free (mm s);
  go_dist : tables_distinct (mm s);
  go_pmap : pd_pmap (kernel_pd s) = PKernel;
  go_lock : pd_lock (kernel_pd s) = 0;
}.

Lemma pd_enter_ok va pa prot s :
  grow_ok s -> in_u32 va -> in_u32 pa -> has_table (mm s) va ->
  exists m', pd_enter va pa prot 0 s = Done (0, with_mm m' s) /\
    grow_ok (with_mm m' s) /\
    walk m' va = Some (PTE_ADDR pa + va mod 4096, truthy (Z.land prot VM_PROT_WRITE)) /\
    (forall va', in_u32 va' -> va' / 4096 <> va / 4096 -> walk m' va' = walk (mm s) va') /\
    (forall va', has_table (mm s) va' -> has_table m' va').
Proof.
  intros [Hok Hw Hd Hp Hl] Hva Hpa (pde&Hpde&HP&Hram). unfold pd_enter. rewrite Hl, Hp, kernlock_lock_free.
  cbn [mbind outcome_bind].
  destruct (proj1 (pmap_enter_walk va pa prot 0 (mm s) Hok Hw Hd Hva Hpa) pde Hpde HP Hram)
    as (m'&E&Hwalk&Hoth&Hk&Hkd).
  destruct (pmap_enter_ok va pa prot 0 (mm s) pde) as (m''&E'&(_&_&Hsl&Hr)); try done; [by eapply Hd|].
  rewrite E in E'. injection E' as <-. rewrite E. cbn [mbind outcome_bind].
  exists m'. split.
  { clear - Hl Hp. unfold kernlock_unlock, with_pd, with_mm. destruct s as [? ? ? ? ? ? [] ? ? ?].
    cbn in *. by subst. }
  split_and!; [|done|done|].
  - split; cbn [mm with_mm kernel_pd]; [split| |split|done|done].
    + rewrite Hk. apply Hok.
    + rewrite Hkd. apply Hok.
    + rewrite Hsl. apply Hok.
    + unfold window_free. by rewrite Hk.
    + rewrite Hkd. apply Hd.
    + rewrite Hkd. apply Hd.
  - intros va' (pde'&Hp1&Hp2&[w Hp3]). exists pde'. rewrite Hkd, Hr. split_and!; [done|done|].
    destruct (decide (PTE_ADDR pde' + 4 * PTX va' = PTE_ADDR pde + 4 * PTX va)) as [->|];
      [by rewrite lookup_insert_eq|rewrite lookup_insert_ne by done; by exists w].
Qed.

(** ** Page faults in a data space *)

(** The state outside the page tables stays. *)
Definition only_tables (s s' : vm) : Prop := s' = with_mm (mm s') s.

Lemma dataspace_map_from_ok (n : nat) : forall (i : nat) pages base prot s,
  grow_ok s -> (i + n <= length pages)%nat -> Forall in_u32 pages ->
  0 <= base -> base mod 4096 = 0 -> base + 4096 * n < 2 ^ 32 ->
  (forall k : nat, (k < n)%nat -> has_table (mm s) (base + 4096 * k)) ->
  exists s', dataspace_map_from n i pages base prot s = Done s' /\ grow_ok s' /\ only_tables s s' /\
    (forall (k : nat) a, (k < n)%nat -> pages !! (i + k)%nat = Some a ->
       walk (mm s') (base + 4096 * k) = Some (PTE_ADDR a, truthy (Z.land prot VM_PROT_WRITE))) /\
    (forall va', in_u32 va' -> va' < base \/ base + 4096 * n <= va' -> walk (mm s') va' = walk (mm s) va').
Proof.
  induction n as [|n IH]; intros i pages base prot s Hgo Hlen Hp Hb Hal Hov Htab; cbn [dataspace_map_from].
  { exists s. split_and!; try done; [by destruct s|intros k a Hk; lia]. }
  destruct (lookup_lt_is_Some_2 pages i) as [a Ha]; [lia|]. rewrite Ha. cbn [deref mbind outcome_bind].
  destruct (pd_enter_ok base a prot s Hgo) as (m'&E&Hgo'&Hwalk&Hoth&Htab').
  { unfold in_u32. lia. } { by apply (Forall_lookup_1 _ _ _ _ Hp) in Ha. }
  { specialize (Htab 0%nat ltac:(lia)). by rewrite Z.mul_0_r, Z.add_0_r in Htab. }
  rewrite E. cbn [mbind outcome_bind]. unfold SYSARCH_PAGESIZE. rewrite u32_add_nowrap by lia.
  assert (Hdiv : (base + 4096) / 4096 = base / 4096 + 1)
    by (replace (base + 4096) with (base + 1 * 4096) by lia; apply Z.div_add; lia).
  destruct (IH (S i) pages (base + 4096) prot (with_mm m' s)) as (s'&E'&Hgo2&Ho&Hw&Hk);
    [done|lia|done|lia|by rewrite Zplus_mod, Hal|lia| |].
  { intros k Hk. cbn [mm with_mm]. apply Htab'. replace (base + 4096 + 4096 * k) with (base + 4096 * S k) by lia.
    apply Htab. lia. }
  exists s'. split; [exact E'|]. split_and!; [done| | |].
  - unfold only_tables in *. rewrite Ho. done.
  - intros [|k] b Hkn Hkb.
    + rewrite Nat.add_0_r, Ha in Hkb. injection Hkb as <-. rewrite Z.mul_0_r, Z.add_0_r, Hk; [|unfold in_u32; lia|lia].
      cbn [mm with_mm]. rewrite Hwalk, Hal. by rewrite Z.add_0_r.
    + replace (base + 4096 * S k) with (base + 4096 + 4096 * k) by lia. apply Hw; [lia|].
      by replace (S i + k)%nat with (i + S k)%nat by lia.
  - intros va' Hva' Hout. rewrite Hk by (done || lia). cbn [mm with_mm]. apply Hoth; [done|].
    pose proof (Z.div_mod base 4096 ltac:(lia)). pose proof (Z.div_mod va' 4096 ltac:(lia)).
    pose proof (Z.mod_pos_bound va' 4096 ltac:(lia)). lia.
Qed.

(** C32: a page fault in a data space: a fault inside a region of the mapper whose
    object is a data space is answered with [VM_OK]; afterwards the processor
    translates every page of the data space, not only the faulting one, to the
    page the data space records, writable exactly when the fault was a write, and
    every address outside the region as before.  An entry that is still free is 0
    and is entered like any other: its page is mapped to physical page 0. *)
Theorem rm_pagefault_maps (fuel lfuel : nat) s r rm l o m d ds va prot :
  grow_ok s -> mapper s r l -> laid 0 l (rm_size rm) -> rm_size rm < 2 ^ 32 ->
  (length l <= lfuel)%nat -> (2 <= fuel)%nat ->
  let beg := pd_begin (kernel_pd s) in
  let size := pd_end (kernel_pd s) - beg + 1 in
  in_u32 va -> 0 <= beg -> beg mod 4096 = 0 -> 0 < size -> beg + size <= 2 ^ 32 - 4096 -> size mod 4096 = 0 ->
  (o, m) ∈ l -> rmo_type m = RMO_DATASPACE -> rmo_object m = DsObj d -> dss s !! d = Some ds ->
  0 <= rmo_offset m -> rmo_offset m mod 4096 = 0 -> rmo_offset m + rmo_size m <= size ->
  rmo_offset m <= va - beg < rmo_offset m + rmo_size m ->
  ds_size ds = rmo_size m -> rmo_size m = 4096 * ds_n_pages ds ->
  ds_n_pages ds <= length (ds_pages ds) -> Forall in_u32 (ds_pages ds) ->
  let base := beg + rmo_offset m in
  (forall k : nat, k < ds_n_pages ds -> has_table (mm s) (base + 4096 * k)) ->
  exists s', rm_pagefault fuel lfuel r va prot s = Done (VM_OK, s') /\ grow_ok s' /\ only_tables s s' /\
    (forall (k : nat) a, k < ds_n_pages ds -> ds_pages ds !! k = Some a ->
       walk (mm s') (base + 4096 * k) = Some (PTE_ADDR a, truthy (Z.land prot VM_PROT_WRITE))) /\
    (forall va', in_u32 va' -> va' < base \/ base + rmo_size m <= va' -> walk (mm s') va' = walk (mm s) va').
Proof.
  intros Hgo Hm Hl Hlim Hlf Hf beg size Hva Hb Hbal Hs Hov Hsal Hin Hty Hobj Hds Ho Hoal Hfit Hc Hdsz Hsz Hlen Hp base Htab.
  unfold in_u32 in Hva. unfold rm_pagefault. fold beg. destruct (Z.ltb_spec va beg); [lia|].
  assert (Hround : ROUND_DOWN ((pd_end (kernel_pd s) -u beg) +u (SYSARCH_PAGESIZE - 1)) = size).
  { unfold SYSARCH_PAGESIZE, ROUND_DOWN, SYSARCH_PAGESIZE_SHIFT. rewrite u32_sub_nowrap, u32_add_nowrap by lia.
    rewrite (land_not_mask _ 12) by (unfold in_u32; lia). change (2 ^ 12) with 4096.
    replace (pd_end (kernel_pd s) - beg + (4096 - 1)) with (size - 1 + 4095) by lia.
    rewrite <-(Z.mod_unique (size - 1 + 4095) 4096 (size / 4096) 4094) by (pose proof (Z.div_mod size 4096); lia). lia. }
  cbv zeta. rewrite Hround, (u32_sub_nowrap va) by lia. destruct (Z.leb_spec size (va - beg)); [lia|].
  destruct fuel as [|[|fuel]]; [lia|lia|]. cbn [pagefault_loop rm_dispatch_pagefault as_rm].
  set (pf := Page_fault beg (va - beg) size prot).
  rewrite (rm_ll_lookup_ok lfuel s r rm l pf) by (done || (cbn; lia)).
  change (pf_ptr pf) with (va - beg). rewrite (covers_one _ _ _ _ o m Hl Hin Hc).
  unfold lookup_result. rewrite decide_False by (by rewrite Hty). cbn [mbind outcome_bind]. rewrite Hty, Hobj.
  change (VM_AGAIN =? VM_AGAIN) with true. cbn [mbind outcome_bind rm_dispatch_pagefault].
  unfold dataspace_map. rewrite Hds. cbn [deref mbind outcome_bind pf descend pf_offset pf_size pf_type pf_ptr].
  rewrite u32_add_nowrap by lia. fold base. rewrite Z.min_l by lia. rewrite Hdsz, Z.ltb_irrefl.
  assert (Hn : DIV_PAGESIZE (rmo_size m) = ds_n_pages ds).
  { unfold DIV_PAGESIZE, SYSARCH_PAGESIZE_SHIFT. rewrite Z.shiftr_div_pow2, Hsz by lia. change (2 ^ 12) with 4096.
    rewrite Z.mul_comm. by apply Z.div_mul. }
  rewrite Hn, Z.ltb_irrefl.
  destruct (dataspace_map_from_ok (Z.to_nat (ds_n_pages ds)) 0 (ds_pages ds) base prot s)
    as (s'&E&Hgo'&Honly&Hw&Hk); [done|lia|done|lia|unfold base; by rewrite Zplus_mod, Hbal, Hoal|lia|intros k Hk; apply Htab; lia|].
  rewrite E. cbn [mbind outcome_bind]. exists s'. split; [done|]. split_and!; [done|done| |].
  - intros k a Hkn Hka. apply Hw; [lia|done].
  - intros va' Hva' Hout. apply Hk; [done|]. lia.
Qed.

(** ** The pages of the heap *)

Definition set_pages (d : Z) (ds : dataspace) (l : list Z) (s : vm) : vm :=
  with_ds d (Dataspace (ds_lock ds) (ds_n_pages ds) (ds_refc ds) (ds_size ds) l) s.

(** What the growth of the heap does not change; page tables stay. *)
Definition grow_keeps (s s' : vm) : Prop :=
  nodes s' = nodes s /\ rmos s' = rmos s /\ kernel_pd s' = kernel_pd s /\
  forall va, has_table (mm s) va -> has_table (mm s') va.

(** The pages [pages] go into the entries from [i] on and are mapped from [va]
    on. *)
Lemma grow_loop_ok pages s d ds i va sr ms rest :
  grow_ok s -> dss s !! d = Some ds -> phys_rep (phys s) ms -> pmb_lock (phys s) = 0 ->
  free_pages (phys s) ms = pages ++ rest ->
  0 <= i -> i + length pages <= ds_n_pages ds -> ds_n_pages ds <= length (ds_pages ds) ->
  0 <= va -> va mod 4096 = 0 -> va + 4096 * length pages < 2 ^ 32 -> 0 <= sr -> sr + 4096 * length pages < 2 ^ 32 ->
  Forall (fun a => in_u32 a /\ a mod 4096 = 0) pages ->
  (forall k : nat, (k < length pages)%nat -> has_table (mm s) (va + 4096 * k)) ->
  exists s', grow_loop (length pages) d i va sr s = Done (sr + 4096 * length pages, s') /\
    grow_ok s' /\ phys_rep (phys s') ms /\ pmb_lock (phys s') = 0 /\ free_pages (phys s') ms = rest /\
    (exists ds', dss s' !! d = Some ds' /\ ds_n_pages ds' = ds_n_pages ds /\
       length (ds_pages ds') = length (ds_pages ds) /\
       (forall (k : nat) a, pages !! k = Some a -> ds_pages ds' !! (Z.to_nat i + k)%nat = Some a) /\
       (forall k, (k < Z.to_nat i)%nat -> ds_pages ds' !! k = ds_pages ds !! k) /\
       (forall k, (Z.to_nat i + length pages <= k)%nat -> ds_pages ds' !! k = ds_pages ds !! k)) /\
    (forall (k : nat) a, pages !! k = Some a -> walk (mm s') (va + 4096 * k) = Some (a, true)) /\
    (forall va', in_u32 va' -> va' / 4096 < va / 4096 -> walk (mm s') va' = walk (mm s) va') /\
    grow_keeps s s' /\ printed s' = printed s.
Proof.
  revert s ds i va sr. induction pages as [|a pages IH];
    intros s ds i va sr Hgo Hds Hrep Hlk Hfree Hi Hin Hlen Hva Hal Hve Hsr Hse Hall Htab; cbn [length grow_loop].
  { exists s. rewrite Z.mul_0_r, Z.add_0_r. split_and!; try done. by exists ds. }
  cbn [length] in Hin, Hve, Hse. apply Forall_cons in Hall as [[Ha Haa] Hall].
  rewrite Hds. cbn [deref mbind outcome_bind]. destruct (Z.eqb_spec i (ds_n_pages ds)); [lia|].
  pose proof (vm_phys_alloc_ok _ _ Hrep Hlk) as Halloc. rewrite Hfree in Halloc. cbn [app] in Halloc.
  destruct Halloc as (p1&->&Hrep1&Hlk1&Hfree1). cbn [mbind outcome_bind].
  destruct (lookup_lt_is_Some_2 (ds_pages ds) (Z.to_nat i)) as [w Hw]; [lia|]. rewrite Hw. cbn [deref mbind outcome_bind].
  set (s1 := with_ds d _ (with_phys p1 s)).
  destruct (pd_enter_ok va a VM_PROT_KMEM s1) as (m'&E&Hgo'&Hwalk&Hoth&Htab').
  { destruct Hgo. by split. } { split; lia. } { done. }
  { specialize (Htab 0%nat ltac:(simpl; lia)). by rewrite Z.mul_0_r, Z.add_0_r in Htab. }
  change (truthy (Z.land VM_PROT_KMEM VM_PROT_WRITE)) with true in Hwalk.
  rewrite E. cbn [mbind outcome_bind]. unfold SYSARCH_PAGESIZE.
  rewrite !u32_add_nowrap by lia.
  destruct (IH (with_mm m' s1) (Dataspace (ds_lock ds) (ds_n_pages ds) (ds_refc ds) (ds_size ds)
      (<[Z.to_nat i := a]> (ds_pages ds))) (i + 1) (va + 4096) (sr + 4096))
    as (s'&E'&Hgo2&Hrep2&Hlk2&Hfree2&(ds'&Hds'&Hn'&Hl'&Hnew&Hold&Habove)&Hwalks&Hbelow&(Hk1&Hk2&Hk3&Hk4)&Hpr);
    [done|cbn; apply lookup_insert_eq|done|done|done|lia|cbn; lia|cbn; rewrite length_insert; lia|lia| |lia|lia|lia|done| |].
  { rewrite Zplus_mod, Hal. done. }
  { intros k Hk. cbn [mm with_mm]. apply Htab'. replace (va + 4096 + 4096 * k) with (va + 4096 * S k) by lia.
    apply Htab. simpl. lia. }
  exists s'. replace (sr + 4096 * S (length pages)) with (sr + 4096 + 4096 * length pages) by lia.
  split; [exact E'|]. split_and!; [done|done|done|done|..].
  - exists ds'. split_and!; [done|done|by rewrite Hl'; cbn; rewrite length_insert|..].
    + intros [|k] b Hb; cbn in Hb.
      * injection Hb as <-. rewrite Nat.add_0_r, Hold by lia. cbn. apply list_lookup_insert_eq. lia.
      * replace (Z.to_nat i + S k)%nat with (Z.to_nat (i + 1) + k)%nat by lia. by apply Hnew.
    + intros k Hk. rewrite Hold by lia. cbn. apply list_lookup_insert_ne. lia.
    + intros k Hk. rewrite Habove by lia. cbn. apply list_lookup_insert_ne. lia.
  - intros [|k] b Hb; cbn in Hb.
    + injection Hb as <-. rewrite Z.mul_0_r, Z.add_0_r, Hbelow.
      * cbn [mm with_mm]. rewrite Hwalk, Hal, Z.add_0_r, PTE_ADDR_eq by done. do 2 f_equal. lia.
      * split; lia.
      * replace (va + 4096) with (va + 1 * 4096) by lia. rewrite Z.div_add by lia. lia.
    + replace (va + 4096 * S k) with (va + 4096 + 4096 * k) by lia. by apply Hwalks.
  - intros va' Hva' Hlt. rewrite Hbelow; [cbn [mm with_mm]; apply Hoth; [done|lia]|done|].
    replace (va + 4096) with (va + 1 * 4096) by lia. rewrite Z.div_add by lia. lia.
  - split_and!; [done..|]. intros va' Hv. apply Hk4. cbn [mm with_mm]. by apply Htab'.
  - done.
Qed.

Lemma round_up_pages x : 0 <= x < 2 ^ 32 - 4095 ->
  DIV_PAGESIZE (ROUND_DOWN (x +u (SYSARCH_PAGESIZE - 1))) = (x + 4095) / 4096.
Proof.
  intros Hx. unfold SYSARCH_PAGESIZE, DIV_PAGESIZE, ROUND_DOWN, SYSARCH_PAGESIZE_SHIFT.
  rewrite u32_add_nowrap by lia. change (4096 - 1) with 4095.
  rewrite (land_not_mask (x + 4095) 12) by (unfold in_u32; lia).
  rewrite Z.shiftr_div_pow2 by lia. change (2 ^ 12) with 4096.
  pose proof (Z.div_mod (x + 4095) 4096 ltac:(lia)).
  replace (x + 4095 - (x + 4095) mod 4096) with ((x + 4095) / 4096 * 4096) by lia. by apply Z.div_mul.
Qed.

Lemma vm_kalloc_ll_ok s o rmo l d ds (i : nat) size pages rest ms :
  grow_ok s -> mapper s kernel_rm ((o, rmo) :: l) ->
  rmo_type rmo = RMO_DATASPACE -> rmo_object rmo = DsObj d -> dss s !! d = Some ds ->
  find_index (fun e => e =? 0) (take (Z.to_nat (ds_n_pages ds)) (ds_pages ds)) = Some i ->
  ds_n_pages ds <= length (ds_pages ds) ->
  phys_rep (phys s) ms -> pmb_lock (phys s) = 0 -> free_pages (phys s) ms = pages ++ rest ->
  0 < size < 2 ^ 31 -> Z.of_nat (length pages) = (size + 4095) / 4096 ->
  i + length pages <= ds_n_pages ds ->
  0 <= pd_begin (kernel_pd s) -> 0 <= rmo_offset rmo ->
  (pd_begin (kernel_pd s) + rmo_offset rmo) mod 4096 = 0 ->
  pd_begin (kernel_pd s) + rmo_offset rmo + 4096 * ds_n_pages ds < 2 ^ 32 ->
  Forall (fun a => in_u32 a /\ a mod 4096 = 0) pages ->
  let va := pd_begin (kernel_pd s) + rmo_offset rmo + 4096 * i in
  (forall k : nat, (k < length pages)%nat -> has_table (mm s) (va + 4096 * k)) ->
  exists s' ds', vm_kalloc_ll size s = Done (1, Some va, 4096 * length pages, s') /\
    (grow_ok s' /\ phys_rep (phys s') ms /\ pmb_lock (phys s') = 0 /\ free_pages (phys s') ms = rest) /\
    (dss s' !! d = Some ds' /\ ds_n_pages ds' = ds_n_pages ds /\ length (ds_pages ds') = length (ds_pages ds)) /\
    (forall (k : nat) a, pages !! k = Some a -> ds_pages ds' !! (i + k)%nat = Some a) /\
    (forall k, (k < i \/ i + length pages <= k)%nat -> ds_pages ds' !! k = ds_pages ds !! k) /\
    (forall (k : nat) a, pages !! k = Some a -> walk (mm s') (va + 4096 * k) = Some (a, true)) /\
    (forall va', in_u32 va' -> va' / 4096 < va / 4096 -> walk (mm s') va' = walk (mm s) va') /\
    grow_keeps s s' /\ printed s' = printed s ++ [("LL: %d", Z.of_nat (length pages))].
Proof.
  intros Hgo Hm Hty Hobj Hds Hfi Hlen Hrep Hlk Hfree Hsize Hn Hin Hb Ho Hal Hov Hall va Htab.
  assert (Hpl : Z.of_nat (length pages) < 2 ^ 20).
  { rewrite Hn. apply Z.div_lt_upper_bound; lia. }
  assert (Hsh : i32 (Z.shiftr (ROUND_DOWN (size +u (SYSARCH_PAGESIZE - 1))) 12) = Z.of_nat (length pages)).
  { change (Z.shiftr (ROUND_DOWN (size +u (SYSARCH_PAGESIZE - 1))) 12) with
      (DIV_PAGESIZE (ROUND_DOWN (size +u (SYSARCH_PAGESIZE - 1)))).
    rewrite round_up_pages, <-Hn by lia. apply swrap_small; lia. }
  unfold vm_kalloc_ll. rewrite round_up_pages by lia. rewrite <-Hn, Hsh. set (s1 := print _ _ s).
  unfold grow_critical, rm_get_kernel. rewrite (mapper_first s1 kernel_rm _ Hm). cbn [mbind outcome_bind].
  rewrite decide_False by done. cbn [at_region fmap list_fmap List.hd deref mbind outcome_bind fst].
  destruct Hm as [_ Hf]. apply Forall_inv in Hf. cbn [fst snd] in Hf.
  change (rmos s1) with (rmos s). rewrite Hf. cbn [deref mbind outcome_bind]. rewrite Hty, Hobj.
  change (dss s1) with (dss s). rewrite Hds. cbn [deref mbind outcome_bind]. rewrite Hfi.
  assert (0 < length pages).
  { rewrite Hn. apply Z.div_str_pos. lia. }
  destruct (Z.leb_spec (ds_n_pages ds) i); [lia|].
  change (kernel_pd s1) with (kernel_pd s). unfold SYSARCH_PAGESIZE.
  assert (pd_begin (kernel_pd s) +u rmo_offset rmo +u i *u 4096 = va) as Hva.
  { rewrite (wrap_small 32 (i * 4096)) by lia. rewrite (u32_add_nowrap (pd_begin _)) by lia.
    rewrite u32_add_nowrap by lia. unfold va. lia. }
  rewrite Hva, Nat2Z.id.
  destruct (grow_loop_ok pages s1 d ds i va 0 ms rest)
    as (s'&E&Hgo'&Hrep'&Hlk'&Hfree'&(ds'&Hds'&Hn'&Hl'&Hnew&Hold&Habove)&Hwalk&Hbelow&Hkeep&Hpr);
    [by destruct Hgo|done|done|done|done|lia|lia|done|unfold va; lia| |unfold va; lia|lia|lia|done|done|].
  { unfold va. rewrite Z.mul_comm, Z.mod_add by lia. done. }
  rewrite E. cbn [mbind outcome_bind]. rewrite Z.add_0_l.
  destruct (Z.eqb_spec (4096 * length pages) 0); [lia|].
  rewrite Nat2Z.id in Hnew, Hold, Habove.
  exists s', ds'. split; [done|]. split_and!; try done. intros k [Hk|Hk]; [by apply Hold|by apply Habove].
Qed.

(** C9: [vm_kalloc_ll] grows the kernel heap: when the first region of the
    kernel mapper is a data space with free entries, and the page allocator
    and the data space have room for the request, the call succeeds with the
    request rounded up to whole pages, at the address of the first free entry
    of the data space; every page of the result is translated by the processor
    to one of the pages taken from the allocator, writable, and is recorded in
    the data space, and the translation of lower addresses does not change. *)
Theorem vm_kalloc_ll_correct s o rmo l d ds (i : nat) size pages rest ms :
  grow_ok s -> mapper s kernel_rm ((o, rmo) :: l) ->
  rmo_type rmo = RMO_DATASPACE -> rmo_object rmo = DsObj d -> dss s !! d = Some ds ->
  find_index (fun e => e =? 0) (take (Z.to_nat (ds_n_pages ds)) (ds_pages ds)) = Some i ->
  ds_n_pages ds <= length (ds_pages ds) ->
  phys_rep (phys s) ms -> pmb_lock (phys s) = 0 -> free_pages (phys s) ms = pages ++ rest ->
  0 < size < 2 ^ 31 -> Z.of_nat (length pages) = (size + 4095) / 4096 ->
  i + length pages <= ds_n_pages ds ->
  0 <= pd_begin (kernel_pd s) -> 0 <= rmo_offset rmo ->
  (pd_begin (kernel_pd s) + rmo_offset rmo) mod 4096 = 0 ->
  pd_begin (kernel_pd s) + rmo_offset rmo + 4096 * ds_n_pages ds < 2 ^ 32 ->
  Forall (fun a => in_u32 a /\ a mod 4096 = 0) pages ->
  let va := pd_begin (kernel_pd s) + rmo_offset rmo + 4096 * i in
  (forall k : nat, (k < length pages)%nat -> has_table (mm s) (va + 4096 * k)) ->
  exists s', vm_kalloc_ll size s = Done (1, Some va, 4096 * length pages, s') /\
    free_pages (phys s') ms = rest /\
    (forall (k : nat) a, pages !! k = Some a -> walk (mm s') (va + 4096 * k) = Some (a, true) /\
       exists ds', dss s' !! d = Some ds' /\ ds_pages ds' !! (i + k)%nat = Some a) /\
    (forall va', in_u32 va' -> va' / 4096 < va / 4096 -> walk (mm s') va' = walk (mm s) va').
Proof.
  intros. edestruct vm_kalloc_ll_ok as (s'&ds'&E&(_&_&_&Hfree')&(Hds'&_)&Hnew&_&Hwalk&Hbelow&_&_); try eassumption.
  exists s'. split_and!; [exact E|done| |done]. intros k a Hk. split; [by apply Hwalk|].
  exists ds'. split; [done|]. by apply Hnew.
Qed.

(** ** The kernel's region mapper at boot *)

Lemma clear_pages_ok (n i : nat) (l : list Z) :
  (i + n <= length l)%nat ->
  exists l', clear_pages n i l = Done l' /\ length l' = length l /\
    (forall k, (k < i)%nat -> l' !! k = l !! k) /\ (forall k, (i <= k < i + n)%nat -> l' !! k = Some 0).
Proof.
  revert i l. induction n as [|n IH]; intros i l Hl; cbn [clear_pages].
  { exists l. split_and!; try done. lia. }
  destruct (lookup_lt_is_Some_2 l i) as [w ->]; [lia|]. cbn [deref mbind outcome_bind].
  destruct (IH (S i) (<[i := 0]> l)) as (l'&E&Hlen&Hlow&Hz); [rewrite length_insert; lia|].
  exists l'. rewrite length_insert in Hlen. split_and!; [done|done|..]; intros k Hk.
  - rewrite Hlow by lia. apply list_lookup_insert_ne. lia.
  - destruct (decide (k = i)) as [->|]; [|apply Hz; lia].
    rewrite Hlow by lia. apply list_lookup_insert_eq. lia.
Qed.

(** [rm_kalloc] with objects left: the next static object, for a data space of
    128 cleared pages. *)
Lemma rm_kalloc_ok s (i : Z) m ds :
  kernel_lock s = 0 -> kernel_rmoi s = i -> 0 <= i < 4 -> rmos s !! i = Some m -> dss s !! i = Some ds ->
  length (ds_pages ds) = 130%nat -> is_Some (nodes s !! inr i) ->
  exists s' pages, rm_kalloc s = Done (Some i, s') /\ kernel_lock s' = 0 /\ kernel_rmoi s' = i + 1 /\
    rmos s' = <[i := Rmo (rmo_offset m) 524288 (DsObj i) RMO_DATASPACE 1]> (rmos s) /\
    dss s' = <[i := Dataspace 0 128 1 524288 pages]> (dss s) /\ length pages = 130%nat /\
    (forall k, (k < 128)%nat -> pages !! k = Some 0) /\
    rms s' = rms s /\ keeps [inr i] (nodes s) (nodes s') /\ kernel_pd s' = kernel_pd s /\ mm s' = mm s /\ phys s' = phys s /\
    printed s' = printed s ++ [("Capacity: ds->ds_size %d", 524288)].
Proof.
  intros Hlk Hi Hr Hm Hds Hlen [n Hn]. unfold rm_kalloc. rewrite Hlk, kernlock_lock_free.
  cbn [mbind outcome_bind with_klock kernel_rmoi]. rewrite Hi. unfold N_RMOS.
  destruct (Z.leb_spec 4 i); [lia|]. unfold rmo_construct, list_clear.
  destruct (put_next_spec (nodes s) (inr i) None) as (h1&E1&_&_&L1&P1); [by exists n|].
  destruct (put_prev_spec h1 (inr i) None) as (h2&E2&_&_&L2&P2); [by eapply payload_is_Some|].
  cbn [with_rmoi with_klock nodes]. rewrite E1. cbn [mbind outcome_bind]. rewrite E2. cbn [mbind outcome_bind rmos with_rmoi with_klock]. rewrite Hm.
  cbn [deref mbind outcome_bind with_rmo with_nodes with_rmoi with_klock dss]. rewrite Hds. cbn [deref mbind outcome_bind].
  destruct (clear_pages_ok 128 0 (ds_pages ds)) as (pages&Ep&Hlp&_&Hz); [lia|].
  change (Z.to_nat (if 128 <? ds_n_pages (ds_construct ds SIZEOF_RMODS) then 128
    else ds_n_pages (ds_construct ds SIZEOF_RMODS))) with 128%nat.
  change (ds_pages (ds_construct ds SIZEOF_RMODS)) with (ds_pages ds).
  rewrite Ep. cbn [mbind outcome_bind].
  unfold print, with_ds. cbn [rmos with_rmo with_nodes with_rmoi with_klock]. rewrite lookup_insert_eq. cbn [deref mbind outcome_bind].
  eexists _, pages. split; [done|].
  cbn [kernel_lock kernel_rmoi rmos dss rms nodes kernel_pd mm phys printed with_klock with_rmo with_rmoi with_nodes].
  split_and!; try done.
  - rewrite u32_add_nowrap; lia.
  - by rewrite insert_insert_eq.
  - congruence.
  - intros k Hk. apply Hz. lia.
  - split; [|congruence]. intros x Hx. apply not_elem_of_cons in Hx as [Hx _].
    by rewrite L2, L1.
Qed.

Lemma rm_init_ok (fuel : nat) page_dir s rm0 m ds :
  rms s !! kernel_rm = Some rm0 -> rmos s !! 0 = Some m -> dss s !! 0 = Some ds ->
  length (ds_pages ds) = 130%nat -> is_Some (nodes s !! inl kernel_rm) -> is_Some (nodes s !! inr 0) ->
  exists s' rmo pages, rm_init fuel (p_inst_kernel page_dir) s = Done s' /\
    mapper s' kernel_rm [(0, rmo)] /\ rmo = Rmo 0 524288 (DsObj 0) RMO_DATASPACE 1 /\
    rms s' !! kernel_rm = Some (Region_mapper 0x3D000000 1 0) /\ laid 0 [(0, rmo)] 0x3D000000 /\
    dss s' !! 0 = Some (Dataspace 0 128 1 524288 pages) /\ length pages = 130%nat /\
    (forall k, (k < 128)%nat -> pages !! k = Some 0) /\ kernel_rmoi s' = 1 /\ kernel_lock s' = 0 /\
    mm s' = mm s /\ phys s' = phys s /\ kernel_pd s' = kernel_pd s /\
    printed s' = printed s ++ [("Capacity: ds->ds_size %d", 524288)].
Proof.
  intros Hrm Hm Hds Hlen Hnh Hno. unfold rm_init, p_inst_kernel, pmap_get_address_range. cbn [vab vae].
  unfold rm_construct, list_init. cbn [with_rmoi with_klock nodes rms].
  destruct (linked_ring_init_ok (nodes s) (inl kernel_rm) Hnh) as (h1&E1&Hr1&Hk1).
  change (h ← put_next (Some (inl kernel_rm)) (Some (inl kernel_rm)) (nodes s);
          put_prev (Some (inl kernel_rm)) (Some (inl kernel_rm)) h)
    with (linked_ring_init (Some (inl kernel_rm)) (nodes s)).
  rewrite E1. cbn [mbind outcome_bind]. rewrite Hrm. cbn [deref mbind outcome_bind].
  set (s1 := with_rm _ _ _).
  destruct (rm_kalloc_ok s1 0 m ds) as (s2&pages&E2&Hl2&Hi2&Ho2&Hd2&Hlp&Hz&Hrms2&Hkeep&Hpd2&Hmm2&Hph2&Hpr2);
    [done|done|lia|done|done|done|cbn; by eapply keeps_is_Some|].
  rewrite E2. cbn [mbind outcome_bind deref].
  unfold rm_insert. rewrite Ho2, lookup_insert_eq. cbn [deref mbind outcome_bind].
  assert (Hr2 : ring (nodes s2) (inl kernel_rm) []).
  { eapply ring_frame; [|exact Hr1]. intros x Hx. apply Hkeep. set_solver. }
  rewrite (get_next_of _ _ _ (ring_next _ _ _ Hr2)). cbn [List.hd mbind outcome_bind].
  assert (rm_insert_from fuel (Some (inl kernel_rm)) (Some (inl kernel_rm)) 0 524288 s2 = Done (None, 0)) as Ei.
  { destruct fuel; cbn [rm_insert_from]; by rewrite decide_True. }
  cbn [rmo_size]. rewrite Ei. cbn [mbind outcome_bind]. rewrite Hrms2. unfold s1 at 1. cbn [rms with_rm].
  rewrite lookup_insert_eq. cbn [deref mbind outcome_bind rm_size].
  change (ROUND_DOWN (0xFE000000 - 1) -u 0xC1000000 +u SYSARCH_PAGESIZE) with 0x3D000000.
  change (0x3D000000 <? 0 +u 524288) with false. cbv iota.
  destruct (list_push_tail_ok (nodes s2) (inl kernel_rm) [] (inr 0) Hr2) as (h3&E3&Hr3&_);
    [set_solver|destruct Hkeep as [_ Hp]; eapply payload_is_Some; [exact Hp|by eapply keeps_is_Some]|].
  cbn [with_rmo nodes rmo_object rmo_type rmo_static]. rewrite E3. cbn [mbind outcome_bind].
  eexists _, _, pages. split; [done|]. split_and!; try done; cbn [with_nodes with_rmo rms dss rmos nodes].
  - split; [exact Hr3|]. constructor; [|done]. cbn. apply lookup_insert_eq.
  - rewrite Hrms2. unfold s1. cbn [rms with_rm]. apply lookup_insert_eq.
  - rewrite Hd2. apply lookup_insert_eq.
Qed.

(** [rm_init] sets the kernel's region mapper up: it spans the kernel's
    address range rounded to pages, and its one child is a data space of 128
    entries at offset 0, all of them free; one of the four static objects is
    used. *)
Theorem rm_init_correct (fuel : nat) page_dir s rm0 m ds :
  rms s !! kernel_rm = Some rm0 -> rmos s !! 0 = Some m -> dss s !! 0 = Some ds ->
  length (ds_pages ds) = 130%nat -> is_Some (nodes s !! inl kernel_rm) -> is_Some (nodes s !! inr 0) ->
  exists s' rmo pages, rm_init fuel (p_inst_kernel page_dir) s = Done s' /\
    mapper s' kernel_rm [(0, rmo)] /\ rmo = Rmo 0 524288 (DsObj 0) RMO_DATASPACE 1 /\
    rms s' !! kernel_rm = Some (Region_mapper 0x3D000000 1 0) /\ laid 0 [(0, rmo)] 0x3D000000 /\
    dss s' !! 0 = Some (Dataspace 0 128 1 524288 pages) /\ length pages = 130%nat /\
    (forall k, (k < 128)%nat -> pages !! k = Some 0) /\ kernel_rmoi s' = 1 /\ kernel_lock s' = 0.
Proof.
  intros. edestruct rm_init_ok as (s'&rmo&pages&?&?&?&?&?&?&?&?&?&?&_); try eassumption. by exists s', rmo, pages.
Qed.

(** [rm_kalloc] with all four static objects in use returns null without
    releasing [kernel_lock]: the next call spins for ever. *)
Theorem rm_kalloc_exhausted s :
  kernel_lock s = 0 -> 4 <= kernel_rmoi s ->
  exists s', rm_kalloc s = Done (None, s') /\ rm_kalloc s' = OutOfFuel /\
    forall fuel, kernlock_lock fuel (kernel_lock s') = OutOfFuel.
Proof.
  intros Hlk Hi. exists (with_klock (-1) s). unfold rm_kalloc at 1. rewrite Hlk, kernlock_lock_free.
  cbn [mbind outcome_bind with_klock kernel_rmoi]. unfold N_RMOS. destruct (Z.leb_spec 4 (kernel_rmoi s)); [|lia].
  split_and!; [done|done|]. intros fuel. by apply kernlock_lock_held.
Qed.

(** ** A concrete kernel address space *)

Module VmExample.
Definition rmo0 : region_mapper_object := Rmo 0 524288 (DsObj 0) RMO_DATASPACE 1.
Definition rmo1 : region_mapper_object := Rmo 0 0x1000 NullObj RMO_UNDEFINED 0.

(** A page table at 0x5000 for the first kernel pages; two free pages. *)
Definition mm0 : mmu :=
  Mmu (replicate 4096 0) (<[772%nat := 0x5003]> (replicate 1024 0)) (list_to_map [(0x5000, 0); (0x5004, 0)]) 0 [].

Definition s0 : vm :=
  Vm (list_to_map [(inl 0, List_node (Some (inr 0)) (Some (inr 0)));
                   (inr 0, List_node (Some (inl 0)) (Some (inl 0)));
                   (inr 1, List_node None None)])
     {[ 0 := Region_mapper 0x3D000000 1 0 ]} (list_to_map [(0, rmo0); (1, rmo1)])
     {[ 0 := Dataspace 0 128 1 524288 (replicate 130 0) ]}
     0 4 (Protection_domain 0xC1000000 0xFDFFFFFF PKernel 0 0 0) mm0 PhysExample.one [].

Lemma s0_mapper : mapper s0 kernel_rm [(0, rmo0)].
Proof. split; [apply (bool_decide_eq_true_1 _); vm_compute; reflexivity|repeat constructor]. Defined.

Lemma s0_laid : laid 0 [(0, rmo0)] 0x3D000000.
Proof. simpl. lia. Defined.

Lemma rm_insert_correct_witness : exists s', rm_insert 1 kernel_rm 1 s0 = Done (true, s') /\
  mapper s' kernel_rm [(0, rmo0); (1, with_offset 524288 rmo1)].
Proof.
  assert (H := rm_insert_correct 1 s0 kernel_rm (Region_mapper 0x3D000000 1 0) [(0, rmo0)] 1 rmo1
    [(0, rmo0)] 524288 [] s0_mapper eq_refl s0_laid eq_refl
    ltac:(apply (bool_decide_eq_true_1 _); vm_compute; reflexivity) ltac:(eexists; vm_compute; reflexivity)
    ltac:(simpl; lia) ltac:(simpl; lia) ltac:(simpl; lia) eq_refl).
  rewrite bool_decide_false in H by (simpl; lia). destruct H as (s'&E&Hm&_).
  exists s'. split; [exact E|exact Hm].
Defined.

(** An object of nearly 4 GiB behind the region of 512 KiB: its end wraps to 0, and
    it is accepted in a mapper of 976 MiB. *)
Lemma rm_insert_wraps :
  let big := Rmo 0 0xFFF80000 NullObj RMO_UNDEFINED 0 in
  exists s', rm_insert 1 kernel_rm 1 (with_rmo 1 big s0) = Done (true, s') /\
    rmos s' !! 1 = Some (with_offset 524288 big) /\ ~ laid 0 [(0, rmo0); (1, with_offset 524288 big)] 0x3D000000.
Proof. eexists. split; [vm_compute; reflexivity|]. split; [reflexivity|]. cbn. lia. Qed.

Lemma rm_ll_lookup_correct_witness :
  rm_ll_lookup 1 (Some kernel_rm) (Page_fault 0xC1000000 0x1234 0x3D000000 2) RMO_REGION_MAPPER s0 =
  Done (DsObj 0, Page_fault 0xC1000000 0x1234 524288 2, RMO_DATASPACE).
Proof.
  apply (proj1 (rm_ll_lookup_correct 1 s0 kernel_rm (Region_mapper 0x3D000000 1 0) [(0, rmo0)]
    (Page_fault 0xC1000000 0x1234 0x3D000000 2) RMO_REGION_MAPPER s0_mapper s0_laid
    ltac:(simpl; lia) ltac:(simpl; lia) ltac:(simpl; lia)) 0 rmo0); [by left|simpl; lia|discriminate].
Defined.

Lemma rm_pagefault_bounds_witness : rm_pagefault 2 1 kernel_rm (0xC1000000 + 524288) 2 s0 = Fault.
Proof.
  apply (proj2 (rm_pagefault_bounds 2 1 s0 kernel_rm (Region_mapper 0x3D000000 1 0) [(0, rmo0)]
    (0xC1000000 + 524288) 2 s0_mapper s0_laid ltac:(simpl; lia) ltac:(simpl; lia) ltac:(split; lia)
    ltac:(simpl; lia) ltac:(simpl; lia) ltac:(simpl; lia) ltac:(lia) ltac:(simpl; lia))).
  - split; [simpl; lia|]. vm_compute. reflexivity.
  - intros o m Hin. apply list_elem_of_singleton in Hin. injection Hin as -> ->. simpl. lia.
Defined.

Lemma s0_grow : grow_ok s0.
Proof.
  split; [split; vm_compute; reflexivity|vm_compute; reflexivity|split|reflexivity|reflexivity].
  - intros i e He. cbn [mm s0 mm0 kpd] in He.
    apply list_lookup_insert_Some in He as [(_&<-&_)|[_ He]]; [split; lia|].
    apply lookup_replicate in He as [-> _]. split; lia.
  - intros i j e f He Hf. cbn [mm s0 mm0 kpd] in He, Hf.
    apply list_lookup_insert_Some in He as [(<-&<-&_)|[_ He]];
      [|apply lookup_replicate in He as [-> _]; done].
    apply list_lookup_insert_Some in Hf as [(<-&<-&_)|[_ Hf]];
      [|apply lookup_replicate in Hf as [-> _]; done]. done.
Qed.

(** A data space of two pages, the second one free. *)
Definition rmo2 : region_mapper_object := Rmo 0 8192 (DsObj 0) RMO_DATASPACE 1.
Definition ds2 : dataspace := Dataspace 0 2 1 8192 [0x7000; 0].
Definition s2 : vm := with_rmo 0 rmo2 (with_ds 0 ds2 s0).

Lemma rm_pagefault_maps_witness : exists s', rm_pagefault 2 1 kernel_rm 0xC1000010 VM_PROT_WRITE s2 = Done (VM_OK, s') /\
  walk (mm s') 0xC1000000 = Some (0x7000, true) /\ walk (mm s') 0xC1001000 = Some (0, true).
Proof.
  destruct (rm_pagefault_maps 2 1 s2 kernel_rm (Region_mapper 0x3D000000 1 0) [(0, rmo2)] 0 rmo2 0 ds2
    0xC1000010 VM_PROT_WRITE) as (s'&E&_&_&Hw&_).
  - destruct s0_grow. by split.
  - split; [apply (bool_decide_eq_true_1 _); vm_compute; reflexivity|repeat constructor].
  - simpl. lia.
  - simpl. lia.
  - simpl. lia.
  - lia.
  - unfold in_u32. lia.
  - simpl. lia.
  - reflexivity.
  - reflexivity.
  - simpl. lia.
  - reflexivity.
  - by left.
  - reflexivity.
  - reflexivity.
  - reflexivity.
  - simpl. lia.
  - reflexivity.
  - simpl. lia.
  - simpl. lia.
  - reflexivity.
  - reflexivity.
  - simpl. lia.
  - repeat constructor; unfold in_u32; lia.
  - intros [|[|k]] Hk; [| |simpl in Hk; lia]; exists 0x5003;
      (split; [vm_compute; reflexivity|split; [vm_compute; reflexivity|eexists; vm_compute; reflexivity]]).
  - exists s'. split; [exact E|]. split; [apply (Hw 0%nat 0x7000)|apply (Hw 1%nat 0)]; (reflexivity || (simpl; lia)).
Defined.

Lemma vm_kalloc_ll_correct_witness : exists s', vm_kalloc_ll 5000 s0 = Done (1, Some 0xC1000000, 8192, s') /\
  walk (mm s') 0xC1001000 = Some (0x3000, true).
Proof.
  destruct (vm_kalloc_ll_correct s0 0 rmo0 [] 0 (Dataspace 0 128 1 524288 (replicate 130 0)) 0 5000
    [0x2000; 0x3000] [] [PhysExample.one_map]) as (s'&E&_&Hw&_).
  - exact s0_grow.
  - exact s0_mapper.
  - reflexivity.
  - reflexivity.
  - reflexivity.
  - reflexivity.
  - vm_compute. discriminate.
  - exact PhysExample.one_rep.
  - reflexivity.
  - vm_compute. reflexivity.
  - lia.
  - reflexivity.
  - simpl. lia.
  - simpl. lia.
  - simpl. lia.
  - reflexivity.
  - simpl. lia.
  - repeat constructor; unfold in_u32; lia.
  - intros [|[|k]] Hk; [| |simpl in Hk; lia]; exists 0x5003;
      (split; [vm_compute; reflexivity|split; [vm_compute; reflexivity|eexists; vm_compute; reflexivity]]).
  - exists s'. split; [exact E|]. exact (proj1 (Hw 1%nat 0x3000 eq_refl)).
Defined.

Lemma rm_init_correct_witness : exists s' rmo pages, rm_init 5 (p_inst_kernel 0xC0105000) s0 = Done s' /\
  mapper s' kernel_rm [(0, rmo)] /\ dss s' !! 0 = Some (Dataspace 0 128 1 524288 pages).
Proof.
  destruct (rm_init_correct 5 0xC0105000 s0 (Region_mapper 0x3D000000 1 0) rmo0
    (Dataspace 0 128 1 524288 (replicate 130 0)) eq_refl eq_refl eq_refl eq_refl)
    as (s'&rmo&pages&E&Hm&_&_&_&Hd&_); [eexists; vm_compute; reflexivity|eexists; vm_compute; reflexivity|].
  exists s', rmo, pages. split; [exact E|]. split; [exact Hm|exact Hd].
Defined.

Lemma rm_kalloc_exhausted_witness : exists s', rm_kalloc s0 = Done (None, s') /\ rm_kalloc s' = OutOfFuel.
Proof.
  destruct (rm_kalloc_exhausted s0 eq_refl ltac:(simpl; lia)) as (s'&E&E'&_).
  exists s'. split; [exact E|exact E'].
Defined.
End VmExample.
