(* ===== verification/Zalloc.v ===== *)
(** * The zone allocator

    Models [system/kern/zalloc.c] with [kern/zalloc.h] and [zalloc_priv.h].
    Memory is a map from addresses to pointer-sized words (a free chunk holds
    the pointer to the next one in its first word, an allocated chunk the
    pointer to its zone); zones are the records at their addresses.

    What the allocator needs of the virtual memory layer is the class
    [KmemSource]; [vm_source] is the instance given by [Vm]. *)

From S2P Require Import Prelude Ring Spinlock PhysAlloc Mmu Vm.

(** ** Interface to the virtual memory layer *)

(** [vm_kalloc_ll] and [vm_alloc_critical]: [None] is the result 0, otherwise
    the address and the size of the new memory. *)
Class KmemSource (V : Type) := {
  kalloc_ll : Z -> V -> outcome (option (Z * Z) * V);
  alloc_critical : Z -> V -> outcome (option (Z * Z) * V);
  refill : V -> V;
}.

Definition kmem_result (r : outcome (Z * option Z * Z * vm)) : outcome (option (Z * Z) * vm) :=
  '(ret, addr, size, s) ← r;
  if truthy ret then a ← deref addr; Done (Some (a, size), s) else Done (None, s).

#[export] Instance vm_source : KmemSource vm := {
  kalloc_ll size s := kmem_result (vm_kalloc_ll size s);
  alloc_critical size s := kmem_result (vm_alloc_critical size s);
  refill := vm_refill;
}.

(** ** Data *)

Record zone := Zone {
  zn_bufsize : Z;
  zn_freelist : Z;
  zn_name : string;
  zn_count : Z;
  zn_memtype : Z;
  zn_lock : Z;
}.

Definition ZONE_AUTO_REFILL : Z := 1.
Definition ZONE_AR_CRITICAL : Z := 2.
Definition SIZEOF_POINTER : Z := 4.
Definition BUF_LINE : Z := 128.
(** [sizeof(struct zone)]: five words and the lock byte, padded. *)
Definition SIZEOF_ZONE : Z := 24.

Record zheap (V : Type) := Zheap {
  zmem : gmap Z Z;
  zones : gmap Z zone;
  zone_zone : Z;
  vmst : V;
}.
Arguments Zheap {V}.
Arguments zmem {V}.
Arguments zones {V}.
Arguments zone_zone {V}.
Arguments vmst {V}.

(** Zeroed memory read as a zone. *)
Definition zero_zone : zone := Zone 0 0 EmptyString 0 0 0.

(** ** Operations *)

(** The loop of [calc_bufsize]. *)
Fixpoint bufsize_loop (fuel : nat) (num mul size : Z) : outcome Z :=
  match fuel with
  | O => OutOfFuel
  | S fuel =>
      if num <? size then
        if num <? BUF_LINE then
          let mul := u32 (Z.shiftl mul 1) in bufsize_loop fuel mul mul size
        else bufsize_loop fuel (num +u mul) mul size
      else Done num
  end.

Definition calc_bufsize (fuel : nat) (size : Z) : outcome Z :=
  bufsize_loop fuel 0 1 (size +u SIZEOF_POINTER).

Section zalloc.
Context {V : Type} `{KmemSource V}.
Implicit Types s : zheap V.

Definition with_zone (z : Z) (f : zone -> zone) s : outcome (zheap V) :=
  zn ← deref (zones s !! z); Done (Zheap (zmem s) (<[z := f zn]> (zones s)) (zone_zone s) (vmst s)).
Definition set_word (a v : Z) s : zheap V :=
  Zheap (<[a := v]> (zmem s)) (zones s) (zone_zone s) (vmst s).
Definition set_lock (l : Z) (zn : zone) : zone :=
  Zone (zn_bufsize zn) (zn_freelist zn) (zn_name zn) (zn_count zn) (zn_memtype zn) l.
Definition set_list (p c : Z) (zn : zone) : zone :=
  Zone (zn_bufsize zn) p (zn_name zn) c (zn_memtype zn) (zn_lock zn).

(** The result is the pointer, 0 for null. *)
Definition remove_top (z : Z) s : outcome (Z * zheap V) :=
  zn ← deref (zones s !! z);
  let top := zn_freelist zn in
  if truthy top then
    nxt ← deref (zmem s !! top);
    let s := set_word top z s in
    s ← with_zone z (set_list nxt (zn_count zn -u 1)) s;
    Done (top +u SIZEOF_POINTER, s)
  else Done (0, s).

(** The loop of [_zcram]. *)
Fixpoint zcram_loop (fuel : nat) (z mem_ size bufsize : Z) s : outcome (zheap V) :=
  match fuel with
  | O => OutOfFuel
  | S fuel =>
      if bufsize <=? size then
        zn ← deref (zones s !! z);
        let s := set_word mem_ (zn_freelist zn) s in
        s ← with_zone z (set_list mem_ (zn_count zn +u 1)) s;
        zcram_loop fuel z (mem_ +u bufsize) (size -u bufsize) bufsize s
      else Done s
  end.

Definition _zcram (fuel : nat) (z mem_ size : Z) s : outcome (zheap V) :=
  zn ← deref (zones s !! z);
  if truthy mem_ then zcram_loop fuel z mem_ size (zn_bufsize zn) s
  else Panic "zcram: memory at zero".

Definition _zrefill (fuel : nat) (z min num : Z) s : outcome (zheap V) :=
  zn ← deref (zones s !! z);
  if zn_count zn <? min then
    let size := zn_bufsize zn *u num in
    '(r, v) ← (if truthy (Z.land (zn_memtype zn) ZONE_AR_CRITICAL)
               then alloc_critical size (refill (vmst s))
               else kalloc_ll size (vmst s));
    let s := Zheap (zmem s) (zones s) (zone_zone s) v in
    match r with
    | Some (begin_, size) => _zcram fuel z begin_ size s
    | None => Done s
    end
  else Done s.

(** [kernlock_lock(&(zone->zn_lock))] and its release. *)
Definition lock_zone (z : Z) s : outcome (zheap V) :=
  zn ← deref (zones s !! z); l ← kernlock_lock 1 (zn_lock zn); with_zone z (set_lock l) s.
Definition unlock_zone (z : Z) s : outcome (zheap V) :=
  with_zone z (fun zn => set_lock (kernlock_unlock (zn_lock zn)) zn) s.

Definition zalloc (fuel : nat) (z : Z) s : outcome (Z * zheap V) :=
  if truthy z then
    s ← lock_zone z s;
    zn ← deref (zones s !! z);
    s ← (if truthy (Z.land (zn_memtype zn) ZONE_AUTO_REFILL) then _zrefill fuel z 32 32 s else Done s);
    '(ret, s) ← remove_top z s;
    s ← unlock_zone z s;
    Done (ret, s)
  else Panic "zalloc: null zone".

Definition zfree (object : Z) s : outcome (zheap V) :=
  if truthy object then
    let object := object -u SIZEOF_POINTER in
    z ← deref (zmem s !! object);
    s ← lock_zone z s;
    zn ← deref (zones s !! z);
    let s := set_word object (zn_freelist zn) s in
    s ← with_zone z (set_list object (zn_count zn +u 1)) s;
    unlock_zone z s
  else Done s.

Definition zcram (fuel : nat) (z mem_ size : Z) s : outcome (zheap V) :=
  s ← lock_zone z s; s ← _zcram fuel z mem_ size s; unlock_zone z s.

Definition zcount (z : Z) s : outcome Z := zn ← deref (zones s !! z); Done (zn_count zn).
Definition zbufsize (z : Z) s : outcome Z := zn ← deref (zones s !! z); Done (zn_bufsize zn).

Definition zrefill (fuel : nat) (z min num : Z) s : outcome (zheap V) :=
  s ← lock_zone z s; s ← _zrefill fuel z min num s; unlock_zone z s.

(** [s_zone_zone] is the zone at [szone], [szz_buf] the buffer at [szz]. *)
Definition zone_bootstrap (fuel : nat) (szone szz : Z) s : outcome (zheap V) :=
  bs ← calc_bufsize fuel SIZEOF_ZONE;
  let zn := default zero_zone (zones s !! szone) in
  let zn := Zone bs 0 "zone" 0 (zn_memtype zn) (kernlock_init (zn_lock zn)) in
  s ← _zcram fuel szone szz (2 ^ 16) (Zheap (zmem s) (<[szone := zn]> (zones s)) (zone_zone s) (vmst s));
  Done (Zheap (zmem s) (zones s) szone (vmst s)).

(** [zn_count] of the new zone is what the memory held before. *)
Definition zinit (fuel : nat) (size memtype : Z) (name : option string) s : outcome (Z * zheap V) :=
  if truthy (zone_zone s) then
    '(z, s) ← zalloc fuel (zone_zone s) s;
    if truthy z then
      bs ← calc_bufsize fuel size;
      let old := default zero_zone (zones s !! z) in
      let zn := Zone bs 0 (default "(null)" name) (zn_count old) memtype (kernlock_init (zn_lock old)) in
      Done (z, Zheap (zmem s) (<[z := zn]> (zones s)) (zone_zone s) (vmst s))
    else Panic "zinit"
  else Panic "zinit: no zone_zone".
End zalloc.

(** ** Free lists *)

(** The chunks [l] linked from the pointer [p]. *)
Fixpoint freelist (m : gmap Z Z) (p : Z) (l : list Z) : Prop :=
  match l with
  | [] => p = 0
  | a :: l => p = a /\ 0 < a /\ exists q, m !! a = Some q /\ freelist m q l
  end.

Lemma freelist_frame m m' p l :
  (forall a, a ∈ l -> m' !! a = m !! a) -> freelist m p l -> freelist m' p l.
Proof.
  revert p. induction l as [|a l IH]; intros p Heq; simpl; [done|].
  intros (->&Ha&q&Hq&Hl). split; [done|]. split; [done|]. exists q.
  rewrite Heq by set_solver. split; [done|]. apply IH; [set_solver|done].
Qed.

Section zone_props.
Context {V : Type} `{KmemSource V}.
Implicit Types s : zheap V.

(** The zone [z] with its record and free chunks; [lk] is the lock byte. *)
Record zone_rep (s : zheap V) (z : Z) (zn : zone) (l : list Z) : Prop := {
  zr_zone : zones s !! z = Some zn;
  zr_list : freelist (zmem s) (zn_freelist zn) l;
  zr_count : zn_count zn = length l;
  zr_nodup : NoDup l;
  zr_small : length l < 2 ^ 32;
}.

Definition with_free (zn : zone) (l : list Z) (lk : Z) : zone :=
  Zone (zn_bufsize zn) (hd 0 l) (zn_name zn) (length l) (zn_memtype zn) lk.

Lemma freelist_head m p l : freelist m p l -> p = hd 0 l.
Proof using. destruct l; simpl; [done|]. by intros [-> _]. Qed.

(** A zone record is determined by its list. *)
Lemma zone_rep_eq s z zn l : zone_rep s z zn l -> zn = with_free zn l (zn_lock zn).
Proof using.
  intros [_ Hl Hc _ _]. unfold with_free. rewrite <-(freelist_head _ _ _ Hl), <-Hc. by destruct zn.
Qed.

Lemma set_lock_rep s z zn l lk :
  zone_rep s z zn l ->
  zone_rep (Zheap (zmem s) (<[z := set_lock lk zn]> (zones s)) (zone_zone s) (vmst s)) z (set_lock lk zn) l.
Proof using. intros [? ? ? ? ?]. split; try done. cbn. apply lookup_insert_eq. Qed.

Lemma lock_zone_ok s z zn l :
  zone_rep s z zn l -> zn_lock zn = 0 ->
  lock_zone z s = Done (Zheap (zmem s) (<[z := set_lock (-1) zn]> (zones s)) (zone_zone s) (vmst s)).
Proof using.
  intros Hr Hl. unfold lock_zone, with_zone. rewrite (zr_zone _ _ _ _ Hr). cbn [deref mbind outcome_bind].
  by rewrite Hl.
Qed.

(** Only the zone [z] and the words [touched] of memory change. *)
Definition zkeeps (z : Z) (touched : list Z) s s' : Prop :=
  (forall a, a ∉ touched -> zmem s' !! a = zmem s !! a) /\
  (forall z', z' <> z -> zones s' !! z' = zones s !! z') /\ zone_zone s' = zone_zone s.

Lemma remove_top_ok s z zn l :
  zone_rep s z zn l -> Forall (fun a => a + 4 < 2 ^ 32) l -> zn_lock zn = -1 ->
  match l with
  | [] => remove_top z s = Done (0, s)
  | a :: l' => exists s', remove_top z s = Done (a + 4, s') /\
      zone_rep s' z (with_free zn l' (-1)) l' /\ zmem s' !! a = Some z /\
      zkeeps z [a] s s' /\ vmst s' = vmst s
  end.
Proof using.
  intros Hr Hb Hlk. pose proof Hr as [Hz Hl Hc Hnd Hsm]. unfold remove_top. rewrite Hz.
  cbn [deref mbind outcome_bind]. destruct l as [|a l]; simpl in Hl.
  - by rewrite Hl.
  - destruct Hl as (Hp&Ha&q&Hq&Hl). rewrite Hp, (proj2 (truthy_true a)) by lia. rewrite Hq.
    cbn [deref mbind outcome_bind]. unfold with_zone, set_word. cbn [zones]. rewrite Hz.
    cbn [deref mbind outcome_bind]. apply Forall_inv in Hb. simpl in Hc, Hsm.
    rewrite u32_add_nowrap by (unfold SIZEOF_POINTER; lia). eexists. split; [done|].
    apply NoDup_cons in Hnd as [Hal Hnd]. split_and!.
    + assert (Hl' : freelist (<[a := z]> (zmem s)) q l).
      { eapply freelist_frame; [|exact Hl]. intros b Hb'. apply lookup_insert_ne. set_solver. }
      split; cbn; try done.
      * rewrite lookup_insert_eq. unfold set_list, with_free. rewrite Hc, <-(freelist_head _ _ _ Hl), Hlk.
        do 2 f_equal. rewrite u32_sub_nowrap by lia. lia.
      * by rewrite <-(freelist_head _ _ _ Hl).
      * lia.
    + cbn. apply lookup_insert_eq.
    + split_and!; cbn; try done; intros x Hx; apply lookup_insert_ne; [|done]. set_solver.
    + done.
Qed.
(** The chunks of [size] bytes from [mem_] on. *)
Definition chunks (mem_ bs size : Z) : list Z := (fun i => mem_ + bs * i) <$> seqZ 0 (size / bs).

Lemma chunks_step mem_ bs size : 0 < bs <= size -> chunks mem_ bs size = mem_ :: chunks (mem_ + bs) bs (size - bs).
Proof using.
  intros Hb. unfold chunks. replace size with (size - bs + 1 * bs) at 1 by lia. rewrite Z.div_add by lia.
  assert (0 <= (size - bs) / bs) by (apply Z.div_pos; lia).
  rewrite (seqZ_cons 0) by lia. rewrite fmap_cons. f_equal; [lia|].
  replace (Z.pred ((size - bs) / bs + 1)) with ((size - bs) / bs) by lia.
  assert (seqZ (Z.succ 0) ((size - bs) / bs) = Z.add 1 <$> seqZ 0 ((size - bs) / bs)) as ->
    by (by rewrite fmap_add_seqZ).
  rewrite <-list_fmap_compose. apply list_fmap_ext. intros _ x _. simpl. lia.
Qed.

Lemma chunks_in mem_ bs size a :
  0 < bs -> 0 <= size -> a ∈ chunks mem_ bs size -> mem_ <= a /\ a + bs <= mem_ + size.
Proof using.
  intros Hb Hs (i&->&Hi%elem_of_seqZ)%list_elem_of_fmap. pose proof (Z.mul_div_le size bs Hb). nia.
Qed.

Lemma with_free_idem zn l l' lk lk' : with_free (with_free zn l' lk') l lk = with_free zn l lk.
Proof using. done. Qed.

Lemma zkeeps_refl z t s : zkeeps z t s s.
Proof using. by split_and!. Qed.

Lemma zkeeps_trans z t s1 s2 s3 : zkeeps z t s1 s2 -> zkeeps z t s2 s3 -> zkeeps z t s1 s3.
Proof using.
  intros (H1&H2&H3) (H4&H5&H6). split_and!; [| |congruence]; intros; [by rewrite H4, H1|by rewrite H5, H2].
Qed.

Lemma zkeeps_weaken z t t' s1 s2 : t ⊆ t' -> zkeeps z t s1 s2 -> zkeeps z t' s1 s2.
Proof using. intros Hsub (H1&H2&H3). split_and!; try done. intros a Ha. apply H1. set_solver. Qed.

Lemma zkeeps_lock z t s lk zn zn' :
  zones s !! z = Some zn' ->
  zkeeps z t s (Zheap (zmem s) (<[z := set_lock lk zn]> (zones s)) (zone_zone s) (vmst s)).
Proof using. intros _. split_and!; cbn; try done. intros z' Hz. by apply lookup_insert_ne. Qed.

(** A zone that is not involved. *)
Lemma zone_rep_frame s s' z t z2 zn2 l2 :
  zkeeps z t s s' -> z2 <> z -> (forall a, a ∈ l2 -> a ∉ t) -> zone_rep s z2 zn2 l2 -> zone_rep s' z2 zn2 l2.
Proof using.
  intros (H1&H2&_) Hz Ha [Hr1 Hr2 Hr3 Hr4 Hr5]. split; try done; [by rewrite H2|].
  eapply freelist_frame; [|exact Hr2]. intros a Hin. by apply H1, Ha.
Qed.

(** Pushing one chunk. *)
Lemma push_chunk_ok s z zn l a :
  zone_rep s z zn l -> 0 < a -> a ∉ l -> length l + 1 < 2 ^ 32 ->
  exists s', (s1 ← with_zone z (set_list a (zn_count zn +u 1)) (set_word a (zn_freelist zn) s); Done s1) = Done s' /\
    zone_rep s' z (with_free zn (a :: l) (zn_lock zn)) (a :: l) /\ zkeeps z [a] s s' /\ vmst s' = vmst s.
Proof using.
  intros [Hz Hl Hc Hnd Hsm] Ha Hal Hlen. unfold with_zone, set_word. cbn [zones]. rewrite Hz.
  cbn [deref mbind outcome_bind]. eexists. split; [done|]. split_and!.
  - split; cbn.
    + rewrite lookup_insert_eq. unfold set_list, with_free. rewrite Hc. do 2 f_equal.
      rewrite u32_add_nowrap by lia. simpl. lia.
    + split_and!; [done|done|]. exists (zn_freelist zn). rewrite lookup_insert_eq. split; [done|].
      eapply freelist_frame; [|exact Hl]. intros b Hb. apply lookup_insert_ne. set_solver.
    + done.
    + by constructor.
    + lia.
  - split_and!; cbn; try done; intros x Hx; apply lookup_insert_ne; [|done]. set_solver.
  - done.
Qed.

Lemma zcram_loop_ok (fuel : nat) s z zn l mem_ size bs :
  zone_rep s z zn l -> 0 < bs -> 0 < mem_ -> 0 <= size -> mem_ + size + bs <= 2 ^ 32 ->
  (forall a, a ∈ l -> a < mem_ \/ mem_ + size <= a) -> length l + size / bs < 2 ^ 32 -> size / bs < fuel ->
  exists s', zcram_loop fuel z mem_ size bs s = Done s' /\
    zone_rep s' z (with_free zn (reverse (chunks mem_ bs size) ++ l) (zn_lock zn)) (reverse (chunks mem_ bs size) ++ l) /\
    zkeeps z (chunks mem_ bs size) s s' /\ vmst s' = vmst s.
Proof using.
  revert s zn l mem_ size. induction fuel as [|fuel IH]; intros s zn l mem_ size Hr Hb Hm Hs Hov Hfr Hlen Hf.
  { pose proof (Z.div_pos size bs). lia. }
  cbn [zcram_loop]. destruct (Z.leb_spec bs size).
  - rewrite (zr_zone _ _ _ _ Hr). cbn [deref mbind outcome_bind].
    assert (Hd : size / bs = (size - bs) / bs + 1).
    { replace size with (size - bs + 1 * bs) at 1 by lia. by rewrite Z.div_add by lia. }
    assert (0 <= (size - bs) / bs) by (apply Z.div_pos; lia).
    destruct (push_chunk_ok s z zn l mem_ Hr Hm) as (s1&E1&Hr1&Hk1&Hv1).
    { intros Hin. specialize (Hfr _ Hin). lia. } { lia. }
    apply bind_Done in E1 as (s1'&E1&[= ->]). rewrite E1. cbn [mbind outcome_bind].
    rewrite u32_add_nowrap, u32_sub_nowrap by lia.
    destruct (IH s1 _ (mem_ :: l) (mem_ + bs) (size - bs) Hr1) as (s'&E&Hr'&Hk'&Hv');
      [done|lia|lia|lia| |cbn [length]; lia|lia|].
    { intros a [->|Ha]%elem_of_cons; [lia|]. specialize (Hfr a Ha). lia. }
    exists s'. split; [exact E|]. rewrite (chunks_step mem_ bs size) by lia.
    rewrite reverse_cons, <-app_assoc. cbn [app]. split_and!; [exact Hr'| |congruence].
    apply (zkeeps_trans _ _ _ s1); (eapply zkeeps_weaken; [|eassumption]); set_solver.
  - assert (Hz : size / bs = 0) by (apply Z.div_small; lia).
    exists s. unfold chunks. rewrite Hz, seqZ_nil by lia. cbn [fmap list_fmap]. rewrite reverse_nil. cbn [app].
    rewrite <-(zone_rep_eq s z zn l Hr). split_and!; [done|done|apply zkeeps_refl|done].
Qed.

(** What [_zrefill(zone,32,32)] leaves: the free chunks and the new memory. *)
Definition refilled (zn : zone) (l : list Z) (r : option (Z * Z)) : list Z :=
  match r with
  | Some (begin_, size) => reverse (chunks begin_ (zn_bufsize zn) size) ++ l
  | None => l
  end.

(** The memory the page source hands out is not in use by the zone. *)
Definition fresh_memory (zn : zone) (l : list Z) (r : option (Z * Z)) : Prop :=
  match r with
  | Some (begin_, size) =>
      0 < begin_ /\ 0 <= size /\ begin_ + size + zn_bufsize zn <= 2 ^ 32 /\
      (forall a, a ∈ l -> a < begin_ \/ begin_ + size <= a) /\ length l + size / zn_bufsize zn < 2 ^ 32
  | None => True
  end.

Lemma freelist_pos m p l : freelist m p l -> Forall (fun a => 0 < a) l.
Proof using.
  revert p. induction l as [|a l IH]; intros p; simpl; [constructor|]. intros (_&Ha&q&_&Hl). constructor; eauto.
Qed.

(** The free list after a refill is again a list of distinct chunks. *)
Lemma refilled_list s z zn l r :
  zone_rep s z zn l -> 0 < zn_bufsize zn -> fresh_memory zn l r ->
  NoDup (refilled zn l r) /\ Forall (fun a => 0 < a) (refilled zn l r) /\ length (refilled zn l r) < 2 ^ 32.
Proof using.
  intros [_ Hl%freelist_pos _ Hnd Hsm] Hb. destruct r as [[begin_ size]|]; cbn [refilled fresh_memory]; [|done].
  intros (Hp&Hs&_&Hout&Hlen).
  assert (Hin : forall a, a ∈ reverse (chunks begin_ (zn_bufsize zn) size) ->
    begin_ <= a /\ a + zn_bufsize zn <= begin_ + size).
  { intros a Ha. rewrite elem_of_reverse in Ha. exact (chunks_in _ _ _ _ Hb Hs Ha). }
  split_and!.
  - apply NoDup_app. split; [|split; [|done]]; [|intros a Ha Hal; apply Hin in Ha; apply Hout in Hal; lia].
    rewrite reverse_Permutation. apply NoDup_fmap_2; [intros i j ?; nia|apply NoDup_seqZ].
  - apply Forall_app. split; [|done]. apply Forall_forall. intros a Ha%Hin. lia.
  - pose proof (Z.div_pos size (zn_bufsize zn) Hs Hb).
    rewrite length_app, length_reverse. unfold chunks. rewrite length_fmap, length_seqZ. lia.
Qed.

Lemma zrefill_ok (fuel : nat) s z zn l min num r v :
  zone_rep s z zn l -> 0 < zn_bufsize zn ->
  (if truthy (Z.land (zn_memtype zn) ZONE_AR_CRITICAL)
   then alloc_critical (zn_bufsize zn *u num) (refill (vmst s))
   else kalloc_ll (zn_bufsize zn *u num) (vmst s)) = Done (r, v) ->
  fresh_memory zn l r -> match r with Some (_, size) => size / zn_bufsize zn < fuel | None => True end ->
  zn_count zn < min ->
  exists s', _zrefill fuel z min num s = Done s' /\
    zone_rep s' z (with_free zn (refilled zn l r) (zn_lock zn)) (refilled zn l r) /\
    zkeeps z (refilled zn l r) s s' /\ vmst s' = v.
Proof using.
  intros Hr Hb Hsrc Hfr Hf Hcnt. unfold _zrefill. rewrite (zr_zone _ _ _ _ Hr). cbn [deref mbind outcome_bind].
  destruct (Z.ltb_spec (zn_count zn) min); [|lia]. rewrite Hsrc. cbn [mbind outcome_bind].
  assert (Hr1 : zone_rep (Zheap (zmem s) (zones s) (zone_zone s) v) z zn l) by (destruct Hr; by split).
  destruct r as [[begin_ size]|].
  - destruct Hfr as (?&?&?&?&?). unfold _zcram. cbn [zones]. rewrite (zr_zone _ _ _ _ Hr).
    cbn [deref mbind outcome_bind]. rewrite (proj2 (truthy_true begin_)) by lia.
    destruct (zcram_loop_ok fuel _ z zn l begin_ size (zn_bufsize zn) Hr1) as (s'&E&Hr'&Hk&Hv); [done..|].
    exists s'. split_and!; [exact E|exact Hr'| |exact Hv].
    assert (Hk2 : zkeeps z (refilled zn l (Some (begin_, size))) (Zheap (zmem s) (zones s) (zone_zone s) v) s').
    { eapply zkeeps_weaken; [|exact Hk]. intros a Ha. cbn [refilled]. apply elem_of_app. left.
      by apply elem_of_reverse. }
    exact Hk2.
  - eexists. split; [done|]. cbn [refilled]. rewrite <-(zone_rep_eq s z zn l Hr). split_and!; done.
Qed.

Lemma unlock_zone_ok s z zn l :
  zone_rep s z zn l ->
  unlock_zone z s = Done (Zheap (zmem s) (<[z := set_lock 0 zn]> (zones s)) (zone_zone s) (vmst s)).
Proof using.
  intros Hr. unfold unlock_zone, with_zone. by rewrite (zr_zone _ _ _ _ Hr).
Qed.

(** The end of [zalloc]: the top of the list [l], under the lock. *)
Lemma zalloc_tail_ok s z zn l :
  zone_rep s z zn l -> zn_lock zn = -1 -> Forall (fun a => a + 4 < 2 ^ 32) l ->
  exists s', ('(ret, s1) ← remove_top z s; s2 ← unlock_zone z s1; Done (ret, s2)) =
      Done (match l with [] => 0 | a :: _ => a + 4 end, s') /\
    zone_rep s' z (with_free zn (tail l) 0) (tail l) /\
    match l with [] => True | a :: _ => zmem s' !! a = Some z end /\ vmst s' = vmst s /\ zkeeps z l s s'.
Proof using.
  intros Hr Hlk Hb. pose proof (remove_top_ok s z zn l Hr Hb Hlk) as Hrt. destruct l as [|a l].
  - rewrite Hrt. cbn [mbind outcome_bind]. rewrite (unlock_zone_ok _ _ _ _ Hr). cbn [mbind outcome_bind].
    eexists. split; [done|]. split_and!; try done; [|apply (zkeeps_lock z [] s 0 zn _ (zr_zone _ _ _ _ Hr))].
    cbn [tail]. replace (with_free zn [] 0) with (set_lock 0 zn) by (by rewrite (zone_rep_eq _ _ _ _ Hr) at 1).
    by apply set_lock_rep.
  - destruct Hrt as (s1&->&Hr1&Hm1&Hk1&Hv1). cbn [mbind outcome_bind]. rewrite (unlock_zone_ok _ _ _ _ Hr1).
    cbn [mbind outcome_bind]. eexists. split; [done|]. split_and!; try done.
    + exact (set_lock_rep _ _ _ _ 0 Hr1).
    + eapply zkeeps_trans; [|apply (zkeeps_lock z _ s1 0 _ _ (zr_zone _ _ _ _ Hr1))].
      eapply zkeeps_weaken; [|exact Hk1]. set_solver.
Qed.
End zone_props.

(** ** Properties *)

Section zone_theorems.
Context {V : Type} `{KmemSource V}.
Implicit Types s : zheap V.

(** A zone that does not refill itself at this moment. *)
Definition no_refill (zn : zone) : Prop :=
  truthy (Z.land (zn_memtype zn) ZONE_AUTO_REFILL) = false \/ 32 <= zn_count zn.

Lemma zalloc_no_refill (fuel : nat) s z zn l :
  zone_rep s z zn l -> zn_lock zn = 0 -> 0 < z -> no_refill zn -> Forall (fun a => a + 4 < 2 ^ 32) l ->
  exists s', zalloc fuel z s = Done (match l with [] => 0 | a :: _ => a + 4 end, s') /\
    zone_rep s' z (with_free zn (tail l) 0) (tail l) /\
    match l with [] => True | a :: _ => zmem s' !! a = Some z end /\ vmst s' = vmst s /\ zkeeps z l s s'.
Proof using.
  intros Hr Hlk Hz Hno Hb. unfold zalloc. rewrite (proj2 (truthy_true z)) by lia.
  rewrite (lock_zone_ok _ _ _ _ Hr Hlk). cbn [mbind outcome_bind].
  pose proof (set_lock_rep _ _ _ _ (-1) Hr) as Hr1. rewrite (zr_zone _ _ _ _ Hr1). cbn [deref mbind outcome_bind].
  set (s1 := Zheap _ _ _ _) in *.
  assert ((if truthy (Z.land (zn_memtype (set_lock (-1) zn)) ZONE_AUTO_REFILL) then _zrefill fuel z 32 32 s1
           else Done s1) = Done s1) as ->.
  { destruct Hno as [Hno|Hno]; cbn [set_lock zn_memtype]; [by rewrite Hno|]. case_match; [|done].
    unfold _zrefill. rewrite (zr_zone _ _ _ _ Hr1). cbn [deref mbind outcome_bind set_lock zn_count].
    destruct (Z.ltb_spec (zn_count zn) 32); [lia|done]. }
  cbn [mbind outcome_bind].
  destruct (zalloc_tail_ok s1 z (set_lock (-1) zn) l Hr1 eq_refl Hb) as (s'&E&Hr'&Hm&Hv&Hk).
  exists s'. split; [exact E|]. split_and!; [done..|].
  eapply zkeeps_trans; [|exact Hk]. apply (zkeeps_lock z l s _ _ _ (zr_zone _ _ _ _ Hr)).
Qed.

(** Freeing an object puts its chunk back on top of the list. *)
Lemma zfree_ok s z zn l a :
  zone_rep s z zn l -> zn_lock zn = 0 -> 0 < a -> a + 4 < 2 ^ 32 -> a ∉ l -> length l + 1 < 2 ^ 32 ->
  zmem s !! a = Some z ->
  exists s', zfree (a + 4) s = Done s' /\ zone_rep s' z (with_free zn (a :: l) 0) (a :: l) /\ vmst s' = vmst s /\
    zkeeps z [a] s s'.
Proof using.
  intros Hr Hlk Ha Hb Hal Hlen Hm.
  unfold zfree. rewrite (proj2 (truthy_true (a + 4))) by lia. unfold SIZEOF_POINTER. cbv zeta.
  rewrite u32_sub_nowrap by lia. replace (a + 4 - 4) with a by lia. rewrite Hm. cbn [deref mbind outcome_bind].
  pose proof (set_lock_rep _ _ _ _ (-1) Hr) as Hr2.
  rewrite (lock_zone_ok _ _ _ _ Hr Hlk). cbn [mbind outcome_bind].
  rewrite (zr_zone _ _ _ _ Hr2). cbn [deref mbind outcome_bind].
  destruct (push_chunk_ok _ z _ l a Hr2 Ha Hal) as (s3&E3&Hr3&Hk3&Hv3); [lia|].
  apply bind_Done in E3 as (s3'&E3&[= ->]). rewrite E3. cbn [mbind outcome_bind].
  rewrite (unlock_zone_ok _ _ _ _ Hr3). eexists. split; [done|].
  split; [exact (set_lock_rep _ _ _ _ 0 Hr3)|]. split; [exact Hv3|].
  eapply zkeeps_trans; [apply (zkeeps_lock z _ s (-1) zn _ (zr_zone _ _ _ _ Hr))|].
  eapply zkeeps_trans; [exact Hk3|apply (zkeeps_lock z _ s3 0 _ _ (zr_zone _ _ _ _ Hr3))].
Qed.

(** [zalloc] and [zfree]: an allocation takes the top chunk off the
    zone's free list, lowers the count and returns the address behind the
    chunk's header (null, and nothing changed, when the list is empty);
    freeing the object gives the zone its list and its record back. *)
Theorem zalloc_zfree_round_trip (fuel : nat) s z zn l :
  zone_rep s z zn l -> zn_lock zn = 0 -> 0 < z -> no_refill zn -> Forall (fun a => a + 4 < 2 ^ 32) l ->
  match l with
  | [] => exists s', zalloc fuel z s = Done (0, s') /\ zone_rep s' z zn []
  | a :: l' => exists s1 s2, zalloc fuel z s = Done (a + 4, s1) /\ zone_rep s1 z (with_free zn l' 0) l' /\
      zfree (a + 4) s1 = Done s2 /\ zone_rep s2 z zn (a :: l')
  end.
Proof using.
  intros Hr Hlk Hz Hno Hb. destruct (zalloc_no_refill fuel s z zn l Hr Hlk Hz Hno Hb) as (s1&E&Hr1&Hm&_).
  destruct l as [|a l].
  - exists s1. split; [done|]. rewrite (zone_rep_eq _ _ _ _ Hr), Hlk. exact Hr1.
  - cbn [tail] in Hr1. pose proof Hr as [_ (_&Ha&_) _ Hnd Hsm]. apply NoDup_cons in Hnd as [Hal _].
    apply Forall_inv in Hb. cbn [length] in Hsm.
    destruct (zfree_ok s1 z _ l a Hr1 eq_refl Ha) as (s2&E2&Hr2&_); [lia|done|lia|done|].
    exists s1, s2. split_and!; [done..|]. rewrite (zone_rep_eq _ _ _ _ Hr), Hlk. exact Hr2.
Qed.

Lemma zalloc_refill_ok (fuel : nat) s z zn l r v :
  zone_rep s z zn l -> zn_lock zn = 0 -> 0 < z -> 0 < zn_bufsize zn ->
  truthy (Z.land (zn_memtype zn) ZONE_AUTO_REFILL) = true -> zn_count zn < 32 ->
  (if truthy (Z.land (zn_memtype zn) ZONE_AR_CRITICAL)
   then alloc_critical (zn_bufsize zn *u 32) (refill (vmst s))
   else kalloc_ll (zn_bufsize zn *u 32) (vmst s)) = Done (r, v) ->
  fresh_memory zn l r -> match r with Some (_, size) => size / zn_bufsize zn < fuel | None => True end ->
  Forall (fun a => a + 4 < 2 ^ 32) (refilled zn l r) ->
  exists s', zalloc fuel z s = Done (match refilled zn l r with [] => 0 | a :: _ => a + 4 end, s') /\
    zone_rep s' z (with_free zn (tail (refilled zn l r)) 0) (tail (refilled zn l r)) /\ vmst s' = v /\
    zkeeps z (refilled zn l r) s s' /\
    match refilled zn l r with [] => True | a :: _ => zmem s' !! a = Some z end.
Proof using.
  intros Hr Hlk Hz Hb Hauto Hcnt Hsrc Hfr Hf Hsm. unfold zalloc. rewrite (proj2 (truthy_true z)) by lia.
  rewrite (lock_zone_ok _ _ _ _ Hr Hlk). cbn [mbind outcome_bind].
  pose proof (set_lock_rep _ _ _ _ (-1) Hr) as Hr1. rewrite (zr_zone _ _ _ _ Hr1). cbn [deref mbind outcome_bind].
  cbn [set_lock zn_memtype]. rewrite Hauto. set (s1 := Zheap _ _ _ _) in *.
  destruct (zrefill_ok fuel s1 z (set_lock (-1) zn) l 32 32 r v Hr1 Hb Hsrc Hfr Hf Hcnt)
    as (s2&->&Hr2&Hk2&Hv2). cbn [mbind outcome_bind].
  destruct (zalloc_tail_ok s2 z _ (refilled zn l r) Hr2 eq_refl Hsm) as (s'&E&Hr'&Hm'&Hv'&Hk').
  exists s'. split; [exact E|]. split; [exact Hr'|]. split; [congruence|]. split; [|exact Hm'].
  eapply zkeeps_trans; [apply (zkeeps_lock z _ s (-1) zn _ (zr_zone _ _ _ _ Hr))|].
  eapply zkeeps_trans; [exact Hk2|exact Hk'].
Qed.
(** The automatic refill: an allocation from a zone with less than 32
    free chunks first asks the virtual memory layer for memory for 32 more;
    the memory it gets is cut into chunks that go on the free list, and the
    object returned is the top of the extended list.  When the layer refuses,
    the allocation goes on with the old list. *)
Theorem zalloc_refills (fuel : nat) s z zn l r v :
  zone_rep s z zn l -> zn_lock zn = 0 -> 0 < z -> 0 < zn_bufsize zn ->
  truthy (Z.land (zn_memtype zn) ZONE_AUTO_REFILL) = true -> zn_count zn < 32 ->
  (if truthy (Z.land (zn_memtype zn) ZONE_AR_CRITICAL)
   then alloc_critical (zn_bufsize zn *u 32) (refill (vmst s))
   else kalloc_ll (zn_bufsize zn *u 32) (vmst s)) = Done (r, v) ->
  fresh_memory zn l r -> match r with Some (_, size) => size / zn_bufsize zn < fuel | None => True end ->
  Forall (fun a => a + 4 < 2 ^ 32) (refilled zn l r) ->
  exists s', zalloc fuel z s = Done (match refilled zn l r with [] => 0 | a :: _ => a + 4 end, s') /\
    zone_rep s' z (with_free zn (tail (refilled zn l r)) 0) (tail (refilled zn l r)) /\ vmst s' = v.
Proof using.
  intros. edestruct zalloc_refill_ok as (s'&E&Hr&Hv&_); try eassumption. by exists s'.
Qed.
End zone_theorems.

(** ** Buffer sizes *)

(** The doubling phase: [num] is the power of two [2^k]. *)
Lemma bufsize_double (fuel : nat) k size :
  1 <= k <= 7 -> 2 ^ 7 < size -> 7 - k < fuel ->
  exists fuel', bufsize_loop fuel (2 ^ k) (2 ^ k) size = bufsize_loop fuel' (2 ^ 7) (2 ^ 7) size /\
    Z.of_nat fuel' = fuel - (7 - k).
Proof.
  revert k. induction fuel as [|fuel IH]; intros k Hk Hs Hf; [lia|].
  destruct (decide (k = 7)) as [->|]; [exists (S fuel); split; [done|lia]|].
  assert (2 ^ k < 2 ^ 7) by (apply Z.pow_lt_mono_r; lia). cbn [bufsize_loop]. unfold BUF_LINE.
  destruct (Z.ltb_spec (2 ^ k) size); [|lia]. destruct (Z.ltb_spec (2 ^ k) 128); [|lia].
  assert (u32 (Z.shiftl (2 ^ k) 1) = 2 ^ (k + 1)) as ->.
  { rewrite Z.shiftl_mul_pow2, Z.pow_add_r by lia. apply wrap_small. lia. }
  destruct (IH (k + 1)) as (fuel'&E&Hf'); [lia|lia|lia|]. exists fuel'. split; [done|]. lia.
Qed.

Lemma bufsize_small (fuel : nat) k size :
  1 <= k <= 7 -> size <= 128 -> k = 1 \/ 2 ^ (k - 1) < size -> 7 - k < fuel ->
  exists j, k <= j <= 7 /\ bufsize_loop fuel (2 ^ k) (2 ^ k) size = Done (2 ^ j) /\ size <= 2 ^ j /\
    (j = 1 \/ 2 ^ (j - 1) < size).
Proof.
  revert k. induction fuel as [|fuel IH]; intros k Hk Hs Hlow Hf; [lia|].
  cbn [bufsize_loop]. destruct (Z.ltb_spec (2 ^ k) size); [|exists k; split_and!; (done || lia)].
  assert (k <> 7) by (intros ->; lia).
  assert (2 ^ k < 2 ^ 7) by (apply Z.pow_lt_mono_r; lia). unfold BUF_LINE.
  destruct (Z.ltb_spec (2 ^ k) 128); [|lia].
  assert (u32 (Z.shiftl (2 ^ k) 1) = 2 ^ (k + 1)) as ->.
  { rewrite Z.shiftl_mul_pow2, Z.pow_add_r by lia. apply wrap_small. lia. }
  destruct (IH (k + 1)) as (j&Hj&E&Hle&Hj1); [lia|lia|right; by replace (k + 1 - 1) with k by lia|lia|].
  exists j. split_and!; (done || lia).
Qed.

Lemma bufsize_lines (fuel : nat) q size :
  1 <= q -> 128 * (q - 1) < size -> size + 128 < 2 ^ 32 -> (size + 127) / 128 - q < fuel -> 0 < fuel ->
  bufsize_loop fuel (128 * q) 128 size = Done (128 * Z.max q ((size + 127) / 128)).
Proof.
  revert q. induction fuel as [|fuel IH]; intros q Hq Hlow Hov Hf Hpos; [lia|]. cbn [bufsize_loop]. unfold BUF_LINE.
  pose proof (Z.div_mod (size + 127) 128 ltac:(lia)). pose proof (Z.mod_pos_bound (size + 127) 128 ltac:(lia)).
  destruct (Z.ltb_spec (128 * q) size).
  - destruct (Z.ltb_spec (128 * q) 128); [lia|]. rewrite u32_add_nowrap by lia.
    replace (128 * q + 128) with (128 * (q + 1)) by lia. rewrite IH by lia. f_equal. lia.
  - f_equal. lia.
Qed.

(** [calc_bufsize]: for an object size that leaves room in 32 bits, the
    computation ends and the buffer holds the object and its header: below a
    cache line the size is the next power of two, above it the next multiple of
    the line, so that no more than a line is wasted. *)
Theorem calc_bufsize_correct (fuel : nat) size :
  0 <= size -> size + 132 < 2 ^ 32 -> size / 128 + 10 < fuel ->
  exists b, calc_bufsize fuel size = Done b /\ size + 4 <= b /\
    (size + 4 <= 128 -> exists k, 1 <= k <= 7 /\ b = 2 ^ k /\ (2 < b -> b < 2 * (size + 4))) /\
    (128 < size + 4 -> exists q, b = 128 * q /\ b < size + 4 + 128).
Proof.
  intros Hs Hov Hf. unfold calc_bufsize, SIZEOF_POINTER. rewrite u32_add_nowrap by lia.
  assert (0 <= size / 128) by (apply Z.div_pos; lia).
  destruct (Z.lt_ge_cases 128 (size + 4)) as [Hbig|Hsmall].
  - destruct fuel as [|fuel]; [lia|]. cbn [bufsize_loop]. destruct (Z.ltb_spec 0 (size + 4)); [|lia].
    cbn [Z.ltb BUF_LINE Z.compare]. change (u32 (Z.shiftl 1 1)) with (2 ^ 1).
    destruct (bufsize_double fuel 1 (size + 4)) as (fuel'&->&Hf'); [lia|lia|lia|].
    assert (Hq : (size + 4 + 127) / 128 <= size / 128 + 2).
    { apply Z.lt_succ_r. apply Z.div_lt_upper_bound; [lia|].
      pose proof (Z.div_mod size 128 ltac:(lia)). pose proof (Z.mod_pos_bound size 128 ltac:(lia)). lia. }
    change (2 ^ 7) with (128 * 1). rewrite bufsize_lines by lia.
    pose proof (Z.div_mod (size + 4 + 127) 128 ltac:(lia)).
    pose proof (Z.mod_pos_bound (size + 4 + 127) 128 ltac:(lia)).
    eexists. split; [done|]. split; [lia|]. split; [lia|]. intros _. eexists. split; [done|]. lia.
  - destruct fuel as [|fuel]; [lia|]. cbn [bufsize_loop]. destruct (Z.ltb_spec 0 (size + 4)); [|lia].
    cbn [Z.ltb BUF_LINE Z.compare]. change (u32 (Z.shiftl 1 1)) with (2 ^ 1).
    destruct (bufsize_small fuel 1 (size + 4)) as (j&Hj&E&Hle&Hlow); [lia|lia|lia|lia|].
    exists (2 ^ j). split; [done|]. split; [done|]. split; [|lia]. intros _. exists j. split; [lia|].
    split; [done|]. intros H2. destruct Hlow as [->|Hlow]; [done|].
    replace j with (Z.succ (j - 1)) by lia. rewrite Z.pow_succ_r by lia. lia.
Qed.

(** ** A concrete heap *)

Module ZoneExample.
(** A page source that always hands out the memory at 1 MB. *)
#[local] Instance fixed_source : KmemSource unit := {
  kalloc_ll size s := Done (Some (0x100000, size), s);
  alloc_critical size s := Done (Some (0x100000, size), s);
  refill s := s;
}.

Definition zn (memtype : Z) : zone := Zone 32 0x2000 "example" 2 memtype 0.
Definition heap (memtype : Z) : zheap unit :=
  Zheap {[ 0x2000 := 0x2020; 0x2020 := 0 ]} {[ 0x1000 := zn memtype ]} 0 tt.

Lemma heap_rep memtype : zone_rep (heap memtype) 0x1000 (zn memtype) [0x2000; 0x2020].
Proof.
  split; try done.
  - split_and!; [done|done|]. exists 0x2020. split; [done|]. split_and!; [done|done|]. by exists 0.
  - repeat constructor; set_solver.
Qed.

Lemma zalloc_zfree_round_trip_witness :
  exists s1 s2, zalloc 1 0x1000 (heap 0) = Done (0x2000 + 4, s1) /\
    zone_rep s1 0x1000 (with_free (zn 0) [0x2020] 0) [0x2020] /\
    zfree (0x2000 + 4) s1 = Done s2 /\ zone_rep s2 0x1000 (zn 0) [0x2000; 0x2020].
Proof.
  refine (zalloc_zfree_round_trip 1 (heap 0) 0x1000 (zn 0) [0x2000; 0x2020] (heap_rep 0) _ _ _ _).
  - reflexivity.
  - lia.
  - left. reflexivity.
  - repeat constructor; lia.
Defined.

Lemma zalloc_refills_witness :
  let l := refilled (zn 1) [0x2000; 0x2020] (Some (0x100000, 1024)) in
  length l = 34%nat /\
  exists s', zalloc 64 0x1000 (heap 1) = Done (match l with [] => 0 | a :: _ => a + 4 end, s') /\
    zone_rep s' 0x1000 (with_free (zn 1) (tail l) 0) (tail l) /\ vmst s' = tt.
Proof.
  split; [reflexivity|].
  refine (zalloc_refills 64 (heap 1) 0x1000 (zn 1) [0x2000; 0x2020] (Some (0x100000, 1024)) tt
            (heap_rep 1) _ _ _ _ _ _ _ _ _).
  - reflexivity.
  - lia.
  - reflexivity.
  - reflexivity.
  - reflexivity.
  - reflexivity.
  - split_and!; [lia|lia|cbn; lia| |reflexivity].
    intros a. rewrite !elem_of_cons. intros [->|[->|[]%not_elem_of_nil]]; left; lia.
  - reflexivity.
  - apply (bool_decide_unpack _). vm_compute. exact I.
Defined.

Lemma calc_bufsize_correct_witness :
  calc_bufsize 20 300 = Done 384 /\ exists b, calc_bufsize 20 300 = Done b /\ 300 + 4 <= b.
Proof.
  split; [reflexivity|].
  destruct (calc_bufsize_correct 20 300) as (b&E&Hb&_); [lia|lia|reflexivity|].
  exists b. split; assumption.
Defined.

(** A size near 2^32: the addition of the header wraps, and the buffer is
    smaller than the object. *)
Example calc_bufsize_wraps : calc_bufsize 20 (2 ^ 32 - 1) = Done 4.
Proof. reflexivity. Qed.
End ZoneExample.
