(* ===== verification/Kmem.v ===== *)
(** * The contract of the kernel heap

    What the zone allocator, the stacks and the boot code rely on when they ask
    the virtual memory layer for memory ([vm/vm_top.h]): successive requests
    get successive pages of the kernel heap, as long as there are pages.  The
    class [KmemLaws] states it over the interface [KmemSource]; the instance
    [vm_laws] shows that the layer of [Vm] keeps it. *)

From S2P Require Import Prelude Ring Spinlock PhysAlloc Mmu MmuProps Vm VmProps Zalloc.

(** The data space of the kernel heap: 128 pages from the start of the kernel's
    protection domain. *)
Definition KMEM_BEGIN : Z := 0xC1000000.
Definition KMEM_PAGES : Z := 128.

Definition pages_for (size : Z) : Z := (size + 4095) / 4096.

(** What [vm_kalloc_ll] prints. *)
Definition ll_message (size : Z) : string * Z := ("LL: %d", pages_for size).

Class KmemLaws (V : Type) `{KmemSource V} := {
  (** The next request is served at [va]; [n] pages are left; [log] is what the
      layer has printed. *)
  kmem_at : V -> Z -> Z -> list (string * Z) -> Prop;
  kmem_bounds v va n log :
    kmem_at v va n log -> KMEM_BEGIN <= va /\ 0 <= n /\ va + 4096 * n <= KMEM_BEGIN + 4096 * KMEM_PAGES;
  kmem_alloc v va n log size :
    kmem_at v va n log -> 0 < size < 2 ^ 31 -> pages_for size <= n ->
    exists v', kalloc_ll size v = Done (Some (va, 4096 * pages_for size), v') /\
      kmem_at v' (va + 4096 * pages_for size) (n - pages_for size) (log ++ [ll_message size]);
}.

(** The kernel's region mapper has the data space as its only object; its
    entries below [i] are in use and the others free; [rest] are the free pages
    of memory.  Page 0 must not be among them: an entry that holds it counts as
    free. *)
Record heap_at (s : vm) (i : nat) (rest : list Z) : Prop := {
  ha_grow : grow_ok s;
  ha_mapper : mapper s kernel_rm [(0, Rmo 0 524288 (DsObj 0) RMO_DATASPACE 1)];
  ha_begin : pd_begin (kernel_pd s) = KMEM_BEGIN;
  ha_phys : exists ms, phys_rep (phys s) ms /\ pmb_lock (phys s) = 0 /\ free_pages (phys s) ms = rest;
  ha_pages : Forall (fun a => 0 < a < 2 ^ 32 /\ a mod 4096 = 0) rest;
  ha_tables : forall k : nat, (k < 128)%nat -> has_table (mm s) (KMEM_BEGIN + 4096 * k);
  ha_used : (i <= 128)%nat;
  ha_ds : exists ds, dss s !! 0 = Some ds /\ ds_n_pages ds = 128 /\ (128 <= length (ds_pages ds))%nat /\
    (forall k e, (k < i)%nat -> ds_pages ds !! k = Some e -> e <> 0) /\
    (forall k, (i <= k < 128)%nat -> ds_pages ds !! k = Some 0);
}.

Lemma first_free_entry (l : list Z) (i : nat) :
  (i < 128)%nat -> (128 <= length l)%nat -> (forall k e, (k < i)%nat -> l !! k = Some e -> e <> 0) ->
  l !! i = Some 0 -> find_index (fun e => e =? 0) (take (Z.to_nat 128) l) = Some i.
Proof.
  intros Hi Hl Hlow Hz. apply find_index_Some. change (Z.to_nat 128) with 128%nat. split.
  - exists 0. by rewrite lookup_take_lt.
  - intros j x Hj. rewrite lookup_take_lt by lia. intros Hx. apply Z.eqb_neq. by eapply Hlow.
Qed.

Lemma pages_for_pos size : 0 < size -> 1 <= pages_for size.
Proof. intros. unfold pages_for. apply Z.div_le_lower_bound; lia. Qed.

(** One request. *)
Lemma heap_at_alloc s (i : nat) pages rest size :
  heap_at s i (pages ++ rest) -> 0 < size < 2 ^ 31 -> Z.of_nat (length pages) = pages_for size ->
  (i + length pages <= 128)%nat ->
  exists s', kalloc_ll size s = Done (Some (KMEM_BEGIN + 4096 * i, 4096 * length pages), s') /\
    heap_at s' (i + length pages) rest /\ printed s' = printed s ++ [ll_message size].
Proof.
  intros [Hgo Hm Hb (ms&Hrep&Hlk&Hfree) Hp Ht Hi (ds&Hds&Hn&Hlen&Hused&Hzero)] Hs Hlp Hin.
  pose proof (pages_for_pos size ltac:(lia)).
  destruct (vm_kalloc_ll_ok s 0 (Rmo 0 524288 (DsObj 0) RMO_DATASPACE 1) [] 0 ds i size pages rest ms)
    as (s'&ds'&E&(Hgo'&Hrep'&Hlk'&Hfree')&(Hds'&Hn'&Hl')&Hnew&Hold&_&_&(Hk1&Hk2&Hk3&Hk4)&Hlog); try done.
  - rewrite Hn. apply first_free_entry; [lia|done|done|]. apply Hzero. lia.
  - rewrite Hn. lia.
  - lia.
  - by rewrite Hb.
  - by rewrite Hb.
  - rewrite Hb, Hn. done.
  - apply Forall_app in Hp as [Hp _]. eapply Forall_impl; [exact Hp|]. intros a. unfold in_u32. cbn. lia.
  - intros k Hk. rewrite Hb. cbn [rmo_offset].
    replace (KMEM_BEGIN + 0 + 4096 * i + 4096 * k) with (KMEM_BEGIN + 4096 * (i + k)%nat) by lia. apply Ht. lia.
  - exists s'. split.
    { cbn [kalloc_ll vm_source]. rewrite E, Hb. unfold kmem_result. cbn [mbind outcome_bind truthy Z.eqb negb deref].
      cbn [rmo_offset]. by rewrite Z.add_0_r. }
    split; [|by rewrite Hlog, Hlp]. split; [done| |by rewrite Hk3|by exists ms| | |lia|].
    + destruct Hm as [Hm1 Hm2]. split; [by rewrite Hk1|]. by rewrite Hk2.
    + by apply Forall_app in Hp as [_ Hp].
    + intros k Hk. by apply Hk4, Ht.
    + exists ds'. split_and!; [done|lia|lia| |].
      * intros k e Hk He. destruct (decide (k < i)%nat) as [Hki|Hki].
        { rewrite Hold in He by lia. by eapply Hused. }
        destruct (lookup_lt_is_Some_2 pages (k - i)) as [a Ha]; [lia|]. pose proof (Hnew _ _ Ha) as Hna.
        replace (i + (k - i))%nat with k in Hna by lia. rewrite He in Hna. injection Hna as ->.
        apply Forall_app in Hp as [Hp _]. apply (Forall_lookup_1 _ _ _ _ Hp) in Ha. lia.
      * intros k Hk. rewrite Hold by lia. apply Hzero. lia.
Qed.

(** The virtual memory layer keeps the contract. *)
Definition vm_kmem_at (s : vm) (va n : Z) (log : list (string * Z)) : Prop :=
  exists (i : nat) rest, heap_at s i rest /\ printed s = log /\ va = KMEM_BEGIN + 4096 * i /\ 0 <= n /\ i + n <= 128 /\ n <= length rest.

#[export] Program Instance vm_laws : KmemLaws vm := {| kmem_at := vm_kmem_at |}.
Next Obligation.
  intros s va n log (i&rest&_&_&->&Hn&Hi&_). unfold KMEM_PAGES. lia.
Qed.
Next Obligation.
  intros s va n log size (i&rest&Hh&<-&->&Hn&Hi&Hr) Hs Hle. pose proof (pages_for_pos size ltac:(lia)).
  rewrite <-(take_drop (Z.to_nat (pages_for size)) rest) in Hh.
  assert (Hlt : Z.of_nat (length (take (Z.to_nat (pages_for size)) rest)) = pages_for size)
    by (rewrite length_take; lia).
  destruct (heap_at_alloc s i _ _ size Hh Hs Hlt) as (s'&E&Hh'&Hlog); [lia|].
  rewrite Hlt in E. exists s'. split; [exact E|]. eexists _, _. split; [exact Hh'|]. split; [exact Hlog|].
  rewrite length_drop, Nat2Z.inj_add, Hlt. lia.
Qed.

(** ** Sequences of requests *)

Section requests.
Context {V : Type} `{KmemLaws V}.

(** Requests one after the other; [None] as soon as one is refused. *)
Fixpoint kalloc_all (sizes : list Z) (v : V) : outcome (option (list (Z * Z)) * V) :=
  match sizes with
  | [] => Done (Some [], v)
  | size :: sizes =>
      '(r, v) ← kalloc_ll size v;
      match r with
      | None => Done (None, v)
      | Some a => '(l, v) ← kalloc_all sizes v; Done (option_map (cons a) l, v)
      end
  end.

(** The abstract allocator: a pointer that moves up. *)
Fixpoint bump (va : Z) (sizes : list Z) : list (Z * Z) :=
  match sizes with
  | [] => []
  | size :: sizes => (va, 4096 * pages_for size) :: bump (va + 4096 * pages_for size) sizes
  end.
Definition total_pages (sizes : list Z) : Z := foldr (fun size n => pages_for size + n) 0 sizes.

Lemma total_pages_nonneg sizes : Forall (fun size => 0 < size) sizes -> 0 <= total_pages sizes.
Proof using. induction 1 as [|size sizes Hs _ IH]; cbn; [lia|]. pose proof (pages_for_pos size Hs). unfold total_pages in IH. lia. Qed.

Lemma kalloc_all_ok sizes : Forall (fun size => 0 < size < 2 ^ 31) sizes -> forall v va n log,
  kmem_at v va n log -> total_pages sizes <= n ->
  exists v', kalloc_all sizes v = Done (Some (bump va sizes), v') /\
    kmem_at v' (va + 4096 * total_pages sizes) (n - total_pages sizes) (log ++ (ll_message <$> sizes)).
Proof using.
  induction 1 as [|size sizes Hs Hss IH]; intros v va n log Hk Hn.
  - exists v. cbn. split; [done|]. by rewrite Z.add_0_r, Z.sub_0_r, app_nil_r.
  - change (total_pages (size :: sizes)) with (pages_for size + total_pages sizes) in *.
    assert (0 <= total_pages sizes) by (apply total_pages_nonneg; eapply Forall_impl; [exact Hss|]; cbn; lia).
    destruct (kmem_alloc v va n log size Hk Hs) as (v1&E1&Hk1); [lia|].
    destruct (IH v1 _ _ _ Hk1) as (v2&E2&Hk2); [lia|]. exists v2. cbn [kalloc_all]. rewrite E1. cbn [mbind outcome_bind].
    rewrite E2. split; [done|]. rewrite fmap_cons, <-app_assoc in *.
    replace (va + 4096 * (pages_for size + total_pages sizes))
      with (va + 4096 * pages_for size + 4096 * total_pages sizes) by lia.
    by replace (n - (pages_for size + total_pages sizes)) with (n - pages_for size - total_pages sizes) by lia.
Qed.
End requests.

(** Every area lies at or above [va], and each one ends where the next begins. *)
Lemma bump_ordered sizes : Forall (fun size => 0 < size) sizes -> forall va (i j : nat) a n b m,
  bump va sizes !! i = Some (a, n) -> bump va sizes !! j = Some (b, m) -> (i < j)%nat -> va <= a /\ a + n <= b /\ 0 < m.
Proof.
  induction 1 as [|size sizes Hs Hss IH]; intros va i j a n b m Hi Hj Hij; [done|].
  destruct j as [|j]; [lia|]. pose proof (pages_for_pos size Hs). cbn in Hj.
  assert (Hfrom : va + 4096 * pages_for size <= b /\ 0 < m).
  { clear i a n Hi Hij IH. revert j Hj. generalize (va + 4096 * pages_for size). clear Hs.
    induction Hss as [|size' sizes' Hs' Hss' IH']; intros va' j Hj; [done|].
    pose proof (pages_for_pos size' Hs'). destruct j as [|j]; cbn in Hj; [injection Hj as <- <-; lia|].
    apply IH' in Hj. lia. }
  destruct i as [|i]; cbn in Hi; [injection Hi as <- <-; lia|].
  destruct (IH _ i j a n b m Hi Hj) as (?&?&?); lia.
Qed.

(** C7: the kernel heap refines a pointer that moves up: any sequence of requests
    for which there are pages left is served; the areas are whole pages, each
    begins where the one before it ends, no two of them overlap, and one line per
    request is printed. *)
Theorem vm_kalloc_ll_refines_bump (s : vm) va n log sizes :
  kmem_at s va n log -> Forall (fun size => 0 < size < 2 ^ 31) sizes -> total_pages sizes <= n ->
  (exists s', kalloc_all sizes s = Done (Some (bump va sizes), s') /\
    kmem_at s' (va + 4096 * total_pages sizes) (n - total_pages sizes) (log ++ (ll_message <$> sizes))) /\
  (forall (i j : nat) a m b k, bump va sizes !! i = Some (a, m) -> bump va sizes !! j = Some (b, k) -> (i < j)%nat ->
    a + m <= b).
Proof.
  intros Hk Hs Hn. split; [by apply kalloc_all_ok|]. intros i j a m b k Hi Hj Hij.
  destruct (bump_ordered sizes ltac:(eapply Forall_impl; [exact Hs|]; cbn; lia) va i j a m b k) as (_&?&_); done.
Qed.
