(* ===== verification/ZonePool.v ===== *)
(** * Zones as pools of objects

    Sequences of allocations and releases on one zone that refills itself
    ([kern/zalloc.c]), over any memory layer that keeps the contract of [Kmem].
    The abstract state is the list of live objects: an allocation adds an object
    that overlaps none of them, a release takes one away, and every chunk cut
    from the memory layer is either live or free. *)

From S2P Require Import Prelude Spinlock Vm Zalloc Kmem.

(** ** Sequences of operations *)

(** An allocation, or the release of the live object number [i]. *)
Inductive zop := ZAlloc | ZFree (i : nat).

(** Every release is one of a live object; [n] objects are live. *)
Fixpoint zops_valid (n : nat) (ops : list zop) : Prop :=
  match ops with
  | [] => True
  | ZAlloc :: ops => zops_valid (S n) ops
  | ZFree i :: ops => (i < n)%nat /\ zops_valid (pred n) ops
  end.

Fixpoint zallocs (ops : list zop) : nat :=
  match ops with [] => 0 | ZAlloc :: ops => S (zallocs ops) | ZFree _ :: ops => zallocs ops end.
(** The most objects that are live at a time. *)
Fixpoint zpeak (n : nat) (ops : list zop) : nat :=
  match ops with
  | [] => n
  | ZAlloc :: ops => zpeak (S n) ops
  | ZFree _ :: ops => Nat.max n (zpeak (pred n) ops)
  end.
Fixpoint zfrees (ops : list zop) : nat :=
  match ops with [] => 0 | ZAlloc :: ops => zfrees ops | ZFree _ :: ops => S (zfrees ops) end.

Lemma zpeak_ge ops : forall n, (n <= zpeak n ops)%nat.
Proof. induction ops as [|[|i] ops IH]; intros n; cbn [zpeak]; [done|specialize (IH (S n)); lia|lia]. Qed.

(** ** Memory of a zone *)

(** A refill gets the pages for 32 chunks, and cuts as many chunks as they hold. *)
Definition refill_size (bs : Z) : Z := 4096 * pages_for (bs * 32).
Definition refill_chunks (bs : Z) : Z := refill_size bs / bs.

Lemma refill_facts bs : 0 < bs -> bs * 32 <= refill_size bs < bs * 32 + 4096 /\ 32 <= refill_chunks bs /\
  bs * refill_chunks bs <= refill_size bs.
Proof.
  intros Hb. unfold refill_chunks, refill_size, pages_for.
  pose proof (Z.div_mod (bs * 32 + 4095) 4096 ltac:(lia)). pose proof (Z.mod_pos_bound (bs * 32 + 4095) 4096 ltac:(lia)).
  split; [lia|]. split; [apply Z.div_le_lower_bound; lia|]. apply Z.mul_div_le. lia.
Qed.

(** The chunk number [i] of the refill number [r] of a zone whose memory starts at
    [base]. *)
Definition slot (base bs r i : Z) : Z := base + refill_size bs * r + bs * i.

(** [a] is a chunk of the first [k] refills. *)
Definition is_chunk (base bs k a : Z) : Prop :=
  exists r i, 0 <= r < k /\ 0 <= i < refill_chunks bs /\ a = slot base bs r i.

Lemma chunk_bounds base bs k a :
  0 < bs -> is_chunk base bs k a -> base <= a /\ a + bs <= base + refill_size bs * k.
Proof.
  intros Hb (r&i&Hr&Hi&->). destruct (refill_facts bs Hb) as ([Hs _]&_&Hq). unfold slot. nia.
Qed.

(** Two chunks are [bs] apart. *)
Lemma chunks_apart base bs k c d :
  0 < bs -> is_chunk base bs k c -> is_chunk base bs k d -> c <> d -> c + bs <= d \/ d + bs <= c.
Proof.
  intros Hb (r&i&Hr&Hi&->) (r'&i'&Hr'&Hi'&->) Hne. destruct (refill_facts bs Hb) as ([Hs _]&_&Hq). unfold slot in *.
  destruct (Z.lt_trichotomy r r') as [Hlt|[->|Hlt]]; [left; nia| |right; nia].
  destruct (Z.lt_trichotomy i i') as [Hlt|[->|Hlt]]; [left; nia|done|right; nia].
Qed.

Section pool.
Context {V : Type} `{KmemLaws V}.
Implicit Types h : zheap V.

(** The operations on the zone [z], with the live objects, the last one first. *)
Fixpoint zrun (fuel : nat) (z : Z) (ops : list zop) (live : list Z) h : outcome (list Z * zheap V) :=
  match ops with
  | [] => Done (live, h)
  | ZAlloc :: ops => '(a, h) ← zalloc fuel z h; zrun fuel z ops (a :: live) h
  | ZFree i :: ops => a ← deref (live !! i); h ← zfree a h; zrun fuel z ops (delete i live) h
  end.

(** ** The invariant *)

(** A zone for objects of [bs] - 4 bytes that has been refilled [k] times with
    the memory from [base] on; [n] pages are left. *)
Record pool (z bs base k n : Z) (live l : list Z) h : Prop := {
  po_rep : exists zn, zone_rep h z zn l /\ zn_lock zn = 0 /\ zn_memtype zn = ZONE_AUTO_REFILL /\ zn_bufsize zn = bs;
  po_pos : 0 < z;
  po_size : 4 <= bs < 2 ^ 20;
  po_kmem : exists log, kmem_at (vmst h) (base + refill_size bs * k) n log;
  po_base : KMEM_BEGIN <= base /\ 0 <= k;
  po_nodup : NoDup (live ++ l);
  po_chunk : forall a, a ∈ live ++ l -> is_chunk base bs k a;
  po_header : forall a, a ∈ live -> zmem h !! a = Some z;
  po_count : length live + length l = refill_chunks bs * k;
}.

(** The objects of the chunks [live]. *)
Definition objects (live : list Z) : list Z := (fun a => a + 4) <$> live.

Lemma pool_heap_end z bs base k n live l h :
  pool z bs base k n live l h -> 0 <= n /\ base + refill_size bs * k + 4096 * n <= KMEM_BEGIN + 4096 * KMEM_PAGES.
Proof using. intros P. destruct (po_kmem _ _ _ _ _ _ _ _ P) as [log Hk]. by apply kmem_bounds in Hk as (_&?&?). Qed.

(** Chunks of [base] end before the heap does. *)
Lemma pool_chunk_small z bs base k n live l h a :
  pool z bs base k n live l h -> a ∈ live ++ l -> 0 < a /\ a + 4 < 2 ^ 32.
Proof using.
  intros P Ha. destruct (pool_heap_end _ _ _ _ _ _ _ _ P). pose proof (po_size _ _ _ _ _ _ _ _ P).
  pose proof (po_base _ _ _ _ _ _ _ _ P) as [? _].
  destruct (chunk_bounds base bs k a) as [??]; [lia|by apply (po_chunk _ _ _ _ _ _ _ _ P)|].
  unfold KMEM_BEGIN, KMEM_PAGES in *. lia.
Qed.

(** The top of the list [a :: l] becomes live. *)
Lemma pool_take z bs base k n live a l h h' zn :
  0 < z -> 4 <= bs < 2 ^ 20 ->
  zone_rep h' z zn l -> zn_lock zn = 0 -> zn_memtype zn = ZONE_AUTO_REFILL -> zn_bufsize zn = bs ->
  (exists log, kmem_at (vmst h') (base + refill_size bs * k) n log) -> KMEM_BEGIN <= base /\ 0 <= k ->
  NoDup (live ++ a :: l) -> (forall c, c ∈ live ++ a :: l -> is_chunk base bs k c) ->
  (forall c, c ∈ live -> zmem h !! c = Some z) -> length live + length (a :: l) = refill_chunks bs * k ->
  zmem h' !! a = Some z -> (forall c, c ∈ live -> zmem h' !! c = zmem h !! c) ->
  pool z bs base k n (a :: live) l h'.
Proof using.
  intros Hz Hbs Hr Hl Ht Hb Hk Hbase Hnd Hc Hh Hcnt Hm Hkeep. split; try done.
  - by exists zn.
  - rewrite <-Permutation_middle in Hnd. exact Hnd.
  - intros c Hin. apply Hc. set_solver.
  - intros c [->|Hin]%elem_of_cons; [done|]. by rewrite Hkeep, Hh.
  - cbn [length] in *. lia.
Qed.

(** The free list after a refill with the memory behind all chunks. *)
Lemma refilled_chunks bs base k live l :
  0 < bs -> 0 <= k -> NoDup (live ++ l) -> (forall a, a ∈ live ++ l -> is_chunk base bs k a) ->
  let C := reverse (chunks (base + refill_size bs * k) bs (refill_size bs)) ++ l in
  C = default 0 (head C) :: tail C /\ NoDup (live ++ C) /\ length C = refill_chunks bs + length l :> Z /\
  (forall a, a ∈ live ++ C -> is_chunk base bs (k + 1) a).
Proof using.
  intros Hb Hk Hnd Hc C. destruct (refill_facts bs Hb) as ([Hs _]&Hq&Hq').
  set (va := base + refill_size bs * k) in *.
  assert (Hin : forall c, c ∈ chunks va bs (refill_size bs) -> va <= c /\ is_chunk base bs (k + 1) c).
  { intros c (i&->&Hi%elem_of_seqZ)%list_elem_of_fmap. fold (refill_chunks bs) in Hi. split; [nia|].
    exists k, i. unfold slot, va. split_and!; lia. }
  assert (Hperm : live ++ C ≡ₚ chunks va bs (refill_size bs) ++ (live ++ l)).
  { unfold C. rewrite reverse_Permutation, !(assoc_L (++)). f_equiv. apply (comm (++)). }
  assert (Hlen : Z.of_nat (length C) = refill_chunks bs + length l).
  { unfold C, chunks. rewrite length_app, length_reverse, length_fmap, length_seqZ. fold (refill_chunks bs). lia. }
  split_and!.
  - destruct C; [cbn in Hlen; lia|done].
  - rewrite Hperm. apply NoDup_app. split_and!; [| |done].
    + apply NoDup_fmap_2_strong; [|apply NoDup_seqZ]. intros x y _ _ Hxy. nia.
    + intros c [Hcc _]%Hin Hcl%Hc. apply chunk_bounds in Hcl as [_ ?]; [|done]. unfold va in Hcc. lia.
  - exact Hlen.
  - intros a. rewrite Hperm. intros [[_ ?]%Hin|(r&i&Hr&Hi&->)%Hc]%elem_of_app; [done|]. exists r, i. split_and!; (done || lia).
Qed.

(** One allocation: from the free list, or after a refill when less than 32 chunks
    are free. *)
Lemma pool_alloc (fuel : nat) z bs base k n live l h :
  pool z bs base k n live l h -> (length l < 32 -> pages_for (bs * 32) <= n) -> refill_chunks bs < fuel ->
  exists a h' k' n' l', zalloc fuel z h = Done (a + 4, h') /\ pool z bs base k' n' (a :: live) l' h' /\
    if decide (length l < 32) then k' = k + 1 /\ n' = n - pages_for (bs * 32) else k' = k /\ n' = n.
Proof using.
  intros P Hn Hf. pose proof (pool_heap_end _ _ _ _ _ _ _ _ P) as [Hn0 Hend].
  pose proof (fun a => pool_chunk_small _ _ _ _ _ _ _ _ a P) as Hsml.
  destruct P as [(zn&Hr&Hlk&Hty&Hbs) Hz Hsz [log Hk] [Hbase Hk0] Hnd Hc Hh Hcnt].
  destruct (refill_facts bs ltac:(lia)) as (Hs&Hq&Hq'). unfold KMEM_BEGIN, KMEM_PAGES in *.
  pose proof (zr_count _ _ _ _ Hr) as Hcl.
  assert (Hsm : Forall (fun a => a + 4 < 2 ^ 32) l) by (apply Forall_forall; intros a Ha; apply Hsml; set_solver).
  case_decide as Hlow.
  - specialize (Hn Hlow). destruct (kmem_alloc _ _ _ _ (bs * 32) Hk) as (v&Ev&Hk'); [lia|done|].
    change (4096 * pages_for (bs * 32)) with (refill_size bs) in Ev, Hk'.
    destruct (refilled_chunks bs base k live l) as (HC&HndC&Hlen&HcC); [lia|lia|done|done|].
    set (va := base + refill_size bs * k) in *. set (C := reverse (chunks va bs (refill_size bs)) ++ l) in *.
    assert (HkC : va + refill_size bs <= 0xC1000000 + 4096 * 128).
    { assert (refill_size bs = 4096 * pages_for (bs * 32)) as Hrs by done. unfold va. lia. }
    assert (HCs : forall a, a ∈ C -> a + 4 < 2 ^ 32).
    { intros a Ha. destruct (chunk_bounds base bs (k + 1) a) as [_ ?]; [lia|apply HcC; set_solver|]. unfold va in HkC. lia. }
    destruct (zalloc_refill_ok fuel h z zn l (Some (va, refill_size bs)) v) as (h'&E&Hr'&Hv&(Hk1&_)&Hm); try done;
      cbn [refilled fresh_memory] in *; rewrite ?Hbs, ?Hty; try done; try lia.
    + change (truthy (Z.land ZONE_AUTO_REFILL ZONE_AR_CRITICAL)) with false. cbn match.
      rewrite (wrap_small 32 (bs * 32)) by lia. exact Ev.
    + assert (Hvb : 0xC1000000 <= va) by (unfold va; nia). fold (refill_chunks bs).
      assert (refill_chunks bs * 4 <= refill_size bs) by nia.
      assert (refill_chunks bs * k * 4 <= refill_size bs * k) by nia.
      split_and!; [lia|lia|lia| |unfold va in HkC; lia].
      intros a Ha. left. destruct (chunk_bounds base bs k a) as [_ ?]; [lia|apply Hc; set_solver|]. unfold va. lia.
    + apply Forall_forall. intros a Ha. by apply HCs.
    + rewrite Hbs in *. fold C in E, Hr', Hk1, Hm. rewrite HC in E, Hm.
      exists (default 0 (head C)), h', (k + 1), (n - pages_for (bs * 32)), (tail C).
      split; [exact E|]. split; [|done].
      apply (pool_take z bs base _ _ live _ _ h h' (with_free zn (tail C) 0)); rewrite <-?HC; try done.
      * rewrite Hv. exists (log ++ [ll_message (bs * 32)]).
        replace (base + refill_size bs * (k + 1)) with (va + refill_size bs) by (unfold va; lia). exact Hk'.
      * unfold KMEM_BEGIN. lia.
      * lia.
      * intros c Hcl'. apply Hk1. apply NoDup_app in HndC as (_&Hdis&_). by apply Hdis.
  - assert (Hhigh : 32 <= zn_count zn) by lia.
    destruct (zalloc_no_refill fuel h z zn l Hr Hlk Hz (or_intror Hhigh) Hsm) as (h'&E&Hr'&Hm&Hv&(Hk1&_)).
    destruct l as [|a l]; [cbn in Hcl; lia|]. cbn [tail] in Hr'.
    exists a, h', k, n, l. split; [exact E|]. split; [|done].
    apply (pool_take z bs base k n live a l h h' (with_free zn l 0)); try done.
    + rewrite Hv. by exists log.
    + intros c Hin. apply Hk1. apply NoDup_app in Hnd as (_&Hdis&_). by apply Hdis.
Qed.

(** One release. *)
Lemma pool_free z bs base k n live l h (i : nat) a :
  pool z bs base k n live l h -> live !! i = Some a ->
  exists h', zfree (a + 4) h = Done h' /\ pool z bs base k n (delete i live) (a :: l) h'.
Proof using.
  intros P Hi. pose proof (pool_heap_end _ _ _ _ _ _ _ _ P) as [Hn0 Hend].
  assert (Ha : a ∈ live) by (by eapply list_elem_of_lookup_2).
  destruct (pool_chunk_small _ _ _ _ _ _ _ _ a P) as [Hpos Hsm]; [set_solver|].
  destruct P as [(zn&Hr&Hlk&Hty&Hbs) Hz Hsz Hk [Hbase Hk0] Hnd Hc Hh Hcnt]. unfold KMEM_BEGIN, KMEM_PAGES in *.
  destruct (refill_facts bs ltac:(lia)) as (_&_&Hq').
  pose proof (delete_Permutation _ _ _ Hi) as Hperm.
  assert (Hall : delete i live ++ a :: l ≡ₚ live ++ l).
  { rewrite <-Permutation_middle. change (a :: delete i live ++ l) with ((a :: delete i live) ++ l). by rewrite <-Hperm. }
  assert (Hq : refill_chunks bs * k * 4 <= refill_size bs * k) by nia.
  destruct (zfree_ok h z zn l a Hr Hlk) as (h'&E&Hr'&Hv&(Hk1&_)); [lia|lia| |lia|by apply Hh|].
  { apply NoDup_app in Hnd as (_&Hdis&_). by apply Hdis. }
  exists h'. split; [exact E|]. split; try done.
  - by exists (with_free zn (a :: l) 0).
  - by rewrite Hv.
  - by rewrite Hall.
  - intros c. rewrite Hall. apply Hc.
  - intros c Hin. rewrite Hk1; [apply Hh; rewrite Hperm; by right|]. intros ->%list_elem_of_singleton.
    rewrite Hperm in Hnd. cbn in Hnd. apply NoDup_cons in Hnd as [Hnot _]. apply Hnot. apply elem_of_app. by left.
  - apply Permutation_length in Hperm. cbn [length] in *. lia.
Qed.

Lemma objects_delete live (i : nat) : objects (delete i live) = delete i (objects live).
Proof using. apply list_fmap_delete. Qed.

(** The refills that [p] live objects need. *)
Definition refills_for (bs : Z) (p : nat) : Z := (p + 30) / refill_chunks bs + 1.

(** A refill happens only when the chunks are used up. *)
Lemma refill_needed bs k (live l : list Z) (p : nat) :
  0 < bs -> length live + length l = refill_chunks bs * k -> length l < 32 -> (length live < p)%nat ->
  k + 1 <= refills_for bs p.
Proof using.
  intros Hb Hcnt Hl Hp. destruct (refill_facts bs Hb) as (_&Hq&_). unfold refills_for.
  assert (k <= (p + 30) / refill_chunks bs); [|lia]. apply Z.div_le_lower_bound; lia.
Qed.

Lemma zrun_ok (fuel : nat) z bs base (p : nat) ops : refill_chunks bs < fuel -> forall k n live l h,
  pool z bs base k n live l h -> zops_valid (length live) ops -> (zpeak (length live) ops <= p)%nat ->
  pages_for (bs * 32) * (refills_for bs p - k) <= n ->
  exists live' l' h' k' n', zrun fuel z ops (objects live) h = Done (objects live', h') /\
    pool z bs base k' n' live' l' h' /\ (length live' + zfrees ops = length live + zallocs ops)%nat /\
    k' <= Z.max k (refills_for bs p).
Proof using.
  intros Hf. induction ops as [|[|i] ops IH]; intros k n live l h P Hv Hpk Hn;
    cbn [zops_valid zallocs zfrees zpeak zrun] in *.
  - exists live, l, h, k, n. split_and!; [done|done|lia|lia].
  - pose proof (po_size _ _ _ _ _ _ _ _ P) as Hsz. pose proof (pages_for_pos (bs * 32) ltac:(lia)) as Hpp.
    pose proof (zpeak_ge ops (S (length live))) as Hge.
    assert (Hneed : length l < 32 -> k + 1 <= refills_for bs p).
    { intros Hl. apply (refill_needed bs k live l); [lia|exact (po_count _ _ _ _ _ _ _ _ P)|done|lia]. }
    destruct (pool_alloc fuel z bs base k n live l h P) as (a&h1&k1&n1&l1&E&P1&Hk1); [nia|done|].
    rewrite E. cbn [mbind outcome_bind]. change (a + 4 :: objects live) with (objects (a :: live)).
    destruct (IH k1 n1 (a :: live) l1 h1 P1 Hv Hpk) as (live'&l'&h'&k'&n'&E'&P'&Hlen&Hk').
    { case_decide; destruct Hk1 as [-> ->]; nia. }
    exists live', l', h', k', n'. split_and!; [done|done|cbn [length] in Hlen; lia|].
    case_decide; destruct Hk1 as [-> ->]; [specialize (Hneed ltac:(done))|]; lia.
  - destruct Hv as [Hi Hv]. destruct (lookup_lt_is_Some_2 live i Hi) as [a Ha].
    assert (Ho : objects live !! i = Some (a + 4)) by (unfold objects; by rewrite list_lookup_fmap, Ha).
    rewrite Ho. cbn [deref mbind outcome_bind].
    destruct (pool_free z bs base k n live l h i a P Ha) as (h1&E&P1). rewrite E. cbn [mbind outcome_bind].
    pose proof (Permutation_length (delete_Permutation _ _ _ Ha)) as Hl. cbn [length] in Hl.
    assert (Hlp : length (delete i live) = pred (length live)) by lia.
    rewrite <-objects_delete. destruct (IH k n (delete i live) (a :: l) h1 P1) as (live'&l'&h'&k'&n'&E'&P'&Hlen&Hk');
      [by rewrite Hlp|rewrite Hlp; lia|done|].
    exists live', l', h', k', n'. split_and!; [done|done|lia|done].
Qed.
End pool.

(** ** Property *)

(** C17: a zone as a pool of objects: on a new zone that refills itself, with
    buffers of any size up to 1 MiB (the smallest [calc_bufsize] gives is 4), over any memory layer that keeps
    the contract of the kernel heap, every sequence of allocations and releases
    succeeds for which the layer has the pages that its largest number of live
    objects needs: a refill takes the pages for 32 buffers, and happens only while
    fewer than 32 of the chunks they hold are free; releases are reused, so that
    the length of the sequence does not matter.  At the end the live objects are as
    many as were allocated and not released; each has its own memory of [bs] - 4
    bytes behind a header, no two of them (headers included) overlap, all lie in the
    memory of the [k] refills; and every chunk of that memory is either live or on
    the free list, which the zone's count gives. *)
Theorem zone_refines_pool {V} `{KmemLaws V} (fuel : nat) (h : zheap V) z bs name base n log ops :
  zone_rep h z (Zone bs 0 name 0 ZONE_AUTO_REFILL 0) [] -> 0 < z -> 4 <= bs < 2 ^ 20 ->
  kmem_at (vmst h) base n log -> zops_valid 0 ops -> pages_for (bs * 32) * refills_for bs (zpeak 0 ops) <= n ->
  refill_chunks bs < fuel ->
  exists live h' k zn l, zrun fuel z ops [] h = Done (live, h') /\
    (length live + zfrees ops = zallocs ops)%nat /\ 0 <= k <= refills_for bs (zpeak 0 ops) /\
    (forall (i j : nat) a b, live !! i = Some a -> live !! j = Some b -> i <> j ->
       a + (bs - 4) <= b - 4 \/ b + (bs - 4) <= a - 4) /\
    (forall a, a ∈ live -> base <= a - 4 /\ a + (bs - 4) <= base + refill_size bs * k) /\
    zone_rep h' z zn l /\ zn_count zn + length live = refill_chunks bs * k.
Proof.
  intros Hr Hz Hbs Hk Hv Hn Hf. pose proof (kmem_bounds _ _ _ _ Hk) as (Hb&_&_).
  destruct (refill_facts bs ltac:(lia)) as (_&Hq&_).
  assert (Hpos : 0 <= refills_for bs (zpeak 0 ops)).
  { unfold refills_for. pose proof (Z.div_pos (zpeak 0 ops + 30) (refill_chunks bs) ltac:(lia) ltac:(lia)). lia. }
  assert (P : pool z bs base 0 n [] [] h).
  { split; try done.
    - by eexists.
    - exists log. by rewrite Z.mul_0_r, Z.add_0_r.
    - constructor.
    - intros a Ha. by apply elem_of_nil in Ha.
    - intros a Ha. by apply elem_of_nil in Ha.
    - cbn. lia. }
  destruct (zrun_ok fuel z bs base (zpeak 0 ops) ops Hf 0 n [] [] h P Hv (le_n _)) as (live&l&h'&k&n'&E&P'&Hlen&Hkm); [lia|].
  destruct P' as [(zn&Hr'&_) _ _ _ [_ Hk0] Hnd Hc _ Hcnt].
  exists (objects live), h', k, zn, l. split; [exact E|]. unfold objects. rewrite length_fmap.
  assert (Hin : forall i a, ((fun a => a + 4) <$> live) !! i = Some a -> exists c, live !! i = Some c /\ a = c + 4 /\ is_chunk base bs k c).
  { intros i a. rewrite list_lookup_fmap. destruct (live !! i) as [c|] eqn:Ei; [|done]. intros [= <-]. exists c.
    split_and!; [done|done|]. apply Hc, elem_of_app. left. by eapply list_elem_of_lookup_2. }
  split_and!; [done|done|lia| | |done|rewrite (zr_count _ _ _ _ Hr'); lia].
  - intros i j a b (c&Hci&->&Hcc)%Hin (d&Hdj&->&Hdc)%Hin Hij.
    assert (Hne : c <> d).
    { intros ->. apply Hij. apply NoDup_app in Hnd as (Hnl&_). by eapply NoDup_lookup. }
    pose proof (chunks_apart base bs k c d ltac:(lia) Hcc Hdc Hne). lia.
  - intros a (i&(c&_&->&Hcc)%Hin)%list_elem_of_lookup. apply chunk_bounds in Hcc as [??]; lia.
Qed.

(** ** A concrete pool *)

Module ZonePoolExample.
(** The contract read as a memory layer: a count of the pages handed out, and the
    log. *)
#[local] Instance page_counter : KmemSource (Z * list (string * Z)) := {
  kalloc_ll size v := Done (Some (KMEM_BEGIN + 4096 * v.1, 4096 * pages_for size),
                            (v.1 + pages_for size, v.2 ++ [ll_message size]));
  alloc_critical size v := Done (None, v);
  refill v := v;
}.

#[local] Program Instance page_counter_laws : KmemLaws (Z * list (string * Z)) := {|
  kmem_at v va n log := va = KMEM_BEGIN + 4096 * v.1 /\ 0 <= v.1 /\ 0 <= n /\ v.1 + n <= KMEM_PAGES /\ v.2 = log
|}.
Next Obligation. intros v va n log (->&?&?&?&_). unfold KMEM_PAGES in *. lia. Qed.
Next Obligation.
  intros v va n log size (->&?&?&?&<-) Hs Hp. pose proof (pages_for_pos size ltac:(lia)).
  eexists. split; [reflexivity|]. cbn [fst snd]. split_and!; (done || lia).
Qed.

(** A zone at 0x2000 for objects of 60 bytes: buffers of 64 bytes, 64 to a page. *)
Definition h0 : zheap (Z * list (string * Z)) :=
  Zheap ∅ {[ 0x2000 := Zone 64 0 "small" 0 ZONE_AUTO_REFILL 0 ]} 0 (0, []).

(** One page is enough. *)
Lemma zone_refines_pool_witness :
  exists live h', zrun 65 0x2000 [ZAlloc; ZAlloc; ZFree 1; ZAlloc; ZFree 0; ZAlloc] [] h0 = Done (live, h') /\
    length live = 2%nat /\
    (forall (i j : nat) a b, live !! i = Some a -> live !! j = Some b -> i <> j ->
       a + 60 <= b - 4 \/ b + 60 <= a - 4).
Proof.
  destruct (zone_refines_pool 65 h0 0x2000 64 "small" KMEM_BEGIN 1 [] [ZAlloc; ZAlloc; ZFree 1; ZAlloc; ZFree 0; ZAlloc])
    as (live&h'&k&zn&l&E&Hlen&_&Hdis&_).
  - split; [reflexivity|reflexivity|reflexivity|constructor|cbn; lia].
  - lia.
  - lia.
  - unfold kmem_at, page_counter_laws, KMEM_PAGES. cbn. split_and!; (done || lia).
  - cbn. lia.
  - vm_compute. discriminate.
  - vm_compute. reflexivity.
  - exists live, h'. split; [exact E|]. split; [cbn in Hlen; lia|exact Hdis].
Defined.
End ZonePoolExample.
