(* ===== verification/Kern.v ===== *)
(** * Kernel stacks, threads and CPUs

    Models [system/kern/kern_stacks.c], [system/kern/kern_thread.c],
    [sys/thread.h], [sys/cpu.h], [kern/stacks.h] and the part of
    [system/arch/i686/hal.c] they call.

    Structures are records at their addresses (0 is the null pointer).  The
    [linked_ring_s] fields of threads, schedulers and wait queues are the nodes
    of one ring heap, named by the structure they are a field of ([raddr]).
    [kern] is the state the components of [system/kern] share; memory comes
    from the zone allocator and the virtual memory layer ([KmemSource]). *)

From S2P Require Import Prelude Ring Spinlock Zalloc.

(** ** Data *)

(** The address of a ring node: [&s->sched_run_ring[i]], [&s->sched_blocked],
    [&t->t_queue_entry], [&t->t_wait_entry], [&q->wq_threads]. *)
Inductive raddr :=
| RunRing (s : Z) (i : nat)
| Blocked (s : Z)
| QueueEntry (t : Z)
| WaitEntry (t : Z)
| WqThreads (q : Z).

#[export] Instance raddr_eq_dec : EqDecision raddr.
Proof. solve_decision. Defined.

#[export] Instance raddr_countable : Countable raddr.
Proof.
  refine (inj_countable'
    (fun a => match a with
              | RunRing s i => (0%nat, s, i) | Blocked s => (1%nat, s, 0%nat)
              | QueueEntry t => (2%nat, t, 0%nat) | WaitEntry t => (3%nat, t, 0%nat)
              | WqThreads q => (4%nat, q, 0%nat)
              end)
    (fun '(k, x, i) => match k with
              | 0%nat => RunRing x i | 1%nat => Blocked x | 2%nat => QueueEntry x
              | 3%nat => WaitEntry x | _ => WqThreads x
              end) _).
  by intros [].
Defined.

(** [data] points to a thread. *)
Abbreviation rnode := (linked_ring raddr Z).
Definition zero_node : rnode := Linked_ring None None None.

Record thread := Thread {
  t_current_cpu : Z;
  t_storage : list Z;
  t_istacks : list Z;
  t_istobjs : list Z;
  t_stateflags : Z;
  t_priority : Z;
  t_nonpreempt : Z;
  t_wait_queue : Z;
}.

Definition THREAD_SF_INTSTACK_2 : Z := 1.
Definition THREAD_SF_PREEMPT : Z := 2.
Definition THREAD_SF_LOCK_SCHED : Z := 4.
Definition THREAD_SF_QUEUE_WAIT : Z := 8.

Record kernel_stack := Kernel_stack { st_tail : Z; st_sp : Z }.
(** Two pointers. *)
Definition SIZEOF_KERNEL_STACK : Z := 8.

(** The fields of [struct taskstate] that are written. *)
Record taskstate := Taskstate { ss0 : Z; esp0 : Z; iomb : Z }.

(** [cpu_local] is the segment behind [%gs]: the CPU itself, the address of the
    current thread's [t_storage] (the thread's own address stands for it), and
    the CPU's stack. *)
Record cpu := Cpu {
  cpu_cpu_id : Z;
  cpu_current_thread : Z;
  cpu_local : list Z;
  cpu_arch : taskstate;
  cpu_scheduler : Z;
}.

Definition SCHED_NRQS : nat := 32.

Record scheduler := Scheduler {
  sched_run_decay : list Z;
  sched_idle : Z;
  sched_thread_count : Z;
  sched_lock : Z;
}.

Record kern (V : Type) := Kern {
  heap : zheap V;
  stacks : Z;
  stacks_sl : Z;
  kstacks : gmap Z kernel_stack;
  thread_zone : Z;
  thread_template : thread;
  threads : gmap Z thread;
  rings : gmap raddr rnode;
  cpus : gmap Z cpu;
  gs : Z;
  sched_zone : Z;
  scheds : gmap Z scheduler;
}.
Arguments Kern {V}.
Arguments heap {V}.
Arguments stacks {V}.
Arguments stacks_sl {V}.
Arguments kstacks {V}.
Arguments thread_zone {V}.
Arguments thread_template {V}.
Arguments threads {V}.
Arguments rings {V}.
Arguments cpus {V}.
Arguments gs {V}.
Arguments sched_zone {V}.
Arguments scheds {V}.

(** *** Field updates *)

Section updates.
Context {V : Type}.
Implicit Types k : kern V.

Definition set_heap k x : kern V :=
  Kern x (stacks k) (stacks_sl k) (kstacks k) (thread_zone k) (thread_template k) (threads k)
    (rings k) (cpus k) (gs k) (sched_zone k) (scheds k).
Definition set_stacks k x sl ks : kern V :=
  Kern (heap k) x sl ks (thread_zone k) (thread_template k) (threads k)
    (rings k) (cpus k) (gs k) (sched_zone k) (scheds k).
Definition set_threads k x : kern V :=
  Kern (heap k) (stacks k) (stacks_sl k) (kstacks k) (thread_zone k) (thread_template k) x
    (rings k) (cpus k) (gs k) (sched_zone k) (scheds k).
Definition set_rings k x : kern V :=
  Kern (heap k) (stacks k) (stacks_sl k) (kstacks k) (thread_zone k) (thread_template k) (threads k)
    x (cpus k) (gs k) (sched_zone k) (scheds k).
Definition set_cpus k x : kern V :=
  Kern (heap k) (stacks k) (stacks_sl k) (kstacks k) (thread_zone k) (thread_template k) (threads k)
    (rings k) x (gs k) (sched_zone k) (scheds k).
Definition set_scheds k x : kern V :=
  Kern (heap k) (stacks k) (stacks_sl k) (kstacks k) (thread_zone k) (thread_template k) (threads k)
    (rings k) (cpus k) (gs k) (sched_zone k) x.

(** Stores to the fields of the structure at an address. *)
Definition with_thread (t : Z) (f : thread -> thread) k : outcome (kern V) :=
  th ← deref (threads k !! t); Done (set_threads k (<[t := f th]> (threads k))).
Definition with_cpu (c : Z) (f : cpu -> cpu) k : outcome (kern V) :=
  x ← deref (cpus k !! c); Done (set_cpus k (<[c := f x]> (cpus k))).
Definition with_sched (s : Z) (f : scheduler -> scheduler) k : outcome (kern V) :=
  x ← deref (scheds k !! s); Done (set_scheds k (<[s := f x]> (scheds k))).
Definition with_rings (f : gmap raddr rnode -> outcome (gmap raddr rnode)) k : outcome (kern V) :=
  r ← f (rings k); Done (set_rings k r).

Lemma with_thread_ok (t : Z) f k th :
  threads k !! t = Some th -> with_thread t f k = Done (set_threads k (<[t := f th]> (threads k))).
Proof. unfold with_thread. by intros ->. Qed.

Lemma with_cpu_ok (c : Z) f k x :
  cpus k !! c = Some x -> with_cpu c f k = Done (set_cpus k (<[c := f x]> (cpus k))).
Proof. unfold with_cpu. by intros ->. Qed.

Lemma with_sched_ok (s : Z) f k x :
  scheds k !! s = Some x -> with_sched s f k = Done (set_scheds k (<[s := f x]> (scheds k))).
Proof. unfold with_sched. by intros ->. Qed.
End updates.

Definition set_stateflags (v : Z) (t : thread) : thread :=
  Thread (t_current_cpu t) (t_storage t) (t_istacks t) (t_istobjs t) v (t_priority t) (t_nonpreempt t)
    (t_wait_queue t).
Definition set_current_cpu (v : Z) (t : thread) : thread :=
  Thread v (t_storage t) (t_istacks t) (t_istobjs t) (t_stateflags t) (t_priority t) (t_nonpreempt t)
    (t_wait_queue t).
Definition set_wait_queue (v : Z) (t : thread) : thread :=
  Thread (t_current_cpu t) (t_storage t) (t_istacks t) (t_istobjs t) (t_stateflags t) (t_priority t)
    (t_nonpreempt t) v.
Definition set_int_stack (v : Z) (t : thread) : thread :=
  Thread (t_current_cpu t) (<[0%nat := v]> (t_storage t)) (t_istacks t) (t_istobjs t) (t_stateflags t)
    (t_priority t) (t_nonpreempt t) (t_wait_queue t).
Definition set_stack_objs (objs sps : list Z) (t : thread) : thread :=
  Thread (t_current_cpu t) (t_storage t) sps objs (t_stateflags t) (t_priority t) (t_nonpreempt t)
    (t_wait_queue t).

(** ** hal.c *)

Definition SEG_KCODE : Z := 1.
Definition SEG_KDATA : Z := 2.

Section hal.
Context {V : Type}.
Implicit Types k : kern V.

(** [cpu_ptr], the word at [%gs:0]. *)
Definition kernel_get_current_cpu k : outcome Z :=
  c ← deref (cpus k !! gs k); deref (cpu_local c !! 0%nat).

(** [cpu_tls] is the word at [%gs:4].  The task register, which the closing [ltr]
    loads with the selector of the task state, is not part of the state; the
    effect of [ltr] on the descriptor table is in [I686]. *)
Definition hal_after_thread_switch k : outcome (kern V) :=
  c ← deref (cpus k !! gs k);
  self ← deref (cpu_local c !! 0%nat);
  tls ← deref (cpu_local c !! 1%nat);
  th ← deref (threads k !! tls);
  sp ← deref (t_storage th !! 0%nat);
  with_cpu self (fun x => Cpu (cpu_cpu_id x) (cpu_current_thread x) (cpu_local x)
                            (Taskstate (Z.shiftl SEG_KDATA 3) sp 0xFFFF) (cpu_scheduler x)) k.

Definition hal_stack_grows_downward : Z := -1.
End hal.

(** ** kern_stacks.c *)

Fixpoint size_loop (fuel : nat) (num size : Z) : outcome Z :=
  match fuel with
  | O => OutOfFuel
  | S fuel => if num <? size then size_loop fuel (u32 (Z.shiftl num 1)) size else Done num
  end.
Definition calc_size (fuel : nat) (size : Z) : outcome Z := size_loop fuel 1 size.

Section stacks.
Context {V : Type} `{KmemSource V}.
Implicit Types k : kern V.

Definition set_vm k (v : V) : kern V :=
  set_heap k (Zheap (zmem (heap k)) (zones (heap k)) (zone_zone (heap k)) v).

Definition kernel_stacks_init k : kern V := set_stacks k 0 (kernlock_init (stacks_sl k)) (kstacks k).

Definition kernel_cpu_init_stack (c : Z) k : outcome (kern V) :=
  '(r, v) ← kalloc_ll (Z.shiftl 1 14) (vmst (heap k));
  let k := set_vm k v in
  match r with
  | None => Panic "Failed to allocate cpu stack for CPU %p"
  | Some (begin_, size) =>
      let sp := if truthy hal_stack_grows_downward then begin_ +u size else begin_ in
      with_cpu c (fun x => Cpu (cpu_cpu_id x) (cpu_current_thread x) (<[2%nat := sp]> (cpu_local x))
                             (cpu_arch x) (cpu_scheduler x)) k
  end.

(** The header of the new stack is its top (or bottom) [base] bytes; its
    [st_tail] is what the memory held. *)
Definition kernel_stack_new (fuel : nat) k : outcome (Z * kern V) :=
  base ← calc_size fuel SIZEOF_KERNEL_STACK;
  '(r, v) ← kalloc_ll (Z.shiftl 1 14) (vmst (heap k));
  let k := set_vm k v in
  match r with
  | None => Done (0, k)
  | Some (begin_, size) =>
      let size := size -u base in
      let '(kstack, sp) := if truthy hal_stack_grows_downward then (begin_ +u size, begin_ +u size)
                           else (begin_, begin_ +u base) in
      let tail := from_option st_tail 0 (kstacks k !! kstack) in
      Done (kstack, set_stacks k (stacks k) (stacks_sl k) (<[kstack := Kernel_stack tail sp]> (kstacks k)))
  end.

Definition kernel_stack_allocate (fuel : nat) k : outcome (Z * kern V) :=
  sl ← kernlock_lock 1 (stacks_sl k);
  let kstack := stacks k in
  top ← (if truthy kstack then st ← deref (kstacks k !! kstack); Done (st_tail st) else Done (stacks k));
  let k := set_stacks k top (kernlock_unlock sl) (kstacks k) in
  if truthy kstack then Done (kstack, k) else kernel_stack_new fuel k.

Definition kernel_stack_release (kstack : Z) k : outcome (kern V) :=
  if truthy kstack then
    sl ← kernlock_lock 1 (stacks_sl k);
    st ← deref (kstacks k !! kstack);
    Done (set_stacks k kstack (kernlock_unlock sl) (<[kstack := Kernel_stack (stacks k) (st_sp st)]> (kstacks k)))
  else Done k.
End stacks.

(** ** kern_thread.c *)

(** Two ring nodes of three words, ten words and the wait queue pointer. *)
Definition SIZEOF_THREAD : Z := 76.

Section threads.
Context {V : Type} `{KmemSource V}.
Implicit Types k : kern V.

(** [thread_template] is static: the fields not written here are zero. *)
Definition thread_init (fuel : nat) k : outcome (kern V) :=
  '(z, h) ← zinit fuel SIZEOF_THREAD ZONE_AUTO_REFILL (Some "threads") (heap k);
  let t := thread_template k in
  Done (Kern h (stacks k) (stacks_sl k) (kstacks k) z
          (Thread 0 (t_storage t) (t_istacks t) (t_istobjs t) 0 16 0 0)
          (threads k) (rings k) (cpus k) (gs k) (sched_zone k) (scheds k)).

Definition thread_allocate (fuel : nat) k : outcome (Z * kern V) :=
  '(thr, h) ← zalloc fuel (thread_zone k) (heap k);
  let k := set_heap k h in
  if truthy thr then
    let k := set_threads k (<[thr := thread_template k]> (threads k)) in
    let k := set_rings k (<[QueueEntry thr := zero_node]> (<[WaitEntry thr := zero_node]> (rings k))) in
    '(o0, k) ← kernel_stack_allocate fuel k;
    '(o1, k) ← kernel_stack_allocate fuel k;
    k ← with_thread thr (fun t => set_stack_objs [o0; o1] (t_istacks t) t) k;
    if truthy o0 && truthy o1 then
      s0 ← deref (kstacks k !! o0);
      s1 ← deref (kstacks k !! o1);
      k ← with_thread thr (fun t => set_int_stack (st_sp s0)
                                      (set_stack_objs [o0; o1] [st_sp s0; st_sp s1] t)) k;
      k ← with_rings (linked_ring_init (Some (QueueEntry thr))) k;
      Done (thr, k)
    else
      k ← kernel_stack_release o0 k;
      k ← kernel_stack_release o1 k;
      h ← zfree thr (heap k);
      Done (0, set_heap k h)
  else Done (0, k).

Definition kernel_get_current_thread k : outcome Z :=
  c ← kernel_get_current_cpu k; x ← deref (cpus k !! c); Done (cpu_current_thread x).

Definition kernel_set_current_thread (t : Z) k : outcome (kern V) :=
  c ← kernel_get_current_cpu k;
  k ← with_cpu c (fun x => Cpu (cpu_cpu_id x) t (<[1%nat := t]> (cpu_local x)) (cpu_arch x)
                             (cpu_scheduler x)) k;
  k ← with_thread t (set_current_cpu c) k;
  hal_after_thread_switch k.

Definition thread_update_int_stack (t : Z) k : outcome (kern V) :=
  th ← deref (threads k !! t);
  sp ← deref (t_istacks th !! (if truthy (Z.land (t_stateflags th) THREAD_SF_INTSTACK_2) then 1%nat else 0%nat));
  with_thread t (set_int_stack sp) k.

Definition thread_enter_syscall k : outcome (kern V) :=
  c ← kernel_get_current_cpu k;
  x ← deref (cpus k !! c);
  let t := cpu_current_thread x in
  th ← deref (threads k !! t);
  sp ← deref (t_istacks th !! 1%nat);
  k ← with_thread t (fun th => set_int_stack sp
         (set_stateflags (Z.lor (t_stateflags th) THREAD_SF_INTSTACK_2) th)) k;
  hal_after_thread_switch k.

Definition thread_exit_syscall k : outcome (kern V) :=
  c ← kernel_get_current_cpu k;
  x ← deref (cpus k !! c);
  let t := cpu_current_thread x in
  th ← deref (threads k !! t);
  sp ← deref (t_istacks th !! 0%nat);
  k ← with_thread t (fun th => set_int_stack sp
         (set_stateflags (Z.land (t_stateflags th) (not32 THREAD_SF_INTSTACK_2)) th)) k;
  hal_after_thread_switch k.
End threads.

(** ** Kernel stacks *)

(** The released stacks, linked through [st_tail]. *)
Fixpoint stack_list (m : gmap Z kernel_stack) (p : Z) (l : list Z) : Prop :=
  match l with
  | [] => p = 0
  | a :: l => p = a /\ a <> 0 /\ exists st, m !! a = Some st /\ stack_list m (st_tail st) l
  end.

Lemma stack_list_frame m m' p l :
  (forall a, a ∈ l -> m' !! a = m !! a) -> stack_list m p l -> stack_list m' p l.
Proof.
  revert p. induction l as [|a l IH]; intros p Heq; simpl; [done|].
  intros (->&Ha&st&Hst&Hl). split_and!; [done|done|]. exists st.
  rewrite Heq by set_solver. split; [done|]. apply IH; [set_solver|done].
Qed.

Section stack_props.
Context {V : Type} `{KmemSource V}.
Implicit Types k : kern V.

(** The pool of released stacks. *)
Record stack_pool k (l : list Z) : Prop := {
  sp_free : stacks_sl k = 0;
  sp_list : stack_list (kstacks k) (stacks k) l;
  sp_nodup : NoDup l;
}.

Lemma kernel_stack_allocate_pool (fuel : nat) k a l :
  stack_pool k (a :: l) ->
  exists k', kernel_stack_allocate fuel k = Done (a, k') /\ stack_pool k' l /\
    k' = set_stacks k (stacks k') 0 (kstacks k).
Proof using.
  intros [Hsl (Hp&Ha&st&Hst&Hl) Hnd]. unfold kernel_stack_allocate. rewrite Hsl, Hp.
  cbn [kernlock_lock kernlock_try_lock truthy Z.eqb negb mbind outcome_bind].
  rewrite (proj2 (truthy_true a)) by done. rewrite Hst. cbn [deref mbind outcome_bind].
  eexists. split; [done|]. split; [|done]. apply NoDup_cons in Hnd as [_ Hnd]. by split.
Qed.

(** A new stack from the memory [begin_ .. begin_+size): the header takes its
    last eight bytes, and the stack pointer starts below them. *)
Lemma kernel_stack_allocate_new (f : nat) k begin_ size v :
  stack_pool k [] -> kalloc_ll (2 ^ 14) (vmst (heap k)) = Done (Some (begin_, size), v) ->
  0 <= begin_ -> 8 <= size -> begin_ + size < 2 ^ 32 ->
  let a := begin_ + size - 8 in
  exists k', kernel_stack_allocate (4 + f) k = Done (a, k') /\ stack_pool k' [] /\
    kstacks k' = <[a := Kernel_stack (from_option st_tail 0 (kstacks k !! a)) a]> (kstacks k) /\
    k' = set_stacks (set_vm k v) 0 0 (kstacks k').
Proof using.
  intros [Hsl Hl _] Hk Hb Hs Hov a. simpl in Hl. unfold kernel_stack_allocate. rewrite Hsl, Hl.
  cbn [kernlock_lock kernlock_try_lock truthy Z.eqb negb mbind outcome_bind kernlock_unlock].
  unfold kernel_stack_new. change (calc_size (4 + f) SIZEOF_KERNEL_STACK) with (Done 8). cbn [mbind outcome_bind].
  change (Z.shiftl 1 14) with (2 ^ 14). cbn [set_stacks heap]. rewrite Hk. cbn [mbind outcome_bind].
  rewrite u32_sub_nowrap by lia. cbn [truthy hal_stack_grows_downward Z.eqb negb].
  rewrite u32_add_nowrap by lia. replace (begin_ + (size - 8)) with a by lia.
  eexists. split; [done|]. cbn [kstacks set_stacks]. split_and!; [|done|done]. split; [done|done|constructor].
Qed.

Lemma kernel_stack_release_pool k a st l :
  stack_pool k l -> a <> 0 -> a ∉ l -> kstacks k !! a = Some st ->
  exists k', kernel_stack_release a k = Done k' /\ stack_pool k' (a :: l) /\
    k' = set_stacks k a 0 (<[a := Kernel_stack (stacks k) (st_sp st)]> (kstacks k)).
Proof using.
  intros [Hsl Hl Hnd] Ha Hal Hst. unfold kernel_stack_release.
  rewrite (proj2 (truthy_true a)) by done. rewrite Hsl, Hst.
  cbn [kernlock_lock kernlock_try_lock truthy Z.eqb negb mbind outcome_bind kernlock_unlock deref].
  eexists. split; [done|]. split; [|done]. split; [done| |by constructor].
  cbn. split_and!; [done|done|]. eexists. rewrite lookup_insert_eq. split; [done|].
  eapply stack_list_frame; [|exact Hl]. intros b Hb. apply lookup_insert_ne. set_solver.
Qed.
End stack_props.

(** ** Threads *)

Section thread_props.
Context {V : Type} `{KmemSource V}.
Implicit Types k : kern V.

(** A kernel whose thread zone has the free chunks [l] and whose pool holds
    the kernel stacks [sts]. *)
Record thread_env k (zn : zone) (l sts : list Z) : Prop := {
  te_zone : zone_rep (heap k) (thread_zone k) zn l;
  te_zpos : 0 < thread_zone k;
  te_lock : zn_lock zn = 0;
  te_small : Forall (fun a => a + 4 < 2 ^ 32) l;
  te_pool : stack_pool k sts;
}.

(** The thread made from the template and two stacks. *)
Definition new_thread (t : thread) (o0 sp0 o1 sp1 : Z) : thread :=
  set_int_stack sp0 (set_stack_objs [o0; o1] [sp0; sp1] t).

(** What the thread zone, which refills itself, holds when an allocation takes
    its chunk: the free chunks as they are from 32 on, and below that the
    chunks cut from the memory the layer gives for 32 more on top of them (none
    when it refuses); [v] is the layer's state then. *)
Definition thread_chunks (fuel : nat) k (zn : zone) (l l1 : list Z) (v : V) : Prop :=
  zn_memtype zn = ZONE_AUTO_REFILL /\
  if zn_count zn <? 32 then
    exists r, kalloc_ll (zn_bufsize zn *u 32) (vmst (heap k)) = Done (r, v) /\ 0 < zn_bufsize zn /\
      fresh_memory zn l r /\ match r with Some (_, size) => size / zn_bufsize zn < fuel | None => True end /\
      Forall (fun a => a + 4 < 2 ^ 32) (refilled zn l r) /\ l1 = refilled zn l r
  else l1 = l /\ v = vmst (heap k).

(** The first lines of [thread_allocate]. *)
Lemma thread_zalloc (fuel : nat) k zn l l1 v sts :
  thread_env k zn l sts -> thread_chunks fuel k zn l l1 v ->
  exists h, zalloc fuel (thread_zone k) (heap k) = Done (match l1 with [] => 0 | a :: _ => a + 4 end, h) /\
    zone_rep h (thread_zone k) (with_free zn (tail l1) 0) (tail l1) /\
    match l1 with [] => True | a :: _ => zmem h !! a = Some (thread_zone k) end /\ vmst h = v /\
    Forall (fun a => 0 < a /\ a + 4 < 2 ^ 32) l1 /\ NoDup l1 /\ length l1 < 2 ^ 32.
Proof using.
  intros [Hz Hp Hlk Hs _] [Hty Hc]. destruct (Z.ltb_spec (zn_count zn) 32).
  - destruct Hc as (r&E&Hb&Hfr&Hf&Hsm&->).
    destruct (zalloc_refill_ok fuel _ _ _ _ r v Hz Hlk Hp Hb) as (h&?&?&?&_&?); rewrite ?Hty; try done.
    destruct (refilled_list _ _ _ _ _ Hz Hb Hfr) as (?&?&?). exists h. split_and!; try done.
    apply Forall_and. done.
  - destruct Hc as [-> ->].
    destruct (zalloc_no_refill fuel _ _ _ _ Hz Hlk Hp) as (h&?&?&?&?&_); [by right|done|]. exists h.
    split_and!; try done; [|apply Hz..]. apply Forall_and. split; [|done]. eapply freelist_pos, zr_list, Hz.
Qed.

Lemma thread_allocate_ok (fuel : nat) k zn l0 v a l o0 o1 sts :
  thread_env k zn l0 (o0 :: o1 :: sts) -> thread_chunks fuel k zn l0 (a :: l) v ->
  exists k' st0 st1, thread_allocate fuel k = Done (a + 4, k') /\
    kstacks k !! o0 = Some st0 /\ kstacks k !! o1 = Some st1 /\
    threads k' = <[a + 4 := new_thread (thread_template k) o0 (st_sp st0) o1 (st_sp st1)]> (threads k) /\
    ring (rings k') (QueueEntry (a + 4)) [] /\
    (forall x, x <> QueueEntry (a + 4) -> x <> WaitEntry (a + 4) -> rings k' !! x = rings k !! x) /\
    thread_env k' (with_free zn l 0) l sts /\ vmst (heap k') = v.
Proof using.
  intros Henv Hc. pose proof Henv as [_ Hp Hlk _ Hpool].
  destruct (thread_zalloc fuel k zn _ _ _ _ Henv Hc) as (h&Ez&Hz'&_&Hv&Hs&_). cbn [tail] in Hz'.
  apply Forall_cons in Hs as [[Ha _] Hs].
  unfold thread_allocate. rewrite Ez. cbn [mbind outcome_bind]. rewrite (proj2 (truthy_true (a + 4))) by lia.
  pose proof (sp_list _ _ Hpool) as (_&Ho0&st0&Hst0&(_&Ho1&st1&Hst1&_)).
  cbv zeta. set (k1 := set_rings _ _).
  assert (Hpool1 : stack_pool k1 (o0 :: o1 :: sts)) by (destruct Hpool; by split).
  destruct (kernel_stack_allocate_pool fuel k1 _ _ Hpool1) as (k2&->&Hpool2&Hk2). cbn [mbind outcome_bind].
  destruct (kernel_stack_allocate_pool fuel k2 _ _ Hpool2) as (k3&->&Hpool3&Hk3). cbn [mbind outcome_bind].
  rewrite Hk2 in Hk3. cbn in Hk3. rewrite Hk3.
  erewrite with_thread_ok by (apply lookup_insert_eq). cbn [mbind outcome_bind].
  rewrite !(proj2 (truthy_true _)) by done. cbn [andb].
  cbn [set_threads set_stacks kstacks]. rewrite Hst0, Hst1. cbn [deref mbind outcome_bind].
  erewrite with_thread_ok by (apply lookup_insert_eq). cbn [mbind outcome_bind].
  unfold with_rings. cbn [rings set_threads set_stacks k1 set_rings set_heap].
  set (r := <[QueueEntry (a + 4) := zero_node]> _).
  destruct (linked_ring_init_ok r (QueueEntry (a + 4))) as (r'&->&Hr'&Hkeep&_).
  { unfold r. rewrite lookup_insert_eq. eauto. }
  cbn [mbind outcome_bind]. eexists _, st0, st1. split; [done|]. cbn. split_and!; [done|done| |done| | |done].
  - by rewrite !insert_insert_eq.
  - intros x Hq Hw. rewrite Hkeep by set_solver. unfold r. by rewrite !lookup_insert_ne.
  - split; try done; [eapply Forall_impl; [exact Hs|]; by intros ? []|].
    destruct Hpool3 as [H1 H2 H3]. rewrite Hk3 in H1, H2. by split.
Qed.

(** The second stack cannot be had: the first stack and the chunk go back. *)
Lemma thread_allocate_undone (f : nat) k zn l0 v0 a l o0 v :
  thread_env k zn l0 [o0] -> thread_chunks (4 + f) k zn l0 (a :: l) v0 ->
  kalloc_ll (2 ^ 14) v0 = Done (None, v) ->
  exists k', thread_allocate (4 + f) k = Done (0, k') /\
    thread_env k' (with_free zn (a :: l) 0) (a :: l) [o0] /\ vmst (heap k') = v.
Proof using.
  intros Henv Hc Hk. pose proof Henv as [_ Hp Hlk _ Hpool].
  destruct (thread_zalloc _ k zn _ _ _ _ Henv Hc) as (h&Ez&Hz'&Hm&Hv&Hs&Hnd&Hsm). cbn [tail] in Hz'.
  apply NoDup_cons in Hnd as [Hal _]. cbn [length] in Hsm.
  pose proof (Forall_inv Hs) as [Ha Ha4].
  unfold thread_allocate. rewrite Ez. cbn [mbind outcome_bind]. rewrite (proj2 (truthy_true (a + 4))) by lia.
  pose proof (sp_list _ _ Hpool) as (_&Ho0&st0&Hst0&_).
  cbv zeta. set (k1 := set_rings _ _).
  assert (Hpool1 : stack_pool k1 [o0]) by (destruct Hpool; by split).
  destruct (kernel_stack_allocate_pool (4 + f) k1 _ _ Hpool1) as (k2&->&Hpool2&Hk2). cbn [mbind outcome_bind].
  destruct Hpool2 as [Hsl2 Hl2 _]. simpl in Hl2. rewrite Hl2 in Hk2. subst k2.
  unfold kernel_stack_allocate at 1. cbn [set_stacks stacks stacks_sl].
  cbn [kernlock_lock kernlock_try_lock truthy Z.eqb negb mbind outcome_bind kernlock_unlock].
  unfold kernel_stack_new. change (calc_size (4 + f) SIZEOF_KERNEL_STACK) with (Done 8). cbn [mbind outcome_bind].
  change (Z.shiftl 1 14) with (2 ^ 14). cbn [set_stacks heap k1 set_rings set_threads set_heap].
  rewrite Hv, Hk. cbn [mbind outcome_bind].
  erewrite with_thread_ok by (apply lookup_insert_eq). cbn [mbind outcome_bind].
  rewrite (proj2 (truthy_true o0)) by done. cbn [truthy Z.eqb negb andb].
  set (k4 := set_threads _ _).
  assert (Hpool4 : stack_pool k4 []) by (split; [done|done|constructor]).
  destruct (kernel_stack_release_pool k4 o0 st0 [] Hpool4 Ho0) as (k5&->&Hpool5&Hk5); [set_solver|done|].
  cbn [mbind outcome_bind]. unfold kernel_stack_release at 1. cbn [truthy Z.eqb negb mbind outcome_bind].
  assert (Hh5 : heap k5 = Zheap (zmem h) (zones h) (zone_zone h) v) by (by subst k5).
  assert (Hz5 : thread_zone k5 = thread_zone k) by (by subst k5).
  assert (Hr5 : zone_rep (heap k5) (thread_zone k) (with_free zn l 0) l) by (rewrite Hh5; by destruct Hz').
  destruct (zfree_ok _ _ _ l a Hr5 eq_refl Ha Ha4 Hal) as (h'&->&Hr'&Hv'&_); [lia|by rewrite Hh5|].
  cbn [mbind outcome_bind]. eexists. split; [done|]. split; [|cbn; by rewrite Hv', Hh5]. split; try done.
  - cbn. by rewrite Hz5.
  - cbn. by rewrite Hz5.
  - eapply Forall_impl; [exact Hs|]. by intros ? [].
  - destruct Hpool5. by split.
Qed.

(** The rest of the state. *)
Definition same_kernel k k' : Prop :=
  thread_zone k' = thread_zone k /\ thread_template k' = thread_template k /\ cpus k' = cpus k /\ gs k' = gs k /\
  sched_zone k' = sched_zone k /\ scheds k' = scheds k.

(** No stack in the pool, as when the first thread is made: both stacks come
    from fresh memory, their stack pointers eight bytes below its end. *)
Lemma thread_allocate_from (f : nat) k t h b0 n0 v0 b1 n1 v1 :
  zalloc (4 + f) (thread_zone k) (heap k) = Done (t, h) -> t <> 0 -> stack_pool k [] ->
  kalloc_ll (2 ^ 14) (vmst h) = Done (Some (b0, n0), v0) ->
  kalloc_ll (2 ^ 14) v0 = Done (Some (b1, n1), v1) ->
  0 < b0 -> 8 <= n0 -> b0 + n0 < 2 ^ 32 -> 0 < b1 -> 8 <= n1 -> b1 + n1 < 2 ^ 32 -> b0 + n0 <> b1 + n1 ->
  let o0 := b0 + n0 - 8 in
  let o1 := b1 + n1 - 8 in
  exists k', thread_allocate (4 + f) k = Done (t, k') /\
    threads k' = <[t := new_thread (thread_template k) o0 o0 o1 o1]> (threads k) /\
    ring (rings k') (QueueEntry t) [] /\
    (forall x, x <> QueueEntry t -> x <> WaitEntry t -> rings k' !! x = rings k !! x) /\
    heap k' = Zheap (zmem h) (zones h) (zone_zone h) v1 /\ stack_pool k' [] /\ same_kernel k k'.
Proof using.
  intros Ez Ht Hpool Hk0 Hk1 ? ? ? ? ? ? Hne o0 o1.
  unfold thread_allocate. rewrite Ez. cbn [mbind outcome_bind]. rewrite (proj2 (truthy_true t)) by done.
  cbv zeta. set (k1 := set_rings _ _).
  assert (Hpool1 : stack_pool k1 []) by (destruct Hpool; by split).
  destruct (kernel_stack_allocate_new f k1 b0 n0 v0 Hpool1) as (k2&->&Hpool2&Hs2&Hk2);
    [done|lia|lia|lia|]. cbn [mbind outcome_bind].
  destruct (kernel_stack_allocate_new f k2 b1 n1 v1 Hpool2) as (k3&->&Hpool3&Hs3&Hk3);
    [by rewrite Hk2|lia|lia|lia|]. fold o0 o1 in Hs2, Hs3 |- *. cbn [mbind outcome_bind].
  assert (Hsame : same_kernel k k3) by (rewrite Hk3, Hk2; done).
  assert (Ht3 : threads k3 = threads k1) by (by rewrite Hk3, Hk2).
  assert (Hr3 : rings k3 = rings k1) by (by rewrite Hk3, Hk2).
  assert (Hh3 : heap k3 = Zheap (zmem h) (zones h) (zone_zone h) v1) by (by rewrite Hk3, Hk2).
  clear Hk3 Hk2.
  erewrite with_thread_ok by (rewrite Ht3; apply lookup_insert_eq). cbn [mbind outcome_bind].
  rewrite !(proj2 (truthy_true _)) by lia. cbn [andb set_threads kstacks]. rewrite Hs3.
  rewrite (lookup_insert_ne _ o1 o0) by lia. rewrite Hs2, !lookup_insert_eq. cbn [deref mbind outcome_bind].
  erewrite with_thread_ok by (apply lookup_insert_eq). cbn [mbind outcome_bind].
  unfold with_rings. cbn [rings set_threads]. rewrite Hr3.
  destruct (linked_ring_init_ok (rings k1) (QueueEntry t)) as (r'&->&Hr'&Hkeep&_).
  { cbn. rewrite lookup_insert_eq. eauto. }
  cbn [mbind outcome_bind]. eexists. split; [done|]. cbn. split_and!; [|done| |done| |by destruct Hsame].
  - rewrite Ht3. cbn. by rewrite !insert_insert_eq.
  - intros x Hq Hw. rewrite Hkeep by set_solver. cbn. by rewrite !lookup_insert_ne.
  - destruct Hpool3. by split.
Qed.

Lemma thread_allocate_fresh (f : nat) k zn l0 v a l b0 n0 v0 b1 n1 v1 :
  thread_env k zn l0 [] -> thread_chunks (4 + f) k zn l0 (a :: l) v ->
  kalloc_ll (2 ^ 14) v = Done (Some (b0, n0), v0) ->
  kalloc_ll (2 ^ 14) v0 = Done (Some (b1, n1), v1) ->
  0 < b0 -> 8 <= n0 -> b0 + n0 < 2 ^ 32 -> 0 < b1 -> 8 <= n1 -> b1 + n1 < 2 ^ 32 -> b0 + n0 <> b1 + n1 ->
  let o0 := b0 + n0 - 8 in
  let o1 := b1 + n1 - 8 in
  exists k', thread_allocate (4 + f) k = Done (a + 4, k') /\
    threads k' = <[a + 4 := new_thread (thread_template k) o0 o0 o1 o1]> (threads k) /\
    ring (rings k') (QueueEntry (a + 4)) [] /\
    thread_env k' (with_free zn l 0) l [] /\ vmst (heap k') = v1.
Proof using.
  intros Henv Hc Hk0 Hk1 ? ? ? ? ? ? Hne o0 o1. pose proof Henv as [_ Hp Hlk _ Hpool].
  destruct (thread_zalloc _ k zn _ _ _ _ Henv Hc) as (h&Ez&Hz'&_&Hv&Hs&_). cbn [tail] in Hz'.
  apply Forall_cons in Hs as [[Ha _] Hs]. rewrite <-Hv in Hk0.
  destruct (thread_allocate_from f k (a + 4) h b0 n0 v0 b1 n1 v1 Ez)
    as (k'&E&Ht&Hr&_&Hh&Hpool'&(Hz3&_)); [lia|done..|].
  exists k'. split_and!; [exact E|done|done| |by rewrite Hh].
  split; rewrite ?Hz3, ?Hh; try done; [by destruct Hz'|]. eapply Forall_impl; [exact Hs|]. by intros ? [].
Qed.

Lemma thread_allocate_empty (f : nat) k zn l v sts :
  thread_env k zn l sts -> thread_chunks (4 + f) k zn l [] v ->
  exists k', thread_allocate (4 + f) k = Done (0, k') /\
    thread_env k' zn [] sts /\ threads k' = threads k /\ rings k' = rings k /\ vmst (heap k') = v.
Proof using.
  intros Henv Hc. pose proof Henv as [Hz Hp Hlk _ Hpool].
  destruct (thread_zalloc _ k zn _ _ _ _ Henv Hc) as (h&Ez&Hz'&_&Hv&_). unfold thread_allocate. rewrite Ez.
  eexists. split; [done|]. split_and!; [|done..]. split; try done; [|by destruct Hpool].
  assert (l = []) as ->.
  { destruct Hc as [_ Hc]. case_match; [|by destruct Hc]. destruct Hc as ([[]|]&_&_&_&_&_&E); [|done].
    symmetry in E. by apply app_nil in E as [_ ->]. }
  by rewrite (zone_rep_eq _ _ _ _ Hz), Hlk.
Qed.
End thread_props.

(** C33: [thread_allocate] from the thread zone, which refills itself: with 32
    free chunks or more it takes the first; with fewer it first asks the
    virtual memory layer for memory for 32 more and takes a chunk of that
    memory, or of the old list when the layer refuses.  With two kernel stacks
    in the pool the new thread is the template with both stacks, its interrupt
    stack the first one, and an initialised queue entry; with an empty pool
    both stacks are cut from fresh memory; with one stack in the pool and no
    memory for the second the result is null, and the chunk and the first stack
    are back in their lists; when the zone is empty and the layer refuses, the
    result is null and the zone and the stacks are as before. *)
Theorem thread_allocate_correct {V} `{KmemSource V} (f : nat) (k : kern V) zn l l1 v sts :
  thread_env k zn l sts -> thread_chunks (4 + f) k zn l l1 v ->
  match l1, sts with
  | a :: l', o0 :: o1 :: sts' =>
      exists k' st0 st1, thread_allocate (4 + f) k = Done (a + 4, k') /\
        kstacks k !! o0 = Some st0 /\ kstacks k !! o1 = Some st1 /\
        threads k' = <[a + 4 := new_thread (thread_template k) o0 (st_sp st0) o1 (st_sp st1)]> (threads k) /\
        ring (rings k') (QueueEntry (a + 4)) [] /\
        (forall x, x <> QueueEntry (a + 4) -> x <> WaitEntry (a + 4) -> rings k' !! x = rings k !! x) /\
        thread_env k' (with_free zn l' 0) l' sts' /\ vmst (heap k') = v
  | a :: l', [o0] => forall v', kalloc_ll (2 ^ 14) v = Done (None, v') ->
      exists k', thread_allocate (4 + f) k = Done (0, k') /\
        thread_env k' (with_free zn (a :: l') 0) (a :: l') [o0] /\ vmst (heap k') = v'
  | [], _ => exists k', thread_allocate (4 + f) k = Done (0, k') /\
      thread_env k' zn [] sts /\ threads k' = threads k /\ rings k' = rings k /\ vmst (heap k') = v
  | a :: l', [] => forall b0 n0 v0 b1 n1 v1,
      kalloc_ll (2 ^ 14) v = Done (Some (b0, n0), v0) ->
      kalloc_ll (2 ^ 14) v0 = Done (Some (b1, n1), v1) ->
      0 < b0 -> 8 <= n0 -> b0 + n0 < 2 ^ 32 -> 0 < b1 -> 8 <= n1 -> b1 + n1 < 2 ^ 32 -> b0 + n0 <> b1 + n1 ->
      exists k', thread_allocate (4 + f) k = Done (a + 4, k') /\
        threads k' = <[a + 4 := new_thread (thread_template k) (b0 + n0 - 8) (b0 + n0 - 8)
                                  (b1 + n1 - 8) (b1 + n1 - 8)]> (threads k) /\
        ring (rings k') (QueueEntry (a + 4)) [] /\
        thread_env k' (with_free zn l' 0) l' [] /\ vmst (heap k') = v1
  end.
Proof.
  intros Henv Hc. destruct l1 as [|a l1].
  - by eapply thread_allocate_empty.
  - destruct sts as [|o0 [|o1 sts]].
    + intros. by eapply thread_allocate_fresh.
    + intros v' Hv. by eapply thread_allocate_undone.
    + by eapply thread_allocate_ok.
Qed.

(** ** A concrete kernel *)

Module KernExample.
(** A layer that hands out the memory from 0x100000 on, once. *)
#[local] Instance one_source : KmemSource bool := {
  kalloc_ll size s := if s then Done (Some (0x100000, size), false) else Done (None, s);
  alloc_critical size s := Done (None, s);
  refill s := s;
}.

Definition zn : zone := Zone 128 0 "threads" 0 ZONE_AUTO_REFILL 0.
Definition zh (more : bool) : zheap bool := Zheap ∅ {[ 0x1000 := zn ]} 0 more.
Definition template : thread := Thread 0 [0; 0; 0; 0] [0; 0] [0; 0] 0 16 0 0.
(** The thread zone is empty; there are two kernel stacks. *)
Definition k0 (more : bool) : kern bool :=
  Kern (zh more) 0x8ff8 0 {[ 0x8ff8 := Kernel_stack 0xcff8 0x8ff8; 0xcff8 := Kernel_stack 0 0xcff8 ]}
    0x1000 template ∅ ∅ ∅ 0 0 ∅.

Lemma k0_env more : thread_env (k0 more) zn [] [0x8ff8; 0xcff8].
Proof.
  split; [|done|done|constructor|].
  - split; try done. constructor.
  - split; [done| |repeat constructor; set_solver].
    split_and!; [done|done|]. exists (Kernel_stack 0xcff8 0x8ff8). split; [done|].
    split_and!; [done|done|]. by exists (Kernel_stack 0 0xcff8).
Qed.

Lemma k0_refill : thread_chunks (4 + 40) (k0 true) zn [] (refilled zn [] (Some (0x100000, 4096))) false.
Proof.
  split; [done|]. exists (Some (0x100000, 4096)). split; [done|]. split; [done|]. split; [|split; [done|]].
  - split_and!; [done|done|done|intros a Ha; by apply not_elem_of_nil in Ha|done].
  - split; [|done]. apply Forall_forall. intros a Ha. cbn [refilled] in Ha. rewrite app_nil_r, elem_of_reverse in Ha.
    apply chunks_in in Ha; cbn in *; lia.
Qed.

(** An empty thread zone: the refill gives the thread in the last of the 32 new
    chunks; where the layer has no memory the result is null. *)
Lemma thread_allocate_correct_witness :
  (exists k' st0 st1, thread_allocate (4 + 40) (k0 true) = Done (0x100f80 + 4, k') /\
    kstacks (k0 true) !! 0x8ff8 = Some st0 /\ kstacks (k0 true) !! 0xcff8 = Some st1 /\
    threads k' = <[0x100f80 + 4 := new_thread template 0x8ff8 (st_sp st0) 0xcff8 (st_sp st1)]> (threads (k0 true))) /\
  (exists k', thread_allocate (4 + 40) (k0 false) = Done (0, k') /\ thread_env k' zn [] [0x8ff8; 0xcff8]).
Proof.
  split.
  - destruct (thread_allocate_correct 40 (k0 true) zn [] _ false _ (k0_env true) k0_refill)
      as (k'&st0&st1&E&H0&H1&Ht&_).
    exists k', st0, st1. split; [exact E|]. split; [exact H0|]. split; [exact H1|exact Ht].
  - destruct (thread_allocate_correct 40 (k0 false) zn [] [] false _ (k0_env false)) as (k'&E&Henv&_).
    + split; [reflexivity|]. exists None. split_and!; try reflexivity; constructor.
    + exists k'. split; [exact E|exact Henv].
Defined.
End KernExample.
