(* ===== verification/Sched.v ===== *)
(** * The scheduler

    Models [system/kern/kern_sched.c] and [kern/sched.h]: one scheduler per
    CPU, with 32 run rings of threads, a decay value per ring, and a ring of
    blocked threads.  The flag [THREAD_SF_LOCK_SCHED] keeps a preemption from
    entering a scheduler its own thread is changing.

    The macro [sched_runnable] is [linked_ring_empty], so it holds of the empty
    rings; the definitions follow the code and the theorems state what that
    makes of [sched_schedule_next] and [sched_preempt]. *)

From S2P Require Import Prelude Ring Spinlock Zalloc Kern.

(** ** Operations *)

Definition sched_prios : list Z :=
  [1; 5; 11; 19; 28; 38; 49; 60; 72; 84;
   97; 110; 123; 137; 151; 165; 180; 195;
   210; 225; 240; 256; 272; 288; 304; 320;
   337; 354; 371; 388; 405; 422].

(** 32 ring nodes of three words, 32 decay values, the idle thread, the ring of
    blocked threads, the count and the lock byte, padded. *)
Definition SIZEOF_SCHEDULER : Z := 536.

Definition set_decay (d : list Z) (x : scheduler) : scheduler :=
  Scheduler d (sched_idle x) (sched_thread_count x) (sched_lock x).
Definition set_sched_lock (l : Z) (x : scheduler) : scheduler :=
  Scheduler (sched_run_decay x) (sched_idle x) (sched_thread_count x) l.
Definition set_thread_count (n : Z) (x : scheduler) : scheduler :=
  Scheduler (sched_run_decay x) (sched_idle x) n (sched_lock x).

Section sched.
Context {V : Type} `{KmemSource V}.
Implicit Types k : kern V.

(** [ring->data = thread] *)
Definition put_data (a : raddr) (t : Z) (r : gmap raddr rnode) : outcome (gmap raddr rnode) :=
  n ← deref (r !! a); Done (<[a := Linked_ring (lr_next n) (lr_prev n) (Some t)]> r).

Definition sched_elem (t : Z) k : outcome (raddr * kern V) :=
  k ← with_rings (put_data (QueueEntry t) t) k; Done (QueueEntry t, k).

Definition sched_is_suspended (t : Z) k : outcome bool :=
  th ← deref (threads k !! t);
  Done (truthy (Z.land (t_stateflags th) THREAD_SF_QUEUE_WAIT) && truthy (t_wait_queue th)).

Definition sched_runnable (s : Z) (i : nat) k : outcome Z :=
  linked_ring_empty (Some (RunRing s i)) (rings k).

(** [scheduler->sched_run_decay[i] = f(scheduler->sched_run_decay[i])] *)
Definition with_decay (s : Z) (i : nat) (f : Z -> Z) k : outcome (kern V) :=
  x ← deref (scheds k !! s);
  d ← deref (sched_run_decay x !! i);
  with_sched s (set_decay (<[i := f d]> (sched_run_decay x))) k.

Definition reset_decay (s : Z) (i : nat) k : outcome (kern V) :=
  p ← deref (sched_prios !! i); with_decay s i (fun _ => p) k.

(** The [for] loop of [sched_schedule_next], with [n] rings to go. *)
Fixpoint sched_scan (n : nat) (s : Z) (i : nat) (mi mdecay : Z) k : outcome (Z * kern V) :=
  match n with
  | O => Done (mi, k)
  | S n =>
      r ← sched_runnable s i k;
      if negb (truthy r) then
        k ← reset_decay s i k; sched_scan n s (S i) mi mdecay k
      else
        k ← with_decay s i (fun d => i32 (d - 1)) k;
        x ← deref (scheds k !! s);
        d ← deref (sched_run_decay x !! i);
        if (mi <? 0) || (d <? mdecay) then sched_scan n s (S i) i d k
        else sched_scan n s (S i) mi mdecay k
  end.

(** The fuel bounds the number of restarts. *)
Fixpoint sched_schedule_next (fuel : nat) (s : Z) k : outcome (Z * kern V) :=
  match fuel with
  | O => OutOfFuel
  | S fuel =>
      '(mi, k) ← sched_scan SCHED_NRQS s 0 (-1) 0 k;
      if mi <? 0 then Done (0, k)
      else
        k ← reset_decay s (Z.to_nat mi) k;
        elem ← get_prev (Some (RunRing s (Z.to_nat mi))) (rings k);
        k ← with_rings (linked_ring_remove elem) k;
        a ← deref elem;
        node ← deref (rings k !! a);
        let current := default 0 (lr_data node) in
        suspended ← sched_is_suspended current k;
        if (suspended : bool) then
          '(e, k) ← sched_elem current k;
          k ← with_rings (linked_ring_insert (Some (Blocked s)) (Some e) false) k;
          sched_schedule_next fuel s k
        else Done (current, k)
  end.

Definition sched_schedule_idle (s : Z) k : outcome Z :=
  x ← deref (scheds k !! s); Done (sched_idle x).

Definition sched_reenqueue (s t : Z) k : outcome (kern V) :=
  x ← deref (scheds k !! s);
  if t =? sched_idle x then Done k
  else
    suspended ← sched_is_suspended t k;
    if (suspended : bool) then
      '(e, k) ← sched_elem t k;
      with_rings (linked_ring_insert (Some (Blocked s)) (Some e) false) k
    else
      th ← deref (threads k !! t);
      let i := Z.to_nat (t_priority th mod SCHED_NRQS) in
      r ← sched_runnable s i k;
      k ← (if negb (truthy r) then reset_decay s i k else Done k);
      '(e, k) ← sched_elem t k;
      with_rings (linked_ring_insert (Some (RunRing s i)) (Some e) true) k.

Definition sched_init (fuel : nat) k : outcome (kern V) :=
  '(z, h) ← zinit fuel SIZEOF_SCHEDULER ZONE_AUTO_REFILL (Some "Scheduler allocator") (heap k);
  Done (Kern h (stacks k) (stacks_sl k) (kstacks k) (thread_zone k) (thread_template k)
          (threads k) (rings k) (cpus k) (gs k) z (scheds k)).

(** The loop of [sched_instanciate], with [n] rings to go. *)
Fixpoint init_rings (n : nat) (s : Z) (i : nat) k : outcome (kern V) :=
  match n with
  | O => Done k
  | S n =>
      k ← reset_decay s i k;
      k ← with_rings (linked_ring_init (Some (RunRing s i))) k;
      init_rings n s (S i) k
  end.

(** [memset(scheduler,0,sizeof(struct scheduler))] *)
Definition zero_scheduler (s : Z) k : kern V :=
  let r := fold_right (fun i r => <[RunRing s i := zero_node]> r) (<[Blocked s := zero_node]> (rings k))
             (seq 0 SCHED_NRQS) in
  set_rings (set_scheds k (<[s := Scheduler (replicate SCHED_NRQS 0) 0 0 0]> (scheds k))) r.

Definition sched_instanciate (fuel : nat) (c : Z) k : outcome (kern V) :=
  '(s, h) ← zalloc fuel (sched_zone k) (heap k);
  let k := set_heap k h in
  if truthy s then
    let k := zero_scheduler s k in
    k ← with_sched s (fun x => set_sched_lock (kernlock_init (sched_lock x)) x) k;
    k ← with_sched s (set_thread_count 1) k;
    k ← init_rings SCHED_NRQS s 0 k;
    with_cpu c (fun x => Cpu (cpu_cpu_id x) (cpu_current_thread x) (cpu_local x) (cpu_arch x) s) k
  else Panic "Can't allocate the scheduler core.".

(** [ORDERED_APPLY(myself->t_stateflags, | THREAD_SF_LOCK_SCHED)] with the
    lock that follows it, and the release with its counterpart. *)
Definition enter_sched (myself s : Z) k : outcome (kern V) :=
  k ← with_thread myself (fun th => set_stateflags (Z.lor (t_stateflags th) THREAD_SF_LOCK_SCHED) th) k;
  x ← deref (scheds k !! s);
  l ← kernlock_lock 1 (sched_lock x);
  with_sched s (set_sched_lock l) k.
Definition leave_sched (myself s : Z) k : outcome (kern V) :=
  k ← with_sched s (fun x => set_sched_lock (kernlock_unlock (sched_lock x)) x) k;
  with_thread myself (fun th => set_stateflags (Z.land (t_stateflags th) (not32 THREAD_SF_LOCK_SCHED)) th) k.

Definition sched_insert (c t : Z) k : outcome (kern V) :=
  myself ← kernel_get_current_thread k;
  x ← deref (cpus k !! c);
  let s := cpu_scheduler x in
  k ← with_thread t (set_current_cpu c) k;
  k ← enter_sched myself s k;
  k ← sched_reenqueue s t k;
  k ← with_sched s (fun x => set_thread_count (sched_thread_count x +u 1) x) k;
  leave_sched myself s k.

Definition sched_remove (fuel : nat) (c : Z) k : outcome (Z * kern V) :=
  myself ← kernel_get_current_thread k;
  x ← deref (cpus k !! c);
  let s := cpu_scheduler x in
  k ← enter_sched myself s k;
  '(t, k) ← sched_schedule_next fuel s k;
  k ← (if truthy t then with_sched s (fun x => set_thread_count (sched_thread_count x -u 1) x) k else Done k);
  k ← leave_sched myself s k;
  k ← (if truthy t then with_thread t (set_current_cpu 0) k else Done k);
  Done (t, k).

Definition sched_actualize (t : Z) k : outcome (kern V) :=
  th ← deref (threads k !! t);
  let c := t_current_cpu th in
  if truthy c then
    x ← deref (cpus k !! c);
    let s := cpu_scheduler x in
    myself ← kernel_get_current_thread k;
    k ← enter_sched myself s k;
    th ← deref (threads k !! t);
    k ← (if truthy (Z.land (t_stateflags th) THREAD_SF_PREEMPT) then
           k ← with_rings (linked_ring_remove (Some (QueueEntry t))) k; sched_reenqueue s t k
         else Done k);
    leave_sched myself s k
  else Done k.

(** [sched_preempt] from the choice of the next thread on. *)
Definition preempt_to (s othr nthr : Z) k : outcome (kern V) :=
  nthr ← (if truthy nthr then Done nthr
          else suspended ← sched_is_suspended othr k;
               if negb suspended then Done othr else sched_schedule_idle s k);
  k ← (if othr =? nthr then Done k
       else
         k ← with_thread nthr (fun th => set_stateflags (Z.land (t_stateflags th) (not32 THREAD_SF_PREEMPT)) th) k;
         k ← kernel_set_current_thread nthr k;
         k ← with_thread othr (fun th => set_stateflags (Z.lor (t_stateflags th) THREAD_SF_PREEMPT) th) k;
         sched_reenqueue s othr k);
  with_sched s (fun x => set_sched_lock (kernlock_unlock (sched_lock x)) x) k.

Definition sched_preempt (fuel : nat) k : outcome (kern V) :=
  c ← kernel_get_current_cpu k;
  x ← deref (cpus k !! c);
  let s := cpu_scheduler x in
  othr ← kernel_get_current_thread k;
  th ← deref (threads k !! othr);
  if truthy (Z.land (t_stateflags th) THREAD_SF_LOCK_SCHED) then Done k
  else if truthy (t_nonpreempt th) then Done k
  else
    x ← deref (scheds k !! s);
    l ← kernlock_lock 1 (sched_lock x);
    k ← with_sched s (set_sched_lock l) k;
    '(nthr, k) ← sched_schedule_next fuel s k;
    preempt_to s othr nthr k.
End sched.

(** ** Representation *)

(** [struct thread] of a thread that waits for nothing. *)
Definition suspended (th : thread) : bool :=
  truthy (Z.land (t_stateflags th) THREAD_SF_QUEUE_WAIT) && truthy (t_wait_queue th).

Definition prio (i : nat) : Z := default 0 (sched_prios !! i).

Lemma prio_lookup (i : nat) : (i < SCHED_NRQS)%nat -> sched_prios !! i = Some (prio i).
Proof. intros Hi. unfold prio. by destruct (lookup_lt_is_Some_2 sched_prios i Hi) as [p ->]. Qed.

Lemma NoDup_concat_disjoint {A} (qs : list (list A)) i j p q x :
  NoDup (concat qs) -> i <> j -> qs !! i = Some p -> qs !! j = Some q -> x ∈ p -> x ∉ q.
Proof.
  assert (Hlt : forall (i j : nat) p q, NoDup (concat qs) -> (i < j)%nat -> qs !! i = Some p -> qs !! j = Some q ->
    x ∈ p -> x ∉ q).
  { clear. intros i j p q Hnd Hij Hi Hj Hp Hq. rewrite <-(take_drop_middle qs i p Hi), concat_app in Hnd.
    apply NoDup_app in Hnd as (_&_&Hnd). simpl in Hnd. apply NoDup_app in Hnd as (_&Hd&_). apply (Hd x Hp).
    apply list_elem_of_In, in_concat. exists q. split; [|by apply list_elem_of_In].
    apply list_elem_of_In, list_elem_of_lookup. exists (j - S i)%nat. rewrite lookup_drop.
    by replace (S i + (j - S i))%nat with j by lia. }
  intros Hnd Hij Hi Hj Hp Hq. destruct (Nat.lt_total i j) as [Hl|[Hl|Hl]]; [|done|].
  - by eapply (Hlt i j).
  - by eapply (Hlt j i).
Qed.

Section sched_props.
Context {V : Type} `{KmemSource V}.
Implicit Types k : kern V.

(** The scheduler [s] with the record [x] and the threads of its run rings. *)
Record sched_rep k (s : Z) (x : scheduler) (qs : list (list Z)) : Prop := {
  sr_sched : scheds k !! s = Some x;
  sr_len : length qs = SCHED_NRQS;
  sr_decay : length (sched_run_decay x) = SCHED_NRQS;
  sr_rings : forall i q, qs !! i = Some q -> ring (rings k) (RunRing s i) (QueueEntry <$> q);
  sr_heads : forall i : nat, (i < SCHED_NRQS)%nat ->
    exists n, rings k !! RunRing s i = Some n /\ lr_data n = None;
  sr_nodup : NoDup (concat qs);
}.

Lemma sched_queue k s x qs (i : nat) :
  sched_rep k s x qs -> (i < SCHED_NRQS)%nat -> exists q, qs !! i = Some q.
Proof using. intros Hr Hi. apply lookup_lt_is_Some_2. by rewrite (sr_len _ _ _ _ Hr). Qed.

Lemma sched_runnable_ok k s x qs i q :
  sched_rep k s x qs -> qs !! i = Some q ->
  sched_runnable s i k = Done (if decide (q = []) then -1 else 0).
Proof using.
  intros Hr Hq. unfold sched_runnable. rewrite (linked_ring_empty_ok _ _ _ (sr_rings _ _ _ _ Hr i q Hq)).
  by destruct q.
Qed.

(** A change of the decay values only. *)
Definition at_decay k (s : Z) (x : scheduler) (d : list Z) : kern V :=
  set_scheds k (<[s := set_decay d x]> (scheds k)).

Lemma at_decay_rep k s x qs d :
  sched_rep k s x qs -> length d = SCHED_NRQS -> sched_rep (at_decay k s x d) s (set_decay d x) qs.
Proof using. intros [] Hd. split; try done. cbn. apply lookup_insert_eq. Qed.

Lemma at_decay_at_decay k s x d d' : at_decay (at_decay k s x d) s (set_decay d x) d' = at_decay k s x d'.
Proof using. unfold at_decay. cbn. by rewrite insert_insert_eq. Qed.

Lemma at_decay_id k s x qs : sched_rep k s x qs -> at_decay k s x (sched_run_decay x) = k.
Proof using.
  intros Hr. unfold at_decay. destruct k, x. cbn in *. unfold set_scheds. cbn. f_equal.
  by apply insert_id, (sr_sched _ _ _ _ Hr).
Qed.

Lemma with_decay_ok k s x qs (i : nat) f d :
  sched_rep k s x qs -> sched_run_decay x !! i = Some d ->
  with_decay s i f k = Done (at_decay k s x (<[i := f d]> (sched_run_decay x))).
Proof using.
  intros Hr Hd. unfold with_decay. rewrite (sr_sched _ _ _ _ Hr). cbn [deref mbind outcome_bind]. rewrite Hd.
  cbn [deref mbind outcome_bind]. by rewrite (with_sched_ok _ _ _ _ (sr_sched _ _ _ _ Hr)).
Qed.

Lemma reset_decay_ok k s x qs (i : nat) :
  sched_rep k s x qs -> (i < SCHED_NRQS)%nat ->
  reset_decay s i k = Done (at_decay k s x (<[i := prio i]> (sched_run_decay x))).
Proof using.
  intros Hr Hi. unfold reset_decay. rewrite prio_lookup by done. cbn [deref mbind outcome_bind].
  destruct (lookup_lt_is_Some_2 (sched_run_decay x) i) as [d Hd]; [by rewrite (sr_decay _ _ _ _ Hr)|].
  by rewrite (with_decay_ok _ _ _ _ _ _ _ Hr Hd).
Qed.

(** The decay values after the loop: a ring the test [sched_runnable] selects
    (an empty one) decays, the others are reset. *)
Definition decayed (qs : list (list Z)) (d : list Z) (from i : nat) : option Z :=
  if decide (i < from)%nat then d !! i
  else match qs !! i with
       | Some [] => (fun y => i32 (y - 1)) <$> d !! i
       | Some _ => Some (prio i)
       | None => None
       end.

(** What the loop from ring [i] on makes of the decay values [d] and of the
    choice [mi], [md] so far: the chosen ring is one the test selects, and no
    such ring has a lower decay value. *)
Record scan_result (qs : list (list Z)) (d : list Z) (i : nat) (mi md mi' md' : Z) (d' : list Z) : Prop := {
  sc_len : length d' = SCHED_NRQS;
  sc_decay : forall j : nat, (j < SCHED_NRQS)%nat -> d' !! j = decayed qs d i j;
  sc_pick : mi' = mi /\ md' = md \/
    exists j : nat, mi' = j /\ (i <= j)%nat /\ qs !! j = Some [] /\ d' !! j = Some md';
  sc_none : mi' < 0 -> forall j q, (i <= j)%nat -> qs !! j = Some q -> q <> [];
  sc_le : 0 <= mi -> md' <= md;
  sc_min : forall j y, (i <= j)%nat -> qs !! j = Some [] -> d' !! j = Some y -> md' <= y;
}.

Lemma scan_result_step (qs : list (list Z)) (d : list Z) (i : nat) (q : list Z) (y mi md mi1 md1 mi' md' : Z) (d' : list Z) :
  length d = SCHED_NRQS -> (i < SCHED_NRQS)%nat -> qs !! i = Some q -> decayed qs d i i = Some y ->
  match q with
  | [] => mi1 = i /\ md1 = y /\ (0 <= mi -> y <= md) \/ mi1 = mi /\ md1 = md /\ 0 <= mi /\ md <= y
  | _ => mi1 = mi /\ md1 = md
  end ->
  scan_result qs (<[i := y]> d) (S i) mi1 md1 mi' md' d' -> scan_result qs d i mi md mi' md' d'.
Proof using.
  intros Hl Hi Hq Hy Hch [Hlen Hdec Hpick Hnone Hle Hmin].
  assert (Hd'i : d' !! i = Some y).
  { rewrite Hdec by done. unfold decayed. rewrite decide_True by lia. apply list_lookup_insert_eq. lia. }
  assert (Hlater : forall j : nat, (i <= j)%nat -> j <> i -> (S i <= j)%nat) by (intros; lia).
  split; [done| | | | |].
  - intros j Hj. destruct (decide (j = i)) as [->|Hne]; [by rewrite Hd'i, Hy|].
    rewrite Hdec by done. unfold decayed. rewrite list_lookup_insert_ne by done. repeat case_decide; (done || lia).
  - destruct Hpick as [[-> ->]|(j&->&Hj&Hqj&Hdj)]; [|right; exists j; split_and!; (done || lia)].
    destruct q; [|by left]. destruct Hch as [(->&->&_)|(->&->&_)]; [right|by left].
    exists i. split_and!; (done || lia).
  - intros Hneg j q' Hj Hqj. destruct (decide (j = i)) as [->|Hne]; [|apply (Hnone Hneg j q'); [lia|done]].
    rewrite Hq in Hqj. injection Hqj as <-. intros ->.
    destruct Hpick as [[-> _]|(j&->&_)]; [|lia]. destruct Hch as [(->&_)|(->&_&?&_)]; lia.
  - intros Hmi. destruct q; [destruct Hch as [(->&->&?)|(->&->&?)]|destruct Hch as [-> ->]]; auto.
    specialize (Hle ltac:(lia)). specialize (H0 Hmi). lia.
  - intros j y' Hj Hqj Hy'. destruct (decide (j = i)) as [->|Hne]; [|apply (Hmin j y'); [lia|done..]].
    simplify_eq. destruct Hch as [(->&->&_)|(->&->&?&?)]; specialize (Hle ltac:(lia)); lia.
Qed.

Lemma sched_scan_ok (n : nat) (i : nat) k s x qs mi md :
  sched_rep k s x qs -> (i + n = SCHED_NRQS)%nat ->
  exists mi' md' d', sched_scan n s i mi md k = Done (mi', at_decay k s x d') /\
    scan_result qs (sched_run_decay x) i mi md mi' md' d'.
Proof using.
  revert i k x mi md. induction n as [|n IH]; intros i k x mi md Hr Hin;
    pose proof (sr_decay _ _ _ _ Hr) as Hdl; pose proof (sr_len _ _ _ _ Hr) as Hql.
  { exists mi, md, (sched_run_decay x). rewrite (at_decay_id _ _ _ _ Hr). split; [done|].
    split; [done| |by left| |done|].
    - intros j Hj. unfold decayed. by rewrite decide_True by lia.
    - intros _ j q Hj Hq%lookup_lt_Some. lia.
    - intros j y Hj Hq%lookup_lt_Some. lia. }
  cbn [sched_scan]. destruct (sched_queue _ _ _ _ i Hr ltac:(lia)) as [q Hq].
  rewrite (sched_runnable_ok _ _ _ _ _ _ Hr Hq). cbn [mbind outcome_bind].
  destruct (lookup_lt_is_Some_2 (sched_run_decay x) i) as [d Hd]; [lia|].
  assert (Hrep : forall y, sched_rep (at_decay k s x (<[i := y]> (sched_run_decay x))) s
                             (set_decay (<[i := y]> (sched_run_decay x)) x) qs).
  { intros y. apply at_decay_rep; [done|]. by rewrite length_insert. }
  destruct q as [|t q]; cbn [decide list_eq_nil_dec truthy Z.eqb negb].
  - rewrite (with_decay_ok _ _ _ _ _ _ _ Hr Hd). cbn [mbind outcome_bind].
    rewrite (sr_sched _ _ _ _ (Hrep _)). cbn [deref mbind outcome_bind set_decay sched_run_decay].
    rewrite list_lookup_insert_eq by lia. cbn [deref mbind outcome_bind].
    assert (Hy : decayed qs (sched_run_decay x) i i = Some (i32 (d - 1))).
    { unfold decayed. by rewrite decide_False, Hq, Hd by lia. }
    destruct ((mi <? 0) || (i32 (d - 1) <? md)) eqn:Hc.
    + destruct (IH (S i) _ _ (i : Z) (i32 (d - 1)) (Hrep (i32 (d - 1))) ltac:(lia)) as (mi'&md'&d'&->&Hres).
      rewrite at_decay_at_decay. exists mi', md', d'. split; [done|].
      eapply scan_result_step; [done|lia|exact Hq|exact Hy| |exact Hres]. left. lia.
    + destruct (IH (S i) _ _ mi md (Hrep (i32 (d - 1))) ltac:(lia)) as (mi'&md'&d'&->&Hres).
      rewrite at_decay_at_decay. exists mi', md', d'. split; [done|].
      eapply scan_result_step; [done|lia|exact Hq|exact Hy| |exact Hres]. right. lia.
  - rewrite (reset_decay_ok _ _ _ _ _ Hr) by lia. cbn [mbind outcome_bind].
    destruct (IH (S i) _ _ mi md (Hrep (prio i)) ltac:(lia)) as (mi'&md'&d'&->&Hres).
    rewrite at_decay_at_decay. exists mi', md', d'. split; [done|].
    eapply scan_result_step; [done|lia|exact Hq| |done|exact Hres].
    unfold decayed. by rewrite decide_False, Hq by lia.
Qed.

(** *** Choosing the next thread *)

Lemma payload_data (r r' : gmap raddr rnode) a n :
  payload r' = payload r -> r !! a = Some n -> exists n', r' !! a = Some n' /\ lr_data n' = lr_data n.
Proof using.
  intros Hp Hn. destruct (payload_is_Some r r' a Hp) as [n' Hn']; [eauto|]. exists n'. split; [done|].
  apply (f_equal (.!! a)) in Hp. unfold payload in Hp. rewrite !lookup_fmap, Hn, Hn' in Hp.
  by injection Hp.
Qed.

(** Removing the head of an empty ring. *)
Lemma remove_head_ok (r : gmap raddr rnode) a :
  ring r a [] -> exists r', linked_ring_remove (Some a) r = Done r' /\ payload r' = payload r.
Proof using.
  intros Hr. unfold linked_ring_remove.
  rewrite (get_prev_of _ _ _ (ring_prev _ _ _ Hr)), (get_next_of _ _ _ (ring_next _ _ _ Hr)).
  cbn [mbind outcome_bind last default hd].
  assert (Hin : is_Some (r !! a)) by (eapply ring_in_dom; [done|set_solver]).
  destruct (put_next_spec r a (Some a) Hin) as (r1&E1&_&_&_&Y1).
  destruct (put_prev_spec r1 a (Some a)) as (r2&E2&_&_&_&Y2); [by eapply payload_is_Some|].
  exists r2. change (default a None) with a. rewrite E1. cbn [mbind outcome_bind]. split; [exact E2|congruence].
Qed.

(** When a run ring is empty, the test selects it, and the thread read from
    its head is the null pointer. *)
Lemma schedule_next_empty (fuel : nat) k s x qs :
  sched_rep k s x qs -> threads k !! 0 = None -> [] ∈ qs -> sched_schedule_next (S fuel) s k = Fault.
Proof using.
  intros Hr H0 [i Hi]%list_elem_of_lookup. cbn [sched_schedule_next].
  destruct (sched_scan_ok SCHED_NRQS 0 k s x qs (-1) 0 Hr eq_refl) as (mi&md&d&->&[Hl Hd Hp Hn _ _]).
  cbn [mbind outcome_bind]. destruct (Z.ltb_spec mi 0) as [Hneg|Hpos].
  { by destruct (Hn Hneg i [] ltac:(lia) Hi). }
  destruct Hp as [[-> _]|(j&->&_&Hj&_)]; [lia|]. rewrite Nat2Z.id.
  pose proof (lookup_lt_Some _ _ _ Hj) as Hjl. rewrite (sr_len _ _ _ _ Hr) in Hjl.
  pose proof (at_decay_rep _ _ _ _ d Hr Hl) as Hr1. rewrite (reset_decay_ok _ _ _ _ _ Hr1) by done.
  cbn [mbind outcome_bind]. rewrite at_decay_at_decay. cbn [rings at_decay set_scheds].
  pose proof (sr_rings _ _ _ _ Hr j [] Hj) as Hring. cbn [fmap list_fmap] in Hring.
  rewrite (get_prev_of _ _ _ (ring_prev _ _ _ Hring)). cbn [mbind outcome_bind last]. change (default ?a None) with a.
  unfold with_rings. cbn [rings at_decay set_scheds].
  destruct (remove_head_ok _ _ Hring) as (r'&->&Hpay). cbn [mbind outcome_bind deref set_rings rings].
  destruct (sr_heads _ _ _ _ Hr j Hjl) as (n&Hnode&Hdata).
  destruct (payload_data _ _ _ _ Hpay Hnode) as (n'&->&Hdata'). cbn [mbind outcome_bind deref].
  rewrite Hdata', Hdata. change (default 0 None) with 0. unfold sched_is_suspended. cbn. by rewrite H0.
Qed.

Lemma schedule_next_full (fuel : nat) k s x qs :
  sched_rep k s x qs -> [] ∉ qs ->
  sched_schedule_next (S fuel) s k = Done (0, at_decay k s x sched_prios).
Proof using.
  intros Hr Hno. cbn [sched_schedule_next].
  destruct (sched_scan_ok SCHED_NRQS 0 k s x qs (-1) 0 Hr eq_refl) as (mi&md&d&->&[Hl Hd Hp _ _ _]).
  destruct Hp as [[-> _]|(j&_&_&Hj&_)]; [|by destruct Hno; eapply list_elem_of_lookup_2].
  cbn [mbind outcome_bind Z.ltb Z.compare]. do 3 f_equal. apply list_eq. intros i.
  destruct (decide (i < SCHED_NRQS)%nat) as [Hi|Hi].
  - rewrite Hd by done. unfold decayed. rewrite decide_False by lia.
    destruct (sched_queue _ _ _ _ i Hr Hi) as [q Hq]. rewrite Hq, prio_lookup by done.
    destruct q; [|done]. destruct Hno. by eapply list_elem_of_lookup_2.
  - rewrite !lookup_ge_None_2; [done| |lia]. change (length sched_prios) with SCHED_NRQS. lia.
Qed.

(** *** Preemption *)

(** The thread [me] runs on the CPU [c] with the scheduler [s]. *)
Record running k (c s me : Z) (th : thread) : Prop := {
  rn_self : kernel_get_current_cpu k = Done c;
  rn_cpu : exists x, cpus k !! c = Some x /\ cpu_scheduler x = s /\ cpu_current_thread x = me;
  rn_thread : threads k !! me = Some th;
}.

Lemma current_thread_ok k c s me th : running k c s me th -> kernel_get_current_thread k = Done me.
Proof using.
  intros [Hc (x&Hx&_&Hm) _]. unfold kernel_get_current_thread. rewrite Hc. cbn [mbind outcome_bind].
  rewrite Hx. cbn. by rewrite Hm.
Qed.

Definition preemptible (th : thread) : bool :=
  negb (truthy (Z.land (t_stateflags th) THREAD_SF_LOCK_SCHED)) && negb (truthy (t_nonpreempt th)).

(** Taking and releasing the lock around a change of the decay values. *)
Lemma relock k s x d :
  sched_lock x = 0 ->
  set_scheds (at_decay (set_scheds k (<[s := set_sched_lock (-1) x]> (scheds k))) s (set_sched_lock (-1) x) d)
    (<[s := set_sched_lock 0 (set_decay d (set_sched_lock (-1) x))]>
       (scheds (at_decay (set_scheds k (<[s := set_sched_lock (-1) x]> (scheds k))) s (set_sched_lock (-1) x) d)))
  = at_decay k s x d.
Proof using.
  intros Hl. destruct x as [dd idle cnt l]. cbn in Hl. subst l. unfold at_decay. cbn.
  by rewrite !insert_insert_eq.
Qed.

Lemma set_sched_lock_rep k s x qs l :
  sched_rep k s x qs ->
  sched_rep (set_scheds k (<[s := set_sched_lock l x]> (scheds k))) s (set_sched_lock l x) qs.
Proof using. intros []. split; try done. cbn. apply lookup_insert_eq. Qed.

Lemma sched_preempt_skip (fuel : nat) k c s me th :
  running k c s me th -> preemptible th = false -> sched_preempt fuel k = Done k.
Proof using.
  intros Hrun Hp. unfold sched_preempt. rewrite (current_thread_ok _ _ _ _ _ Hrun).
  destruct Hrun as [-> (x&Hx&Hs&_) Ht]. cbn [mbind outcome_bind]. rewrite Hx. cbn [deref mbind outcome_bind].
  rewrite Ht. cbn [deref mbind outcome_bind]. unfold preemptible in Hp.
  destruct (truthy (Z.land _ _)); [done|]. by destruct (truthy (t_nonpreempt th)).
Qed.

Definition sched_locked k (s : Z) (x : scheduler) : kern V :=
  set_scheds k (<[s := set_sched_lock (-1) x]> (scheds k)).

Lemma sched_preempt_enter (fuel : nat) k c s me th x qs :
  running k c s me th -> preemptible th = true -> sched_rep k s x qs -> sched_lock x = 0 ->
  sched_preempt fuel k =
    ('(nthr, k1) ← sched_schedule_next fuel s (sched_locked k s x); preempt_to s me nthr k1).
Proof using.
  intros Hrun Hp Hr Hl. unfold sched_preempt. rewrite (current_thread_ok _ _ _ _ _ Hrun).
  destruct Hrun as [-> (y&Hy&Hs&_) Ht]. cbn [mbind outcome_bind]. rewrite Hy. cbn [deref mbind outcome_bind].
  rewrite Ht. cbn [deref mbind outcome_bind]. apply andb_true_iff in Hp as [Hp1 Hp2].
  apply negb_true_iff in Hp1, Hp2. rewrite Hp1, Hp2, Hs, (sr_sched _ _ _ _ Hr). cbn [deref mbind outcome_bind].
  rewrite Hl, (kernlock_lock_free 0). cbn [mbind outcome_bind].
  by rewrite (with_sched_ok _ _ _ _ (sr_sched _ _ _ _ Hr)).
Qed.

(** No next thread and a current thread that can go on. *)
Lemma preempt_to_self k s me th x d :
  threads k !! me = Some th -> suspended th = false -> sched_lock x = 0 ->
  preempt_to s me 0 (at_decay (sched_locked k s x) s (set_sched_lock (-1) x) d) = Done (at_decay k s x d).
Proof using.
  intros Ht Hsus Hl. unfold preempt_to. cbn [truthy Z.eqb negb].
  unfold sched_is_suspended. cbn [threads at_decay sched_locked set_scheds].
  rewrite Ht. cbn [deref mbind outcome_bind]. fold (suspended th). rewrite Hsus. cbn [negb mbind outcome_bind].
  rewrite Z.eqb_refl. cbn [mbind outcome_bind].
  erewrite with_sched_ok by (apply lookup_insert_eq). by rewrite <-(relock k s x d Hl).
Qed.

(** No next thread and a suspended current thread: when it is the idle thread
    it goes on. *)
Lemma preempt_to_idle_self k s me th x d :
  threads k !! me = Some th -> suspended th = true -> sched_lock x = 0 -> sched_idle x = me ->
  preempt_to s me 0 (at_decay (sched_locked k s x) s (set_sched_lock (-1) x) d) = Done (at_decay k s x d).
Proof using.
  intros Ht Hsus Hl Hid. unfold preempt_to. cbn [truthy Z.eqb negb].
  unfold sched_is_suspended. cbn [threads at_decay sched_locked set_scheds].
  rewrite Ht. cbn [deref mbind outcome_bind]. fold (suspended th). rewrite Hsus. cbn [negb mbind outcome_bind].
  unfold sched_schedule_idle. cbn [scheds at_decay set_scheds]. rewrite lookup_insert_eq.
  cbn [deref mbind outcome_bind sched_idle set_decay set_sched_lock]. rewrite Hid, Z.eqb_refl. cbn [mbind outcome_bind].
  erewrite with_sched_ok by (apply lookup_insert_eq). by rewrite <-(relock k s x d Hl).
Qed.

(** A suspended thread cannot be put in a ring of blocked threads that was
    never initialised. *)
Lemma sched_reenqueue_blocked k s me th x :
  scheds k !! s = Some x -> threads k !! me = Some th -> suspended th = true -> me <> sched_idle x ->
  rings k !! Blocked s = Some zero_node -> sched_reenqueue s me k = Fault.
Proof using.
  intros Hs Ht Hsus Hne Hb. unfold sched_reenqueue. rewrite Hs. cbn [deref mbind outcome_bind].
  rewrite (proj2 (Z.eqb_neq me _)) by done. unfold sched_is_suspended. rewrite Ht. cbn [deref mbind outcome_bind].
  fold (suspended th). rewrite Hsus. unfold sched_elem, with_rings, put_data.
  destruct (rings k !! QueueEntry me); [|done]. cbn [deref mbind outcome_bind rings set_rings].
  unfold linked_ring_insert, get_prev. cbn [deref mbind outcome_bind].
  rewrite lookup_insert_ne, Hb by done. done.
Qed.

(** Making another thread the current one leaves a thread, the schedulers and
    the rings alone. *)
Lemma set_current_thread_keeps k t me :
  t <> me ->
  kernel_set_current_thread t k = Fault \/
  exists k', kernel_set_current_thread t k = Done k' /\ threads k' !! me = threads k !! me /\
    scheds k' = scheds k /\ rings k' = rings k.
Proof using.
  intros Hne. unfold kernel_set_current_thread, kernel_get_current_cpu, hal_after_thread_switch, with_cpu, with_thread.
  destruct (cpus k !! gs k) as [x|]; [|by left]. cbn [deref mbind outcome_bind].
  destruct (cpu_local x !! 0%nat) as [c|]; [|by left]. cbn [deref mbind outcome_bind].
  destruct (cpus k !! c) as [y|]; [|by left]. cbn [deref mbind outcome_bind set_cpus threads].
  destruct (threads k !! t) as [th|]; [|by left]. cbn [deref mbind outcome_bind set_threads set_cpus cpus gs threads].
  match goal with |- context [deref (?m !! gs k)] => destruct (m !! gs k) as [z|] end; [|by left].
  cbn [deref mbind outcome_bind].
  destruct (cpu_local z !! 0%nat) as [self|]; [|by left]. cbn [deref mbind outcome_bind].
  destruct (cpu_local z !! 1%nat) as [tls|]; [|by left]. cbn [deref mbind outcome_bind].
  match goal with |- context [deref (?m !! tls)] => destruct (m !! tls) as [u|] end; [|by left].
  cbn [deref mbind outcome_bind].
  destruct (t_storage u !! 0%nat) as [sp|]; [|by left]. cbn [deref mbind outcome_bind].
  match goal with |- context [deref (?m !! self)] => destruct (m !! self) end; [|by left].
  right. eexists. split; [done|]. cbn. by rewrite lookup_insert_ne.
Qed.

(** No next thread and a suspended current thread: the idle thread is taken, and
    the insertion of the old thread in the ring of blocked threads, which
    [sched_instanciate] leaves all zero, dereferences the null pointer. *)
Lemma preempt_to_idle_fault k s me th x :
  scheds k !! s = Some x -> threads k !! me = Some th -> suspended th = true -> me <> sched_idle x ->
  rings k !! Blocked s = Some zero_node -> preempt_to s me 0 k = Fault.
Proof using.
  intros Hs Ht Hsus Hne Hb. unfold preempt_to. cbn [truthy Z.eqb negb].
  unfold sched_is_suspended. rewrite Ht. cbn [deref mbind outcome_bind]. fold (suspended th). rewrite Hsus.
  cbn [negb]. unfold sched_schedule_idle. rewrite Hs. cbn [deref mbind outcome_bind].
  rewrite (proj2 (Z.eqb_neq me _)) by done.
  destruct (threads k !! sched_idle x) as [ti|] eqn:Hti; [|unfold with_thread; by rewrite Hti].
  rewrite (with_thread_ok _ _ _ _ Hti). cbn [mbind outcome_bind].
  destruct (set_current_thread_keeps (set_threads k (<[sched_idle x := set_stateflags
    (Z.land (t_stateflags ti) (not32 THREAD_SF_PREEMPT)) ti]> (threads k))) (sched_idle x) me) as [->|(k'&->&Ht'&Hs'&Hr')];
    [done|done|]. cbn [mbind outcome_bind]. cbn [threads set_threads] in Ht'. rewrite lookup_insert_ne, Ht in Ht' by done.
  rewrite (with_thread_ok _ _ _ _ Ht'). cbn [mbind outcome_bind].
  erewrite sched_reenqueue_blocked; [done| |apply lookup_insert_eq| |done|].
  - cbn. by rewrite Hs'.
  - apply andb_true_iff in Hsus as [Hf Hw]. apply andb_true_iff. split; [|done]. cbn [set_stateflags t_stateflags].
    apply truthy_true. apply truthy_true in Hf. intros Hz. apply Hf. rewrite Z.land_lor_distr_l in Hz.
    by apply Z.lor_eq_0_iff in Hz as [? _].
  - cbn. by rewrite Hr'.
Qed.

Lemma sched_preempt_suspended (fuel : nat) k c s me th x qs :
  running k c s me th -> preemptible th = true -> sched_rep k s x qs -> sched_lock x = 0 ->
  [] ∉ qs -> suspended th = true ->
  (sched_idle x = me -> sched_preempt (S fuel) k = Done (at_decay k s x sched_prios)) /\
  (sched_idle x <> me -> rings k !! Blocked s = Some zero_node -> sched_preempt (S fuel) k = Fault).
Proof using.
  intros Hrun Hp Hr Hl Hno Hsus. rewrite (sched_preempt_enter _ _ _ _ _ _ _ _ Hrun Hp Hr Hl).
  pose proof (set_sched_lock_rep _ _ _ _ (-1) Hr) as Hr1. fold (sched_locked k s x) in Hr1.
  rewrite (schedule_next_full fuel _ _ _ _ Hr1 Hno). cbn [mbind outcome_bind].
  pose proof (rn_thread _ _ _ _ _ Hrun) as Ht. split; intros Hid.
  - by apply (preempt_to_idle_self _ _ _ th).
  - intros Hb. eapply preempt_to_idle_fault; [apply lookup_insert_eq|exact Ht|done|by apply not_eq_sym|done].
Qed.

Lemma sched_preempt_ok (fuel : nat) k c s me th x qs :
  running k c s me th -> preemptible th = true -> sched_rep k s x qs -> sched_lock x = 0 ->
  ([] ∉ qs -> suspended th = false -> sched_preempt (S fuel) k = Done (at_decay k s x sched_prios)) /\
  ([] ∈ qs -> threads k !! 0 = None -> sched_preempt (S fuel) k = Fault).
Proof using.
  intros Hrun Hp Hr Hl. rewrite (sched_preempt_enter _ _ _ _ _ _ _ _ Hrun Hp Hr Hl).
  pose proof (set_sched_lock_rep _ _ _ _ (-1) Hr) as Hr1. fold (sched_locked k s x) in Hr1. split.
  - intros Hno Hsus. rewrite (schedule_next_full fuel _ _ _ _ Hr1 Hno). cbn [mbind outcome_bind].
    by apply (preempt_to_self _ _ _ th); [apply (rn_thread _ _ _ _ _ Hrun)|..].
  - intros Hin H0. by rewrite (schedule_next_empty fuel _ _ _ _ Hr1).
Qed.

(** *** Enqueueing *)

(** Storing [data] in a node outside the rings of the scheduler. *)
Lemma put_data_ok k s x qs t :
  sched_rep k s x qs -> t ∉ concat qs -> is_Some (rings k !! QueueEntry t) ->
  exists r, put_data (QueueEntry t) t (rings k) = Done r /\ sched_rep (set_rings k r) s x qs /\
    is_Some (r !! QueueEntry t) /\ forall a, a <> QueueEntry t -> r !! a = rings k !! a.
Proof using.
  intros [Hs Hl Hd Hrings Hh Hnd] Ht [n Hn]. unfold put_data. rewrite Hn. cbn [deref mbind outcome_bind].
  eexists. split; [done|]. split_and!.
  - split; try done; cbn.
    + intros i q Hq. eapply ring_frame; [|by apply Hrings]. intros a Ha. apply lookup_insert_ne. intros <-.
      apply elem_of_cons in Ha as [?|(t'&Heq&Ht')%list_elem_of_fmap]; [done|]. injection Heq as <-.
      apply Ht, list_elem_of_In, in_concat. exists q. split; [|by apply list_elem_of_In].
      apply list_elem_of_In. by eapply list_elem_of_lookup_2.
    + intros i Hi. rewrite lookup_insert_ne by done. by apply Hh.
  - rewrite lookup_insert_eq. eauto.
  - intros a Ha. by apply lookup_insert_ne.
Qed.

Lemma NoDup_concat_insert (qs : list (list Z)) i q t :
  NoDup (concat qs) -> qs !! i = Some q -> t ∉ concat qs -> NoDup (concat (<[i := t :: q]> qs)).
Proof using.
  intros Hnd Hq Ht. pose proof (lookup_lt_Some _ _ _ Hq).
  rewrite insert_take_drop by done. rewrite <-(take_drop_middle qs i q Hq) in Hnd, Ht.
  rewrite concat_app in Hnd, Ht |- *. cbn [concat app] in Hnd, Ht |- *.
  rewrite <-Permutation_middle. by constructor.
Qed.

(** Insertion at the front of the ring [i] keeps every other ring. *)
Lemma ring_push_rep k s x qs i q t :
  sched_rep k s x qs -> qs !! i = Some q -> t ∉ concat qs -> is_Some (rings k !! QueueEntry t) ->
  exists r, linked_ring_insert (Some (RunRing s i)) (Some (QueueEntry t)) true (rings k) = Done r /\
    sched_rep (set_rings k r) s x (<[i := t :: q]> qs) /\
    keeps (QueueEntry t :: RunRing s i :: (QueueEntry <$> q)) (rings k) r.
Proof using.
  intros [Hs Hl Hd Hrings Hh Hnd] Hq Ht Hnode.
  assert (Hnotin : forall j p, qs !! j = Some p -> t ∉ p).
  { intros j p Hp Hin. apply Ht, list_elem_of_In, in_concat. exists p. split; [|by apply list_elem_of_In].
    apply list_elem_of_In. by eapply list_elem_of_lookup_2. }
  destruct (linked_ring_insert_ok (rings k) (RunRing s i) (QueueEntry t) (QueueEntry <$> q) true)
    as (r&E&Hring&Hkeep); [by apply Hrings| |done|].
  { rewrite elem_of_cons, list_elem_of_fmap. intros [?|(t'&[= <-]&?)]; [done|]. by eapply Hnotin. }
  exists r. split; [done|]. split; [|done]. split; cbn; try done.
  - by rewrite length_insert.
  - intros j p Hp. destruct (decide (j = i)) as [->|Hne].
    + rewrite list_lookup_insert_eq in Hp by (by eapply lookup_lt_Some). by injection Hp as <-.
    + rewrite list_lookup_insert_ne in Hp by done. eapply ring_frame; [|by apply Hrings].
      intros a Ha. apply (proj1 Hkeep).
      rewrite !elem_of_cons, list_elem_of_fmap. rewrite elem_of_cons, list_elem_of_fmap in Ha.
      destruct Ha as [->|(t'&->&Ht')]; [intros [?|[?|(?&?&?)]]; congruence|].
      intros [[= ->]|[?|(t2&[= ->]&Ht2)]]; [by eapply Hnotin|done|].
      by eapply (NoDup_concat_disjoint qs j i).
  - intros j Hj. destruct (Hh j Hj) as (n&Hn&Hdat).
    destruct (payload_data _ _ _ _ (proj2 Hkeep) Hn) as (n'&?&?). exists n'. split; [done|congruence].
  - by apply NoDup_concat_insert.
Qed.

(** The decay values after an insertion into the ring [i] that holds [q]. *)
Definition insert_decay (i : nat) (q : list Z) (d : list Z) : list Z :=
  match q with [] => d | _ => <[i := prio i]> d end.

Lemma sched_reenqueue_ok k s x qs t th q :
  let i := Z.to_nat (t_priority th mod SCHED_NRQS) in
  sched_rep k s x qs -> t <> sched_idle x -> threads k !! t = Some th -> suspended th = false ->
  t ∉ concat qs -> is_Some (rings k !! QueueEntry t) -> qs !! i = Some q ->
  exists r, sched_reenqueue s t k =
      Done (set_rings (at_decay k s x (insert_decay i q (sched_run_decay x))) r) /\
    sched_rep (set_rings (at_decay k s x (insert_decay i q (sched_run_decay x))) r) s
      (set_decay (insert_decay i q (sched_run_decay x)) x) (<[i := t :: q]> qs) /\
    (forall a, a ∉ QueueEntry t :: RunRing s i :: (QueueEntry <$> q) -> r !! a = rings k !! a).
Proof using.
  intros i Hr Hidle Ht Hsus Hnin Hnode Hq. unfold sched_reenqueue. rewrite (sr_sched _ _ _ _ Hr).
  cbn [deref mbind outcome_bind]. destruct (Z.eqb_spec t (sched_idle x)) as [?|_]; [done|].
  unfold sched_is_suspended. rewrite Ht. cbn [deref mbind outcome_bind]. fold (suspended th). rewrite Hsus.
  cbv zeta. fold i. rewrite (sched_runnable_ok _ _ _ _ _ _ Hr Hq). cbn [mbind outcome_bind].
  set (k1 := at_decay k s x (insert_decay i q (sched_run_decay x))).
  assert (Hr1 : sched_rep k1 s (set_decay (insert_decay i q (sched_run_decay x)) x) qs).
  { apply at_decay_rep; [done|]. pose proof (sr_decay _ _ _ _ Hr). destruct q; cbn; by rewrite ?length_insert. }
  assert ((if negb (truthy (if decide (q = []) then -1 else 0)) then reset_decay s i k else Done k) = Done k1) as ->.
  { unfold k1. destruct q; cbn [decide list_eq_nil_dec truthy Z.eqb negb insert_decay].
    - by rewrite (at_decay_id _ _ _ _ Hr).
    - apply (reset_decay_ok _ _ _ _ _ Hr). pose proof (lookup_lt_Some _ _ _ Hq) as Hlt.
      by rewrite (sr_len _ _ _ _ Hr) in Hlt. }
  cbn [mbind outcome_bind]. unfold sched_elem, with_rings.
  destruct (put_data_ok k1 _ _ _ t Hr1 Hnin Hnode) as (r1&->&Hr2&Hnode1&Hother). cbn [mbind outcome_bind].
  destruct (ring_push_rep _ _ _ _ i q t Hr2 Hq Hnin Hnode1) as (r2&->&Hr3&Hkeep). cbn [mbind outcome_bind].
  exists r2. split; [done|]. split; [exact Hr3|]. intros a Ha. rewrite (proj1 Hkeep a Ha). apply Hother. set_solver.
Qed.

(** *** Entering a scheduler *)

Lemma flag_bit_undone f b :
  0 <= b < 32 -> in_u32 f -> Z.testbit f b = false -> Z.land (Z.lor f (2 ^ b)) (not32 (2 ^ b)) = f.
Proof using.
  intros Hb Hf H2. apply Z.bits_inj'. intros j Hj. rewrite Z.land_spec, Z.lor_spec.
  destruct (Z.lt_ge_cases j 32) as [Hj32|Hj32].
  - rewrite testbit_not32 by lia. rewrite Z.pow2_bits_eqb by lia.
    destruct (Z.eqb_spec b j) as [<-|_]; [by rewrite H2|]. by rewrite orb_false_r, andb_true_r.
  - rewrite (testbit_u32_high f j Hf Hj32). cbn [orb]. apply andb_false_iff. left.
    rewrite Z.pow2_bits_eqb by lia. destruct (Z.eqb_spec b j); [lia|done].
Qed.

Lemma lock_flag_undone f :
  in_u32 f -> Z.testbit f 2 = false ->
  Z.land (Z.lor f THREAD_SF_LOCK_SCHED) (not32 THREAD_SF_LOCK_SCHED) = f.
Proof using. by apply (flag_bit_undone f 2). Qed.

Definition with_flag (th : thread) : thread :=
  set_stateflags (Z.lor (t_stateflags th) THREAD_SF_LOCK_SCHED) th.

Lemma flag_undone th :
  in_u32 (t_stateflags th) -> Z.testbit (t_stateflags th) 2 = false ->
  set_stateflags (Z.land (t_stateflags (with_flag th)) (not32 THREAD_SF_LOCK_SCHED)) (with_flag th) = th.
Proof using. intros Hf H2. destruct th. unfold with_flag, set_stateflags. cbn in *. by rewrite lock_flag_undone. Qed.

Lemma enter_sched_ok k me mth s x :
  threads k !! me = Some mth -> scheds k !! s = Some x -> sched_lock x = 0 ->
  enter_sched me s k =
    Done (set_scheds (set_threads k (<[me := with_flag mth]> (threads k)))
            (<[s := set_sched_lock (-1) x]> (scheds k))).
Proof using.
  intros Hm Hx Hl. unfold enter_sched. rewrite (with_thread_ok _ _ _ _ Hm). cbn [mbind outcome_bind].
  cbn [scheds set_threads]. rewrite Hx. cbn [deref mbind outcome_bind]. rewrite Hl, (kernlock_lock_free 0).
  cbn [mbind outcome_bind]. by rewrite (with_sched_ok _ _ _ x).
Qed.

Lemma leave_sched_ok k me mth s x :
  threads k !! me = Some (with_flag mth) -> in_u32 (t_stateflags mth) -> Z.testbit (t_stateflags mth) 2 = false ->
  scheds k !! s = Some x ->
  leave_sched me s k =
    Done (set_threads (set_scheds k (<[s := set_sched_lock 0 x]> (scheds k))) (<[me := mth]> (threads k))).
Proof using.
  intros Hm Hf H2 Hx. unfold leave_sched. rewrite (with_sched_ok _ _ _ _ Hx). cbn [mbind outcome_bind].
  rewrite (with_thread_ok _ _ _ (with_flag mth)) by done. by rewrite flag_undone.
Qed.

Lemma sched_rep_threads k s x qs ts : sched_rep k s x qs -> sched_rep (set_threads k ts) s x qs.
Proof using. intros []. by split. Qed.
Lemma sched_rep_record k s x qs y :
  sched_rep k s x qs -> length (sched_run_decay y) = SCHED_NRQS ->
  sched_rep (set_scheds k (<[s := y]> (scheds k))) s y qs.
Proof using. intros [] ?. split; try done. cbn. apply lookup_insert_eq. Qed.

(** *** Re-enqueueing a preempted thread *)

Lemma in_queue (qs : list (list Z)) j q t : qs !! j = Some q -> t ∈ q -> t ∈ concat qs.
Proof using.
  intros Hq Ht. apply list_elem_of_In, in_concat. exists q. split; [|by apply list_elem_of_In].
  apply list_elem_of_In. by eapply list_elem_of_lookup_2.
Qed.

Lemma concat_remove (qs : list (list Z)) j l r t :
  qs !! j = Some (l ++ t :: r) -> concat qs ≡ₚ t :: concat (<[j := l ++ r]> qs).
Proof using.
  intros Hq. pose proof (lookup_lt_Some _ _ _ Hq). rewrite insert_take_drop by done.
  rewrite <-(take_drop_middle qs j _ Hq) at 1. rewrite !concat_app. cbn [concat].
  rewrite <-!app_assoc. cbn [app]. by rewrite <-!Permutation_middle.
Qed.

(** Taking a thread out of the run ring [j] keeps every other ring. *)
Lemma ring_take_rep k s x qs j l r t :
  sched_rep k s x qs -> qs !! j = Some (l ++ t :: r) ->
  exists rs, linked_ring_remove (Some (QueueEntry t)) (rings k) = Done rs /\
    sched_rep (set_rings k rs) s x (<[j := l ++ r]> qs) /\
    keeps (RunRing s j :: (QueueEntry <$> l ++ r)) (rings k) rs /\
    t ∉ concat (<[j := l ++ r]> qs).
Proof using.
  intros [Hs Hl Hd Hrings Hh Hnd] Hq. pose proof (Hrings j _ Hq) as Hring.
  rewrite fmap_app, fmap_cons in Hring.
  destruct (linked_ring_remove_ok _ _ _ _ _ Hring) as (rs&E&Hring'&Hkeep). rewrite <-fmap_app in Hring', Hkeep.
  pose proof (concat_remove qs j l r t Hq) as Hperm. rewrite Hperm in Hnd. apply NoDup_cons in Hnd as [Hnin Hnd'].
  exists rs. split; [done|]. split_and!; [|done|done]. split; cbn; try done.
  - by rewrite length_insert.
  - intros j' p Hp. destruct (decide (j' = j)) as [->|Hne].
    + rewrite list_lookup_insert_eq in Hp by (by eapply lookup_lt_Some). by injection Hp as <-.
    + pose proof Hp as Hp'. rewrite list_lookup_insert_ne in Hp by done. eapply ring_frame; [|by apply Hrings].
      intros a Ha. apply (proj1 Hkeep). rewrite elem_of_cons, list_elem_of_fmap.
      rewrite elem_of_cons, list_elem_of_fmap in Ha.
      destruct Ha as [->|(t'&->&Ht')]; [intros [?|(?&?&?)]; congruence|].
      intros [?|(t2&[= ->]&Ht2)]; [done|].
      eapply (NoDup_concat_disjoint (<[j := l ++ r]> qs) j' j); [done|done|done| |done|done].
      apply list_lookup_insert_eq. by eapply lookup_lt_Some.
  - intros i Hi. destruct (Hh i Hi) as (n&Hn&Hdat).
    destruct (payload_data _ _ _ _ (proj2 Hkeep) Hn) as (n'&?&?). exists n'. split; [done|congruence].
Qed.

(** [sched_actualize] on a thread that was preempted while in the queue [j]:
    it moves to the front of the queue of its priority. *)
Lemma sched_actualize_ok k c0 s0 me mth t th cx x qs j l r :
  let s := cpu_scheduler cx in
  let i := Z.to_nat (t_priority th mod SCHED_NRQS) in
  running k c0 s0 me mth -> in_u32 (t_stateflags mth) -> Z.testbit (t_stateflags mth) 2 = false ->
  threads k !! t = Some th -> t <> me -> t_current_cpu th <> 0 -> cpus k !! t_current_cpu th = Some cx ->
  truthy (Z.land (t_stateflags th) THREAD_SF_PREEMPT) = true -> suspended th = false ->
  sched_rep k s x qs -> sched_lock x = 0 -> t <> sched_idle x -> qs !! j = Some (l ++ t :: r) ->
  exists k' d q, sched_actualize t k = Done k' /\ <[j := l ++ r]> qs !! i = Some q /\
    sched_rep k' s (set_decay d x) (<[i := t :: q]> (<[j := l ++ r]> qs)) /\
    threads k' = threads k /\
    (forall a, match a with RunRing _ _ | QueueEntry _ => True | _ => rings k' !! a = rings k !! a end).
Proof using.
  intros s i Hrun Hf H2 Ht Hne Hcpu Hcx Hpre Hsus Hr Hl Hidle Hq.
  unfold sched_actualize. rewrite Ht. cbn [deref mbind outcome_bind]. rewrite (proj2 (truthy_true _) Hcpu), Hcx.
  cbn [deref mbind outcome_bind]. rewrite (current_thread_ok _ _ _ _ _ Hrun). cbn [mbind outcome_bind]. fold s.
  pose proof (rn_thread _ _ _ _ _ Hrun) as Hm.
  rewrite (enter_sched_ok _ me mth s x); [|done|apply Hr|done]. cbn [mbind outcome_bind]. set (k2 := set_scheds _ _).
  assert (Hr2 : sched_rep k2 s (set_sched_lock (-1) x) qs).
  { refine (sched_rep_record (set_threads k _) s x qs (set_sched_lock (-1) x) _ (sr_decay _ _ _ _ Hr)).
    by apply sched_rep_threads. }
  assert (Ht2 : threads k2 !! t = Some th) by (cbn; by rewrite lookup_insert_ne).
  rewrite Ht2. cbn [deref mbind outcome_bind]. rewrite Hpre. unfold with_rings at 1.
  destruct (ring_take_rep k2 s _ qs j l r t Hr2 Hq) as (rs&->&Hr3&Hk3&Hnin). cbn [mbind outcome_bind].
  destruct (sched_queue _ _ _ _ i Hr3) as [q Hqi].
  { unfold i, SCHED_NRQS. pose proof (Z.mod_pos_bound (t_priority th) 32 ltac:(lia)). lia. }
  destruct (sched_reenqueue_ok _ s _ _ t th q Hr3 Hidle Ht2 Hsus Hnin) as (rs'&->&Hr4&Hother); [|done|].
  { cbn. eapply payload_is_Some; [exact (proj2 Hk3)|]. eapply ring_in_dom; [apply (sr_rings _ _ _ _ Hr2 j _ Hq)|].
    set_solver. }
  cbn [mbind outcome_bind]. fold i in Hr4, Hother |- *.
  erewrite (leave_sched_ok _ me mth); [|cbn; by rewrite lookup_insert_eq|done|done|apply (sr_sched _ _ _ _ Hr4)].
  eexists _, _, q. split; [done|]. split; [done|]. split_and!.
  - apply sched_rep_threads.
    pose proof (sched_rep_record _ _ _ _ (set_decay (insert_decay i q (sched_run_decay x)) x) Hr4) as Hfin.
    assert (Hx : set_sched_lock 0 (set_decay (insert_decay i q (sched_run_decay x)) x) =
                 set_decay (insert_decay i q (sched_run_decay x)) x) by (destruct x; cbn in *; by subst).
    rewrite <-Hx in Hfin. rewrite <-Hx. apply Hfin. apply (sr_decay _ _ _ _ Hr4).
  - cbn. rewrite insert_insert_eq. by apply insert_id.
  - intros a. destruct a; try exact I; cbn; (rewrite Hother; [apply (proj1 Hk3)|]);
      rewrite ?elem_of_cons, ?list_elem_of_fmap; naive_solver.
Qed.

(** *** A new scheduler *)

Definition zero_rings (s : Z) (r : gmap raddr rnode) : gmap raddr rnode :=
  fold_right (fun i r => <[RunRing s i := zero_node]> r) r (seq 0 SCHED_NRQS).

Lemma zero_rings_run s r (i : nat) :
  (i < SCHED_NRQS)%nat -> zero_rings s r !! RunRing s i = Some zero_node.
Proof using.
  intros Hi. unfold zero_rings. assert (Hin : i ∈ seq 0 SCHED_NRQS) by (apply elem_of_seq; lia).
  induction (seq 0 SCHED_NRQS) as [|j l IH]; [by apply not_elem_of_nil in Hin|]. cbn [fold_right].
  destruct (decide (j = i)) as [->|Hne]; [apply lookup_insert_eq|].
  rewrite lookup_insert_ne by congruence. apply IH. set_solver.
Qed.

Lemma zero_rings_other s r a :
  (forall i, a <> RunRing s i) -> zero_rings s r !! a = r !! a.
Proof using.
  intros Ha. unfold zero_rings. induction (seq 0 SCHED_NRQS) as [|j l IH]; [done|]. cbn [fold_right].
  rewrite lookup_insert_ne by (intros <-; by eapply Ha). done.
Qed.

Lemma init_rings_ok (n : nat) (i : nat) k s x :
  (i + n = SCHED_NRQS)%nat -> scheds k !! s = Some x -> length (sched_run_decay x) = SCHED_NRQS ->
  (forall j : nat, (j < SCHED_NRQS)%nat -> is_Some (rings k !! RunRing s j)) ->
  (forall j : nat, (j < i)%nat -> sched_run_decay x !! j = Some (prio j) /\ ring (rings k) (RunRing s j) []) ->
  exists r, init_rings n s i k = Done (set_rings (at_decay k s x sched_prios) r) /\
    (forall j : nat, (j < SCHED_NRQS)%nat -> ring r (RunRing s j) []) /\
    payload r = payload (rings k) /\ (forall a, (forall j, a <> RunRing s j) -> r !! a = rings k !! a).
Proof using.
  revert i k x. induction n as [|n IH]; intros i k x Hin Hx Hl Hex Hdone.
  - exists (rings k). cbn [init_rings]. split_and!; [|intros j Hj; apply Hdone; lia|done..].
    assert (Hd : sched_run_decay x = sched_prios).
    { apply list_eq_same_length with (n := SCHED_NRQS); [done|done|]. intros j a b Hj Ha Hb.
      destruct (Hdone j ltac:(lia)) as [Hp _]. rewrite (prio_lookup j Hj) in Hb. congruence. }
    f_equal. rewrite <-Hd. unfold at_decay. destruct k, x. cbn in *. unfold set_rings, set_scheds. cbn. f_equal.
    symmetry. by apply insert_id.
  - cbn [init_rings]. unfold reset_decay. rewrite prio_lookup by lia. cbn [deref mbind outcome_bind].
    unfold with_decay. rewrite Hx. cbn [deref mbind outcome_bind].
    destruct (lookup_lt_is_Some_2 (sched_run_decay x) i) as [d Hd]; [lia|]. rewrite Hd. cbn [deref mbind outcome_bind].
    rewrite (with_sched_ok _ _ _ _ Hx). cbn [mbind outcome_bind]. unfold with_rings. cbn [rings set_scheds].
    destruct (linked_ring_init_ok (rings k) (RunRing s i)) as (r1&->&Hring&Hkeep); [apply Hex; lia|].
    cbn [mbind outcome_bind]. set (x1 := set_decay _ x). set (k1 := set_rings _ r1).
    destruct (IH (S i) k1 x1) as (r&->&Hrings&Hpay&Hoth).
    + lia.
    + cbn. apply lookup_insert_eq.
    + cbn. by rewrite length_insert.
    + intros j Hj. cbn. eapply payload_is_Some; [exact (proj2 Hkeep)|by apply Hex].
    + intros j Hj. cbn. destruct (decide (j = i)) as [->|Hne].
      { rewrite list_lookup_insert_eq by lia. done. }
      destruct (Hdone j ltac:(lia)) as [Hp Hr]. rewrite list_lookup_insert_ne by done. split; [done|].
      eapply ring_frame; [|exact Hr]. intros a Ha. apply (proj1 Hkeep). set_solver.
    + exists r. split_and!; [|done| |].
      * f_equal. unfold k1, x1, at_decay, set_rings, set_scheds. cbn. by rewrite insert_insert_eq.
      * rewrite Hpay. exact (proj2 Hkeep).
      * intros a Ha. rewrite Hoth by done. cbn. apply (proj1 Hkeep). set_solver.
Qed.

Lemma sched_instanciate_from (fuel : nat) k c cx s h :
  zalloc fuel (sched_zone k) (heap k) = Done (s, h) -> s <> 0 -> cpus k !! c = Some cx ->
  exists k', sched_instanciate fuel c k = Done k' /\
    sched_rep k' s (Scheduler sched_prios 0 1 0) (replicate SCHED_NRQS []) /\
    cpus k' = <[c := Cpu (cpu_cpu_id cx) (cpu_current_thread cx) (cpu_local cx) (cpu_arch cx) s]> (cpus k) /\
    gs k' = gs k /\ threads k' = threads k /\ rings k' !! Blocked s = Some zero_node /\
    (forall b, (forall j, b <> RunRing s j) -> b <> Blocked s -> rings k' !! b = rings k !! b) /\
    heap k' = h.
Proof using.
  intros Ez Hs Hc. unfold sched_instanciate. rewrite Ez. cbn [mbind outcome_bind].
  rewrite (proj2 (truthy_true s)) by done.
  set (r0 := zero_rings s (<[Blocked s := zero_node]> (rings k))).
  assert (zero_scheduler s (set_heap k h) =
    set_rings (set_scheds (set_heap k h) (<[s := Scheduler (replicate SCHED_NRQS 0) 0 0 0]> (scheds k))) r0) as -> by done.
  erewrite with_sched_ok by (apply lookup_insert_eq). cbn [mbind outcome_bind].
  erewrite with_sched_ok by (apply lookup_insert_eq). cbn [mbind outcome_bind].
  set (k1 := set_scheds _ _). set (x1 := set_thread_count 1 _) in k1.
  destruct (init_rings_ok SCHED_NRQS 0 k1 s x1) as (r&->&Hrings&Hpay&Hoth).
  { done. } { cbn. apply lookup_insert_eq. } { done. }
  { intros j Hj. exists zero_node. by apply zero_rings_run. } { intros j Hj. lia. }
  cbn [mbind outcome_bind]. erewrite with_cpu_ok by exact Hc.
  eexists. split; [done|]. split_and!; try done.
  - split; [apply lookup_insert_eq|done|done| | |constructor].
    + intros i q [-> Hi]%lookup_replicate. by apply Hrings.
    + intros i Hi. destruct (payload_data _ _ (RunRing s i) zero_node Hpay) as (n&?&?); [by apply zero_rings_run|].
      by exists n.
  - cbn [rings set_cpus set_rings]. rewrite Hoth by done.
    rewrite <-(lookup_insert_eq (rings k) (Blocked s) zero_node). by apply zero_rings_other.
  - intros b Hb Hbl. cbn [rings set_cpus set_rings]. rewrite Hoth by done.
    rewrite <-(lookup_insert_ne (rings k) (Blocked s) b zero_node) by done. by apply zero_rings_other.
Qed.

Lemma sched_instanciate_ok (fuel : nat) k c cx zn a l :
  zone_rep (heap k) (sched_zone k) zn (a :: l) -> zn_lock zn = 0 -> 0 < sched_zone k -> no_refill zn ->
  Forall (fun b => b + 4 < 2 ^ 32) (a :: l) -> cpus k !! c = Some cx ->
  exists k', sched_instanciate fuel c k = Done k' /\
    sched_rep k' (a + 4) (Scheduler sched_prios 0 1 0) (replicate SCHED_NRQS []) /\
    cpus k' = <[c := Cpu (cpu_cpu_id cx) (cpu_current_thread cx) (cpu_local cx) (cpu_arch cx) (a + 4)]> (cpus k) /\
    gs k' = gs k /\ threads k' = threads k /\ rings k' !! Blocked (a + 4) = Some zero_node /\
    (forall b, (forall j, b <> RunRing (a + 4) j) -> b <> Blocked (a + 4) -> rings k' !! b = rings k !! b) /\
    zone_rep (heap k') (sched_zone k) (with_free zn l 0) l.
Proof using.
  intros Hz Hlk Hpos Hno Hsm Hc.
  destruct (zalloc_no_refill fuel _ _ _ _ Hz Hlk Hpos Hno Hsm) as (h&E&Hz'&_).
  pose proof (zr_list _ _ _ _ Hz) as (_&Ha&_).
  destruct (sched_instanciate_from fuel k c cx (a + 4) h E) as (k'&?&?&?&?&?&?&?&Hh); [lia|done|].
  exists k'. rewrite Hh. done.
Qed.
End sched_props.

(** ** Properties *)

Lemma sched_insert_ok {V} `{KmemSource V} (k : kern V) c0 s0 me mth c cx t th x qs q :
  let s := cpu_scheduler cx in
  let i := Z.to_nat (t_priority th mod SCHED_NRQS) in
  running k c0 s0 me mth -> in_u32 (t_stateflags mth) -> Z.testbit (t_stateflags mth) 2 = false ->
  cpus k !! c = Some cx -> threads k !! t = Some th -> t <> me ->
  sched_rep k s x qs -> sched_lock x = 0 -> t <> sched_idle x -> suspended th = false ->
  t ∉ concat qs -> is_Some (rings k !! QueueEntry t) -> qs !! i = Some q ->
  exists k', sched_insert c t k = Done k' /\
    sched_rep k' s (Scheduler (insert_decay i q (sched_run_decay x)) (sched_idle x)
                      (sched_thread_count x +u 1) 0) (<[i := t :: q]> qs) /\
    threads k' = <[t := set_current_cpu c th]> (threads k) /\ cpus k' = cpus k /\ gs k' = gs k /\
    (forall a, a ∉ QueueEntry t :: RunRing s i :: (QueueEntry <$> q) -> rings k' !! a = rings k !! a).
Proof.
  intros s i Hrun Hf H2 Hcx Ht Hne Hr Hl Hidle Hsus Hnin Hnode Hq.
  unfold sched_insert. rewrite (current_thread_ok _ _ _ _ _ Hrun), Hcx. cbn [deref mbind outcome_bind].
  fold s. rewrite (with_thread_ok _ _ _ _ Ht). cbn [mbind outcome_bind].
  pose proof (rn_thread _ _ _ _ _ Hrun) as Hm.
  rewrite (enter_sched_ok _ me mth s x); [|cbn; by rewrite lookup_insert_ne|apply Hr|done].
  cbn [mbind outcome_bind]. set (k2 := set_scheds _ _).
  assert (Hr2 : sched_rep k2 s (set_sched_lock (-1) x) qs).
  { refine (sched_rep_record (set_threads (set_threads k _) _) s x qs (set_sched_lock (-1) x) _ (sr_decay _ _ _ _ Hr)).
    by do 2 apply sched_rep_threads. }
  destruct (sched_reenqueue_ok k2 s (set_sched_lock (-1) x) qs t (set_current_cpu c th) q)
    as (r&->&Hr3&Hother); [done|done| |done|done|done|done|].
  { cbn. rewrite lookup_insert_ne, lookup_insert_eq; done. }
  cbn [mbind outcome_bind]. fold i in Hr3, Hother |- *. change (t_priority (set_current_cpu c th)) with (t_priority th) in *.
  rewrite (with_sched_ok _ _ _ _ (sr_sched _ _ _ _ Hr3)). cbn [mbind outcome_bind].
  erewrite (leave_sched_ok _ me mth); [|cbn; by rewrite lookup_insert_eq|done|done|cbn; by rewrite lookup_insert_eq].
  eexists. split; [done|]. split_and!.
  - apply sched_rep_threads. eapply sched_rep_record; [|apply (sr_decay _ _ _ _ Hr3)].
    eapply sched_rep_record; [exact Hr3|apply (sr_decay _ _ _ _ Hr3)].
  - cbn. rewrite insert_insert_eq. apply insert_id. by rewrite lookup_insert_ne.
  - done.
  - done.
  - exact Hother.
Qed.

(** [sched_insert]: a thread that is in no run queue is put at the front of
    the queue of its priority modulo 32, its CPU is set and the scheduler's
    thread count goes up by one; the other queues, the other threads (the
    calling thread's flags included) and the CPUs are as before, and the
    scheduler's lock is free again. *)
Theorem sched_insert_correct {V} `{KmemSource V} (k : kern V) c0 s0 me mth c cx t th x qs q :
  let s := cpu_scheduler cx in
  let i := Z.to_nat (t_priority th mod SCHED_NRQS) in
  running k c0 s0 me mth -> in_u32 (t_stateflags mth) -> Z.testbit (t_stateflags mth) 2 = false ->
  cpus k !! c = Some cx -> threads k !! t = Some th -> t <> me ->
  sched_rep k s x qs -> sched_lock x = 0 -> t <> sched_idle x -> suspended th = false ->
  t ∉ concat qs -> is_Some (rings k !! QueueEntry t) -> qs !! i = Some q ->
  exists k', sched_insert c t k = Done k' /\
    sched_rep k' s (Scheduler (insert_decay i q (sched_run_decay x)) (sched_idle x)
                      (sched_thread_count x +u 1) 0) (<[i := t :: q]> qs) /\
    threads k' = <[t := set_current_cpu c th]> (threads k) /\ cpus k' = cpus k /\ gs k' = gs k /\
    (forall a, a ∉ QueueEntry t :: RunRing s i :: (QueueEntry <$> q) -> rings k' !! a = rings k !! a).
Proof. apply sched_insert_ok. Qed.

(** C34: [sched_preempt]: nothing changes while the current thread is not
    preemptible or changes a scheduler.  Otherwise, as [sched_runnable] holds of
    the empty run queues: with no empty queue no thread of a queue is ever
    chosen and the decay values are reset; the current thread goes on when it is
    not suspended, and also when it is suspended and is the idle thread; when
    it is suspended and is not the idle thread, the idle thread is chosen, and
    putting the old thread in the ring of blocked threads, as
    [sched_instanciate] leaves it, dereferences the null pointer.  With an empty
    queue the head of that queue is taken for a thread and the null pointer is
    dereferenced. *)
Theorem sched_preempt_correct {V} `{KmemSource V} (fuel : nat) (k : kern V) c s me th x qs :
  running k c s me th -> sched_rep k s x qs -> sched_lock x = 0 -> threads k !! 0 = None ->
  (preemptible th = false -> sched_preempt (S fuel) k = Done k) /\
  (preemptible th = true -> [] ∉ qs -> suspended th = false \/ sched_idle x = me ->
     sched_preempt (S fuel) k = Done (at_decay k s x sched_prios)) /\
  (preemptible th = true -> [] ∉ qs -> suspended th = true -> sched_idle x <> me ->
     rings k !! Blocked s = Some zero_node -> sched_preempt (S fuel) k = Fault) /\
  (preemptible th = true -> [] ∈ qs -> sched_preempt (S fuel) k = Fault).
Proof.
  intros Hrun Hr Hl H0. split; [by eapply sched_preempt_skip|].
  split_and!; intros Hp Hq; destruct (sched_preempt_ok fuel k c s me th x qs Hrun Hp Hr Hl) as [H1 H2]; auto.
  - intros Hor. destruct (suspended th) eqn:Hsus; [|by apply H1]. destruct Hor as [|Hid]; [done|].
    by eapply sched_preempt_suspended.
  - intros Hsus Hid Hb. by eapply sched_preempt_suspended.
Qed.

(** [sched_instanciate]: the new scheduler has 32 empty run queues, the
    decay values of the table, a thread count of one and a free lock, and
    belongs to the CPU; its ring of blocked threads stays all zero (it is not
    initialised).  No preemption of a thread of that CPU survives this state:
    the first one dereferences the null pointer. *)
Theorem sched_instanciate_correct {V} `{KmemSource V} (fuel : nat) (k : kern V) c cx zn a l :
  zone_rep (heap k) (sched_zone k) zn (a :: l) -> zn_lock zn = 0 -> 0 < sched_zone k -> no_refill zn ->
  Forall (fun b => b + 4 < 2 ^ 32) (a :: l) -> cpus k !! c = Some cx ->
  exists k', sched_instanciate fuel c k = Done k' /\
    sched_rep k' (a + 4) (Scheduler sched_prios 0 1 0) (replicate SCHED_NRQS []) /\
    (exists cx', cpus k' !! c = Some cx' /\ cpu_scheduler cx' = a + 4) /\
    rings k' !! Blocked (a + 4) = Some zero_node /\
    forall me th, running k' c (a + 4) me th -> preemptible th = true -> threads k' !! 0 = None ->
      sched_preempt 1 k' = Fault.
Proof.
  intros Hz Hlk Hpos Hno Hsm Hc.
  destruct (sched_instanciate_ok fuel k c cx zn a l Hz Hlk Hpos Hno Hsm Hc) as (k'&E&Hr&Hcpu&_&_&Hbl&_&_).
  exists k'. split_and!; [done|done| |done|].
  - rewrite Hcpu, lookup_insert_eq. eauto.
  - intros me th Hrun Hp H0. eapply (sched_preempt_ok 0); [done|done|exact Hr|done| |done].
    apply list_elem_of_lookup. by exists 0%nat.
Qed.

(** ** A concrete scheduler *)

Module SchedExample.
#[local] Instance fixed_source : KmemSource unit := {
  kalloc_ll size s := Done (None, s);
  alloc_critical size s := Done (None, s);
  refill s := s;
}.

Definition zn : zone := Zone 640 0x2000 "Scheduler allocator" 1 0 0.
Definition th (flags : Z) : thread := Thread 0 [0; 0; 0; 0] [0; 0] [0; 0] flags 16 0 0.
Definition cx : cpu := Cpu 0 0x700 [0x100; 0x700; 0] (Taskstate 0 0 0) 0.
Definition lone (a : raddr) : rnode := Linked_ring (Some a) (Some a) None.
(** One CPU at 0x100 that runs the thread at 0x700; the thread at 0x800 is
    marked as preempted and in no queue; there is a wait queue at 0x900. *)
Definition k0 : kern unit :=
  Kern (Zheap {[ 0x2000 := 0 ]} {[ 0x1000 := zn ]} 0 tt) 0 0 ∅ 0 (th 0)
    {[ 0x700 := th 0; 0x800 := th 2 ]}
    {[ QueueEntry 0x800 := zero_node; WaitEntry 0x800 := zero_node;
       WqThreads 0x900 := lone (WqThreads 0x900) ]} {[ 0x100 := cx ]} 0x100 0x1000 ∅.
Definition k1 : kern unit :=
  match sched_instanciate 4 0x100 k0 with Done k => k | _ => k0 end.
Definition cx1 : cpu := Cpu 0 0x700 [0x100; 0x700; 0] (Taskstate 0 0 0) 0x2004.

Lemma k0_zone : zone_rep (heap k0) (sched_zone k0) zn [0x2000].
Proof. split; try done; [split_and!; [done|done|]; by exists 0|]. repeat constructor; set_solver. Qed.

Lemma k1_ok :
  sched_instanciate 4 0x100 k0 = Done k1 /\
  sched_rep k1 0x2004 (Scheduler sched_prios 0 1 0) (replicate SCHED_NRQS []) /\
  running k1 0x100 0x2004 0x700 (th 0) /\ cpus k1 !! 0x100 = Some cx1 /\
  threads k1 = threads k0 /\
  rings k1 !! QueueEntry 0x800 = Some zero_node /\ rings k1 !! WaitEntry 0x800 = Some zero_node /\
  rings k1 !! WqThreads 0x900 = Some (lone (WqThreads 0x900)).
Proof.
  destruct (sched_instanciate_ok 4 k0 0x100 cx zn 0x2000 [] k0_zone) as (k'&E&Hr&Hc&Hg&Ht&_&Ho&_);
    [done|done|by left|by repeat constructor|done|].
  assert (Hk : k1 = k') by (unfold k1; by rewrite E). rewrite <-Hk in E. split; [exact E|].
  clear E. subst k'. split_and!; [exact Hr| |by rewrite Hc, lookup_insert_eq|exact Ht|by rewrite Ho..].
  split.
  - unfold kernel_get_current_cpu. by rewrite Hg, Hc.
  - exists cx1. split; [by rewrite Hc, lookup_insert_eq|]. split; reflexivity.
  - rewrite Ht. reflexivity.
Qed.

Lemma sched_insert_correct_witness :
  exists k', sched_insert 0x100 0x800 k1 = Done k' /\
    sched_rep k' 0x2004 (Scheduler (insert_decay 16 [] sched_prios) 0 (1 +u 1) 0)
      (<[16%nat := [0x800]]> (replicate SCHED_NRQS [])) /\
    threads k' = <[0x800 := set_current_cpu 0x100 (th 2)]> (threads k1).
Proof.
  destruct k1_ok as (_&Hr&Hrun&Hc&Ht&Hn&_&_).
  destruct (sched_insert_correct k1 0x100 0x2004 0x700 (th 0) 0x100 cx1 0x800 (th 2)
              (Scheduler sched_prios 0 1 0) (replicate SCHED_NRQS []) [] Hrun)
    as (k'&E&Hr'&Ht'&_).
  - unfold in_u32. cbn. lia.
  - reflexivity.
  - exact Hc.
  - rewrite Ht. reflexivity.
  - discriminate.
  - exact Hr.
  - reflexivity.
  - discriminate.
  - reflexivity.
  - change (concat (replicate SCHED_NRQS [])) with (@nil Z). apply not_elem_of_nil.
  - rewrite Hn. eexists. reflexivity.
  - reflexivity.
  - exists k'. split; [exact E|]. split; [exact Hr'|exact Ht'].
Defined.

(** The same CPU with one thread in each of the 32 run queues, while it runs
    the thread [me]. *)
Definition qthread (i : nat) : Z := 0x3000 + 0x80 * i.
Definition full_rings : gmap raddr rnode :=
  list_to_map ((Blocked 0x2004, zero_node) :: concat ((fun i =>
    [(RunRing 0x2004 i, Linked_ring (Some (QueueEntry (qthread i))) (Some (QueueEntry (qthread i))) None);
     (QueueEntry (qthread i),
       Linked_ring (Some (RunRing 0x2004 i)) (Some (RunRing 0x2004 i)) (Some (qthread i)))]) <$> seq 0 SCHED_NRQS)).
Definition full_queues : list (list Z) := (fun i => [qthread i]) <$> seq 0 SCHED_NRQS.
Definition kfull (me : thread) : kern unit :=
  Kern (Zheap ∅ ∅ 0 tt) 0 0 ∅ 0 (th 0)
    (<[0x700 := me]> (list_to_map ((fun i => (qthread i, th 2)) <$> seq 0 SCHED_NRQS)))
    full_rings {[ 0x100 := cx1 ]} 0x100 0x1000 {[ 0x2004 := Scheduler (replicate SCHED_NRQS 7) 0x900 33 0 ]}.

Lemma kfull_ok me :
  running (kfull me) 0x100 0x2004 0x700 me /\
  sched_rep (kfull me) 0x2004 (Scheduler (replicate SCHED_NRQS 7) 0x900 33 0) full_queues /\
  threads (kfull me) !! 0 = None.
Proof.
  split_and!.
  - split; [reflexivity| |apply lookup_insert_eq]. exists cx1. done.
  - split; try done.
    + intros i q Hq. unfold full_queues in Hq. rewrite list_lookup_fmap in Hq.
      destruct (seq 0 SCHED_NRQS !! i) as [j|] eqn:Hj; [|done]. injection Hq as <-.
      apply lookup_seq in Hj as [-> Hj]. unfold SCHED_NRQS in Hj.
      split; [repeat constructor; set_solver|]. cbn [Nat.add rings kfull].
      do 32 (destruct i as [|i]; [by split_and!; vm_compute|]). lia.
    + intros i Hi. unfold SCHED_NRQS in Hi. cbn [rings kfull].
      do 32 (destruct i as [|i]; [eexists; split; by vm_compute|]). lia.
    + by apply (bool_decide_unpack (NoDup (concat full_queues))).
  - by vm_compute.
Qed.

(** An empty run queue; 32 queues with a thread each and a current thread that
    is not preemptible, goes on, or is suspended. *)
Lemma sched_preempt_correct_witness :
  (exists k', sched_instanciate 4 0x100 k0 = Done k' /\ sched_preempt 1 k' = Fault) /\
  sched_preempt 1 (kfull (th 4)) = Done (kfull (th 4)) /\
  sched_preempt 1 (kfull (th 0)) =
    Done (at_decay (kfull (th 0)) 0x2004 (Scheduler (replicate SCHED_NRQS 7) 0x900 33 0) sched_prios) /\
  sched_preempt 1 (kfull (set_wait_queue 0x900 (th 8))) = Fault.
Proof.
  assert (Hne : [] ∉ full_queues).
  { intros (i&Hi)%list_elem_of_lookup. unfold full_queues in Hi. rewrite list_lookup_fmap in Hi.
    destruct (seq 0 SCHED_NRQS !! i); discriminate Hi. }
  split_and!.
  - destruct k1_ok as (E&Hr&Hrun&_&Ht&_). exists k1. split; [exact E|].
    apply (sched_preempt_correct 0 k1 0x100 0x2004 0x700 (th 0) _ _ Hrun Hr).
    + reflexivity.
    + rewrite Ht. reflexivity.
    + reflexivity.
    + apply list_elem_of_lookup. exists 0%nat. reflexivity.
  - destruct (kfull_ok (th 4)) as (Hrun&Hr&H0).
    apply (sched_preempt_correct 0 _ _ _ _ _ _ _ Hrun Hr eq_refl H0). reflexivity.
  - destruct (kfull_ok (th 0)) as (Hrun&Hr&H0).
    apply (sched_preempt_correct 0 _ _ _ _ _ _ _ Hrun Hr eq_refl H0); [reflexivity|exact Hne|left; reflexivity].
  - destruct (kfull_ok (set_wait_queue 0x900 (th 8))) as (Hrun&Hr&H0).
    destruct (sched_preempt_correct 0 _ _ _ _ _ _ _ Hrun Hr eq_refl H0) as (_&_&Hs&_).
    apply Hs; [reflexivity|exact Hne|reflexivity|discriminate|reflexivity].
Defined.

Lemma sched_instanciate_correct_witness :
  exists k', sched_instanciate 4 0x100 k0 = Done k' /\
    sched_rep k' (0x2000 + 4) (Scheduler sched_prios 0 1 0) (replicate SCHED_NRQS []).
Proof.
  destruct (sched_instanciate_correct 4 k0 0x100 cx zn 0x2000 [] k0_zone) as (k'&E&Hr&_).
  - reflexivity.
  - reflexivity.
  - left. reflexivity.
  - repeat constructor.
  - reflexivity.
  - exists k'. split; [exact E|exact Hr].
Defined.
End SchedExample.
