(* ===== verification/Switch.v ===== *)
(** * Context switches and trap frames

    Models the assembly between interrupts and C code: [arch/i686/switch.s]
    ([__i686_switch], [__i686_initthread]), [arch/i686/interrupt.s]
    ([__i686_isr]), the vectors of [arch/i686/intvec.s] (as [intvec.rb] writes
    them), and [x86/trapframe.h].

    A routine is the list of its instructions, and [exec] runs it on the state of
    a processor.  Memory is the words of the stacks together with the objects of
    [kern]: the operand [off(%eax)] is a word of a stack, or the field of the
    thread whose [t_storage] [%eax] points to; [%gs:off] is a word of
    [cpu_local].  Of the compiled C functions that are called, their effect on
    [kern] is that of the C code; what they do to the registers and to the stack
    is the compiler's, an argument ([Compiler]) whose law is the calling
    convention. *)

From S2P Require Import Prelude Ring Spinlock Zalloc Kern Sched.

(** ** The processor *)

Inductive reg := EAX | ECX | EDX | EBX | ESP | EBP | ESI | EDI.

Record regs := Regs {
  eax : Z;
  ecx : Z;
  edx : Z;
  ebx : Z;
  esp : Z;
  ebp : Z;
  esi : Z;
  edi : Z;
}.

Definition get_reg (r : reg) (x : regs) : Z :=
  match r with
  | EAX => eax x | ECX => ecx x | EDX => edx x | EBX => ebx x
  | ESP => esp x | EBP => ebp x | ESI => esi x | EDI => edi x
  end.

Definition set_reg (r : reg) (v : Z) (x : regs) : regs :=
  match r with
  | EAX => Regs v (ecx x) (edx x) (ebx x) (esp x) (ebp x) (esi x) (edi x)
  | ECX => Regs (eax x) v (edx x) (ebx x) (esp x) (ebp x) (esi x) (edi x)
  | EDX => Regs (eax x) (ecx x) v (ebx x) (esp x) (ebp x) (esi x) (edi x)
  | EBX => Regs (eax x) (ecx x) (edx x) v (esp x) (ebp x) (esi x) (edi x)
  | ESP => Regs (eax x) (ecx x) (edx x) (ebx x) v (ebp x) (esi x) (edi x)
  | EBP => Regs (eax x) (ecx x) (edx x) (ebx x) (esp x) v (esi x) (edi x)
  | ESI => Regs (eax x) (ecx x) (edx x) (ebx x) (esp x) (ebp x) v (edi x)
  | EDI => Regs (eax x) (ecx x) (edx x) (ebx x) (esp x) (ebp x) (esi x) v
  end.

(** The data segment registers. *)
Inductive sreg := DS | ES | FS | GS.

Record selectors := Selectors { sel_ds : Z; sel_es : Z; sel_fs : Z; sel_gs : Z }.

Definition get_sel (r : sreg) (x : selectors) : Z :=
  match r with DS => sel_ds x | ES => sel_es x | FS => sel_fs x | GS => sel_gs x end.

Definition set_sel (r : sreg) (v : Z) (x : selectors) : selectors :=
  match r with
  | DS => Selectors v (sel_es x) (sel_fs x) (sel_gs x)
  | ES => Selectors (sel_ds x) v (sel_fs x) (sel_gs x)
  | FS => Selectors (sel_ds x) (sel_es x) v (sel_gs x)
  | GS => Selectors (sel_ds x) (sel_es x) (sel_fs x) v
  end.

(** Where control is or goes to, and the stack segment. *)
Record control := Control { cs : Z; eip : Z; eflags : Z; ss : Z }.

Record proc (V : Type) := Proc {
  rs : regs;
  sels : selectors;
  ctl : control;
  stk : gmap Z Z;
  kst : kern V;
}.
Arguments Proc {V}.
Arguments rs {V}.
Arguments sels {V}.
Arguments ctl {V}.
Arguments stk {V}.
Arguments kst {V}.

(** The compiled C functions: what a call leaves in the registers and on the
    stack, and how many bytes of stack it uses. *)
Class Compiler := {
  clobber : regs -> gmap Z Z -> regs * gmap Z Z;
  stack_use : Z;
}.

(** The calling convention: the callee keeps [%ebx], [%esi], [%edi], [%ebp] and
    [%esp], and writes only below the stack pointer (of the two functions that are
    called, [sched_preempt] has no arguments and [__i686_interrupt] does not assign
    to its one). *)
Class Cdecl (C : Compiler) : Prop := {
  cd_use : 0 <= stack_use;
  cd_regs : forall x m, let x' := (clobber x m).1 in
    ebx x' = ebx x /\ esp x' = esp x /\ ebp x' = ebp x /\ esi x' = esi x /\ edi x' = edi x;
  cd_stack : forall x m a, esp x <= a \/ a < esp x - stack_use -> (clobber x m).2 !! a = m !! a;
}.

(** ** x86/trapframe.h *)

Record trapframe := Trapframe {
  tf_edi : Z;
  tf_esi : Z;
  tf_ebp : Z;
  tf_oesp : Z;
  tf_ebx : Z;
  tf_edx : Z;
  tf_ecx : Z;
  tf_eax : Z;
  tf_gs : Z;
  tf_fs : Z;
  tf_es : Z;
  tf_ds : Z;
  tf_trapno : Z;
  tf_err : Z;
  tf_eip : Z;
  tf_cs : Z;
  tf_eflags : Z;
  tf_outer : option (Z * Z);
}.

(** ** Instructions *)

(** The C functions that are called. *)
Inductive cfun := SCHED_PREEMPT | I686_INTERRUPT.

(** The instructions of the three files, in the operand order of the
    assembler: [MOVL_LOAD off b d] is [movl off(b), d]. *)
Inductive instr :=
| PUSHL (r : reg)
| PUSHL_IMM (n : Z)
| PUSHL_SEG (r : sreg)
| PUSHAL
| POPL (r : reg)
| POPL_SEG (r : sreg)
| POPAL
| MOVL (src dst : reg)
| MOVL_LOAD (off : Z) (base dst : reg)
| MOVL_STORE (src : reg) (off : Z) (base : reg)
| MOVL_GS (off : Z) (dst : reg)
| MOVW_AX (n : Z)
| MOVW_SEG (r : sreg)
| ADDL_ESP (n : Z)
| CALL (f : cfun)
| CALL_ABS (a : Z)
| CALL_REG (r : reg)
| STI
| RET
| IRET.

Section exec.
Context {V : Type} `{Compiler}.
Implicit Types s : proc V.

(** [preempt] is [sched_preempt], [handler] what [__i686_interrupt] does with a
    trap frame; [ret] is the address behind a call instruction. *)
Variables (preempt : kern V -> outcome (kern V)) (handler : trapframe -> kern V -> outcome (kern V)) (ret : Z).

Definition set_rs (x : regs) s : proc V := Proc x (sels s) (ctl s) (stk s) (kst s).
Definition set_sels (x : selectors) s : proc V := Proc (rs s) x (ctl s) (stk s) (kst s).
Definition set_ctl (x : control) s : proc V := Proc (rs s) (sels s) x (stk s) (kst s).
Definition set_stk (x : gmap Z Z) s : proc V := Proc (rs s) (sels s) (ctl s) x (kst s).
Definition set_kst (x : kern V) s : proc V := Proc (rs s) (sels s) (ctl s) (stk s) x.

(** A push outside the stacks is a fault. *)
Definition push (w : Z) s : outcome (proc V) :=
  let sp := esp (rs s) -u 4 in
  _ ← deref (stk s !! sp);
  Done (set_rs (set_reg ESP sp (rs s)) (set_stk (<[sp := w]> (stk s)) s)).

Definition pop s : outcome (Z * proc V) :=
  w ← deref (stk s !! esp (rs s));
  Done (w, set_rs (set_reg ESP (esp (rs s) +u 4) (rs s)) s).

(** The operand [off(base)]. *)
Definition load_at (base off : Z) s : outcome Z :=
  match stk s !! (base +u off) with
  | Some w => Done w
  | None => th ← deref (threads (kst s) !! base); deref (t_storage th !! Z.to_nat (off / 4))
  end.

Definition set_storage (i : nat) (v : Z) (t : thread) : thread :=
  Thread (t_current_cpu t) (<[i := v]> (t_storage t)) (t_istacks t) (t_istobjs t) (t_stateflags t)
    (t_priority t) (t_nonpreempt t) (t_wait_queue t).

Definition store_at (base off w : Z) s : outcome (proc V) :=
  match stk s !! (base +u off) with
  | Some _ => Done (set_stk (<[base +u off := w]> (stk s)) s)
  | None =>
      th ← deref (threads (kst s) !! base);
      _ ← deref (t_storage th !! Z.to_nat (off / 4));
      k ← with_thread base (set_storage (Z.to_nat (off / 4)) w) (kst s);
      Done (set_kst k s)
  end.

(** The operand [%gs:off]. *)
Definition load_gs (off : Z) s : outcome Z :=
  c ← deref (cpus (kst s) !! gs (kst s)); deref (cpu_local c !! Z.to_nat (off / 4)).

(** [struct trapframe] in memory: a field of 16 bits is the low half of its word;
    the last two words are there when the trap came from another ring. *)
Definition read_frame (tf : Z) s : outcome trapframe :=
  let word i := deref (stk s !! (tf +u 4 * i)) in
  di ← word 0; si ← word 1; bp ← word 2; osp ← word 3; bx ← word 4; dx ← word 5; cx ← word 6; ax ← word 7;
  g ← word 8; f ← word 9; e ← word 10; d ← word 11; n ← word 12; er ← word 13; ip ← word 14; c ← word 15;
  fl ← word 16;
  o ← (if truthy (Z.land (u16 c) 3) then sp ← word 17; x ← word 18; Done (Some (sp, u16 x)) else Done None);
  Done (Trapframe di si bp osp bx dx cx ax (u16 g) (u16 f) (u16 e) (u16 d) n er ip (u16 c) fl o).

(** The effect of a C function on [kern]; its argument is behind the return
    address. *)
Definition c_function (f : cfun) s : outcome (kern V) :=
  match f with
  | SCHED_PREEMPT => preempt (kst s)
  | I686_INTERRUPT =>
      tf ← deref (stk s !! (esp (rs s) +u 4));
      f ← read_frame tf s;
      handler f (kst s)
  end.

(** A call: the return address is pushed, the function runs and returns to it. *)
Definition call (f : cfun) s : outcome (proc V) :=
  s ← push ret s;
  k ← c_function f s;
  let '(x, m) := clobber (rs s) (stk s) in
  '(a, s) ← pop (set_kst k (set_stk m (set_rs x s)));
  if a =? ret then Done s else Fault.

Fixpoint push_all (ws : list Z) s : outcome (proc V) :=
  match ws with [] => Done s | w :: ws => s ← push w s; push_all ws s end.

Definition step (i : instr) s : outcome (proc V) :=
  match i with
  | PUSHL r => push (get_reg r (rs s)) s
  | PUSHL_IMM n => push n s
  | PUSHL_SEG r => push (get_sel r (sels s)) s
  | PUSHAL => let x := rs s in push_all [eax x; ecx x; edx x; ebx x; esp x; ebp x; esi x; edi x] s
  | POPL r => '(w, s) ← pop s; Done (set_rs (set_reg r w (rs s)) s)
  | POPL_SEG r => '(w, s) ← pop s; Done (set_sels (set_sel r (u16 w) (sels s)) s)
  | POPAL =>
      '(di, s) ← pop s; '(si, s) ← pop s; '(bp, s) ← pop s; '(_, s) ← pop s;
      '(bx, s) ← pop s; '(dx, s) ← pop s; '(cx, s) ← pop s; '(ax, s) ← pop s;
      Done (set_rs (Regs ax cx dx bx (esp (rs s)) bp si di) s)
  | MOVL src dst => Done (set_rs (set_reg dst (get_reg src (rs s)) (rs s)) s)
  | MOVL_LOAD off b d => w ← load_at (get_reg b (rs s)) off s; Done (set_rs (set_reg d w (rs s)) s)
  | MOVL_STORE r off b => store_at (get_reg b (rs s)) off (get_reg r (rs s)) s
  | MOVL_GS off d => w ← load_gs off s; Done (set_rs (set_reg d w (rs s)) s)
  | MOVW_AX n => Done (set_rs (set_reg EAX (eax (rs s) - u16 (eax (rs s)) + n) (rs s)) s)
  | MOVW_SEG r => Done (set_sels (set_sel r (u16 (eax (rs s))) (sels s)) s)
  | ADDL_ESP n => Done (set_rs (set_reg ESP (esp (rs s) +u n) (rs s)) s)
  | CALL f => call f s
  | CALL_ABS a =>
      s ← push ret s;
      Done (set_ctl (Control (cs (ctl s)) a (eflags (ctl s)) (ss (ctl s))) s)
  | CALL_REG r =>
      let a := get_reg r (rs s) in
      s ← push ret s;
      Done (set_ctl (Control (cs (ctl s)) a (eflags (ctl s)) (ss (ctl s))) s)
  | STI => Done (set_ctl (Control (cs (ctl s)) (eip (ctl s)) (Z.lor (eflags (ctl s)) 0x200) (ss (ctl s))) s)
  | RET => '(a, s) ← pop s; Done (set_ctl (Control (cs (ctl s)) a (eflags (ctl s)) (ss (ctl s))) s)
  | IRET =>
      '(ip, s) ← pop s; '(c, s) ← pop s; '(fl, s) ← pop s;
      if truthy (Z.land (u16 c) 3) then
        '(sp, s) ← pop s; '(x, s) ← pop s;
        Done (set_ctl (Control (u16 c) ip fl (u16 x)) (set_rs (set_reg ESP sp (rs s)) s))
      else Done (set_ctl (Control (u16 c) ip fl (ss (ctl s))) s)
  end.

Fixpoint exec (l : list instr) s : outcome (proc V) :=
  match l with [] => Done s | i :: l => s ← step i s; exec l s end.
End exec.

(** ** switch.s *)

Definition __i686_switch : list instr :=
  [ PUSHL EBP; PUSHL EBX; PUSHL ESI; PUSHL EDI;
    MOVL_GS 4 EAX; MOVL_STORE ESP 4 EAX;
    MOVL_GS 8 ESP;
    CALL SCHED_PREEMPT;
    MOVL_GS 4 EAX; MOVL_LOAD 4 EAX ESP;
    POPL EDI; POPL ESI; POPL EBX; POPL EBP;
    RET ].

(** [__i686_initthread] up to its first call: [call 1] has no suffix, so that it
    names the address 1 and not the label [1:] further down. *)
Definition __i686_initthread : list instr :=
  [ MOVL ESP EAX; MOVL_LOAD 4 EAX ESP;
    MOVL_LOAD 12 EAX EDX; PUSHL EDX;
    MOVL_LOAD 8 EAX EDX; PUSHL EDX;
    CALL_ABS 1 ].

(** Behind the call: what a new thread runs first. *)
Definition thread_entry : list instr := [ POPL EDX; STI; CALL_REG EDX ].

(** From the label [1:] on. *)
Definition __i686_initthread_1 : list instr :=
  [ PUSHL_IMM 0; PUSHL_IMM 0; PUSHL_IMM 0; PUSHL_IMM 0;
    MOVL_LOAD 16 EAX EDX; MOVL_STORE ESP 0 EDX;
    MOVL EAX ESP; RET ].

(** ** interrupt.s *)

Definition __i686_isr : list instr :=
  [ PUSHL_SEG DS; PUSHL_SEG ES; PUSHL_SEG FS; PUSHL_SEG GS; PUSHAL;
    MOVW_AX 16; MOVW_SEG DS; MOVW_SEG ES;
    MOVW_AX 24; MOVW_SEG FS; MOVW_SEG GS;
    PUSHL ESP; CALL I686_INTERRUPT; ADDL_ESP 4;
    POPAL; POPL_SEG GS; POPL_SEG FS; POPL_SEG ES; POPL_SEG DS;
    ADDL_ESP 8; IRET ].

(** ** intvec.rb *)

(** The vectors whose exception has an error code. *)
Definition has (i : Z) : bool :=
  (i =? 8) || (i =? 17) || (i =? 30) || ((10 <=? i) && (i <=? 14)).

(** The processor pushes an error code for these exceptions. *)
Definition error_code (i : Z) : bool := bool_decide (i ∈ [8; 10; 11; 12; 13; 14; 17; 30]).

(** [__i686_vector_i], which ends in a jump to [__i686_isr]. *)
Definition __i686_vector (i : Z) : list instr :=
  (if has i then [] else [PUSHL_IMM 0]) ++ [PUSHL_IMM i] ++ __i686_isr.

(** ** What the scheduler leaves alone *)

Section keeps.
Context {V : Type}.
Implicit Types k : kern V.

(** The word [i] of the segment behind [%gs]. *)
Definition local_word k (i : nat) : option Z := c ← cpus k !! gs k; cpu_local c !! i.

(** The thread storages and the stack of the CPU are as before. *)
Record keeps k k' : Prop := {
  ke_gs : gs k' = gs k;
  ke_storage : forall t, t_storage <$> (threads k' !! t) = t_storage <$> (threads k !! t);
  ke_stack : local_word k' 2 = local_word k 2;
  ke_self : local_word k' 0 = local_word k 0;
  ke_tls : is_Some (local_word k 1) -> is_Some (local_word k' 1);
}.

#[export] Instance keeps_preorder : PreOrder keeps.
Proof.
  split; [by split|]. intros k1 k2 k3 [A1 B1 C1 D1 E1] [A2 B2 C2 D2 E2].
  split; [congruence|intros t; by rewrite B2, B1|congruence|congruence|auto].
Qed.

Lemma keeps_with_rings f k k' : with_rings f k = Done k' -> keeps k k'.
Proof. unfold with_rings. intros H. outcome_inv. by split. Qed.

Lemma keeps_with_sched s f k k' : with_sched s f k = Done k' -> keeps k k'.
Proof. unfold with_sched. intros H. outcome_inv. by split. Qed.

Lemma keeps_with_thread t f k k' :
  with_thread t f k = Done k' -> (forall th, t_storage (f th) = t_storage th) -> keeps k k'.
Proof.
  unfold with_thread. intros H Hf. outcome_inv. split; try done. intros u. cbn [set_threads threads].
  destruct (decide (u = t)) as [->|]; [|by rewrite lookup_insert_ne by done].
  rewrite lookup_insert_eq. simplify_option_eq. by rewrite Hf.
Qed.

Lemma keeps_with_cpu c f k k' :
  (forall x, cpu_local (f x) !! 2%nat = cpu_local x !! 2%nat /\ cpu_local (f x) !! 0%nat = cpu_local x !! 0%nat /\
     (is_Some (cpu_local x !! 1%nat) -> is_Some (cpu_local (f x) !! 1%nat))) ->
  with_cpu c f k = Done k' -> keeps k k'.
Proof.
  unfold with_cpu. intros Hf H. outcome_inv. rename select (cpu) into x. destruct (Hf x) as (H2&H0&H1).
  assert (forall i : nat, local_word (set_cpus k (<[c := f x]> (cpus k))) i =
    if decide (c = gs k) then cpu_local (f x) !! i else local_word k i) as Hl.
  { intros i. unfold local_word. cbn [set_cpus cpus gs]. case_decide as Hd; [subst c; by rewrite lookup_insert_eq|].
    by rewrite lookup_insert_ne by done. }
  assert (c = gs k -> forall i : nat, local_word k i = cpu_local x !! i) as Hk.
  { intros -> i. unfold local_word. by rewrite H. }
  split; try done; rewrite ?Hl; case_decide; rewrite ?Hk by done; auto.
Qed.
End keeps.

Create HintDb keeps.
#[export] Hint Resolve keeps_with_rings keeps_with_sched keeps_with_thread keeps_with_cpu : keeps.

Section keeps_sched.
Context {V : Type} `{KmemSource V}.
Implicit Types k : kern V.

Lemma keeps_reset_decay s (i : nat) k k' : reset_decay s i k = Done k' -> keeps k k'.
Proof using. unfold reset_decay, with_decay. intros E. outcome_inv. eauto with keeps. Qed.

Lemma keeps_with_decay s (i : nat) f k k' : with_decay s i f k = Done k' -> keeps k k'.
Proof using. unfold with_decay. intros E. outcome_inv. eauto with keeps. Qed.
#[local] Hint Resolve keeps_reset_decay keeps_with_decay : keeps.

Lemma keeps_scan (n : nat) : forall s (i : nat) mi md k r, sched_scan n s i mi md k = Done r -> keeps k r.2.
Proof using.
  induction n as [|n IH]; intros s i mi md k r E; cbn [sched_scan] in E; [by injection E as <-|].
  apply bind_Done in E as (e&_&E). destruct (negb (truthy e)).
  - apply bind_Done in E as (k1&E1&E). etrans; [by eapply keeps_reset_decay|]. by eapply IH.
  - apply bind_Done in E as (k1&E1&E). etrans; [by eapply keeps_with_decay|].
    outcome_inv. case_match; by eapply IH.
Qed.

Lemma keeps_elem t k r : sched_elem t k = Done r -> keeps k r.2.
Proof using. unfold sched_elem. intros E. outcome_inv. eauto with keeps. Qed.

#[local] Opaque sched_scan.

Lemma keeps_schedule_next (fuel : nat) : forall s k r, sched_schedule_next fuel s k = Done r -> keeps k r.2.
Proof using.
  induction fuel as [|fuel IH]; intros s k r E; cbn [sched_schedule_next] in E; [done|].
  apply bind_Done in E as ([mi k1]&E1&E). apply keeps_scan in E1. etrans; [exact E1|]. cbn [snd].
  destruct (mi <? 0); [by injection E as <-|]. apply bind_Done in E as (k2&E2&E).
  etrans; [by eapply keeps_reset_decay|]. apply bind_Done in E as (e&_&E). apply bind_Done in E as (k3&E3&E).
  etrans; [by eapply keeps_with_rings|]. apply bind_Done in E as (a&_&E). apply bind_Done in E as (nd&_&E).
  apply bind_Done in E as (b&_&E). destruct b; [|by injection E as <-].
  apply bind_Done in E as ([x k4]&E4&E). apply keeps_elem in E4. etrans; [exact E4|].
  apply bind_Done in E as (k5&E5&E). etrans; [by eapply keeps_with_rings|]. by eapply IH.
Qed.

Lemma keeps_reenqueue s t k k' : sched_reenqueue s t k = Done k' -> keeps k k'.
Proof using.
  unfold sched_reenqueue. intros E. apply bind_Done in E as (x&_&E). case_match; [by injection E as <-|].
  apply bind_Done in E as (b&_&E). destruct b.
  - apply bind_Done in E as ([e k1]&E1&E). apply keeps_elem in E1. etrans; [exact E1|]. by eapply keeps_with_rings.
  - apply bind_Done in E as (th&_&E). apply bind_Done in E as (e&_&E). apply bind_Done in E as (k1&E1&E).
    apply bind_Done in E as ([a k2]&E2&E). apply keeps_elem in E2.
    trans k1; [|etrans; [exact E2|by eapply keeps_with_rings]].
    case_match; [by eapply keeps_reset_decay|by injection E1 as <-].
Qed.

Lemma keeps_set_current_thread t k k' : kernel_set_current_thread t k = Done k' -> keeps k k'.
Proof using.
  unfold kernel_set_current_thread, hal_after_thread_switch. intros E. apply bind_Done in E as (c&_&E).
  apply bind_Done in E as (k1&E1&E). apply bind_Done in E as (k2&E2&E). trans k1; [|trans k2].
  - eapply keeps_with_cpu; [|exact E1]. intros x. cbn [cpu_local].
    rewrite !list_lookup_insert_ne by done. split_and!; [done|done|].
    intros Hs. apply lookup_lt_is_Some. rewrite length_insert. by apply lookup_lt_is_Some.
  - by eapply keeps_with_thread.
  - outcome_inv. eapply keeps_with_cpu; [|done]. done.
Qed.

(** [sched_preempt] changes no saved context. *)
Lemma keeps_preempt (fuel : nat) k k' : sched_preempt fuel k = Done k' -> keeps k k'.
Proof using.
  unfold sched_preempt. intros E. apply bind_Done in E as (c&_&E). apply bind_Done in E as (x&_&E).
  apply bind_Done in E as (me&_&E). apply bind_Done in E as (th&_&E).
  case_match; [by injection E as <-|]. case_match; [by injection E as <-|].
  apply bind_Done in E as (y&_&E). apply bind_Done in E as (l&_&E). apply bind_Done in E as (k1&E1&E).
  apply bind_Done in E as ([n k2]&E2&E). apply keeps_schedule_next in E2.
  trans k1; [by eapply keeps_with_sched|]. etrans; [exact E2|]. unfold preempt_to in E. cbn [snd].
  apply bind_Done in E as (nthr&_&E). apply bind_Done in E as (k3&E3&E).
  trans k3; [|by eapply keeps_with_sched]. case_match; [by injection E3 as <-|].
  apply bind_Done in E3 as (k4&E4&E3). apply bind_Done in E3 as (k5&E5&E3). apply bind_Done in E3 as (k6&E6&E3).
  trans k4; [by eapply keeps_with_thread|]. trans k5; [by eapply keeps_set_current_thread|].
  trans k6; [by eapply keeps_with_thread|]. by eapply keeps_reenqueue.
Qed.
End keeps_sched.

(** ** Saved contexts *)

(** The registers a thread has when [__i686_switch] returns to it, and the memory
    when it called it. *)
Record context := Context { c_ebp : Z; c_ebx : Z; c_esi : Z; c_edi : Z; c_eip : Z; c_esp : Z; c_mem : gmap Z Z }.

(** The frame of a saved context on a stack. *)
Definition frame_at (m : gmap Z Z) (sp : Z) (c : context) : Prop :=
  m !! sp = Some (c_edi c) /\ m !! (sp + 4) = Some (c_esi c) /\ m !! (sp + 8) = Some (c_ebx c) /\
  m !! (sp + 12) = Some (c_ebp c) /\ m !! (sp + 16) = Some (c_eip c) /\ c_esp c = sp + 20.

(** The stacks of the threads, and that of the CPU. *)
Record layout := Layout { stack_lo : Z -> Z; stack_hi : Z -> Z; cpu_lo : Z; cpu_hi : Z }.

Definition in_stack (L : layout) (t a : Z) : Prop := stack_lo L t <= a < stack_hi L t.
Definition in_cpu_stack (L : layout) (a : Z) : Prop := cpu_lo L <= a < cpu_hi L.

Section switch.
Context {V : Type} {HCo : Compiler} {HC : Cdecl HCo}.
Implicit Types (s : proc V) (k : kern V) (L : layout).

(** Stacks are apart, and the one of the CPU has room for the scheduler. *)
Record layout_ok L : Prop := {
  lo_threads : forall t u a, in_stack L t a -> in_stack L u a -> t = u;
  lo_cpu : forall t a, in_stack L t a -> ~ in_cpu_stack L a;
  lo_room : 0 <= cpu_lo L /\ cpu_lo L + 4 + stack_use <= cpu_hi L /\ cpu_hi L < 2 ^ 32;
  lo_range : forall t, 0 <= stack_lo L t /\ stack_hi L t < 2 ^ 32;
}.

Definition storage k (t : Z) : option (list Z) := t_storage <$> (threads k !! t).

(** The thread [t] is switched out with the context [c]. *)
Definition saved L s (t : Z) (c : context) : Prop :=
  exists sto sp, storage (kst s) t = Some sto /\ sto !! 1%nat = Some sp /\ frame_at (stk s) sp c /\
    stack_lo L t <= sp /\ sp + 20 <= stack_hi L t /\
    forall a, in_stack L t a -> sp + 16 <= a -> stk s !! a = c_mem c !! a.

(** The thread [me] runs, and the others are switched out with the contexts of
    [C]. *)
Record system L (me : Z) s (C : gmap Z context) : Prop := {
  sy_cur : local_word (kst s) 1 = Some me;
  sy_stack : local_word (kst s) 2 = Some (cpu_hi L);
  sy_thread : exists sto, storage (kst s) me = Some sto /\ (1 < length sto)%nat;
  sy_objects : forall t, is_Some (storage (kst s) t) ->
    stk s !! (t +u 4) = None /\ ~ in_cpu_stack L (t +u 4) /\ forall u, ~ in_stack L u (t +u 4);
  sy_word : is_Some (stk s !! (cpu_hi L - 4));
  sy_out : forall t c, C !! t = Some c -> t <> me -> saved L s t c;
}.

(** [me] has called [__i686_switch] and has room on its stack. *)
Record ready L (me : Z) s (ra : Z) : Prop := {
  re_range : stack_lo L me + 16 <= esp (rs s) /\ esp (rs s) + 4 <= stack_hi L me;
  re_ret : stk s !! esp (rs s) = Some ra;
  re_room : is_Some (stk s !! (esp (rs s) - 4)) /\ is_Some (stk s !! (esp (rs s) - 8)) /\
    is_Some (stk s !! (esp (rs s) - 12)) /\ is_Some (stk s !! (esp (rs s) - 16));
}.

(** The context that the call has. *)
Definition context_of s (ra : Z) : context :=
  Context (ebp (rs s)) (ebx (rs s)) (esi (rs s)) (edi (rs s)) ra (esp (rs s) + 4) (stk s).

(** The state of the kernel in which the scheduler is called. *)
Definition stored (me : Z) s : kern V :=
  let k := kst s in
  match threads k !! me with
  | Some th => set_threads k (<[me := set_storage 1 (esp (rs s) - 16) th]> (threads k))
  | None => k
  end.

(** The stack with the four registers pushed. *)
Definition pushed s : gmap Z Z :=
  let x := rs s in
  <[esp x - 16 := edi x]> (<[esp x - 12 := esi x]> (<[esp x - 8 := ebx x]> (<[esp x - 4 := ebp x]> (stk s)))).

Lemma push_word_ok w ax cx dx bx sp bp si di sl ct m k :
  4 <= sp < 2 ^ 32 -> is_Some (m !! (sp - 4)) ->
  push w (Proc (Regs ax cx dx bx sp bp si di) sl ct m k) =
    Done (Proc (Regs ax cx dx bx (sp - 4) bp si di) sl ct (<[sp - 4 := w]> m) k).
Proof using. intros Hr [v Hv]. unfold push. cbn [rs esp stk]. rewrite u32_sub_nowrap by lia. by rewrite Hv. Qed.

Lemma pop_word_ok w ax cx dx bx sp bp si di sl ct m k :
  0 <= sp -> sp + 4 < 2 ^ 32 -> m !! sp = Some w ->
  pop (Proc (Regs ax cx dx bx sp bp si di) sl ct m k) =
    Done (w, Proc (Regs ax cx dx bx (sp + 4) bp si di) sl ct m k).
Proof using.
  intros H0 H1 Hw. unfold pop. cbn [rs esp stk]. rewrite Hw. cbn [deref mbind outcome_bind].
  by rewrite u32_add_nowrap by lia.
Qed.

Lemma pushed_frame s ra :
  stk s !! esp (rs s) = Some ra -> frame_at (pushed s) (esp (rs s) - 16) (context_of s ra).
Proof using.
  intros Hra. unfold frame_at, pushed, context_of. cbn [c_edi c_esi c_ebx c_ebp c_eip c_esp].
  replace (esp (rs s) - 16 + 4) with (esp (rs s) - 12) by lia. replace (esp (rs s) - 16 + 8) with (esp (rs s) - 8) by lia.
  replace (esp (rs s) - 16 + 12) with (esp (rs s) - 4) by lia. replace (esp (rs s) - 16 + 16) with (esp (rs s)) by lia.
  split_and!; [by simplify_map_eq by lia|..|lia];
    repeat (rewrite lookup_insert_eq || rewrite lookup_insert_ne by lia); done.
Qed.

Lemma pushed_other s a : a < esp (rs s) - 16 \/ esp (rs s) <= a -> pushed s !! a = stk s !! a.
Proof using. intros Ha. unfold pushed. by rewrite !lookup_insert_ne by lia. Qed.
End switch.

(** Symbolic execution: the state stays a [Proc] of its parts. *)
Ltac proc_simpl :=
  unfold set_rs, set_stk, set_kst, set_sels, set_ctl;
  cbn [mbind outcome_bind deref set_reg get_reg set_sel get_sel rs sels ctl stk kst eax ecx edx ebx esp ebp esi edi
       sel_ds sel_es sel_fs sel_gs cs eip eflags ss].

Section switch_exec.
Context {V : Type} {HCo : Compiler} {HC : Cdecl HCo}.
Variables (preempt : kern V -> outcome (kern V)) (handler : trapframe -> kern V -> outcome (kern V)) (ret : Z).
Implicit Types (s : proc V) (k : kern V) (L : layout).

Lemma exec_app l1 l2 s :
  exec preempt handler ret (l1 ++ l2) s = s' ← exec preempt handler ret l1 s; exec preempt handler ret l2 s'.
Proof using.
  revert s. induction l1 as [|i l1 IH]; intros s; [done|]. cbn [app exec].
  destruct (step preempt handler ret i s); cbn [mbind outcome_bind]; [apply IH|done..].
Qed.

(** Until the call the registers go to the stack of the thread and the stack
    pointer to its storage; the stack is that of the CPU. *)
Lemma switch_save L me s C ra :
  layout_ok L -> system L me s C -> ready L me s ra ->
  exec preempt handler ret (take 7 __i686_switch) s =
    Done (Proc (set_reg ESP (cpu_hi L) (set_reg EAX me (rs s))) (sels s) (ctl s) (pushed s) (stored me s)).
Proof using.
  intros HL Hs [[Hlo Hhi] Hra (W4&W8&W12&W16)]. destruct (lo_range L HL me) as [H0 H1].
  destruct (sy_thread _ _ _ _ Hs) as (sto&Hsto&Hlen). destruct (sy_objects _ _ _ _ Hs me) as (Hno&_&Hst); [by eexists|].
  assert (Hne : forall d, 0 < d <= 16 -> me +u 4 <> esp (rs s) - d).
  { intros d Hd Heq. apply (Hst me). rewrite Heq. unfold in_stack. lia. }
  pose proof (sy_cur _ _ _ _ Hs) as Hcur. pose proof (sy_stack _ _ _ _ Hs) as Hstk. unfold local_word in Hcur, Hstk.
  unfold storage in Hsto. destruct s as [[ax cx dx bx sp bp si di] sl ct m k]. cbn [rs stk kst esp] in *.
  destruct (threads k !! me) as [th|] eqn:Hth; [|done]. injection Hsto as Hsto.
  destruct (cpus k !! gs k) as [x|] eqn:Hcx; [|done]. cbn [mbind option_bind] in Hcur, Hstk.
  cbn [__i686_switch take exec step get_reg rs eax ecx edx ebx esp ebp esi edi].
  rewrite push_word_ok by (done || lia). cbn [mbind outcome_bind rs ebx].
  rewrite push_word_ok by (lia || (rewrite lookup_insert_ne, <-Z.sub_add_distr by lia; done)). cbn [mbind outcome_bind rs esi].
  rewrite push_word_ok by (lia || (rewrite !lookup_insert_ne, <-!Z.sub_add_distr by lia; done)). cbn [mbind outcome_bind rs edi].
  rewrite push_word_ok by (lia || (rewrite !lookup_insert_ne, <-!Z.sub_add_distr by lia; done)). cbn [mbind outcome_bind].
  rewrite <-!Z.sub_add_distr. change (4 + 4) with 8. change (8 + 4) with 12. change (12 + 4) with 16.
  unfold load_gs, store_at. cbn [kst rs stk]. rewrite Hcx. cbn [deref mbind outcome_bind]. change (Z.to_nat (4 / 4)) with 1%nat.
  rewrite Hcur. cbn [deref mbind outcome_bind set_rs set_reg rs stk get_reg esp ebx esi edi ebp eax ecx edx sels ctl kst].
  rewrite !lookup_insert_ne by (intros Heq; symmetry in Heq; revert Heq; apply Hne; lia). rewrite Hno, Hth. cbn [deref mbind outcome_bind].
  destruct (lookup_lt_is_Some_2 (t_storage th) 1) as [w Hw]; [by rewrite Hsto|]. rewrite Hw. cbn [deref mbind outcome_bind].
  unfold with_thread. rewrite Hth. cbn [deref mbind outcome_bind set_kst rs sels ctl stk kst set_threads cpus gs].
  rewrite Hcx. cbn [deref mbind outcome_bind]. change (Z.to_nat (8 / 4)) with 2%nat. rewrite Hstk.
  cbn [deref mbind outcome_bind set_rs set_reg rs sels ctl stk kst]. unfold pushed, stored. cbn [rs stk kst esp ebx esi edi ebp].
  by rewrite Hth.
Qed.

(** The call on the stack of the CPU. *)
Lemma switch_call L x sl ct m k k' :
  layout_ok L -> esp x = cpu_hi L -> is_Some (m !! (cpu_hi L - 4)) -> preempt k = Done k' ->
  exists x' m', exec preempt handler ret [CALL SCHED_PREEMPT] (Proc x sl ct m k) = Done (Proc x' sl ct m' k') /\
    is_Some (m' !! (cpu_hi L - 4)) /\ (forall a, ~ in_cpu_stack L a -> m' !! a = m !! a).
Proof using HC.
  intros HL Hsp Hw Hp. destruct (lo_room L HL) as (H0&H1&H2). pose proof cd_use as Hu.
  destruct x as [ax cx dx bx sp bp si di]. cbn [esp] in Hsp. subst sp. cbn [exec step]. unfold call.
  rewrite push_word_ok by (done || lia). cbn [mbind outcome_bind c_function kst]. rewrite Hp. cbn [mbind outcome_bind rs stk].
  set (x1 := Regs ax cx dx bx (cpu_hi L - 4) bp si di). set (m1 := <[cpu_hi L - 4 := ret]> m).
  pose proof (cd_regs x1 m1) as (_&Hesp&_). pose proof (cd_stack x1 m1) as Hst. cbn [x1 esp] in Hst, Hesp.
  destruct (clobber x1 m1) as [[ax' cx' dx' bx' sp' bp' si' di'] m'] eqn:E. cbn [fst snd esp] in Hesp, Hst. subst sp'.
  unfold set_kst, set_stk, set_rs. cbn [rs sels ctl stk kst].
  assert (Hret : m' !! (cpu_hi L - 4) = Some ret) by (rewrite Hst by lia; apply lookup_insert_eq).
  rewrite (pop_word_ok ret) by (done || lia). cbn [mbind outcome_bind]. rewrite Z.eqb_refl.
  eexists _, m'. split; [reflexivity|]. split; [by eexists|]. intros a Ha. unfold in_cpu_stack in Ha.
  rewrite Hst by lia. unfold m1. by rewrite lookup_insert_ne by lia.
Qed.

(** The registers of the new thread. *)
Lemma switch_restore x sl ct m k next sto sp c :
  local_word k 1 = Some next -> storage k next = Some sto -> sto !! 1%nat = Some sp -> m !! (next +u 4) = None ->
  frame_at m sp c -> 0 <= sp -> sp + 20 < 2 ^ 32 ->
  exists ax cx dx, exec preempt handler ret (drop 8 __i686_switch) (Proc x sl ct m k) =
    Done (Proc (Regs ax cx dx (c_ebx c) (c_esp c) (c_ebp c) (c_esi c) (c_edi c)) sl
            (Control (cs ct) (c_eip c) (eflags ct) (ss ct)) m k).
Proof using.
  unfold local_word, storage. intros Hcur Hsto H1 Hno (F0&F4&F8&F12&F16&Hesp) Hlo Hhi.
  destruct (cpus k !! gs k) as [y|] eqn:Hcx; [|done]. cbn [mbind option_bind] in Hcur.
  destruct (threads k !! next) as [th|] eqn:Hth; [|done]. injection Hsto as Hsto.
  destruct x as [ax cx dx bx sp0 bp si di]. cbn [__i686_switch drop exec step]. unfold load_gs, load_at. cbn [kst].
  rewrite Hcx. proc_simpl. change (Z.to_nat (4 / 4)) with 1%nat. rewrite Hcur. proc_simpl. rewrite Hno, Hth.
  proc_simpl. rewrite Hsto, H1. proc_simpl.
  rewrite (pop_word_ok (c_edi c)) by (done || lia). proc_simpl. rewrite (pop_word_ok (c_esi c)) by (done || lia). proc_simpl.
  rewrite (pop_word_ok (c_ebx c)) by (lia || by rewrite <-!Z.add_assoc). proc_simpl.
  rewrite (pop_word_ok (c_ebp c)) by (lia || by rewrite <-!Z.add_assoc). proc_simpl.
  rewrite (pop_word_ok (c_eip c)) by (lia || by rewrite <-!Z.add_assoc). proc_simpl.
  rewrite Hesp, <-!Z.add_assoc. by eexists _, _, _.
Qed.
End switch_exec.

(** ** Threads that take turns *)

Section turns.
Context {V : Type} {HCo : Compiler} {HC : Cdecl HCo}.
Variables (preempt : kern V -> outcome (kern V)) (handler : trapframe -> kern V -> outcome (kern V)) (ret : Z).
Hypothesis Hkeeps : forall k k', preempt k = Done k' -> keeps k k'.
Implicit Types (s : proc V) (k : kern V) (L : layout).

Lemma stored_storage L me s C t :
  system L me s C ->
  storage (stored me s) t = if decide (t = me) then <[1%nat := esp (rs s) - 16]> <$> storage (kst s) me else storage (kst s) t.
Proof using.
  intros Hs. destruct (sy_thread _ _ _ _ Hs) as (sto&Hsto&_). unfold storage, stored in *.
  destruct (threads (kst s) !! me) as [th|] eqn:Hth; [|done]. cbn [set_threads threads].
  case_decide as Hd; [subst t|]; [by rewrite lookup_insert_eq|by rewrite lookup_insert_ne].
Qed.

Lemma saved_frame L m m' sp c t :
  layout_ok L -> frame_at m sp c -> stack_lo L t <= sp -> sp + 20 <= stack_hi L t ->
  (forall a, in_stack L t a -> m' !! a = m !! a) -> frame_at m' sp c.
Proof using.
  intros HL (F0&F4&F8&F12&F16&Hesp) Hlo Hhi Hm. unfold in_stack in Hm.
  split_and!; try done; rewrite Hm by lia; done.
Qed.

(** The system after the registers are pushed and the scheduler has run. *)
Lemma switch_system L me s C ra next k2 m' x :
  layout_ok L -> system L me s C -> ready L me s ra -> keeps (stored me s) k2 -> local_word k2 1 = Some next ->
  is_Some (<[me := context_of s ra]> C !! next) -> is_Some (m' !! (cpu_hi L - 4)) ->
  (forall a, ~ in_cpu_stack L a -> m' !! a = pushed s !! a) ->
  system L next (Proc x (sels s) (ctl s) m' k2) (<[me := context_of s ra]> C) /\
  forall t c, <[me := context_of s ra]> C !! t = Some c -> saved L (Proc x (sels s) (ctl s) m' k2) t c.
Proof using.
  intros HL Hs Hr Hk Hnext Hc Hw Hm. destruct (lo_range L HL me) as [H0 H1]. pose proof (re_range _ _ _ _ Hr) as [Hlo Hhi].
  assert (Hsto : forall t, storage k2 t = storage (stored me s) t) by apply (ke_storage _ _ Hk).
  assert (Hme : forall a, ~ in_stack L me a -> pushed s !! a = stk s !! a).
  { intros a Ha. apply pushed_other. unfold in_stack in Ha. lia. }
  assert (Hall : forall t c, <[me := context_of s ra]> C !! t = Some c -> saved L (Proc x (sels s) (ctl s) m' k2) t c).
  { intros t c Ht. unfold saved. cbn [kst stk]. rewrite Hsto, (stored_storage L me s C t Hs).
    destruct (decide (t = me)) as [->|Hne].
    - rewrite lookup_insert_eq in Ht. injection Ht as <-. destruct (sy_thread _ _ _ _ Hs) as (sto&Hst&Hlen).
      rewrite Hst. exists (<[1%nat := esp (rs s) - 16]> sto), (esp (rs s) - 16). split_and!; [done| | |lia|lia|].
      + by apply list_lookup_insert_eq.
      + eapply saved_frame; [done|apply pushed_frame, Hr|instantiate (1 := me); lia|lia|].
        intros a Ha. apply Hm. by apply (lo_cpu L HL me).
      + intros a Ha Hge. rewrite Hm by (by apply (lo_cpu L HL me)). apply pushed_other. lia.
    - rewrite lookup_insert_ne in Ht by done. destruct (sy_out _ _ _ _ Hs t c Ht Hne) as (sto&sp&Hst&H1'&Hf&Hl&Hh&Hmem).
      assert (Hsame : forall a, in_stack L t a -> m' !! a = stk s !! a).
      { intros a Ha. rewrite Hm by (by apply (lo_cpu L HL t)). apply Hme. intros Ha'. by apply Hne, (lo_threads L HL t me a). }
      exists sto, sp. split_and!; try done; [by eapply saved_frame|]. intros a Ha Hge. rewrite Hsame by done. by apply Hmem. }
  split; [|exact Hall]. split; cbn [kst stk]; try done.
  - rewrite (ke_stack _ _ Hk). rewrite <-(sy_stack _ _ _ _ Hs). unfold local_word, stored. by destruct (threads (kst s) !! me).
  - destruct Hc as [c Hc]. destruct (Hall next c Hc) as (sto&sp&Hst&Hsp&_). exists sto. split; [done|].
    by apply lookup_lt_Some in Hsp.
  - intros t Ht. assert (is_Some (storage (kst s) t)) as Ht'.
    { rewrite Hsto, (stored_storage L me s C t Hs) in Ht. case_decide; [subst t|done]. by apply fmap_is_Some in Ht. }
    destruct (sy_objects _ _ _ _ Hs t Ht') as (Hno&Hcpu&Hst). split_and!; [|done|done].
    rewrite Hm, Hme by auto. done.
  - intros t c Ht _. by apply Hall.
Qed.

(** [__i686_switch] stores the context of the thread that calls it, and returns
    in the one of the thread that the scheduler has made current. *)
Lemma switch_ok L me s C ra next k2 c :
  layout_ok L -> system L me s C -> ready L me s ra -> preempt (stored me s) = Done k2 ->
  local_word k2 1 = Some next -> <[me := context_of s ra]> C !! next = Some c ->
  exists ax cx dx m', exec preempt handler ret __i686_switch s =
      Done (Proc (Regs ax cx dx (c_ebx c) (c_esp c) (c_ebp c) (c_esi c) (c_edi c)) (sels s)
              (Control (cs (ctl s)) (c_eip c) (eflags (ctl s)) (ss (ctl s))) m' k2) /\
    (forall a, ~ in_cpu_stack L a -> m' !! a = pushed s !! a) /\
    (forall a, in_stack L next a -> c_esp c <= a -> m' !! a = c_mem c !! a) /\
    forall x ct, system L next (Proc x (sels s) ct m' k2) (<[me := context_of s ra]> C).
Proof using HC Hkeeps.
  intros HL Hs Hr Hp Hnext Hc. pose proof (Hkeeps _ _ Hp) as Hk. rewrite <-(take_drop 7 __i686_switch), exec_app.
  rewrite (switch_save preempt handler ret L me s C ra HL Hs Hr). cbn [mbind outcome_bind].
  assert (Hw : is_Some (pushed s !! (cpu_hi L - 4))).
  { rewrite pushed_other; [apply Hs|]. pose proof (re_range _ _ _ _ Hr). pose proof (lo_room L HL) as (?&?&?). pose proof cd_use.
    destruct (decide (in_stack L me (cpu_hi L - 4))) as [Hin|Hin].
    - exfalso. apply (lo_cpu L HL me _ Hin). unfold in_cpu_stack. lia.
    - unfold in_stack in Hin. lia. }
  change (drop 7 __i686_switch) with ([CALL SCHED_PREEMPT] ++ drop 8 __i686_switch). rewrite exec_app.
  destruct (switch_call preempt handler ret L (set_reg ESP (cpu_hi L) (set_reg EAX me (rs s))) (sels s) (ctl s) (pushed s)
    (stored me s) k2 HL eq_refl Hw Hp) as (x'&m'&->&Hw'&Hm). cbn [mbind outcome_bind].
  destruct (switch_system L me s C ra next k2 m' x' HL Hs Hr Hk Hnext) as [Hsys Hall]; [by eexists|done|done|].
  destruct (Hall next c Hc) as (sto&sp&Hst&Hsp&Hf&Hl&Hh&Hmem). cbn [kst stk] in Hst, Hf, Hmem. destruct (lo_range L HL next) as [H0 H1].
  destruct (sy_objects _ _ _ _ Hsys next) as (Hno&_); [by eexists|]. cbn [stk] in Hno.
  destruct (switch_restore preempt handler ret x' (sels s) (ctl s) m' k2 next sto sp c) as (ax&cx&dx&E); [done..|lia|lia|].
  exists ax, cx, dx, m'. split; [exact E|]. split; [done|]. split.
  - intros a Ha Hge. apply Hmem; [done|]. pose proof (proj2 (proj2 (proj2 (proj2 (proj2 Hf))))). lia.
  - intros x ct. destruct Hsys. by split.
Qed.

(** The thread [me] runs code of its own: it uses its registers and its stack, and
    what it calls in the kernel leaves the storages of the threads and the
    current thread alone. *)
Record thread_runs L (me : Z) s s' : Prop := {
  tr_keeps : keeps (kst s) (kst s');
  tr_cur : local_word (kst s') 1 = local_word (kst s) 1;
  tr_stack : forall a, ~ in_stack L me a -> stk s' !! a = stk s !! a;
}.

Lemma thread_runs_system L me s s' C :
  layout_ok L -> thread_runs L me s s' -> system L me s C -> system L me s' C.
Proof using HC.
  intros HL [Hk Hcur Hst] Hs. pose proof (lo_room L HL) as (?&?&?). pose proof cd_use.
  assert (Hsto : forall t, storage (kst s') t = storage (kst s) t) by apply (ke_storage _ _ Hk).
  split.
  - rewrite Hcur. apply Hs.
  - rewrite (ke_stack _ _ Hk). apply Hs.
  - rewrite Hsto. apply Hs.
  - intros t Ht. rewrite Hsto in Ht. destruct (sy_objects _ _ _ _ Hs t Ht) as (Hno&Hcpu&Hin). by rewrite Hst.
  - rewrite Hst; [apply Hs|]. intros Hin. apply (lo_cpu L HL _ _ Hin). unfold in_cpu_stack. lia.
  - intros t c Ht Hne. destruct (sy_out _ _ _ _ Hs t c Ht Hne) as (sto&sp&Hst'&Hsp&Hf&Hl&Hh&Hmem).
    assert (Hsame : forall a, in_stack L t a -> stk s' !! a = stk s !! a).
    { intros a Ha. apply Hst. intros Ha'. by apply Hne, (lo_threads L HL t me a). }
    exists sto, sp. rewrite Hsto. split_and!; try done; [by eapply saved_frame|].
    intros a Ha Hge. rewrite Hsame by done. by apply Hmem.
Qed.

(** A turn: the current thread runs, or it calls [__i686_switch] and the
    scheduler makes [next] current.  The map records the context that every thread
    had when it last called [__i686_switch]. *)
Inductive turn L : Z * proc V * gmap Z context -> Z * proc V * gmap Z context -> Prop :=
| Runs me s s' C : thread_runs L me s s' -> turn L (me, s, C) (me, s', C)
| Switches me s s' C ra next k :
    ready L me s ra -> preempt (stored me s) = Done k -> local_word k 1 = Some next ->
    is_Some (<[me := context_of s ra]> C !! next) -> exec preempt handler ret __i686_switch s = Done s' ->
    turn L (me, s, C) (next, s', <[me := context_of s ra]> C).

Lemma turn_system L x y :
  layout_ok L -> turn L x y -> system L x.1.1 x.1.2 x.2 -> system L y.1.1 y.1.2 y.2.
Proof using HC Hkeeps.
  intros HL [me s s' C Hr|me s s' C ra next k Hr Hp Hnext [c Hc] E] Hs; cbn [fst snd] in *;
    [by eapply thread_runs_system|].
  destruct (switch_ok L me s C ra next k c HL Hs Hr Hp Hnext Hc) as (ax&cx&dx&m'&E'&_&_&Hsys).
  rewrite E in E'. injection E' as ->. apply Hsys.
Qed.

Lemma turns_system L x y :
  layout_ok L -> rtc (turn L) x y -> system L x.1.1 x.1.2 x.2 -> system L y.1.1 y.1.2 y.2.
Proof using HC Hkeeps. intros HL. induction 1; eauto using turn_system. Qed.
End turns.

(** C4: threads that take turns through [__i686_switch] do not see each other:
    after any sequence of turns, in which threads run on their own stacks and
    registers and call [__i686_switch], a call of it by the current thread
    returns, with the kernel as the scheduler left it, in the thread the scheduler
    made current, with the callee-saved registers, the stack pointer, the return
    address and the contents of its stack that thread had when it last called
    [__i686_switch]; the memory outside the stack of the CPU is as before the
    call but for the four words the caller pushed.  It holds
    for any scheduler that leaves the storages of the threads alone, as
    [sched_preempt] does ([keeps_preempt]), and for any compiler that follows the
    calling convention. *)
Theorem switch_resumes {V} {HCo : Compiler} {HC : Cdecl HCo} (preempt : kern V -> outcome (kern V))
    (handler : trapframe -> kern V -> outcome (kern V)) ret L me0 (s0 : proc V) C0 me s C ra k next c :
  (forall k k', preempt k = Done k' -> keeps k k') -> layout_ok L -> system L me0 s0 C0 ->
  rtc (turn preempt handler ret L) (me0, s0, C0) (me, s, C) ->
  ready L me s ra -> preempt (stored me s) = Done k -> local_word k 1 = Some next ->
  <[me := context_of s ra]> C !! next = Some c ->
  exists s', exec preempt handler ret __i686_switch s = Done s' /\ kst s' = k /\
    ebx (rs s') = c_ebx c /\ esi (rs s') = c_esi c /\ edi (rs s') = c_edi c /\ ebp (rs s') = c_ebp c /\
    esp (rs s') = c_esp c /\ eip (ctl s') = c_eip c /\
    (forall a, in_stack L next a -> c_esp c <= a -> stk s' !! a = c_mem c !! a) /\
    (forall a, ~ in_cpu_stack L a -> a < esp (rs s) - 16 \/ esp (rs s) <= a -> stk s' !! a = stk s !! a) /\
    system L next s' (<[me := context_of s ra]> C).
Proof.
  intros Hk HL Hs0 Hrun Hr Hp Hnext Hc. pose proof (turns_system preempt handler ret Hk L _ _ HL Hrun Hs0) as Hs.
  destruct (switch_ok preempt handler ret Hk L me s C ra next k c HL Hs Hr Hp Hnext Hc) as (ax&cx&dx&m'&E&Hm&Hmem&Hsys).
  eexists. split; [exact E|]. split_and!; try done.
  intros a Ha Ho. cbn [stk]. by rewrite Hm, pushed_other.
Qed.

(** ** Interrupts *)

Section interrupts.
Context {V : Type} {HCo : Compiler} {HC : Cdecl HCo}.
Variables (preempt : kern V -> outcome (kern V)) (handler : trapframe -> kern V -> outcome (kern V)) (ret : Z).
Implicit Types (s : proc V) (k : kern V).

(** Is the code that runs user code? *)
Definition from_user s : bool := truthy (Z.land (cs (ctl s)) 3).

(** The stack pointer that the entry of an interrupt starts from: in user code
    that of the task state. *)
Definition entry_stack s : outcome (Z * Z) :=
  if from_user s then
    c ← deref (cpus (kst s) !! gs (kst s)); Done (ss0 (cpu_arch c), esp0 (cpu_arch c))
  else Done (ss (ctl s), esp (rs s)).

(** What the processor pushes. *)
Definition entry_words (i err : Z) s : list Z :=
  (if from_user s then [ss (ctl s); esp (rs s)] else []) ++ [eflags (ctl s); cs (ctl s); eip (ctl s)] ++
  (if error_code i then [err] else []).

(** The interrupt [i] goes through an interrupt gate to the vector at [v]: flags
    TF, IF, NT, RF and VM are cleared. *)
Definition int_entry (i err v : Z) s : outcome (proc V) :=
  '(ss', sp) ← entry_stack s;
  s' ← push_all (entry_words i err s) (set_rs (set_reg ESP sp (rs s)) s);
  Done (set_ctl (Control (Z.shiftl SEG_KCODE 3) v (Z.land (eflags (ctl s)) (not32 0x34300)) ss') s').

(** The words [ws] pushed one after the other from [top] on. *)
Fixpoint writes (top : Z) (ws : list Z) (m : gmap Z Z) : gmap Z Z :=
  match ws with [] => m | w :: ws => writes (top - 4) ws (<[top - 4 := w]> m) end.

Lemma writes_snoc ws w : forall top m, writes top (ws ++ [w]) m = <[top - 4 * S (length ws) := w]> (writes top ws m).
Proof using.
  induction ws as [|x ws IH]; intros top m; cbn [app writes length].
  - by replace (top - 4 * 1%nat) with (top - 4) by lia.
  - rewrite IH. f_equal. lia.
Qed.

Lemma writes_other ws : forall top m a, top <= a \/ a < top - 4 * length ws -> writes top ws m !! a = m !! a.
Proof using.
  induction ws as [|x ws IH]; intros top m a Ha; cbn [writes length] in *; [done|].
  rewrite IH by lia. by rewrite lookup_insert_ne by lia.
Qed.

Lemma writes_lookup ws : forall top m (j : nat), (j < length ws)%nat -> writes top ws m !! (top - 4 * S j) = ws !! j.
Proof using.
  induction ws as [|x ws IH]; intros top m j Hj; cbn [writes length] in *; [lia|]. destruct j as [|j].
  - rewrite writes_other by lia. replace (top - 4 * 1%nat) with (top - 4) by lia. by rewrite lookup_insert_eq.
  - replace (top - 4 * S (S j)) with (top - 4 - 4 * S j) by lia. apply IH. lia.
Qed.

Lemma writes_is_Some ws : forall top m a, is_Some (m !! a) -> is_Some (writes top ws m !! a).
Proof using.
  induction ws as [|x ws IH]; intros top m a Ha; [done|]. apply IH.
  destruct (decide (a = top - 4)) as [->|]; [rewrite lookup_insert_eq; by eexists|by rewrite lookup_insert_ne].
Qed.

(** The 21 words that an interrupt can push are there. *)
Definition room (top : Z) (m : gmap Z Z) : Prop :=
  84 <= top < 2 ^ 32 - 16 /\ forall j : nat, (0 < j <= 21)%nat -> is_Some (m !! (top - 4 * j)).

(** A processor that has pushed [W]. *)
Definition pushing (x : regs) sl ct (top : Z) (W : list Z) m k : proc V :=
  Proc (set_reg ESP (top - 4 * length W) x) sl ct (writes top W m) k.

Lemma push_pushing w x sl ct top W m k :
  room top m -> (length W < 21)%nat ->
  push w (pushing x sl ct top W m k) = Done (pushing x sl ct top (W ++ [w]) m k).
Proof using.
  intros [Ht Hr] Hl. unfold pushing. cbn [set_reg].
  rewrite push_word_ok; [|lia|apply writes_is_Some; replace (top - 4 * length W - 4) with (top - 4 * S (length W)) by lia; apply Hr; lia].
  rewrite writes_snoc, length_app. cbn [length]. do 2 f_equal; f_equal; lia.
Qed.

Lemma push_all_pushing ws x sl ct top m k : forall W,
  room top m -> (length W + length ws <= 21)%nat ->
  push_all ws (pushing x sl ct top W m k) = Done (pushing x sl ct top (W ++ ws) m k).
Proof using.
  induction ws as [|w ws IH]; intros W Hr Hl; cbn [push_all length] in *; [by rewrite app_nil_r|].
  rewrite push_pushing by (done || lia). cbn [mbind outcome_bind].
  rewrite IH by (rewrite ?length_app; cbn [length]; (done || lia)). by rewrite <-app_assoc.
Qed.

Lemma pushing_nil x sl ct top m k : pushing x sl ct top [] m k = Proc (set_reg ESP top x) sl ct m k.
Proof using. unfold pushing. cbn [length writes]. by replace (top - 4 * 0%nat) with top by lia. Qed.

(** The words that were pushed last come first. *)
Lemma writes_frame W top m (j : nat) w : reverse W !! j = Some w -> writes top W m !! (top - 4 * length W + 4 * j) = Some w.
Proof using.
  intros Hj. pose proof (lookup_lt_Some _ _ _ Hj) as Hl. rewrite length_reverse in Hl.
  rewrite reverse_lookup in Hj by done. rewrite <-Hj, <-(writes_lookup W top m (length W - S j)) by lia. f_equal. lia.
Qed.

Lemma has_error_code i : has i = error_code i.
Proof using.
  unfold has, error_code. apply eq_true_iff_eq. rewrite !orb_true_iff, andb_true_iff, !Z.eqb_eq, !Z.leb_le, bool_decide_eq_true.
  rewrite !elem_of_cons, elem_of_nil. lia.
Qed.

(** The error code in the frame, the words of the frame and the frame. *)
Definition frame_error (i err : Z) : Z := if error_code i then err else 0.

Definition frame_words (i err osp : Z) s : list Z :=
  let x := rs s in let l := sels s in let c := ctl s in
  [edi x; esi x; ebp x; osp; ebx x; edx x; ecx x; eax x; sel_gs l; sel_fs l; sel_es l; sel_ds l; i; frame_error i err;
   eip c; cs c; eflags c] ++ (if from_user s then [esp x; ss c] else []).

Definition frame_of (i err osp : Z) s : trapframe :=
  let x := rs s in let l := sels s in let c := ctl s in
  Trapframe (edi x) (esi x) (ebp x) osp (ebx x) (edx x) (ecx x) (eax x) (sel_gs l) (sel_fs l) (sel_es l) (sel_ds l)
    i (frame_error i err) (eip c) (cs c) (eflags c) (if from_user s then Some (esp x, ss c) else None).

(** The selectors fit their registers. *)
Definition selectors_ok s : Prop :=
  Forall (fun v => 0 <= v < 2 ^ 16) [sel_ds (sels s); sel_es (sels s); sel_fs (sels s); sel_gs (sels s); cs (ctl s); ss (ctl s)].

Lemma read_frame_ok i err osp s tf s' :
  selectors_ok s -> 0 <= tf -> tf + 76 < 2 ^ 32 ->
  (forall (j : nat) w, frame_words i err osp s !! j = Some w -> stk s' !! (tf + 4 * j) = Some w) ->
  read_frame tf s' = Done (frame_of i err osp s).
Proof using.
  intros Hsel H0 H1 Hf. unfold selectors_ok in Hsel. rewrite !Forall_cons in Hsel.
  destruct Hsel as (Hds&Hes&Hfs&Hgs&Hcs&Hss&_).
  assert (forall (j : Z) w, frame_words i err osp s !! Z.to_nat j = Some w -> 0 <= j < 19 -> stk s' !! (tf +u 4 * j) = Some w) as Hw.
  { intros j w Hj Hlt. rewrite u32_add_nowrap by lia. rewrite <-(Z2Nat.id j) by lia. by apply Hf. }
  unfold read_frame, frame_of, frame_words in *.
  rewrite (Hw 0 _ eq_refl), (Hw 1 _ eq_refl), (Hw 2 _ eq_refl), (Hw 3 _ eq_refl), (Hw 4 _ eq_refl),
    (Hw 5 _ eq_refl), (Hw 6 _ eq_refl), (Hw 7 _ eq_refl), (Hw 8 _ eq_refl), (Hw 9 _ eq_refl),
    (Hw 10 _ eq_refl), (Hw 11 _ eq_refl), (Hw 12 _ eq_refl), (Hw 13 _ eq_refl), (Hw 14 _ eq_refl),
    (Hw 15 _ eq_refl), (Hw 16 _ eq_refl) by lia.
  cbn [deref mbind outcome_bind]. rewrite !wrap_small by done. fold (from_user s).
  destruct (from_user s) eqn:Eu; [|done].
  rewrite (Hw 17 _ eq_refl), (Hw 18 _ eq_refl) by lia. cbn [deref mbind outcome_bind]. by rewrite wrap_small by done.
Qed.

(** What the vector and [__i686_isr] push, and the control of the handler. *)
Definition isr_words (i err top : Z) s : list Z :=
  let l := sels s in let x := rs s in
  let W := entry_words i err s ++ (if has i then [] else [0]) ++ [i] ++ [sel_ds l; sel_es l; sel_fs l; sel_gs l] in
  W ++ [eax x; ecx x; edx x; ebx x; top - 4 * length W; ebp x; esi x; edi x].

Definition handler_control (v ss' : Z) s : control :=
  Control (Z.shiftl SEG_KCODE 3) v (Z.land (eflags (ctl s)) (not32 0x34300)) ss'.

(** The stack pointer that [pushal] stores. *)
Definition frame_oesp (top : Z) s : Z := top - (if from_user s then 44 else 36).

Lemma isr_words_frame i err top s : reverse (isr_words i err top s) = frame_words i err (frame_oesp top s) s.
Proof using.
  unfold isr_words, entry_words, frame_words, frame_error, frame_oesp. rewrite has_error_code.
  by destruct (from_user s), (error_code i).
Qed.

Lemma isr_words_length i err top s : length (isr_words i err top s) = (if from_user s then 19 else 17)%nat.
Proof using.
  unfold isr_words, entry_words. rewrite has_error_code. by destruct (from_user s), (error_code i).
Qed.

Lemma exec_pushing w i l x sl ct top W m k :
  step preempt handler ret i (pushing x sl ct top W m k) = push w (pushing x sl ct top W m k) ->
  room top m -> (length W < 21)%nat ->
  exec preempt handler ret (i :: l) (pushing x sl ct top W m k) =
    exec preempt handler ret l (pushing x sl ct top (W ++ [w]) m k).
Proof using. intros Hi Hr Hl. cbn [exec]. rewrite Hi, push_pushing by done. done. Qed.

(** From the entry to the full frame. *)
Lemma isr_push i err v s ss' top l :
  entry_stack s = Done (ss', top) -> room top (stk s) ->
  (s1 ← int_entry i err v s; exec preempt handler ret
     (((if has i then [] else [PUSHL_IMM 0]) ++ [PUSHL_IMM i]) ++ [PUSHL_SEG DS; PUSHL_SEG ES; PUSHL_SEG FS; PUSHL_SEG GS; PUSHAL] ++ l) s1) =
  exec preempt handler ret l (pushing (rs s) (sels s) (handler_control v ss' s) top (isr_words i err top s) (stk s) (kst s)).
Proof using.
  intros He Hr. unfold int_entry. rewrite He. cbn [mbind outcome_bind]. unfold set_rs. rewrite <-pushing_nil.
  assert (Hl0 : (length (entry_words i err s) <= 6)%nat).
  { unfold entry_words. destruct (from_user s), (error_code i); cbn; lia. }
  rewrite push_all_pushing by (done || (cbn [length]; lia)). cbn [mbind outcome_bind app].
  unfold isr_words. set (E := entry_words i err s) in *. unfold set_ctl, pushing at 1. cbn [rs sels ctl stk kst].
  fold (pushing (rs s) (sels s) (handler_control v ss' s) top E (stk s) (kst s)).
  assert (exists Z0, (if has i then [] else [0]) = Z0 /\ (length Z0 <= 1)%nat /\ forall l',
    exec preempt handler ret ((if has i then [] else [PUSHL_IMM 0]) ++ l') (pushing (rs s) (sels s) (handler_control v ss' s) top E (stk s) (kst s)) =
    exec preempt handler ret l' (pushing (rs s) (sels s) (handler_control v ss' s) top (E ++ Z0) (stk s) (kst s))) as (Z0&->&HZ&HE).
  { destruct (has i); [exists []; split_and!; [done|cbn; lia|intros l'; by rewrite app_nil_r]|].
    exists [0]. split_and!; [done|cbn; lia|]. intros l'. by apply exec_pushing; [|done|lia]. }
  rewrite <-app_assoc, HE. cbn [app].
  rewrite (exec_pushing i) by (done || (rewrite ?length_app; cbn [length]; lia)).
  rewrite (exec_pushing (sel_ds (sels s))) by (done || (rewrite ?length_app; cbn [length]; lia)).
  rewrite (exec_pushing (sel_es (sels s))) by (done || (rewrite ?length_app; cbn [length]; lia)).
  rewrite (exec_pushing (sel_fs (sels s))) by (done || (rewrite ?length_app; cbn [length]; lia)).
  rewrite (exec_pushing (sel_gs (sels s))) by (done || (rewrite ?length_app; cbn [length]; lia)).
  cbn [exec step]. rewrite push_all_pushing by (done || (rewrite ?length_app; cbn [length]; lia)).
  cbn [mbind outcome_bind]. f_equal. unfold pushing at 2 3 4 5 6 7 8 9. cbn [rs set_reg eax ecx edx ebx esp ebp esi edi].
  by rewrite <-!app_assoc.
Qed.

(** The kernel's data segments are loaded. *)
Lemma isr_segments x sl ct top W m k l : exists x' sl',
  exec preempt handler ret ([MOVW_AX 16; MOVW_SEG DS; MOVW_SEG ES; MOVW_AX 24; MOVW_SEG FS; MOVW_SEG GS] ++ l)
    (pushing x sl ct top W m k) = exec preempt handler ret l (pushing x' sl' ct top W m k).
Proof using.
  exists (set_reg EAX (eax x - u16 (eax x) + 16 - u16 (eax x - u16 (eax x) + 16) + 24) x). eexists. reflexivity.
Qed.

Lemma writes_app top W W' m : writes top (W ++ W') m = writes (top - 4 * length W) W' (writes top W m).
Proof using.
  revert top m. induction W as [|w W IH]; intros top m; cbn [app writes length].
  - by replace (top - 4 * 0%nat) with top by lia.
  - rewrite IH. f_equal. lia.
Qed.

(** The call of the handler with a pointer to the frame. *)
Lemma isr_call i err osp x sl ct top W s k' :
  selectors_ok s -> room top (stk s) -> reverse W = frame_words i err osp s ->
  length W = (if from_user s then 19 else 17)%nat -> handler (frame_of i err osp s) (kst s) = Done k' ->
  exists x' m', exec preempt handler ret [PUSHL ESP; CALL I686_INTERRUPT; ADDL_ESP 4]
    (pushing x sl ct top W (stk s) (kst s)) = Done (Proc x' sl ct m' k') /\ esp x' = top - 4 * length W /\
    (forall a, top - 4 * length W <= a \/ a < top - 84 - stack_use -> m' !! a = writes top W (stk s) !! a).
Proof using HC.
  intros Hsel Hr Hrev Hlen Hh. pose proof (proj1 Hr) as Ht. pose proof cd_use as Hu.
  assert (17 <= length W <= 19)%nat by (rewrite Hlen; destruct (from_user s); lia).
  set (tf := top - 4 * length W). assert (Htf : tf = top - 4 * length W) by done. clearbody tf.
  rewrite (exec_pushing tf) by (done || lia || (cbn; by rewrite Htf)). cbn [exec step]. unfold call.
  rewrite push_pushing by (done || (rewrite length_app; cbn [length]; lia)). cbn [mbind outcome_bind]. rewrite <-app_assoc. cbn [app].
  unfold pushing. rewrite length_app. cbn [length]. replace (top - 4 * (length W + 2)%nat) with (tf - 8) by lia.
  rewrite writes_app, <-Htf. cbn [writes]. replace (tf - 4 - 4) with (tf - 8) by lia.
  set (m0 := writes top W (stk s)) in *. set (m1 := <[tf - 8 := ret]> (<[tf - 4 := tf]> m0)).
  cbn [c_function rs stk set_reg esp]. rewrite u32_add_nowrap by lia. replace (tf - 8 + 4) with (tf - 4) by lia.
  assert (m1 !! (tf - 4) = Some tf) as -> by (unfold m1; by rewrite lookup_insert_ne, lookup_insert_eq by lia).
  cbn [deref mbind outcome_bind]. rewrite (read_frame_ok i err osp s tf); [|done|lia|lia|].
  2: { intros j w Hj. rewrite <-Hrev in Hj. cbn [stk]. unfold m1. rewrite !lookup_insert_ne by lia.
       rewrite Htf. by apply writes_frame. }
  proc_simpl. rewrite Hh. cbn [mbind outcome_bind]. set (x1 := Regs _ _ _ _ _ _ _ _).
  pose proof (cd_regs x1 m1) as (_&Hesp&_). pose proof (cd_stack x1 m1) as Hst. cbn [x1 esp] in Hst, Hesp.
  destruct (clobber x1 m1) as [[ax cx dx bx sp bp si di] m'] eqn:E. cbn [fst snd esp] in Hesp, Hst. subst sp.
  proc_simpl. rewrite (pop_word_ok ret); [|lia|lia|rewrite Hst by lia; apply lookup_insert_eq].
  cbn [mbind outcome_bind]. rewrite Z.eqb_refl. proc_simpl. eexists _, m'. split; [reflexivity|].
  cbn [esp]. split; [rewrite u32_add_nowrap; lia|]. intros a Ha. rewrite Hst by lia. unfold m1. by rewrite !lookup_insert_ne by lia.
Qed.

Lemma pop_at j j' w ax cx dx bx tf bp si di sl ct m k :
  m !! (tf + j) = Some w -> j' = j + 4 -> 0 <= tf -> 0 <= j <= 72 -> tf + 80 < 2 ^ 32 ->
  pop (Proc (Regs ax cx dx bx (tf + j) bp si di) sl ct m k) =
    Done (w, Proc (Regs ax cx dx bx (tf + j') bp si di) sl ct m k).
Proof using. intros Hw -> H0 Hj H1. rewrite (pop_word_ok w) by (done || lia). by rewrite Z.add_assoc. Qed.

(** Pops the word at [j] of the frame that the hypothesis [Hw] reads. *)
Ltac pop_word Hw j :=
  erewrite (pop_at j (j + 4)); [|apply (Hw j _ eq_refl); (lia || done)|done|lia..];
  let n := eval vm_compute in (j + 4) in change (j + 4) with n; proc_simpl.

(** The return: the registers of the frame, its selectors and its control. *)
Lemma isr_return i err osp x sl v ss' tf m k s :
  selectors_ok s -> entry_stack s = Done (ss', tf + 4 * length (frame_words i err osp s)) ->
  esp x = tf -> 0 <= tf -> tf + 80 < 2 ^ 32 ->
  (forall (j : nat) w, frame_words i err osp s !! j = Some w -> m !! (tf + 4 * j) = Some w) ->
  exec preempt handler ret [POPAL; POPL_SEG GS; POPL_SEG FS; POPL_SEG ES; POPL_SEG DS; ADDL_ESP 8; IRET]
    (Proc x sl (handler_control v ss' s) m k) = Done (Proc (rs s) (sels s) (ctl s) m k).
Proof using.
  intros Hsel Hen Hsp H0 H1 Hf. unfold selectors_ok in Hsel. rewrite !Forall_cons in Hsel.
  destruct Hsel as (Hds&Hes&Hfs&Hgs&Hcs&Hss&_).
  assert (forall j w, frame_words i err osp s !! Z.to_nat (j / 4) = Some w -> 0 <= j <= 72 -> j mod 4 = 0 -> m !! (tf + j) = Some w) as Hw.
  { intros j w Hj Hlt Hm. rewrite <-(Hf _ w Hj). f_equal. rewrite Z2Nat.id by (apply Z.div_pos; lia).
    rewrite (Z.div_mod j 4) at 1 by lia. lia. }
  clear Hf. destruct x as [ax cx dx bx sp bp si di]. cbn [esp] in Hsp. subst sp.
  destruct s as [[ax' cx' dx' bx' sp' bp' si' di'] [d e f g] [c ip fl st] m0 k0].
  unfold entry_stack, frame_words, from_user, handler_control in *. cbn [rs sels ctl stk kst eax ecx edx ebx esp ebp esi edi
       sel_ds sel_es sel_fs sel_gs cs eip eflags ss] in *.
  cbn [exec step]. replace tf with (tf + 0) at 1 by lia.
  pop_word Hw 0. pop_word Hw 4. pop_word Hw 8. pop_word Hw 12. pop_word Hw 16. pop_word Hw 20. pop_word Hw 24. pop_word Hw 28.
  pop_word Hw 32. pop_word Hw 36. pop_word Hw 40. pop_word Hw 44.
  rewrite u32_add_nowrap, <-Z.add_assoc by lia. change (48 + 8) with 56. pop_word Hw 56. pop_word Hw 60. pop_word Hw 64.
  rewrite !wrap_small by done. destruct (truthy (Z.land c 3)).
  - pop_word Hw 68. pop_word Hw 72. by rewrite wrap_small.
  - injection Hen as -> ->. done.
Qed.

(** The entry, the vector, the handler and the return. *)
Lemma isr_ok i err v s ss' top k' :
  selectors_ok s -> entry_stack s = Done (ss', top) -> room top (stk s) ->
  handler (frame_of i err (frame_oesp top s) s) (kst s) = Done k' ->
  exists m', (s1 ← int_entry i err v s; exec preempt handler ret (__i686_vector i) s1) =
      Done (Proc (rs s) (sels s) (ctl s) m' k') /\
    forall a, top <= a \/ a < top - 84 - stack_use -> m' !! a = stk s !! a.
Proof using HC.
  intros Hsel He Hr Hh. pose proof cd_use as Hu. pose proof (proj1 Hr) as Ht.
  set (W := isr_words i err top s). pose proof (isr_words_frame i err top s) as Hrev. fold W in Hrev.
  pose proof (isr_words_length i err top s) as Hlen. fold W in Hlen.
  assert (17 <= length W <= 19)%nat by (rewrite Hlen; destruct (from_user s); lia).
  unfold __i686_vector. rewrite app_assoc.
  change __i686_isr with ([PUSHL_SEG DS; PUSHL_SEG ES; PUSHL_SEG FS; PUSHL_SEG GS; PUSHAL] ++
    [MOVW_AX 16; MOVW_SEG DS; MOVW_SEG ES; MOVW_AX 24; MOVW_SEG FS; MOVW_SEG GS] ++
    [PUSHL ESP; CALL I686_INTERRUPT; ADDL_ESP 4] ++
    [POPAL; POPL_SEG GS; POPL_SEG FS; POPL_SEG ES; POPL_SEG DS; ADDL_ESP 8; IRET]).
  rewrite (isr_push i err v s ss' top) by done. fold W.
  edestruct isr_segments as (x1&sl1&->). rewrite (exec_app preempt handler ret [_;_;_]).
  destruct (isr_call i err (frame_oesp top s) x1 sl1 (handler_control v ss' s) top W s k') as (x2&m'&->&Hsp&Hm); [done..|].
  cbn [mbind outcome_bind]. exists m'. split.
  - assert (Hl : length (frame_words i err (frame_oesp top s) s) = length W) by (rewrite <-Hrev; apply length_reverse).
    apply (isr_return i err (frame_oesp top s) x2 sl1 v ss' (top - 4 * length W)); [done| |done|lia|lia|].
    + rewrite Hl, He. do 2 f_equal. lia.
    + intros j w Hj. rewrite <-Hrev in Hj. rewrite Hm by lia. by apply writes_frame.
  - intros a Ha. rewrite Hm by lia. apply writes_other. lia.
Qed.
End interrupts.

(** C6: an interrupt is transparent to the code it interrupts.  The processor
    enters through the gate of vector [i], from kernel code on the current stack or
    from user code on the stack of the task state; the vector adds the error code
    where the processor has pushed none, and [__i686_isr] builds the frame and calls
    the handler with it.  The handler sees the registers, the selectors, the
    control, the vector and the error code of the interrupted code in the fields of
    [struct trapframe]; when it returns, [iret] returns to that code with all
    registers, selectors, flags and the stack pointer as they were, the kernel as
    the handler left it, and no word of memory changed apart from the part of the
    stack below the one the interrupt started from. *)
Theorem isr_transparent {V} {HCo : Compiler} {HC : Cdecl HCo} (preempt : kern V -> outcome (kern V))
    (handler : trapframe -> kern V -> outcome (kern V)) ret i err v (s : proc V) ss' top k' :
  selectors_ok s -> entry_stack s = Done (ss', top) -> room top (stk s) ->
  handler (frame_of i err (frame_oesp top s) s) (kst s) = Done k' ->
  exists s', (s1 ← int_entry i err v s; exec preempt handler ret (__i686_vector i) s1) = Done s' /\
    rs s' = rs s /\ sels s' = sels s /\ ctl s' = ctl s /\ kst s' = k' /\
    forall a, top <= a \/ a < top - 84 - stack_use -> stk s' !! a = stk s !! a.
Proof.
  intros Hsel He Hr Hh. destruct (isr_ok preempt handler ret i err v s ss' top k') as (m'&->&Hm); [done..|].
  by eexists.
Qed.

(** The thread [t] is in the handler of the interrupt [i] of [si], whose frame is
    on its stack below [top], and calls [__i686_switch]. *)
Record in_handler {V} L (t i err top : Z) (si sc : proc V) : Prop := {
  ih_esp : esp (rs sc) + 4 <= top - 4 * length (isr_words i err top si);
  ih_stack : stack_lo L t <= esp (rs sc) /\ top <= stack_hi L t /\ top < 2 ^ 32 - 16;
  ih_frame : forall a, top - 4 * length (isr_words i err top si) <= a < top ->
    stk sc !! a = writes top (isr_words i err top si) (stk si) !! a;
}.

(** C5: preemption is transparent.  A thread that was interrupted and switched
    out by the handler continues where it was: whatever the other threads did in
    the meantime, in any number of turns, when one of them is switched out in
    its favour, [__i686_switch] returns into the handler of the interrupt with the
    registers the handler had, and the way out of [__i686_isr] returns from the
    frame, with all registers, selectors, flags and the stack pointer of the
    interrupted code. *)
Theorem preemption_transparent {V} {HCo : Compiler} {HC : Cdecl HCo} (preempt : kern V -> outcome (kern V))
    (handler : trapframe -> kern V -> outcome (kern V)) ret L me0 (s0 : proc V) C0 me s C ra k t i err v ss' top (si sc : proc V) ra' :
  (forall k k', preempt k = Done k' -> keeps k k') -> layout_ok L -> system L me0 s0 C0 ->
  selectors_ok si -> entry_stack si = Done (ss', top) -> in_handler L t i err top si sc ->
  rtc (turn preempt handler ret L) (me0, s0, C0) (me, s, C) -> <[me := context_of s ra]> C !! t = Some (context_of sc ra') ->
  ready L me s ra -> preempt (stored me s) = Done k -> local_word k 1 = Some t ->
  exists s', exec preempt handler ret __i686_switch s = Done s' /\
    ebx (rs s') = ebx (rs sc) /\ esi (rs s') = esi (rs sc) /\ edi (rs s') = edi (rs sc) /\ ebp (rs s') = ebp (rs sc) /\
    esp (rs s') = esp (rs sc) + 4 /\ eip (ctl s') = ra' /\
    forall x sl m k',
      esp x = top - 4 * length (isr_words i err top si) -> (forall a, esp x <= a < top -> m !! a = stk s' !! a) ->
      exec preempt handler ret (drop 14 __i686_isr) (Proc x sl (handler_control v ss' si) m k') =
        Done (Proc (rs si) (sels si) (ctl si) m k').
Proof.
  intros Hk HL Hs0 Hsel He [Hesp (Hlo&Hhi&Ht) Hf] Hrun Hc Hr Hp Hnext.
  pose proof (turns_system preempt handler ret Hk L _ _ HL Hrun Hs0) as Hs.
  destruct (switch_ok preempt handler ret Hk L me s C ra t k _ HL Hs Hr Hp Hnext Hc) as (ax&cx&dx&m'&E&_&Hmem&_).
  eexists. split; [exact E|]. split_and!; try done. intros x sl m k' Hx Hm. cbn [stk context_of c_esp c_mem] in Hm, Hmem.
  pose proof (proj1 (lo_range L HL t)) as H0. pose proof (isr_words_frame i err top si) as Hrev.
  assert (Hl : length (frame_words i err (frame_oesp top si) si) = length (isr_words i err top si)) by (rewrite <-Hrev; apply length_reverse).
  pose proof (isr_words_length i err top si) as Hlen. set (W := isr_words i err top si) in *.
  assert (17 <= length W <= 19)%nat by (rewrite Hlen; destruct (from_user si); lia).
  eapply (isr_return preempt handler ret i err (frame_oesp top si) x sl v ss' (top - 4 * length W)); [done| |done|lia|lia|].
  - rewrite Hl, He. do 2 f_equal. lia.
  - intros j w Hj. pose proof (lookup_lt_Some _ _ _ Hj) as Hj'. rewrite <-Hrev in Hj.
    rewrite Hm, Hmem, Hf by (unfold in_stack; lia). by apply writes_frame.
Qed.

(** ** New threads *)

(** [__i686_initthread] does not get to the code that builds the first context
    of a thread: [call 1] leaves for the address 1 with nothing stored through the
    fourth argument, on the stack of the new thread. *)
Theorem initthread_calls_address_1 {V} {HCo : Compiler} (preempt : kern V -> outcome (kern V))
    (handler : trapframe -> kern V -> outcome (kern V)) ret (s : proc V) sp a2 a3 :
  let old := esp (rs s) in
  0 <= old -> old + 12 < 2 ^ 32 -> 12 <= sp < 2 ^ 32 -> old + 16 <= sp - 12 \/ sp <= old ->
  stk s !! (old + 4) = Some sp -> stk s !! (old + 8) = Some a2 -> stk s !! (old + 12) = Some a3 ->
  is_Some (stk s !! (sp - 4)) -> is_Some (stk s !! (sp - 8)) -> is_Some (stk s !! (sp - 12)) ->
  exists s', exec preempt handler ret __i686_initthread s = Done s' /\ eip (ctl s') = 1 /\ esp (rs s') = sp - 12 /\
    kst s' = kst s /\ stk s' = <[sp - 12 := ret]> (<[sp - 8 := a2]> (<[sp - 4 := a3]> (stk s))).
Proof.
  destruct s as [[ax cx dx bx old bp si di] sl ct m k]. intros old' H0 H1 H2 H3 L4 L8 L12 W4 W8 W12.
  cbn [rs stk kst esp old'] in *. clear old'. cbn [__i686_initthread exec step]. proc_simpl. unfold load_at. proc_simpl.
  rewrite !(u32_add_nowrap old) by lia. rewrite L4. proc_simpl. rewrite !(u32_add_nowrap old) by lia. rewrite L12. proc_simpl.
  rewrite push_word_ok by (done || lia). proc_simpl. rewrite !(u32_add_nowrap old), lookup_insert_ne, L8 by lia. proc_simpl.
  rewrite push_word_ok by (lia || (rewrite lookup_insert_ne, <-Z.sub_add_distr by lia; done)). proc_simpl.
  rewrite push_word_ok by (lia || (rewrite !lookup_insert_ne, <-!Z.sub_add_distr by lia; done)). proc_simpl.
  eexists. split; [reflexivity|]. cbn [ctl eip rs esp kst stk]. rewrite <-!Z.sub_add_distr. done.
Qed.

(** Were the label [1:] reached, as the comment says, with the return address
    [ret] on the stack of the new thread, the thread would be switched in by
    [__i686_switch]: the code stores the stack pointer of a frame through the fourth
    argument and returns to its caller on the caller's stack. *)
Lemma initthread_1_ok {V} {HCo : Compiler} (preempt : kern V -> outcome (kern V))
    (handler : trapframe -> kern V -> outcome (kern V)) ret old ra slot cx dx bx sp bp si di sl ct (m : gmap Z Z) k :
  0 <= old -> old + 16 < 2 ^ 32 -> 16 <= sp < 2 ^ 32 - 16 -> 0 <= slot < 2 ^ 32 -> old + 20 <= sp - 16 \/ sp <= old ->
  slot < sp - 16 \/ sp <= slot -> slot <> old ->
  m !! sp = Some ret -> m !! old = Some ra -> m !! (old + 16) = Some slot -> is_Some (m !! slot) -> slot <> sp ->
  is_Some (m !! (sp - 4)) -> is_Some (m !! (sp - 8)) -> is_Some (m !! (sp - 12)) -> is_Some (m !! (sp - 16)) ->
  exists m', exec preempt handler ret __i686_initthread_1 (Proc (Regs old cx dx bx sp bp si di) sl ct m k) =
      Done (Proc (Regs old cx slot bx (old + 4) bp si di) sl (Control (cs ct) ra (eflags ct) (ss ct)) m' k) /\
    m' !! slot = Some (sp - 16) /\ frame_at m' (sp - 16) (Context 0 0 0 0 ret (sp + 4) m').
Proof.
  intros H0 H1 H2 H3 Ho Hs Hso Lr La Ls Hsl Hss W4 W8 W12 W16. cbn [__i686_initthread_1 exec step]. proc_simpl.
  rewrite push_word_ok by (done || lia). proc_simpl.
  rewrite push_word_ok by (lia || (rewrite lookup_insert_ne, <-Z.sub_add_distr by lia; done)). proc_simpl.
  rewrite push_word_ok by (lia || (rewrite !lookup_insert_ne, <-!Z.sub_add_distr by lia; done)). proc_simpl.
  rewrite push_word_ok by (lia || (rewrite !lookup_insert_ne, <-!Z.sub_add_distr by lia; done)). proc_simpl.
  rewrite <-!Z.sub_add_distr. change (4 + 4) with 8. change (8 + 4) with 12. change (12 + 4) with 16.
  unfold load_at, store_at. proc_simpl. rewrite u32_add_nowrap by lia. rewrite !lookup_insert_ne, Ls by lia. proc_simpl.
  rewrite u32_add_nowrap, Z.add_0_r by lia. destruct Hsl as [w Hsl]. rewrite !lookup_insert_ne, Hsl by lia. proc_simpl.
  rewrite (pop_word_ok ra) by (lia || by rewrite !lookup_insert_ne by lia). proc_simpl.
  eexists. split; [reflexivity|]. split; [apply lookup_insert_eq|].
  unfold frame_at. cbn [c_edi c_esi c_ebx c_ebp c_eip c_esp].
  replace (sp - 16 + 4) with (sp - 12) by lia. replace (sp - 16 + 8) with (sp - 8) by lia.
  replace (sp - 16 + 12) with (sp - 4) by lia. replace (sp - 16 + 16) with sp by lia.
  split_and!; [..|lia]; repeat (rewrite lookup_insert_eq || rewrite lookup_insert_ne by lia); done.
Qed.

(** The new thread calls its function, with interrupts on. *)
Lemma thread_entry_ok {V} {HCo : Compiler} (preempt : kern V -> outcome (kern V))
    (handler : trapframe -> kern V -> outcome (kern V)) ret ax cx dx bx sp bp si di sl ct (m : gmap Z Z) f k :
  0 <= sp -> sp + 4 < 2 ^ 32 -> m !! sp = Some f ->
  exec preempt handler ret thread_entry (Proc (Regs ax cx dx bx sp bp si di) sl ct m k) =
    Done (Proc (Regs ax cx f bx sp bp si di) sl (Control (cs ct) f (Z.lor (eflags ct) 0x200) (ss ct)) (<[sp := ret]> m) k).
Proof.
  intros H0 H1 Hf. cbn [thread_entry exec step]. rewrite (pop_word_ok f) by done. proc_simpl.
  rewrite push_word_ok; [|lia|rewrite Z.add_simpl_r; by eexists]. proc_simpl. by rewrite Z.add_simpl_r.
Qed.

(** ** Two threads that take turns *)

Module SwitchExample.
#[local] Existing Instance SchedExample.fixed_source.

(** A compiler whose functions write all registers they may, and one word. *)
#[local] Instance compiled : Compiler := {
  clobber x m := (Regs 0 1 2 (ebx x) (esp x) (ebp x) (esi x) (edi x), <[esp x - 4 := 0xDEAD]> m);
  stack_use := 8;
}.

#[local] Instance compiled_cdecl : Cdecl compiled.
Proof.
  split; [done|done|]. intros x m a Ha. cbn [clobber compiled snd stack_use] in *. by rewrite lookup_insert_ne by lia.
Qed.

(** The thread A runs, and B is switched out; the scheduler switches to the
    thread that does not run. *)
Definition A : Z := 0x700.
Definition B : Z := 0x800.
Definition th (sp : Z) : thread := Thread 0 [0x5000; sp; 0; 0] [0; 0] [0; 0] 0 16 0 0.
Definition k0 : kern unit :=
  set_threads (set_cpus SchedExample.k0 {[ 0x100 := Cpu 0 A [0x100; A; 0x7010] (Taskstate 0x10 0x5000 0xFFFF) 0 ]})
    {[ A := th 0; B := th 0x4010 ]}.
Definition other (k : kern unit) : outcome (kern unit) :=
  t ← kernel_get_current_thread k; kernel_set_current_thread (if t =? A then B else A) k.
Definition keyboard (f : trapframe) (k : kern unit) : outcome (kern unit) := if tf_trapno f =? 33 then Done k else Fault.

Definition words (lo : Z) (n : nat) : gmap Z Z := list_to_map ((fun i : nat => (lo + 4 * i, 0)) <$> seq 0 n).
Definition m0 : gmap Z Z :=
  <[0x4010 := 4]> (<[0x4014 := 3]> (<[0x4018 := 2]> (<[0x401C := 1]> (<[0x4020 := 0x222]>
    (words 0x2F00 80 ∪ words 0x4000 16 ∪ words 0x7000 4))))).
Definition flat : selectors := Selectors 16 16 24 24.
Definition at_ (ip : Z) : control := Control 8 ip 0x202 16.
(** A before the timer interrupts it, and in the handler. *)
Definition si : proc unit := Proc (Regs 9 8 7 12 0x3040 11 13 14) flat (at_ 0x100) m0 k0.
Definition s0 : proc unit :=
  Proc (Regs 9 9 9 12 0x2FE0 11 13 14) flat (at_ 0x180)
    (<[0x2FE0 := 0x111]> (writes 0x3040 (isr_words 32 0 0x3040 si) m0)) k0.
Definition C0 : gmap Z context := {[ B := Context 1 2 3 4 0x222 0x4024 (stk s0) ]}.
Definition L : layout :=
  Layout (fun t => if t =? A then 0x2F00 else if t =? B then 0x4000 else 0)
         (fun t => if t =? A then 0x3040 else if t =? B then 0x4040 else 0) 0x7000 0x7010.

(** A switches to B, which runs and calls [__i686_switch] as well. *)
Definition s1 : proc unit := match exec other keyboard 0x9 __i686_switch s0 with Done s => s | _ => s0 end.
Definition run_B (s : proc unit) : proc unit :=
  Proc (Regs 5 6 7 22 0x4030 21 23 24) (sels s) (at_ 0x200) (<[0x4030 := 0x333]> (stk s)) (kst s).
Definition s2 : proc unit := run_B s1.
Definition k2 : kern unit := match other (stored B s2) with Done k => k | _ => k0 end.

Lemma other_keeps k k' : other k = Done k' -> keeps k k'.
Proof. unfold other. intros E. apply bind_Done in E as (t&_&E). by eapply keeps_set_current_thread. Qed.

Lemma L_ok : layout_ok L.
Proof.
  assert (Hin : forall t a, in_stack L t a -> t = A /\ 0x2F00 <= a < 0x3040 \/ t = B /\ 0x4000 <= a < 0x4040).
  { intros t a. unfold in_stack, L. cbn [stack_lo stack_hi]. destruct (Z.eqb_spec t A); [auto|].
    destruct (Z.eqb_spec t B); [auto|lia]. }
  split.
  - intros t u a Ht Hu. destruct (Hin _ _ Ht), (Hin _ _ Hu); lia.
  - intros t a Ht Hc. unfold in_cpu_stack, L in Hc. cbn [cpu_lo cpu_hi] in Hc. destruct (Hin _ _ Ht); lia.
  - cbn. lia.
  - intros t. unfold L. cbn [stack_lo stack_hi]. repeat case_match; lia.
Qed.

Lemma s0_system : system L A s0 C0.
Proof.
  split; try done.
  - exists [0x5000; 0; 0; 0]. split; [done|cbn; lia].
  - intros t [sto Ht]. assert (t = A \/ t = B) as Ht'.
    { unfold storage in Ht. change (threads (kst s0)) with ({[ A := th 0; B := th 0x4010 ]} : gmap Z thread) in Ht.
      apply fmap_Some in Ht as (x&Hx&_). apply lookup_insert_Some in Hx as [[? _]|[_ Hx]]; [by left|].
      apply lookup_singleton_Some in Hx as [? _]. by right. }
    unfold in_cpu_stack, in_stack, L. cbn [cpu_lo cpu_hi stack_lo stack_hi].
    assert (forall u, ~ ((if u =? A then 0x2F00 else if u =? B then 0x4000 else 0) <= t +u 4 <
       (if u =? A then 0x3040 else if u =? B then 0x4040 else 0))).
    { intros u. destruct Ht' as [-> | ->]; (destruct (u =? A); [|destruct (u =? B)]); vm_compute; intros [? ?]; congruence. }
    destruct Ht' as [-> | ->]; (split_and!; [done|vm_compute; intros [? ?]; congruence|done]).
  - intros t c Ht Hne. unfold C0 in Ht. apply lookup_singleton_Some in Ht as [<- <-].
    exists [0x5000; 0x4010; 0; 0], 0x4010. split_and!; try done.
Qed.

Lemma s0_ready : ready L A s0 0x111.
Proof. split; [cbn; lia|done|split_and!; eexists; reflexivity]. Qed.

Lemma s2_ready : ready L B s2 0x333.
Proof. split; [cbn; lia|done|split_and!; eexists; reflexivity]. Qed.

Lemma s0_switches : turn other keyboard 0x9 L (A, s0, C0) (B, s1, <[A := context_of s0 0x111]> C0).
Proof.
  apply (Switches other keyboard 0x9 L A s0 s1 C0 0x111 B (kst s1) s0_ready).
  - vm_compute. reflexivity.
  - vm_compute. reflexivity.
  - rewrite lookup_insert_ne by done. unfold C0. rewrite lookup_singleton_eq. by eexists.
  - vm_compute. reflexivity.
Qed.

Lemma run_B_runs s C : turn other keyboard 0x9 L (B, s, C) (B, run_B s, C).
Proof.
  apply Runs. split; [reflexivity..|]. intros a Ha. apply lookup_insert_ne. intros <-. apply Ha. split; by vm_compute.
Qed.

Lemma s0_turns : rtc (turn other keyboard 0x9 L) (A, s0, C0) (B, s2, <[A := context_of s0 0x111]> C0).
Proof. eapply rtc_l; [exact s0_switches|]. apply rtc_once, run_B_runs. Qed.

(** B returns to A, with the registers that A had. *)
Lemma switch_resumes_witness :
  exists s', exec other keyboard 0x9 __i686_switch s2 = Done s' /\ ebx (rs s') = 12 /\ ebp (rs s') = 11 /\
    esp (rs s') = 0x2FE4 /\ eip (ctl s') = 0x111.
Proof.
  destruct (switch_resumes other keyboard 0x9 L A s0 C0 B s2 (<[A := context_of s0 0x111]> C0) 0x333 k2 A (context_of s0 0x111)
              other_keeps L_ok s0_system s0_turns s2_ready) as (s'&E&_&H1&_&_&H2&H3&H4&_).
  - by vm_compute.
  - by vm_compute.
  - by vm_compute.
  - exists s'. split; [exact E|]. split_and!; [exact H1|exact H2|exact H3|exact H4].
Defined.

(** The keyboard interrupts A. *)
Lemma isr_transparent_witness :
  exists s', (s1 ← int_entry 33 0 0x8000 si; exec other keyboard 0x9 (__i686_vector 33) s1) = Done s' /\
    rs s' = Regs 9 8 7 12 0x3040 11 13 14 /\ ctl s' = at_ 0x100.
Proof.
  destruct (isr_transparent other keyboard 0x9 33 0 0x8000 si 16 0x3040 k0) as (s'&E&H1&_&H2&_).
  - repeat constructor; done.
  - reflexivity.
  - split; [done|]. intros j Hj. do 22 (destruct j as [|j]; [try lia; eexists; vm_compute; reflexivity|]). lia.
  - reflexivity.
  - exists s'. split; [exact E|]. split; [exact H1|exact H2].
Defined.
Lemma s0_in_handler : in_handler L A 32 0 0x3040 si s0.
Proof.
  split; [by vm_compute|by vm_compute|]. change (length (isr_words 32 0 0x3040 si)) with 17%nat. intros a Ha.
  apply lookup_insert_ne. lia.
Qed.

(** B is switched out in favour of A, whose interrupt returns. *)
Lemma preemption_transparent_witness :
  exists s', exec other keyboard 0x9 __i686_switch s2 = Done s' /\
    exec other keyboard 0x9 (drop 14 __i686_isr)
      (Proc (set_reg ESP 0x2FFC (rs s')) (sels s') (handler_control 0x8000 16 si) (stk s') (kst s')) =
      Done (Proc (rs si) (sels si) (ctl si) (stk s') (kst s')).
Proof.
  destruct (preemption_transparent other keyboard 0x9 L A s0 C0 B s2 (<[A := context_of s0 0x111]> C0) 0x333 k2 A
              32 0 0x8000 16 0x3040 si s0 0x111 other_keeps L_ok s0_system) as (s'&E&_&_&_&_&_&_&H).
  - repeat constructor; done.
  - reflexivity.
  - exact s0_in_handler.
  - exact s0_turns.
  - by vm_compute.
  - exact s2_ready.
  - by vm_compute.
  - by vm_compute.
  - exists s'. split; [exact E|]. apply H; [reflexivity|]. intros a _. reflexivity.
Defined.
End SwitchExample.
