(* ===== verification/Wait.v ===== *)
(** * Wait queues

    Models [system/kern/kern_wait.c] with [kern/wait.h] and [kern/wait_queue.h].
    A wait queue is a ring of the [t_wait_entry] nodes of its threads.  The
    thread to wake is taken from the [prev] end of the ring, so an insertion
    [after] the head goes to the back of the queue and one before the head to
    its front.

    [waitqueue_wait] blocks in the middle: [hal_induce_preemption] gives the CPU
    away and returns when the thread runs again.  [waitqueue_block] is the part
    up to and with the preemption, [waitqueue_resume] the part after it.

    The code never stores the queue in [t_wait_queue], so that the scheduler does
    not see a waiting thread as suspended; the last two theorems show what follows. *)

From S2P Require Import Prelude Ring Spinlock Zalloc Kern Sched.

Section wait.
Context {V : Type} `{KmemSource V}.
Implicit Types k : kern V.

Definition waitqueue_elem (t : Z) k : outcome (raddr * kern V) :=
  k ← with_rings (put_data (WaitEntry t) t) k; Done (WaitEntry t, k).

Definition waitqueue_enter (q t : Z) (after : bool) k : outcome (kern V) :=
  '(e, k) ← waitqueue_elem t k;
  with_rings (linked_ring_insert (Some (WqThreads q)) (Some e) after) k.

Definition waitqueue_get_first (q : Z) k : outcome (Z * kern V) :=
  elem ← get_prev (Some (WqThreads q)) (rings k);
  if decide (elem = Some (WqThreads q)) then Done (0, k)
  else
    a ← deref elem;
    node ← deref (rings k !! a);
    let t := default 0 (lr_data node) in
    k ← with_rings (linked_ring_remove elem) k;
    k ← with_thread t (set_wait_queue 0) k;
    k ← sched_actualize t k;
    Done (1, k).

(** [hal_induce_preemption] of [hal.c]: the C code it runs, with interrupts
    off, is [sched_preempt]; the register switch around it is assembly. *)
Definition hal_induce_preemption (fuel : nat) k : outcome (kern V) := sched_preempt fuel k.

(** [lock] is the byte of the spin lock passed by its address. *)
Definition waitqueue_block (fuel : nat) (lock : Z) (q : Z) (after : bool) k : outcome (Z * kern V) :=
  self ← kernel_get_current_thread k;
  k ← waitqueue_enter q self after k;
  let lock := kernlock_unlock lock in
  k ← with_thread self (fun th => set_stateflags (Z.lor (t_stateflags th) THREAD_SF_QUEUE_WAIT) th) k;
  k ← hal_induce_preemption fuel k;
  Done (lock, k).

Definition waitqueue_resume (lock self : Z) k : outcome (Z * kern V) :=
  k ← with_thread self (fun th => set_stateflags (Z.land (t_stateflags th) (not32 THREAD_SF_QUEUE_WAIT)) th) k;
  lock ← kernlock_lock 1 lock;
  Done (lock, k).
End wait.

(** ** Representation *)

Section wait_props.
Context {V : Type} `{KmemSource V}.
Implicit Types k : kern V.

(** The threads of the wait queue [q], the one to wake first at the head. *)
Record wait_rep k (q : Z) (ts : list Z) : Prop := {
  wr_ring : ring (rings k) (WqThreads q) (WaitEntry <$> reverse ts);
  wr_data : forall t, t ∈ ts -> exists n, rings k !! WaitEntry t = Some n /\ lr_data n = Some t;
}.

Lemma wait_rep_frame k k' q ts :
  (forall a, a ∈ WqThreads q :: (WaitEntry <$> ts) -> rings k' !! a = rings k !! a) ->
  wait_rep k q ts -> wait_rep k' q ts.
Proof using.
  intros Heq [Hr Hd]. split.
  - eapply ring_frame; [|exact Hr]. intros a Ha. apply Heq. rewrite fmap_reverse in Ha. set_solver.
  - intros t Ht. rewrite Heq; [by apply Hd|]. set_solver.
Qed.

(** Queue order of an insertion. *)
Definition enqueue (after : bool) (t : Z) (ts : list Z) : list Z := if after then ts ++ [t] else t :: ts.

(** The data of a node outside the queue. *)
Lemma wait_put_data k q ts t :
  wait_rep k q ts -> t ∉ ts -> is_Some (rings k !! WaitEntry t) ->
  exists r n, put_data (WaitEntry t) t (rings k) = Done r /\ wait_rep (set_rings k r) q ts /\
    r !! WaitEntry t = Some n /\ lr_data n = Some t /\ forall a, a <> WaitEntry t -> r !! a = rings k !! a.
Proof using.
  intros Hr Ht [n Hn]. unfold put_data. rewrite Hn. cbn [deref mbind outcome_bind]. eexists _, _.
  split; [done|]. split; [|split; [apply lookup_insert_eq|split; [done|intros; by apply lookup_insert_ne]]].
  eapply wait_rep_frame; [|exact Hr]. intros a Ha. cbn. apply lookup_insert_ne. set_solver.
Qed.

Lemma waitqueue_enter_ok k q ts t after :
  wait_rep k q ts -> t ∉ ts -> is_Some (rings k !! WaitEntry t) ->
  exists r, waitqueue_enter q t after k = Done (set_rings k r) /\
    wait_rep (set_rings k r) q (enqueue after t ts) /\
    (forall a, a ∉ WqThreads q :: WaitEntry t :: (WaitEntry <$> ts) -> r !! a = rings k !! a).
Proof using.
  intros Hr Ht Hn. unfold waitqueue_enter, waitqueue_elem, with_rings.
  destruct (wait_put_data k q ts t Hr Ht Hn) as (r&n&->&Hr1&Hnode&Hdat&Hoth). cbn [mbind outcome_bind rings set_rings].
  destruct (linked_ring_insert_ok r (WqThreads q) (WaitEntry t) (WaitEntry <$> reverse ts) after)
    as (r'&->&Hring&Hkeep); [apply (wr_ring _ _ _ Hr1)| |by eexists|].
  { rewrite fmap_reverse. set_solver. }
  cbn [mbind outcome_bind]. exists r'. split; [done|]. split; [split|].
  - cbn. unfold enqueue. destruct after.
    + by rewrite reverse_snoc, fmap_cons.
    + by rewrite reverse_cons, fmap_app.
  - intros t' Ht'. cbn.
    assert (exists m, r !! WaitEntry t' = Some m /\ lr_data m = Some t') as (m&Hm&Hdm).
    { destruct (decide (t' = t)) as [->|]; [by exists n|]. apply (wr_data _ _ _ Hr1).
      destruct after; cbn in Ht'; set_solver. }
    destruct (payload_data _ _ _ _ (proj2 Hkeep) Hm) as (m'&?&?). exists m'. split; [done|congruence].
  - intros a Ha. rewrite (proj1 Hkeep); [apply Hoth; set_solver|]. rewrite fmap_reverse. set_solver.
Qed.

Lemma waitqueue_get_first_empty k q : wait_rep k q [] -> waitqueue_get_first q k = Done (0, k).
Proof using.
  intros [Hr _]. unfold waitqueue_get_first. cbn in Hr. rewrite (get_prev_of _ _ _ (ring_prev _ _ _ Hr)).
  cbn [mbind outcome_bind]. by rewrite decide_True.
Qed.

(** The first thread leaves the queue and is handed to [sched_actualize]. *)
Lemma waitqueue_get_first_ok k q t ts th :
  wait_rep k q (t :: ts) -> threads k !! t = Some th ->
  exists r, let k1 := set_threads (set_rings k r) (<[t := set_wait_queue 0 th]> (threads k)) in
    waitqueue_get_first q k = (k2 ← sched_actualize t k1; Done (1, k2)) /\ wait_rep k1 q ts /\
    (forall a, a ∉ WqThreads q :: (WaitEntry <$> ts) -> r !! a = rings k !! a).
Proof using.
  intros [Hr Hd] Ht. unfold waitqueue_get_first. rewrite reverse_cons, fmap_app in Hr. cbn [fmap list_fmap] in Hr.
  rewrite (get_prev_of _ _ _ (ring_prev _ _ _ Hr)), last_snoc. cbn [mbind outcome_bind default from_option id].
  rewrite decide_False by done. cbn [deref mbind outcome_bind].
  destruct (Hd t ltac:(set_solver)) as (n&Hn&Hdat). rewrite Hn. cbn [deref mbind outcome_bind]. rewrite Hdat.
  cbn [default from_option id]. unfold with_rings.
  destruct (linked_ring_remove_ok _ _ _ _ [] Hr) as (r&->&Hring&Hkeep). cbn [mbind outcome_bind].
  rewrite app_nil_r in Hring, Hkeep.
  rewrite (with_thread_ok _ _ _ th) by done. cbn [mbind outcome_bind].
  exists r. split; [done|]. split; [split|].
  - exact Hring.
  - intros t' Ht'. destruct (Hd t' ltac:(set_solver)) as (m&Hm&Hdm).
    destruct (payload_data _ _ _ _ (proj2 Hkeep) Hm) as (m'&?&?). exists m'. split; [done|congruence].
  - intros a Ha. apply (proj1 Hkeep). rewrite fmap_reverse. set_solver.
Qed.
End wait_props.

(** ** Properties *)

Section wait_theorems.
Context {V : Type} `{KmemSource V}.
Implicit Types k : kern V.

Lemma sched_rep_wait k k' s x qs :
  scheds k' = scheds k ->
  (forall a, match a with RunRing _ _ | QueueEntry _ => rings k' !! a = rings k !! a | _ => True end) ->
  sched_rep k s x qs -> sched_rep k' s x qs.
Proof using.
  intros Hs Heq [Hx Hl Hd Hr Hh Hnd]. split; [by rewrite Hs|done|done| | |done].
  - intros i q Hq. eapply ring_frame; [|by apply Hr]. intros a [->|(t&->&_)%list_elem_of_fmap]%elem_of_cons.
    + exact (Heq (RunRing s i)).
    + exact (Heq (QueueEntry t)).
  - intros i Hi. rewrite (Heq (RunRing s i)). by apply Hh.
Qed.

Lemma sched_rep_set_rings k s x qs r :
  (forall a, match a with RunRing _ _ | QueueEntry _ => r !! a = rings k !! a | _ => True end) ->
  sched_rep k s x qs -> sched_rep (set_rings k r) s x qs.
Proof using. intros Heq. by apply sched_rep_wait. Qed.

Lemma running_set_rings k c s me th r : running k c s me th -> running (set_rings k r) c s me th.
Proof using. intros []. by split. Qed.

(** A preempted thread of the run queue [j] is woken. *)
Lemma waitqueue_wake k c0 s0 me mth q t ts th cx x qs j l r :
  let s := cpu_scheduler cx in
  let i := Z.to_nat (t_priority th mod SCHED_NRQS) in
  wait_rep k q (t :: ts) ->
  running k c0 s0 me mth -> in_u32 (t_stateflags mth) -> Z.testbit (t_stateflags mth) 2 = false ->
  threads k !! t = Some th -> t <> me -> t_current_cpu th <> 0 -> cpus k !! t_current_cpu th = Some cx ->
  truthy (Z.land (t_stateflags th) THREAD_SF_PREEMPT) = true ->
  sched_rep k s x qs -> sched_lock x = 0 -> t <> sched_idle x -> qs !! j = Some (l ++ t :: r) ->
  exists k' d p, waitqueue_get_first q k = Done (1, k') /\ wait_rep k' q ts /\
    <[j := l ++ r]> qs !! i = Some p /\
    sched_rep k' s (set_decay d x) (<[i := t :: p]> (<[j := l ++ r]> qs)) /\
    threads k' = <[t := set_wait_queue 0 th]> (threads k).
Proof using.
  intros s i Hw Hrun Hf H2 Ht Hne Hcpu Hcx Hpre Hr Hl Hidle Hq.
  destruct (waitqueue_get_first_ok k q t ts th Hw Ht) as (rs&->&Hw1&Hoth). set (k1 := set_threads _ _) in *.
  assert (Hr1 : sched_rep k1 s x qs).
  { apply (sched_rep_wait k k1); [done| |done]. intros a. destruct a; try exact I; apply Hoth; set_solver. }
  assert (Hrun1 : running k1 c0 s0 me mth).
  { destruct Hrun as [Hc Hx Hm]. split; [done|done|]. cbn. by rewrite lookup_insert_ne. }
  destruct (sched_actualize_ok k1 c0 s0 me mth t (set_wait_queue 0 th) cx x qs j l r Hrun1 Hf H2)
    as (k'&d&p&->&Hp&Hr'&Ht'&Ho'); [by apply lookup_insert_eq|done|done|done|done| |done|done|done|done|].
  { unfold suspended. cbn. apply andb_false_r. }
  cbn [mbind outcome_bind]. exists k', d, p. split_and!; [done| |done|done|done].
  eapply wait_rep_frame; [|exact Hw1]. intros a [->|(t'&->&_)%list_elem_of_fmap]%elem_of_cons.
  - exact (Ho' (WqThreads q)).
  - exact (Ho' (WaitEntry t')).
Qed.

(** *** Waiting *)

(** The current thread as [waitqueue_wait] leaves it for the preemption. *)
Definition waiting (th : thread) : thread := set_stateflags (Z.lor (t_stateflags th) THREAD_SF_QUEUE_WAIT) th.

Lemma waiting_preemptible th : preemptible (waiting th) = preemptible th.
Proof using.
  unfold preemptible, waiting. cbn [t_stateflags t_nonpreempt set_stateflags].
  by rewrite Z.land_lor_distr_l, Z.lor_0_r.
Qed.

Lemma waiting_not_suspended th : t_wait_queue th = 0 -> suspended (waiting th) = false.
Proof using. intros E. unfold suspended, waiting. cbn [t_wait_queue set_stateflags]. rewrite E. apply andb_false_r. Qed.

Lemma waiting_undone th :
  in_u32 (t_stateflags th) -> Z.testbit (t_stateflags th) 3 = false ->
  set_stateflags (Z.land (t_stateflags (waiting th)) (not32 THREAD_SF_QUEUE_WAIT)) (waiting th) = th.
Proof using.
  intros Hf Hb. destruct th. unfold waiting, set_stateflags. cbn in Hf, Hb |- *.
  f_equal. exact (flag_bit_undone _ 3 ltac:(lia) Hf Hb).
Qed.

(** The state in which [waitqueue_wait] enters the scheduler. *)
Lemma waitqueue_block_enter (fuel : nat) lock k q ts after c s me th x qs :
  wait_rep k q ts -> me ∉ ts -> is_Some (rings k !! WaitEntry me) ->
  running k c s me th -> sched_rep k s x qs ->
  exists r, let k1 := set_threads (set_rings k r) (<[me := waiting th]> (threads k)) in
    waitqueue_block fuel lock q after k = (k2 ← sched_preempt fuel k1; Done (0, k2)) /\
    running k1 c s me (waiting th) /\ sched_rep k1 s x qs /\ wait_rep k1 q (enqueue after me ts).
Proof using.
  intros Hw Hme Hn Hrun Hr. unfold waitqueue_block. rewrite (current_thread_ok _ _ _ _ _ Hrun). cbn [mbind outcome_bind].
  destruct (waitqueue_enter_ok k q ts me after Hw Hme Hn) as (r&->&Hw'&Ho). cbn [mbind outcome_bind].
  pose proof Hrun as [Hc Hx Hm].
  rewrite (with_thread_ok _ _ _ th) by done. cbn [mbind outcome_bind]. exists r. split; [done|]. split_and!.
  - split; [done|done|]. cbn. apply lookup_insert_eq.
  - apply sched_rep_threads, sched_rep_set_rings; [|done]. intros a. destruct a; try exact I; apply Ho; set_solver.
  - by destruct Hw'.
Qed.

(** [waitqueue_resume] undoes the flag and takes the lock. *)
Lemma waitqueue_resume_ok k me th :
  threads k !! me = Some (waiting th) -> in_u32 (t_stateflags th) -> Z.testbit (t_stateflags th) 3 = false ->
  waitqueue_resume 0 me k = Done (-1, set_threads k (<[me := th]> (threads k))).
Proof using.
  intros Hm Hf Hb. unfold waitqueue_resume. rewrite (with_thread_ok _ _ _ _ Hm). cbn [mbind outcome_bind].
  by rewrite waiting_undone, (kernlock_lock_free 0).
Qed.

(** *** Waiting twice *)

(** The ring of [q] when the entry of [t] was inserted in it twice. *)
Definition stuck k (q t : Z) : Prop :=
  exists nh ne, rings k !! WqThreads q = Some nh /\ rings k !! WaitEntry t = Some ne /\
    lr_next nh = Some (WaitEntry t) /\ lr_prev nh = Some (WaitEntry t) /\ lr_data ne = Some t /\
    (lr_next ne = Some (WaitEntry t) /\ lr_prev ne = Some (WqThreads q) \/
     lr_next ne = Some (WqThreads q) /\ lr_prev ne = Some (WaitEntry t)).

Lemma waitqueue_reenter k q t after :
  wait_rep k q [t] -> exists r, waitqueue_enter q t after k = Done (set_rings k r) /\ stuck (set_rings k r) q t.
Proof using.
  intros [[_ Hc] Hd]. cbn in Hc. destruct Hc as (H1&H2&H3&H4). unfold next_of, prev_of in *.
  destruct (Hd t) as ([en ep ed]&He&Hdat); [set_solver|].
  destruct (rings k !! WqThreads q) as [[hn hp hd]|] eqn:Hh; [|done]. rewrite He in H2, H3. cbn in H1, H2, H3, H4, Hdat.
  simplify_eq. unfold waitqueue_enter, waitqueue_elem, with_rings, put_data. rewrite He. cbn [deref mbind outcome_bind].
  unfold linked_ring_insert, get_next, get_prev, put_next, put_prev.
  destruct after; repeat first
    [progress cbn [deref mbind outcome_bind rings set_rings set_next set_prev next prev linked_ring_link
       lr_next lr_prev lr_data]
    |rewrite lookup_insert_eq|rewrite lookup_insert_ne by done|rewrite Hh];
    (eexists; split; [reflexivity|]); eexists _, _; cbn [rings set_rings];
    (split; [repeat first [rewrite lookup_insert_eq; reflexivity|rewrite lookup_insert_ne by done]; try exact Hh|]);
    (split; [repeat first [rewrite lookup_insert_eq; reflexivity|rewrite lookup_insert_ne by done]|]); cbn; split_and!; auto.
Qed.

(** Removing the entry from such a ring stores what is there already. *)
Lemma remove_stuck k q t : stuck k q t -> linked_ring_remove (Some (WaitEntry t)) (rings k) = Done (rings k).
Proof using.
  intros ([hn hp hd]&[en ep ed]&Hh&He&E1&E2&_&Hor). cbn in E1, E2, Hor. subst hn hp.
  unfold linked_ring_remove, get_next, get_prev, put_next, put_prev. cbn [deref mbind outcome_bind]. rewrite He.
  destruct Hor as [[-> ->]|[-> ->]]; cbn [deref mbind outcome_bind next prev linked_ring_link lr_next lr_prev].
  - rewrite Hh. cbn [deref mbind outcome_bind]. rewrite (insert_id _ _ _ Hh), He. cbn [deref mbind outcome_bind].
    by rewrite (insert_id _ _ _ He).
  - rewrite He. cbn [deref mbind outcome_bind]. rewrite (insert_id _ _ _ He), Hh. cbn [deref mbind outcome_bind].
    by rewrite (insert_id _ _ _ Hh).
Qed.

(** A thread that is not preempted has no queue to move to. *)
Lemma sched_actualize_running k c0 s0 me mth t th cx x :
  running k c0 s0 me mth -> in_u32 (t_stateflags mth) -> Z.testbit (t_stateflags mth) 2 = false ->
  threads k !! t = Some th -> t <> me -> truthy (Z.land (t_stateflags th) THREAD_SF_PREEMPT) = false ->
  cpus k !! t_current_cpu th = Some cx -> scheds k !! cpu_scheduler cx = Some x -> sched_lock x = 0 ->
  sched_actualize t k = Done k.
Proof using.
  intros Hrun Hf H2 Ht Hne Hpre Hcx Hx Hl. unfold sched_actualize. rewrite Ht. cbn [deref mbind outcome_bind].
  destruct (truthy (t_current_cpu th)); [|done]. rewrite Hcx. cbn [deref mbind outcome_bind].
  rewrite (current_thread_ok _ _ _ _ _ Hrun). cbn [mbind outcome_bind]. pose proof (rn_thread _ _ _ _ _ Hrun) as Hm.
  rewrite (enter_sched_ok _ me mth _ x) by done. cbn [mbind outcome_bind threads set_scheds set_threads].
  rewrite lookup_insert_ne, Ht by done. cbn [deref mbind outcome_bind]. rewrite Hpre. cbn [mbind outcome_bind].
  erewrite (leave_sched_ok _ me mth); [|cbn; apply lookup_insert_eq|done|done|cbn; apply lookup_insert_eq].
  f_equal. destruct k, x. cbn in *. unfold set_threads, set_scheds. cbn. subst.
  rewrite !insert_insert_eq. by rewrite !insert_id.
Qed.

(** The woken thread is handed out, and nothing at all has changed. *)
Lemma waitqueue_get_first_stuck k q t c0 s0 me mth th cx x :
  stuck k q t ->
  running k c0 s0 me mth -> in_u32 (t_stateflags mth) -> Z.testbit (t_stateflags mth) 2 = false ->
  threads k !! t = Some th -> t_wait_queue th = 0 -> t <> me ->
  truthy (Z.land (t_stateflags th) THREAD_SF_PREEMPT) = false ->
  cpus k !! t_current_cpu th = Some cx -> scheds k !! cpu_scheduler cx = Some x -> sched_lock x = 0 ->
  waitqueue_get_first q k = Done (1, k).
Proof using.
  intros Hst Hrun Hf H2 Ht Hwq Hne Hpre Hcx Hx Hl. pose proof (remove_stuck _ _ _ Hst) as Hrem.
  destruct Hst as (nh&ne&Hh&He&_&Hp&Hd&_). unfold waitqueue_get_first, get_prev.
  cbn [deref mbind outcome_bind]. rewrite Hh. cbn [deref mbind outcome_bind prev linked_ring_link]. rewrite Hp.
  rewrite decide_False by done. cbn [deref mbind outcome_bind]. rewrite He. cbn [deref mbind outcome_bind].
  rewrite Hd. cbn [default from_option id]. unfold with_rings. rewrite Hrem. cbn [mbind outcome_bind].
  rewrite (with_thread_ok _ _ _ th) by done. cbn [mbind outcome_bind].
  replace (set_threads _ _) with k.
  2: { destruct k. unfold set_threads, set_rings. cbn in *. f_equal. rewrite insert_id; [done|].
       rewrite Ht. f_equal. destruct th. cbn in Hwq. by subst. }
  by rewrite (sched_actualize_running k c0 s0 me mth t th cx x).
Qed.
End wait_theorems.

(** Wait queues: [waitqueue_enter] puts a thread at the back of the queue
    when [after] is set and at its front otherwise; [waitqueue_get_first] of an
    empty queue returns 0; otherwise it takes the first thread out of the
    queue, clears its [t_wait_queue], and moves a preempted thread to the front
    of the run queue of its priority, the remaining queue unchanged. *)
Theorem waitqueue_correct {V} `{KmemSource V} (k : kern V) q ts :
  wait_rep k q ts ->
  (forall t after, t ∉ ts -> is_Some (rings k !! WaitEntry t) ->
     exists k', waitqueue_enter q t after k = Done k' /\ wait_rep k' q (enqueue after t ts)) /\
  match ts with
  | [] => waitqueue_get_first q k = Done (0, k)
  | t :: ts' =>
      forall c0 s0 me mth th cx x qs j l r,
      running k c0 s0 me mth -> in_u32 (t_stateflags mth) -> Z.testbit (t_stateflags mth) 2 = false ->
      threads k !! t = Some th -> t <> me -> t_current_cpu th <> 0 -> cpus k !! t_current_cpu th = Some cx ->
      truthy (Z.land (t_stateflags th) THREAD_SF_PREEMPT) = true ->
      sched_rep k (cpu_scheduler cx) x qs -> sched_lock x = 0 -> t <> sched_idle x ->
      qs !! j = Some (l ++ t :: r) ->
      exists k' d p, let i := Z.to_nat (t_priority th mod SCHED_NRQS) in
        waitqueue_get_first q k = Done (1, k') /\ wait_rep k' q ts' /\
        <[j := l ++ r]> qs !! i = Some p /\
        sched_rep k' (cpu_scheduler cx) (set_decay d x) (<[i := t :: p]> (<[j := l ++ r]> qs)) /\
        threads k' = <[t := set_wait_queue 0 th]> (threads k)
  end.
Proof.
  intros Hw. split.
  - intros t after Ht Hn. destruct (waitqueue_enter_ok k q ts t after Hw Ht Hn) as (r&E&Hw'&_). eauto.
  - destruct ts as [|t ts]; [by apply waitqueue_get_first_empty|].
    intros c0 s0 me mth th cx x qs j l r. intros. by eapply waitqueue_wake.
Qed.

(** C11: [waitqueue_wait] does not block the thread, for a thread that is in no
    wait queue and a queue it is not in.  Nothing stores the queue in
    [t_wait_queue], so that the thread is never suspended; where the preemption
    returns at all, the call returns to the same thread at once, with the lock
    released in between and held at the end: the thread is still the current
    one, it is as before, and its entry is still in the wait queue although no
    one woke it.  The preemption returns when the thread is not preemptible or
    no run queue is empty; with an empty run queue it dereferences the null
    pointer. *)
Theorem waitqueue_wait_returns_queued {V} `{KmemSource V} (fuel : nat) (k : kern V) lock q ts after c s me th x qs :
  running k c s me th -> sched_rep k s x qs -> sched_lock x = 0 -> threads k !! 0 = None ->
  t_wait_queue th = 0 -> in_u32 (t_stateflags th) -> Z.testbit (t_stateflags th) 3 = false ->
  wait_rep k q ts -> me ∉ ts -> is_Some (rings k !! WaitEntry me) ->
  (preemptible th = false \/ [] ∉ qs ->
     exists k1 k2, waitqueue_block (S fuel) lock q after k = Done (0, k1) /\
       running k1 c s me (waiting th) /\ sched_is_suspended me k1 = Done false /\
       waitqueue_resume 0 me k1 = Done (-1, k2) /\
       running k2 c s me th /\ threads k2 = threads k /\ wait_rep k2 q (enqueue after me ts)) /\
  (preemptible th = true -> [] ∈ qs -> waitqueue_block (S fuel) lock q after k = Fault).
Proof.
  intros Hrun Hr Hl H0 Hwq Hf Hb Hw Hme Hn.
  destruct (waitqueue_block_enter (S fuel) lock k q ts after c s me th x qs Hw Hme Hn Hrun Hr) as (r&->&Hrun1&Hr1&Hw1).
  set (k1 := set_threads _ _) in *. pose proof (waiting_not_suspended _ Hwq) as Hsus. split.
  - intros Hor.
    assert (exists d, sched_preempt (S fuel) k1 = Done (at_decay k1 s x d) \/ sched_preempt (S fuel) k1 = Done k1)
      as [d Hpre].
    { destruct (preemptible th) eqn:Hp.
      - exists sched_prios. left. destruct Hor as [|Hno]; [done|].
        by eapply (sched_preempt_ok fuel); [|by rewrite waiting_preemptible|..].
      - exists []. right. by eapply sched_preempt_skip; [|by rewrite waiting_preemptible]. }
    assert (exists k2, sched_preempt (S fuel) k1 = Done k2 /\ running k2 c s me (waiting th) /\
      threads k2 = threads k1 /\ rings k2 = rings k1) as (k2&->&Hrun2&Ht2&Hr2).
    { destruct Hpre as [->| ->]; [|by eauto 10]. exists (at_decay k1 s x d). split; [done|].
      split; [by destruct Hrun1|done]. }
    exists k2, (set_threads k2 (<[me := th]> (threads k2))). cbn [mbind outcome_bind].
    split; [done|]. split; [done|]. split.
    { unfold sched_is_suspended. rewrite (rn_thread _ _ _ _ _ Hrun2). cbn [deref mbind outcome_bind]. f_equal. exact Hsus. }
    split; [by apply waitqueue_resume_ok, Hb; [apply (rn_thread _ _ _ _ _ Hrun2)|]|]. split_and!.
    + destruct Hrun2 as [? ? _]. split; [done|done|]. cbn. apply lookup_insert_eq.
    + cbn. rewrite Ht2. cbn. rewrite insert_insert_eq. apply insert_id, (rn_thread _ _ _ _ _ Hrun).
    + apply (wait_rep_frame k1); [|done]. intros a _. cbn. by rewrite Hr2.
  - intros Hp Hin. destruct (sched_preempt_ok fuel k1 c s me (waiting th) x qs Hrun1) as [_ H2]; [|done|done|].
    { by rewrite waiting_preemptible. }
    rewrite H2; [done|done|]. cbn. destruct (decide (me = 0)) as [->|]; [|by rewrite lookup_insert_ne].
    destruct Hrun as [_ _ Hm]. by rewrite Hm in H0.
Qed.

(** C25: A second wait before the first one was ended, as the loops of
    [sl_lock_internal] and [sl_drain] do when [waitqueue_wait] has returned and
    the lock is still held: the entry is inserted a second time.  Alone in the
    queue, at either end, it then stays there for ever: every
    [waitqueue_get_first] returns 1 for that thread, which runs on another CPU
    (it is not preempted, and no one holds its scheduler's lock), and leaves the whole kernel state, the queue included, exactly as it was. *)
Theorem waitqueue_second_wait_sticks {V} `{KmemSource V} (k : kern V) q t after c0 s0 me mth th cx x :
  wait_rep k q [t] ->
  running k c0 s0 me mth -> in_u32 (t_stateflags mth) -> Z.testbit (t_stateflags mth) 2 = false ->
  threads k !! t = Some th -> t_wait_queue th = 0 -> t <> me ->
  truthy (Z.land (t_stateflags th) THREAD_SF_PREEMPT) = false ->
  cpus k !! t_current_cpu th = Some cx -> scheds k !! cpu_scheduler cx = Some x -> sched_lock x = 0 ->
  exists k', waitqueue_enter q t after k = Done k' /\ waitqueue_get_first q k' = Done (1, k').
Proof.
  intros Hw Hrun. intros. destruct (waitqueue_reenter k q t after Hw) as (r&E&Hst). exists (set_rings k r).
  split; [done|]. eapply waitqueue_get_first_stuck; try done. by apply running_set_rings.
Qed.

(** ** A concrete queue *)

Module WaitExample.
Import SchedExample.
#[local] Existing Instance fixed_source.

Definition th2 : thread := set_current_cpu 0x100 (th 2).

(** The scheduler of [SchedExample] with its second thread inserted. *)
Lemma k2_ok :
  exists k2, sched_insert 0x100 0x800 k1 = Done k2 /\
  running k2 0x100 0x2004 0x700 (th 0) /\ cpus k2 !! 0x100 = Some cx1 /\ threads k2 !! 0x800 = Some th2 /\
  sched_rep k2 0x2004 (Scheduler sched_prios 0 2 0) (<[16%nat := [0x800]]> (replicate SCHED_NRQS [])) /\
  wait_rep k2 0x900 [] /\ is_Some (rings k2 !! WaitEntry 0x800).
Proof.
  destruct k1_ok as (_&Hr&Hrun&Hc&Ht&Hn1&Hn2&Hn3).
  destruct (sched_insert_ok k1 0x100 0x2004 0x700 (th 0) 0x100 cx1 0x800 (th 2)
              (Scheduler sched_prios 0 1 0) (replicate SCHED_NRQS []) [] Hrun)
    as (k'&E&Hr'&Ht'&Hc'&Hg'&Ho);
    [unfold in_u32; cbn; lia|reflexivity|exact Hc|by rewrite Ht|discriminate|exact Hr|reflexivity|discriminate
    |reflexivity|apply not_elem_of_nil|by eexists|reflexivity|].
  exists k'. split; [exact E|]. clear E.
  assert (Hw : rings k' !! WqThreads 0x900 = Some (lone (WqThreads 0x900))).
  { rewrite Ho; [exact Hn3|]. clear. set_solver. }
  split_and!.
  - destruct Hrun as [Hs Hx Hm]. split.
    + rewrite <-Hs. unfold kernel_get_current_cpu. by rewrite Hc', Hg'.
    + by rewrite Hc'.
    + by rewrite Ht', lookup_insert_ne.
  - by rewrite Hc'.
  - by rewrite Ht', lookup_insert_eq.
  - exact Hr'.
  - split; [|intros t []%not_elem_of_nil]. split; [apply NoDup_singleton|].
    unfold chain, next_of, prev_of. cbn [reverse rev_append fmap list_fmap]. rewrite Hw. split; reflexivity.
  - rewrite Ho; [by eexists|]. clear. set_solver.
Qed.

Lemma waitqueue_correct_witness :
  exists k2 k3 k' d p, sched_insert 0x100 0x800 k1 = Done k2 /\ waitqueue_enter 0x900 0x800 true k2 = Done k3 /\
    waitqueue_get_first 0x900 k3 = Done (1, k') /\ wait_rep k' 0x900 [] /\
    sched_rep k' 0x2004 (set_decay d (Scheduler sched_prios 0 2 0))
      (<[16%nat := 0x800 :: p]> (<[16%nat := []]> (<[16%nat := [0x800]]> (replicate SCHED_NRQS [])))) /\
    threads k' = <[0x800 := set_wait_queue 0 th2]> (threads k3).
Proof.
  destruct k2_ok as (k2&E2&Hrun&Hc&Ht&Hr&Hw&Hn).
  destruct (waitqueue_enter_ok k2 0x900 [] 0x800 true Hw) as (r&E3&Hw3&Ho); [apply not_elem_of_nil|exact Hn|].
  destruct (waitqueue_correct (set_rings k2 r) 0x900 [0x800] Hw3) as [_ Hfirst].
  destruct (Hfirst 0x100 0x2004 0x700 (th 0) th2 cx1 (Scheduler sched_prios 0 2 0)
              (<[16%nat := [0x800]]> (replicate SCHED_NRQS [])) 16%nat [] []) as (k'&d&p&E&Hw'&_&Hr'&Ht').
  - apply running_set_rings. exact Hrun.
  - unfold in_u32. cbn. lia.
  - reflexivity.
  - cbn [threads set_rings]. exact Ht.
  - discriminate.
  - discriminate.
  - cbn [cpus set_rings t_current_cpu th2 set_current_cpu]. exact Hc.
  - reflexivity.
  - change (cpu_scheduler cx1) with 0x2004. apply sched_rep_set_rings; [|exact Hr].
    intros a. destruct a; try exact I; apply Ho; clear; set_solver.
  - reflexivity.
  - discriminate.
  - reflexivity.
  - exists k2, (set_rings k2 r), k', d, p. split; [exact E2|]. split; [exact E3|]. split; [exact E|]. split; [exact Hw'|]. split; [exact Hr'|exact Ht'].
Defined.

(** The CPU with 32 full run queues, an entry for its thread and a wait queue
    at 0x900. *)
Definition kwait : kern unit :=
  set_rings (kfull (th 0))
    (<[WaitEntry 0x700 := zero_node]> (<[WqThreads 0x900 := lone (WqThreads 0x900)]> full_rings)).

Lemma waitqueue_wait_returns_queued_witness :
  exists k1 k2, waitqueue_block 1 (-1) 0x900 true kwait = Done (0, k1) /\ waitqueue_resume 0 0x700 k1 = Done (-1, k2) /\
    running k2 0x100 0x2004 0x700 (th 0) /\ wait_rep k2 0x900 [0x700].
Proof.
  destruct (kfull_ok (th 0)) as (Hrun&Hr&H0).
  destruct (waitqueue_wait_returns_queued 0 kwait (-1) 0x900 [] true 0x100 0x2004 0x700 (th 0)
              (Scheduler (replicate SCHED_NRQS 7) 0x900 33 0) full_queues
              (running_set_rings _ _ _ _ _ _ Hrun)) as [Hret _].
  - apply sched_rep_set_rings; [|exact Hr]. intros a. destruct a; try exact I; by rewrite !lookup_insert_ne.
  - reflexivity.
  - exact H0.
  - reflexivity.
  - unfold in_u32. cbn. lia.
  - reflexivity.
  - split; [|intros t []%not_elem_of_nil]. split; [apply NoDup_singleton|]. split; reflexivity.
  - apply not_elem_of_nil.
  - by eexists.
  - destruct Hret as (k1'&k2&E1&_&_&E2&Hrun2&_&Hw2).
    + right. intros (i&Hi)%list_elem_of_lookup. unfold full_queues in Hi. rewrite list_lookup_fmap in Hi.
      destruct (seq 0 SCHED_NRQS !! i); discriminate Hi.
    + exists k1', k2. split; [exact E1|]. split; [exact E2|]. split; [exact Hrun2|exact Hw2].
Defined.

(** Two CPUs: the one at 0x100 runs the thread at 0x700, the one at 0x200 the
    thread at 0x800, which is in the wait queue at 0x900. *)
Definition entry (a : raddr) (t : Z) : rnode := Linked_ring (Some a) (Some a) (Some t).
Definition ktwo : kern unit :=
  Kern (Zheap ∅ ∅ 0 tt) 0 0 ∅ 0 (th 0) {[ 0x700 := th 0; 0x800 := set_current_cpu 0x200 (th 0) ]}
    {[ WqThreads 0x900 := lone (WaitEntry 0x800); WaitEntry 0x800 := entry (WqThreads 0x900) 0x800 ]}
    {[ 0x100 := cx1; 0x200 := Cpu 1 0x800 [0x200; 0x800; 0] (Taskstate 0 0 0) 0x2004 ]} 0x100 0x1000
    {[ 0x2004 := Scheduler sched_prios 0 2 0 ]}.

Lemma waitqueue_second_wait_sticks_witness :
  exists k', waitqueue_enter 0x900 0x800 true ktwo = Done k' /\ waitqueue_get_first 0x900 k' = Done (1, k').
Proof.
  apply (waitqueue_second_wait_sticks ktwo 0x900 0x800 true 0x100 0x2004 0x700 (th 0) (set_current_cpu 0x200 (th 0))
           (Cpu 1 0x800 [0x200; 0x800; 0] (Taskstate 0 0 0) 0x2004) (Scheduler sched_prios 0 2 0)); try reflexivity.
  - split.
    + split; [repeat constructor; set_solver|]. repeat split.
    + intros t ->%list_elem_of_singleton. by exists (entry (WqThreads 0x900) 0x800).
  - split; [reflexivity| |reflexivity]. by exists cx1.
  - unfold in_u32. cbn. lia.
  - discriminate.
Defined.
End WaitExample.
