(* ===== verification/Lock.v ===== *)
(** * Shared and exclusive locks

    Models [system/kern/kern_lock.c] and [kern/lock.h].  What the lock needs of
    its wait queue is the class [WaitOps]; [kern_wait_ops] is the instance given
    by [Wait].

    A call holds the spin lock [sl_lock] from its start to its end, except while
    it is blocked in [waitqueue_wait].  So every call is a sequence of atomic
    parts, each of which ends with a result or at one of the calls of
    [waitqueue_wait]; the places are the constructors of [sl_pc], and
    [sl_resume] runs the part that follows one.  The theorems are about every
    interleaving of these parts, with wake-ups at any time. *)

From S2P Require Import Prelude Ring Spinlock Zalloc Kern Sched Wait.

(** ** Interface of the wait queue *)

Class WaitOps (W : Type) := {
  (** [linked_ring_empty(&(queue->wq_threads))] *)
  wq_empty : W -> outcome Z;
  (** [waitqueue_wait] up to the point where the thread is off the CPU, without
      the release of the spin lock *)
  wq_sleep : bool -> W -> outcome W;
  (** [waitqueue_get_first] *)
  wq_get_first : W -> outcome (Z * W);
}.

(** ** Data *)

Record shared_lock := Shared_lock { sl_number : Z; sl_flags : Z; sl_lock : Z }.

Definition SL_FLAG_DRAIN : Z := 1.
Definition SL_TYPE_SHARED : Z := 1.
Definition SL_TYPE_EXCLUSIVE : Z := 2.
Definition ENOLCK : Z := 77.

(** The calls of [waitqueue_wait]: in [sl_lock] (for fairness), in the loops of
    [sl_lock_internal], in the two loops of [sl_drain], in [sl_touch]. *)
Inductive sl_pc :=
| AtFair (type : Z)
| AtLock (type : Z)
| AtDrainNumber
| AtDrainQueue
| AtTouch (type : Z).

#[export] Instance sl_pc_eq_dec : EqDecision sl_pc.
Proof. solve_decision. Defined.

(** An atomic part ends with the function's result or at a wait. *)
Inductive sl_result := Returns (r : Z) | Blocks (pc : sl_pc).

(** ** Operations *)

Section lock.
Context {W : Type} `{WaitOps W}.
Implicit Types (l : shared_lock) (w : W).

Definition set_number (n : Z) l : shared_lock := Shared_lock n (sl_flags l) (sl_lock l).
Definition set_spin (b : Z) l : shared_lock := Shared_lock (sl_number l) (sl_flags l) b.
Definition draining l : bool := truthy (Z.land (sl_flags l) SL_FLAG_DRAIN).

(** [waitqueue_get_first(&(lock->sl_queue))] with its result dropped. *)
Definition wake w : outcome W := '(_, w) ← wq_get_first w; Done w.

(** [waitqueue_wait(&(lock->sl_lock),&(lock->sl_queue),after)]: the spin lock is
    released. *)
Definition wait_at (pc : sl_pc) (after : bool) l w : outcome (sl_result * shared_lock * W) :=
  w ← wq_sleep after w; Done (Blocks pc, set_spin (kernlock_unlock (sl_lock l)) l, w).

(** The end of every function: the spin lock is released. *)
Definition leave (r : Z) l w : outcome (sl_result * shared_lock * W) :=
  Done (Returns r, set_spin (kernlock_unlock (sl_lock l)) l, w).

(** The test of the loop of [sl_lock_internal] and what follows the loop. *)
Definition lock_test (type : Z) l w : outcome (sl_result * shared_lock * W) :=
  if type =? SL_TYPE_SHARED then
    if sl_number l <? 0 then wait_at (AtLock type) false l w
    else
      let l := set_number (i32 (sl_number l + 1)) l in
      w ← wake w; leave 0 l w
  else
    if truthy (sl_number l) then wait_at (AtLock type) false l w
    else leave 0 (set_number (-1) l) w.

Definition sl_lock_internal (type : Z) l w : outcome (sl_result * shared_lock * W) :=
  if (type =? SL_TYPE_SHARED) || (type =? SL_TYPE_EXCLUSIVE) then
    if draining l then leave ENOLCK l w else lock_test type l w
  else leave 0 l w.

(** The loop body after [waitqueue_wait], with [WAKEUP_ENOLCK]. *)
Definition lock_resumed (type : Z) l w : outcome (sl_result * shared_lock * W) :=
  if draining l then w ← wake w; leave ENOLCK l w
  else lock_test type l w.

(** [kernlock_lock(&(lock->sl_lock))] *)
Definition enter l : outcome shared_lock := b ← kernlock_lock 1 (sl_lock l); Done (set_spin b l).

Definition sl_lock_fair (type : Z) l w : outcome (sl_result * shared_lock * W) :=
  l ← enter l;
  if draining l then leave ENOLCK l w
  else
    e ← wq_empty w;
    if negb (truthy e) then wait_at (AtFair type) true l w else sl_lock_internal type l w.

Definition sl_lock_greedy (type : Z) l w : outcome (sl_result * shared_lock * W) :=
  l ← enter l; sl_lock_internal type l w.

Definition sl_unlock (type : Z) l w : outcome (sl_result * shared_lock * W) :=
  l ← enter l;
  let l := if type =? SL_TYPE_SHARED then set_number (i32 (sl_number l - 1)) l
           else if type =? SL_TYPE_EXCLUSIVE then set_number 0 l else l in
  w ← wake w; leave 0 l w.

Definition drain_queue l w : outcome (sl_result * shared_lock * W) :=
  e ← wq_empty w;
  if negb (truthy e) then wait_at AtDrainQueue true l w else leave 0 l w.

Definition drain_number l w : outcome (sl_result * shared_lock * W) :=
  if truthy (sl_number l) then wait_at AtDrainNumber true l w else drain_queue l w.

Definition sl_drain l w : outcome (sl_result * shared_lock * W) :=
  l ← enter l;
  let l := Shared_lock (sl_number l) (Z.lor (sl_flags l) SL_FLAG_DRAIN) (sl_lock l) in
  w ← wake w; drain_number l w.

(** The loops of [sl_touch] and what follows them. *)
Definition touch_test (type : Z) l w : outcome (sl_result * shared_lock * W) :=
  if (type =? SL_TYPE_SHARED) && (sl_number l <? 0)
     || (type =? SL_TYPE_EXCLUSIVE) && truthy (sl_number l)
  then wait_at (AtTouch type) false l w
  else w ← wake w; leave 0 l w.

Definition sl_touch (type : Z) l w : outcome (sl_result * shared_lock * W) :=
  l ← enter l; touch_test type l w.

(** [waitqueue_wait] returns: the spin lock is taken again. *)
Definition sl_resume (pc : sl_pc) l w : outcome (sl_result * shared_lock * W) :=
  l ← enter l;
  match pc with
  | AtFair type => sl_lock_internal type l w
  | AtLock type => lock_resumed type l w
  | AtDrainNumber => drain_number l w
  | AtDrainQueue => drain_queue l w
  | AtTouch type => touch_test type l w
  end.
End lock.

(** ** The wait queue of [kern_wait.c] *)

(** A lock with the wait queue at [q], used by the current thread. *)
#[export] Instance kern_wait_ops {V} `{KmemSource V} (fuel : nat) (q : Z) : WaitOps (kern V) := {
  wq_empty k := linked_ring_empty (Some (WqThreads q)) (rings k);
  wq_sleep after k := '(_, k) ← waitqueue_block fuel 0 q after k; Done k;
  wq_get_first k := waitqueue_get_first q k;
}.

(** ** Interleavings *)

(** What a thread does with the lock. *)
Inductive sl_op := OpLock (type : Z) | OpGreedy (type : Z) | OpTouch (type : Z) | OpDrain.

(** A thread is outside, in a wait, or holds the lock. *)
Inductive sl_thread := Away | Waiting (pc : sl_pc) | Holding (type : Z).

#[export] Instance sl_thread_eq_dec : EqDecision sl_thread.
Proof. solve_decision. Defined.

Record sl_state (W : Type) := SlState { ss_lock : shared_lock; ss_queue : W; ss_threads : list sl_thread }.
Arguments SlState {W}.
Arguments ss_lock {W}.
Arguments ss_queue {W}.
Arguments ss_threads {W}.

Section steps.
Context {W : Type} `{WaitOps W}.

Definition run_op (o : sl_op) (l : shared_lock) (w : W) : outcome (sl_result * shared_lock * W) :=
  match o with
  | OpLock type => sl_lock_fair type l w
  | OpGreedy type => sl_lock_greedy type l w
  | OpTouch type => sl_touch type l w
  | OpDrain => sl_drain l w
  end.

(** The lock type a call acquires when it returns 0. *)
Definition op_type (o : sl_op) : option Z :=
  match o with OpLock type | OpGreedy type => Some type | _ => None end.
Definition pc_type (pc : sl_pc) : option Z :=
  match pc with AtFair type | AtLock type => Some type | _ => None end.

Definition after_call (acquires : option Z) (r : sl_result) : sl_thread :=
  match r with
  | Blocks pc => Waiting pc
  | Returns r => match acquires with
                 | Some type => if r =? 0 then Holding type else Away
                 | None => Away
                 end
  end.

Definition valid_type (acquires : option Z) : Prop :=
  match acquires with Some type => type = SL_TYPE_SHARED \/ type = SL_TYPE_EXCLUSIVE | None => True end.

(** A thread starts a call, goes on after a wait, or releases the lock it
    holds; [sl_other] is any change of the queue by the rest of the kernel. *)
Inductive sl_step : sl_state W -> sl_state W -> Prop :=
| sl_start l w ts i o r l' w' :
    ts !! i = Some Away -> valid_type (op_type o) -> run_op o l w = Done (r, l', w') ->
    sl_step (SlState l w ts) (SlState l' w' (<[i := after_call (op_type o) r]> ts))
| sl_go_on l w ts i pc r l' w' :
    ts !! i = Some (Waiting pc) -> sl_resume pc l w = Done (r, l', w') ->
    sl_step (SlState l w ts) (SlState l' w' (<[i := after_call (pc_type pc) r]> ts))
| sl_release l w ts i type r l' w' :
    ts !! i = Some (Holding type) -> sl_unlock type l w = Done (r, l', w') ->
    sl_step (SlState l w ts) (SlState l' w' (<[i := Away]> ts))
| sl_other l w ts w' : sl_step (SlState l w ts) (SlState l w' ts).

(** A lock that was set to zero, and [n] threads outside. *)
Definition sl_initial (n : nat) (w : W) : sl_state W :=
  SlState (Shared_lock 0 0 0) w (replicate n Away).
End steps.

(** ** The counter and the holders *)

(** How many threads hold the lock with this type. *)
Definition holds (type : Z) (t : sl_thread) : nat := if decide (t = Holding type) then 1 else 0.
Fixpoint holders (type : Z) (ts : list sl_thread) : nat :=
  match ts with [] => 0 | t :: ts => holds type t + holders type ts end.

Lemma holders_insert type ts (i : nat) x y :
  ts !! i = Some x -> (holders type (<[i := y]> ts) + holds type x = holders type ts + holds type y)%nat.
Proof.
  revert i. induction ts as [|z ts IH]; intros i Hi; [done|]. destruct i as [|i].
  - injection Hi as ->. change (<[0%nat := y]> (x :: ts)) with (y :: ts). cbn [holders]. lia.
  - change (<[S i := y]> (z :: ts)) with (z :: <[i := y]> ts). cbn [holders]. specialize (IH i Hi). lia.
Qed.

Lemma holders_le type ts : (holders type ts <= length ts)%nat.
Proof. induction ts as [|t ts IH]; cbn [holders length]; [lia|]. unfold holds. case_decide; lia. Qed.

Lemma holders_in type ts : Holding type ∈ ts <-> holders type ts <> 0%nat.
Proof.
  induction ts as [|t ts IH]; cbn [holders]; [set_solver|].
  rewrite elem_of_cons, IH. unfold holds. case_decide; naive_solver lia.
Qed.

Lemma holders_two type ts i j :
  ts !! i = Some (Holding type) -> ts !! j = Some (Holding type) -> i <> j -> (2 <= holders type ts)%nat.
Proof.
  intros Hi Hj Hne. pose proof (holders_insert type ts i _ Away Hi) as H1.
  assert (Hj' : <[i := Away]> ts !! j = Some (Holding type)) by (by rewrite list_lookup_insert_ne).
  assert (Hin : Holding type ∈ <[i := Away]> ts) by (by eapply list_elem_of_lookup_2).
  apply holders_in in Hin. unfold holds in H1. rewrite decide_True in H1 by done. rewrite decide_False in H1 by done. lia.
Qed.

Section effects.
Context {W : Type} `{WaitOps W}.
Implicit Types (l : shared_lock) (w : W).

(** What an atomic part does to the lock: the spin lock ends free, [sl_drain]
    alone sets the flag, and the counter changes only with an acquisition,
    which needs a lock that is not draining. *)
Definition effect (acquires : option Z) (r : sl_result) l l' : Prop :=
  sl_lock l' = 0 /\ (draining l = true -> draining l' = true) /\
  match after_call acquires r with
  | Holding type =>
      draining l = false /\
      (type = SL_TYPE_SHARED /\ 0 <= sl_number l /\ sl_number l' = i32 (sl_number l + 1) \/
       type <> SL_TYPE_SHARED /\ sl_number l = 0 /\ sl_number l' = -1)
  | _ => sl_number l' = sl_number l
  end.

Lemma wait_at_ok pc after l w a r l' w' :
  wait_at pc after l w = Done (r, l', w') -> r = Blocks pc /\ effect a r l l'.
Proof using. unfold wait_at. intros. outcome_inv. by split_and!. Qed.

Lemma leave_ok v a l w r l' w' :
  leave v l w = Done (r, l', w') -> (a = None \/ v <> 0) -> effect a r l l'.
Proof using.
  unfold leave. intros [= <- <- <-] Ha. split_and!; [done|done|]. cbn. destruct Ha as [->|Hv]; [done|].
  destruct a; [|done]. by destruct (Z.eqb_spec v 0).
Qed.

Lemma lock_test_ok type l w r l' w' :
  draining l = false -> lock_test type l w = Done (r, l', w') -> effect (Some type) r l l'.
Proof using.
  intros Hd. unfold lock_test. destruct (Z.eqb_spec type SL_TYPE_SHARED) as [->|Hne].
  - destruct (Z.ltb_spec (sl_number l) 0); [intros E; by eapply wait_at_ok|].
    intros E. apply bind_Done in E as (w1&_&[= <- <- <-]). split_and!; [done|done|]. cbn. split; [done|]. by left.
  - destruct (truthy (sl_number l)) eqn:Ht; [intros E; by eapply wait_at_ok|].
    intros [= <- <- <-]. split_and!; [done|done|]. cbn. split; [done|]. right. split_and!; [done| |done].
    by apply truthy_false.
Qed.

Lemma sl_lock_internal_ok type l w r l' w' :
  valid_type (Some type) -> sl_lock_internal type l w = Done (r, l', w') -> effect (Some type) r l l'.
Proof using.
  intros Hv. unfold sl_lock_internal.
  assert ((type =? SL_TYPE_SHARED) || (type =? SL_TYPE_EXCLUSIVE) = true) as -> by (destruct Hv as [->| ->]; done).
  destruct (draining l) eqn:Hd; [|by apply lock_test_ok]. intros E. eapply leave_ok; [exact E|]. by right.
Qed.

Lemma enter_ok l l1 : enter l = Done l1 -> l1 = set_spin (-1) l.
Proof using.
  unfold enter. intros E. outcome_inv. f_equal. revert H0. cbn. by destruct (truthy (sl_lock l)); intros [= <-].
Qed.

Lemma effect_enter a r l l' : effect a r (set_spin (-1) l) l' -> effect a r l l'.
Proof using. done. Qed.

Lemma touch_test_ok type l w r l' w' : touch_test type l w = Done (r, l', w') -> effect None r l l'.
Proof using.
  unfold touch_test. case_match; [intros E; by eapply wait_at_ok|].
  intros E. apply bind_Done in E as (w1&_&E). eapply leave_ok; [exact E|]. by left.
Qed.

Lemma drain_queue_ok l w r l' w' : drain_queue l w = Done (r, l', w') -> effect None r l l'.
Proof using.
  unfold drain_queue. intros E. apply bind_Done in E as (e&_&E). revert E.
  case_match; intros E; [by eapply wait_at_ok|]. eapply leave_ok; [exact E|]. by left.
Qed.

Lemma drain_number_ok l w r l' w' : drain_number l w = Done (r, l', w') -> effect None r l l'.
Proof using. unfold drain_number. case_match; intros E; [by eapply wait_at_ok|by eapply drain_queue_ok]. Qed.

Lemma drain_flag f : truthy (Z.land (Z.lor f SL_FLAG_DRAIN) SL_FLAG_DRAIN) = true.
Proof using.
  apply truthy_true. intros E. apply (f_equal (fun x => Z.testbit x 0)) in E.
  rewrite Z.land_spec, Z.lor_spec, Z.bits_0 in E. change (Z.testbit SL_FLAG_DRAIN 0) with true in E.
  by rewrite orb_true_r in E.
Qed.

Lemma run_op_ok o l w r l' w' :
  valid_type (op_type o) -> run_op o l w = Done (r, l', w') -> effect (op_type o) r l l'.
Proof using.
  intros Hv E. destruct o as [type|type|type|]; cbn [run_op op_type] in *;
    apply bind_Done in E as (l1&->%enter_ok&E); apply effect_enter.
  - revert E. destruct (draining _) eqn:Hd; [intros E; eapply leave_ok; [exact E|by right]|].
    intros E. apply bind_Done in E as (e&_&E). revert E. case_match; intros E; [by eapply wait_at_ok|].
    by eapply sl_lock_internal_ok.
  - by eapply sl_lock_internal_ok.
  - by eapply touch_test_ok.
  - apply bind_Done in E as (w1&_&E). apply drain_number_ok in E as (H1&H2&H3). split_and!; [done| |].
    + intros _. apply H2. apply drain_flag.
    + by destruct r.
Qed.

Definition pc_valid (pc : sl_pc) : Prop := valid_type (pc_type pc).

Lemma sl_resume_ok pc l w r l' w' :
  pc_valid pc -> sl_resume pc l w = Done (r, l', w') -> effect (pc_type pc) r l l'.
Proof using.
  intros Hv E. apply bind_Done in E as (l1&->%enter_ok&E). apply effect_enter.
  destruct pc; cbn [pc_type] in *; [by eapply sl_lock_internal_ok| |by eapply drain_number_ok
    |by eapply drain_queue_ok|by eapply touch_test_ok].
  unfold lock_resumed in E. destruct (draining _) eqn:Hd; [|by eapply lock_test_ok].
  apply bind_Done in E as (w1&_&E). eapply leave_ok; [exact E|]. by right.
Qed.

(** What a wait of [sl_drain] knows of the lock. *)
Definition drain_at (pc : sl_pc) l : Prop :=
  match pc with
  | AtDrainNumber => draining l = true
  | AtDrainQueue => draining l = true /\ sl_number l = 0
  | _ => True
  end.

Lemma flags_draining l l' : sl_flags l' = sl_flags l -> draining l' = draining l.
Proof using. unfold draining. by intros ->. Qed.

Lemma drain_queue_post l w r l' w' :
  drain_queue l w = Done (r, l', w') ->
  sl_flags l' = sl_flags l /\ sl_number l' = sl_number l /\ (r = Returns 0 \/ r = Blocks AtDrainQueue).
Proof using.
  unfold drain_queue, wait_at, leave. intros E. outcome_inv. case_match; outcome_inv; simplify_eq; naive_solver.
Qed.

Lemma drain_number_post l w r l' w' :
  drain_number l w = Done (r, l', w') ->
  sl_flags l' = sl_flags l /\ sl_number l' = sl_number l /\
  (r = Blocks AtDrainNumber \/ sl_number l = 0 /\ (r = Returns 0 \/ r = Blocks AtDrainQueue)).
Proof using.
  unfold drain_number. destruct (truthy (sl_number l)) eqn:Ht; intros E.
  - unfold wait_at in E. outcome_inv. split_and!; [done|done|]. by left.
  - apply truthy_false in Ht. apply drain_queue_post in E as (?&?&?). naive_solver.
Qed.

(** A wait inside an acquisition is one for the same type. *)
Lemma blocks_valid_op o l w pc l' w' :
  valid_type (op_type o) -> run_op o l w = Done (Blocks pc, l', w') -> pc_valid pc.
Proof using.
  intros Hv E. destruct o as [type|type|type|]; cbn [run_op op_type] in *; apply bind_Done in E as (l1&_&E);
    unfold sl_lock_internal, lock_test, touch_test, drain_number, drain_queue, wait_at, leave in E;
    repeat (case_match; outcome_inv); by simplify_eq.
Qed.

Lemma blocks_valid_pc pc l w pc' l' w' :
  pc_valid pc -> sl_resume pc l w = Done (Blocks pc', l', w') -> pc_valid pc'.
Proof using.
  intros Hv E. unfold sl_resume in E. apply bind_Done in E as (l1&_&E).
  destruct pc; unfold lock_resumed, sl_lock_internal, lock_test, touch_test, drain_number, drain_queue, wait_at, leave in E;
    outcome_inv; repeat (case_match; outcome_inv); by simplify_eq.
Qed.

Lemma blocks_drain_op o l w pc l' w' :
  run_op o l w = Done (Blocks pc, l', w') -> drain_at pc l'.
Proof using.
  intros E. destruct o as [type|type|type|]; cbn [run_op] in E; apply bind_Done in E as (l1&_&E).
  4: { apply bind_Done in E as (w1&_&E). apply drain_number_post in E as (Hf&Hn&Hr).
       pose proof (drain_flag (sl_flags l1)) as Hd. change (truthy _) with
         (draining (Shared_lock (sl_number l1) (Z.lor (sl_flags l1) SL_FLAG_DRAIN) (sl_lock l1))) in Hd.
       rewrite <-(flags_draining _ _ Hf) in Hd. rewrite <-Hn in Hr.
       destruct Hr as [[= ->]|[Hz [?|[= ->]]]]; done. }
  all: unfold sl_lock_internal, lock_test, touch_test, wait_at, leave in E;
    repeat (case_match; outcome_inv); by simplify_eq.
Qed.

Lemma blocks_drain_pc pc l w pc' l' w' :
  drain_at pc l -> sl_resume pc l w = Done (Blocks pc', l', w') -> drain_at pc' l'.
Proof using.
  intros Hd E. unfold sl_resume in E. apply bind_Done in E as (l1&->%enter_ok&E).
  destruct pc; cbn in Hd.
  3: { apply drain_number_post in E as (Hf&Hn&Hr). rewrite <-(flags_draining _ _ Hf) in Hd || idtac.
       assert (Hd' : draining l' = true) by (by rewrite (flags_draining _ _ Hf)).
       rewrite <-Hn in Hr. destruct Hr as [[= ->]|[Hz [?|[= ->]]]]; done. }
  3: { apply drain_queue_post in E as (Hf&Hn&Hr). destruct Hr as [?|[= ->]]; [done|].
       cbn. rewrite (flags_draining _ _ Hf), Hn. done. }
  all: unfold lock_resumed, sl_lock_internal, lock_test, touch_test, wait_at, leave in E;
    repeat (case_match; outcome_inv); by simplify_eq.
Qed.

(** The drained state is kept by the parts of other threads. *)
Lemma effect_drain_at a r l l' pc : effect a r l l' -> drain_at pc l -> drain_at pc l'.
Proof using.
  intros (_&Hm&He) Hd. destruct pc; cbn in *; try done; [by apply Hm|]. destruct Hd as [Hd Hn].
  split; [by apply Hm|]. destruct (after_call a r); [congruence|congruence|]. destruct He as [? _]. congruence.
Qed.
End effects.

(** ** The invariant *)

Section invariant.
Context {W : Type} `{WaitOps W}.
Implicit Types s : sl_state W.

Definition thread_valid (t : sl_thread) : Prop :=
  match t with
  | Away => True
  | Waiting pc => pc_valid pc
  | Holding type => type = SL_TYPE_SHARED \/ type = SL_TYPE_EXCLUSIVE
  end.

(** The counter is the number of shared holders, or -1 with one exclusive
    holder and no other. *)
Definition counted (n : Z) (ts : list sl_thread) : Prop :=
  n = holders SL_TYPE_SHARED ts /\ holders SL_TYPE_EXCLUSIVE ts = 0%nat \/
  n = -1 /\ holders SL_TYPE_SHARED ts = 0%nat /\ holders SL_TYPE_EXCLUSIVE ts = 1%nat.

Record sl_inv s : Prop := {
  si_spin : sl_lock (ss_lock s) = 0;
  si_few : length (ss_threads s) < 2 ^ 31;
  si_valid : Forall thread_valid (ss_threads s);
  si_counted : counted (sl_number (ss_lock s)) (ss_threads s);
  si_drain : forall i pc, ss_threads s !! i = Some (Waiting pc) -> drain_at pc (ss_lock s);
}.

Lemma holds_away type t : (forall ty, t <> Holding ty) -> holds type t = 0%nat.
Proof using. intros Ht. unfold holds. case_decide; [by destruct (Ht type)|done]. Qed.

Lemma holds_one type ty : holds type (Holding ty) = if decide (ty = type) then 1%nat else 0%nat.
Proof using. unfold holds. repeat case_decide; congruence. Qed.

(** A thread that did not hold the lock finishes an atomic part. *)
Lemma counted_call a r l l' ts (i : nat) x :
  effect a r l l' -> valid_type a -> length ts < 2 ^ 31 -> ts !! i = Some x -> (forall ty, x <> Holding ty) ->
  counted (sl_number l) ts -> counted (sl_number l') (<[i := after_call a r]> ts).
Proof using.
  intros (_&_&He) Hv Hlen Hi Hx Hc. unfold counted in *.
  pose proof (holders_insert SL_TYPE_SHARED ts i x (after_call a r) Hi) as Hs.
  pose proof (holders_insert SL_TYPE_EXCLUSIVE ts i x (after_call a r) Hi) as Hex.
  rewrite (holds_away _ x Hx) in Hs. rewrite (holds_away _ x Hx) in Hex. pose proof (holders_le SL_TYPE_SHARED ts).
  revert Hs Hex He. destruct (after_call a r) as [|pc|type] eqn:Hr; intros Hs Hex He.
  - change (holds _ Away) with 0%nat in Hs, Hex. rewrite He. lia.
  - change (holds _ (Waiting pc)) with 0%nat in Hs, Hex. rewrite He. lia.
  - assert (Hty : type = SL_TYPE_SHARED \/ type = SL_TYPE_EXCLUSIVE).
    { destruct r as [v|]; [|done]. destruct a as [ty|]; cbn in Hr; [|done]. destruct (v =? 0); [|done].
      injection Hr as <-. exact Hv. }
    rewrite holds_one in Hs, Hex.
    destruct He as [_ [(->&Hn&->)|(Hne&Hn&->)]].
    + rewrite decide_True in Hs by done. rewrite decide_False in Hex by done.
      pose proof (holders_le SL_TYPE_SHARED (<[i := Holding SL_TYPE_SHARED]> ts)) as Hle.
      rewrite length_insert in Hle. change (2 ^ 31) with (2 ^ (32 - 1)) in Hlen. rewrite swrap_small by lia. lia.
    + destruct Hty as [->| ->]; [done|]. rewrite decide_False in Hs by done. rewrite decide_True in Hex by done. lia.
Qed.

Lemma sl_unlock_ok type l w r l' w' :
  sl_unlock type l w = Done (r, l', w') ->
  sl_lock l' = 0 /\ sl_flags l' = sl_flags l /\
  (type = SL_TYPE_SHARED -> sl_number l' = i32 (sl_number l - 1)) /\
  (type = SL_TYPE_EXCLUSIVE -> sl_number l' = 0).
Proof using.
  intros E. apply bind_Done in E as (l1&->%enter_ok&E). apply bind_Done in E as (w1&_&[= <- <- <-]).
  split_and!; [done| | |].
  - by repeat case_match.
  - by intros ->.
  - by intros ->.
Qed.

Lemma counted_release type l l' w w' r ts (i : nat) :
  sl_unlock type l w = Done (r, l', w') -> type = SL_TYPE_SHARED \/ type = SL_TYPE_EXCLUSIVE ->
  length ts < 2 ^ 31 -> ts !! i = Some (Holding type) ->
  counted (sl_number l) ts -> counted (sl_number l') (<[i := Away]> ts).
Proof using.
  intros (_&_&Hs&He)%sl_unlock_ok Hty Hlen Hi Hc. unfold counted in *.
  pose proof (holders_insert SL_TYPE_SHARED ts i _ Away Hi) as H1.
  pose proof (holders_insert SL_TYPE_EXCLUSIVE ts i _ Away Hi) as H2.
  pose proof (holders_le SL_TYPE_SHARED ts).
  change (holds _ Away) with 0%nat in H1, H2. rewrite holds_one in H1, H2. destruct Hty as [->| ->].
  - rewrite Hs by done. rewrite decide_True in H1 by done. rewrite decide_False in H2 by done.
    left. rewrite swrap_small by lia. lia.
  - rewrite He by done. rewrite decide_False in H1 by done. rewrite decide_True in H2 by done. lia.
Qed.

Lemma counted_zero ts : counted 0 ts -> forall i type, type = SL_TYPE_SHARED \/ type = SL_TYPE_EXCLUSIVE ->
  ts !! i <> Some (Holding type).
Proof using.
  intros Hc i type Hty Hi. assert (Hin : Holding type ∈ ts) by (by eapply list_elem_of_lookup_2).
  apply holders_in in Hin. unfold counted in Hc. destruct Hty as [->| ->]; lia.
Qed.
Lemma drain_at_insert (ts : list sl_thread) (i : nat) t l l' :
  (forall j pc, ts !! j = Some (Waiting pc) -> drain_at pc l) ->
  (forall pc, drain_at pc l -> drain_at pc l') -> (forall pc, t = Waiting pc -> drain_at pc l') ->
  forall j pc, <[i := t]> ts !! j = Some (Waiting pc) -> drain_at pc l'.
Proof using.
  intros Hold Hkeep Ht j pc. rewrite list_lookup_insert_Some. intros [(<-&Heq&_)|[_ Hj]]; [by apply Ht|].
  apply Hkeep. by eapply Hold.
Qed.

Lemma release_drain_at l l' w w' r type ts (i : nat) pc :
  sl_unlock type l w = Done (r, l', w') -> type = SL_TYPE_SHARED \/ type = SL_TYPE_EXCLUSIVE ->
  ts !! i = Some (Holding type) -> counted (sl_number l) ts -> drain_at pc l -> drain_at pc l'.
Proof using.
  intros (_&Hf&_)%sl_unlock_ok Hty Hi Hc Hd. destruct pc; cbn in *; try done.
  - by rewrite (flags_draining _ _ Hf).
  - destruct Hd as [_ Hz]. rewrite Hz in Hc. by destruct (counted_zero _ Hc i type Hty).
Qed.

Lemma sl_step_inv s s' : sl_step s s' -> sl_inv s -> sl_inv s'.
Proof using.
  intros Hstep [Hsp Hlen Hv Hc Hdr].
  destruct Hstep as [l w ts i o r l' w' Hi Hty E|l w ts i pc r l' w' Hi E|l w ts i type r l' w' Hi E|];
    cbn in *; [| | |by split].
  - pose proof (run_op_ok _ _ _ _ _ _ Hty E) as Hef. split; cbn; [apply Hef|by rewrite length_insert| | |].
    + apply Forall_insert; [done|]. destruct r as [v|pc]; cbn; [|by eapply blocks_valid_op].
      destruct (op_type o); [|done]. by destruct (v =? 0).
    + by eapply counted_call.
    + apply (drain_at_insert ts i _ l); [exact Hdr|intros pc; exact (effect_drain_at _ _ _ _ _ Hef)|].
      intros pc Hpc. destruct r as [v|pc']; [|cbn in Hpc; simplify_eq; by eapply blocks_drain_op].
      cbn in Hpc. destruct (op_type o); [|done]. by destruct (v =? 0).
  - pose proof (Forall_lookup_1 _ _ _ _ Hv Hi) as Hpc. cbn in Hpc.
    pose proof (sl_resume_ok _ _ _ _ _ _ Hpc E) as Hef. split; cbn; [apply Hef|by rewrite length_insert| | |].
    + apply Forall_insert; [done|]. destruct r as [v|pc']; cbn; [|exact (blocks_valid_pc pc _ _ _ _ _ Hpc E)].
      unfold pc_valid in Hpc. destruct (pc_type pc); [|done]. by destruct (v =? 0).
    + by eapply counted_call.
    + apply (drain_at_insert ts i _ l); [exact Hdr|intros pc0; exact (effect_drain_at _ _ _ _ _ Hef)|].
      intros pc0 Hpc0. destruct r as [v|pc']; [|cbn in Hpc0; simplify_eq; by eapply blocks_drain_pc; [eapply Hdr|]].
      cbn in Hpc0. destruct (pc_type pc); [|done]. by destruct (v =? 0).
  - pose proof (Forall_lookup_1 _ _ _ _ Hv Hi) as Hty. cbn in Hty.
    split; cbn; [by apply sl_unlock_ok in E as [? _]|by rewrite length_insert| | |].
    + by apply Forall_insert.
    + exact (counted_release type l l' w w' r ts i E Hty Hlen Hi Hc).
    + apply (drain_at_insert ts i _ l); [exact Hdr|intros pc; by eapply release_drain_at|done].
Qed.

Lemma holders_replicate type (n : nat) : holders type (replicate n Away) = 0%nat.
Proof using. induction n; cbn [replicate holders]; [done|]. by change (holds type Away) with 0%nat. Qed.

Lemma sl_reach_inv (n : nat) w s : n < 2 ^ 31 -> rtc sl_step (sl_initial n w) s -> sl_inv s.
Proof using.
  intros Hn Hreach. assert (Hinit : sl_inv (sl_initial n w)).
  { split; cbn; [done|by rewrite length_replicate| | |].
    - apply Forall_replicate. exact I.
    - left. by rewrite !holders_replicate.
    - by intros i pc [? _]%lookup_replicate. }
  revert Hinit. induction Hreach; eauto using sl_step_inv.
Qed.


(** Once the flag is set it stays, and no thread acquires the lock. *)
Lemma sl_step_draining s s' :
  sl_step s s' -> Forall thread_valid (ss_threads s) -> draining (ss_lock s) = true ->
  draining (ss_lock s') = true /\
  forall i type, ss_threads s' !! i = Some (Holding type) -> ss_threads s !! i = Some (Holding type).
Proof using.
  intros Hstep Hv Hd.
  assert (Hno : forall a r l l', draining l = true -> effect a r l l' -> forall type, after_call a r <> Holding type).
  { intros a r l l' Hd' (_&_&He) type Hr. rewrite Hr in He. destruct He as [He _]. congruence. }
  destruct Hstep as [l w ts i o r l' w' Hi Hty E|l w ts i pc r l' w' Hi E|l w ts i type r l' w' Hi E|];
    cbn in *; [| | |done].
  - pose proof (run_op_ok _ _ _ _ _ _ Hty E) as Hef. split; [by apply Hef|]. intros j type.
    rewrite list_lookup_insert_Some. intros [(<-&Heq&_)|[_ ?]]; [|done]. by destruct (Hno _ _ _ _ Hd Hef type).
  - pose proof (Forall_lookup_1 _ _ _ _ Hv Hi) as Hpc. pose proof (sl_resume_ok _ _ _ _ _ _ Hpc E) as Hef.
    split; [by apply Hef|]. intros j type.
    rewrite list_lookup_insert_Some. intros [(<-&Heq&_)|[_ ?]]; [|done]. by destruct (Hno _ _ _ _ Hd Hef type).
  - apply sl_unlock_ok in E as (_&Hf&_). rewrite (flags_draining _ _ Hf). split; [done|]. intros j ty.
    rewrite list_lookup_insert_Some. by intros [(<-&?&_)|[_ ?]].
Qed.

(** A call of [sl_drain] returns: at once, or after one of its waits. *)
Inductive drain_returns : sl_state W -> sl_state W -> Prop :=
| drain_at_once l w ts i l' w' :
    ts !! i = Some Away -> sl_drain l w = Done (Returns 0, l', w') ->
    drain_returns (SlState l w ts) (SlState l' w' (<[i := Away]> ts))
| drain_waited l w ts i pc l' w' :
    ts !! i = Some (Waiting pc) -> pc = AtDrainNumber \/ pc = AtDrainQueue ->
    sl_resume pc l w = Done (Returns 0, l', w') ->
    drain_returns (SlState l w ts) (SlState l' w' (<[i := Away]> ts)).

Lemma drain_returns_step s s' : drain_returns s s' -> sl_step s s'.
Proof using.
  intros [l w ts i l' w' Hi E|l w ts i pc l' w' Hi Hpc E].
  - by apply (sl_start l w ts i OpDrain (Returns 0)).
  - pose proof (sl_go_on l w ts i pc (Returns 0) l' w' Hi E) as Hstep. by destruct Hpc as [->| ->].
Qed.

Lemma drain_returns_zero s s' :
  drain_returns s s' -> sl_inv s -> draining (ss_lock s') = true /\ sl_number (ss_lock s') = 0.
Proof using.
  intros [l w ts i l' w' Hi E|l w ts i pc l' w' Hi Hpc E] Hinv; cbn.
  - unfold sl_drain in E. apply bind_Done in E as (l1&_&E). apply bind_Done in E as (w1&_&E).
    apply drain_number_post in E as (Hf&Hn&[?|[Hz _]]); [done|].
    rewrite (flags_draining _ _ Hf), Hn. split; [apply drain_flag|done].
  - pose proof (si_drain _ Hinv i pc Hi) as Hd. unfold sl_resume in E. apply bind_Done in E as (l1&->%enter_ok&E).
    destruct Hpc as [->| ->]; cbn in Hd.
    + apply drain_number_post in E as (Hf&Hn&[?|[Hz _]]); [done|]. rewrite (flags_draining _ _ Hf), Hn. done.
    + apply drain_queue_post in E as (Hf&Hn&_). rewrite (flags_draining _ _ Hf), Hn. done.
Qed.

Definition nobody s : Prop := forall i type, ss_threads s !! i <> Some (Holding type).

Lemma drained_stays s s' :
  rtc sl_step s s' -> sl_inv s -> draining (ss_lock s) = true -> nobody s -> nobody s'.
Proof using.
  induction 1 as [|s1 s2 s3 Hstep _ IH]; [done|]. intros Hinv Hd Hno.
  destruct (sl_step_draining _ _ Hstep (si_valid _ Hinv) Hd) as [Hd2 Hk].
  apply IH; [by eapply sl_step_inv|done|]. intros i type Hi. by apply (Hno i type), Hk.
Qed.

End invariant.

(** ** Properties *)


(** C24: when a call of [sl_drain] returns, in any interleaving, no thread holds
    the lock, and none ever acquires it again. *)
Theorem sl_drain_correct {W} `{WaitOps W} (n : nat) (w : W) s s1 s2 :
  n < 2 ^ 31 -> rtc sl_step (sl_initial n w) s -> drain_returns s s1 -> rtc sl_step s1 s2 ->
  forall j type, ss_threads s2 !! j <> Some (Holding type).
Proof.
  intros Hn Hreach Hret Hlater. pose proof (sl_reach_inv n w s Hn Hreach) as Hinv.
  destruct (drain_returns_zero _ _ Hret Hinv) as [Hd Hz].
  pose proof (sl_step_inv _ _ (drain_returns_step _ _ Hret) Hinv) as Hinv1.
  apply (drained_stays _ _ Hlater Hinv1 Hd). intros j type Hj.
  pose proof (Forall_lookup_1 _ _ _ _ (si_valid _ Hinv1) Hj) as Hty.
  pose proof (si_counted _ Hinv1) as Hc. rewrite Hz in Hc. by eapply (counted_zero _ Hc j type).
Qed.

(** ** Concrete runs *)

Module LockExample.
(** A queue without threads. *)
#[local] Instance no_queue : WaitOps unit := {
  wq_empty w := Done (-1);
  wq_sleep after w := Done w;
  wq_get_first w := Done (0, w);
}.

(** The first of two threads holds the lock exclusively, the second one waits. *)
Definition busy : sl_state unit :=
  SlState (Shared_lock (-1) 0 0) tt [Holding SL_TYPE_EXCLUSIVE; Waiting (AtLock SL_TYPE_SHARED)].

Lemma busy_reached : rtc sl_step (sl_initial 2 tt) busy.
Proof.
  eapply rtc_l; [refine (sl_start _ _ _ 0 (OpLock SL_TYPE_EXCLUSIVE) (Returns 0) (Shared_lock (-1) 0 0) tt _ _ _);
                 [done|by right|done]|].
  eapply rtc_l; [refine (sl_start _ _ _ 1 (OpGreedy SL_TYPE_SHARED) (Blocks (AtLock SL_TYPE_SHARED))
                           (Shared_lock (-1) 0 0) tt _ _ _); [done|by left|done]|].
  apply rtc_refl.
Qed.


(** The second thread drains a free lock. *)
Definition drained : sl_state unit := SlState (Shared_lock 0 1 0) tt [Away; Away].

Lemma sl_drain_correct_witness :
  drain_returns (sl_initial 2 tt) drained /\ (forall j type, ss_threads drained !! j <> Some (Holding type)).
Proof.
  assert (Hret : drain_returns (sl_initial 2 tt) drained).
  { exact (drain_at_once (Shared_lock 0 0 0) tt [Away; Away] 1 (Shared_lock 0 1 0) tt eq_refl eq_refl). }
  split; [exact Hret|].
  apply (sl_drain_correct 2 tt (sl_initial 2 tt) drained drained); [lia|apply rtc_refl|exact Hret|apply rtc_refl].
Defined.

(** A type that is neither shared nor exclusive is granted without a lock. *)
Example unknown_type_granted : sl_lock_greedy 3 (Shared_lock (-1) 0 0) tt = Done (Returns 0, Shared_lock (-1) 0 0, tt).
Proof. reflexivity. Qed.

(** [sl_touch] is documented as a lock and an unlock, but it also succeeds on a
    drained lock. *)
Example touch_ignores_drain :
  sl_touch SL_TYPE_SHARED (Shared_lock 0 1 0) tt = Done (Returns 0, Shared_lock 0 1 0, tt) /\
  sl_lock_greedy SL_TYPE_SHARED (Shared_lock 0 1 0) tt = Done (Returns ENOLCK, Shared_lock 0 1 0, tt).
Proof. split; reflexivity. Qed.
End LockExample.
