(* ===== verification/Mp.v ===== *)
(** * The multiprocessor tables

    Models [arch/i686/mp.c] and [x86/mp.h]: the search for the floating pointer
    structure, the check of the configuration table, and the walk over its
    entries, which fills the table of CPUs.  Tables are read a byte at a time
    through the temporary mappings of [Mmu]. *)

From S2P Require Import Prelude Spinlock PhysAlloc Mmu.

(** ** x86/mp.h *)

(** [sizeof] and the offsets of the fields that are read. *)
Definition SIZEOF_MP : Z := 16.
Definition MP_PHYSADDR : Z := 4.
Definition SIZEOF_MPCONF : Z := 44.
Definition MPCONF_LENGTH : Z := 4.
Definition MPCONF_VERSION : Z := 6.
Definition MPCONF_LAPICADDR : Z := 36.
Definition SIZEOF_MPPROC : Z := 20.
Definition MPPROC_APICID : Z := 1.
Definition MPPROC_FLAGS : Z := 3.
Definition SIZEOF_MPIOAPIC : Z := 8.
Definition MPIOAPIC_APICNO : Z := 1.
Definition MPIOAPIC_ADDR : Z := 4.

Definition MPBOOT : Z := 0x02.
Definition MPPROC : Z := 0.
Definition MPBUS : Z := 1.
Definition MPIOAPIC : Z := 2.
Definition MPIOINTR : Z := 3.
Definition MPLINTR : Z := 4.

(** ** State *)

(** The variables of [mp.c]; [cpu_apics] is [__i686_cpu_apics]. *)
Record mpstate := Mpstate {
  local_apic : Z;
  ioapic_has : Z;
  ioapic_id : Z;
  ioapic : Z;
  ncpu : Z;
  boot_cpu : Z;
  cpu_apics : list Z;
  g_mpptr : Z;
  g_mplen : Z;
  g_ctptr : Z;
  g_ctlen : Z;
  g_cbptr : Z;
  g_cblen : Z;
  g_conf_table_body : Z;
}.

(** The variables [mpinit] writes. *)
Definition set_cpus (la has id io n b : Z) (ap : list Z) (g : mpstate) : mpstate :=
  Mpstate la has id io n b ap (g_mpptr g) (g_mplen g) (g_ctptr g) (g_ctlen g) (g_cbptr g) (g_cblen g)
    (g_conf_table_body g).
Definition set_mp (p len : Z) (g : mpstate) : mpstate :=
  Mpstate (local_apic g) (ioapic_has g) (ioapic_id g) (ioapic g) (ncpu g) (boot_cpu g) (cpu_apics g)
    p len (g_ctptr g) (g_ctlen g) (g_cbptr g) (g_cblen g) (g_conf_table_body g).
Definition set_ct (p len : Z) (g : mpstate) : mpstate :=
  Mpstate (local_apic g) (ioapic_has g) (ioapic_id g) (ioapic g) (ncpu g) (boot_cpu g) (cpu_apics g)
    (g_mpptr g) (g_mplen g) p len (g_cbptr g) (g_cblen g) (g_conf_table_body g).
Definition set_cb (p len body : Z) (g : mpstate) : mpstate :=
  Mpstate (local_apic g) (ioapic_has g) (ioapic_id g) (ioapic g) (ncpu g) (boot_cpu g) (cpu_apics g)
    (g_mpptr g) (g_mplen g) (g_ctptr g) (g_ctlen g) p len body.

(** ** Reading tables *)

Section tables.
(** A byte of the address space. *)
Variable rd : Z -> outcome Z.

Definition rd16 (a : Z) : outcome Z :=
  b0 ← rd a; b1 ← rd (a +u 1); Done (b0 + 2 ^ 8 * b1).
Definition rd32 (a : Z) : outcome Z :=
  b0 ← rd a; b1 ← rd (a +u 1); b2 ← rd (a +u 2); b3 ← rd (a +u 3);
  Done (b0 + 2 ^ 8 * b1 + 2 ^ 16 * b2 + 2 ^ 24 * b3).

(** The second operand is a string constant, given as its first four bytes. *)
Definition word_of (b0 b1 b2 b3 : Z) : Z := b0 + 2 ^ 8 * b1 + 2 ^ 16 * b2 + 2 ^ 24 * b3.
Definition SIG_MP : Z := word_of 0x5F 0x4D 0x50 0x5F.
Definition SIG_PCMP : Z := word_of 0x50 0x43 0x4D 0x50.

Definition compare4 (a sig : Z) : outcome bool := x ← rd32 a; Done (x =? sig).

Fixpoint sum_loop (n : nat) (addr acc : Z) : outcome Z :=
  match n with
  | O => Done acc
  | S n => b ← rd addr; sum_loop n (addr +u 1) (u8 (acc + b))
  end.
Definition sum (addr len : Z) : outcome Z := sum_loop (Z.to_nat len) addr 0.

Fixpoint mpsearch2_loop (fuel : nat) (p e : Z) : outcome Z :=
  match fuel with
  | O => OutOfFuel
  | S fuel =>
      if p <? e then
        c ← compare4 p SIG_MP;
        ok ← (if (c : bool) then x ← sum p SIZEOF_MP; Done (x =? 0) else Done false);
        if (ok : bool) then Done p else mpsearch2_loop fuel (p +u SIZEOF_MP) e
      else Done 0
  end.
Definition mpsearch2 (fuel : nat) (va len : Z) : outcome Z := mpsearch2_loop fuel va (va +u len).

(** The walk of [mpinit] over the entries: [ismp] and the new variables. *)
Fixpoint mpinit_loop (fuel : nat) (p e : Z) (g : mpstate) : outcome (Z * mpstate) :=
  match fuel with
  | O => OutOfFuel
  | S fuel =>
      if p <? e then
        ty ← rd p;
        if ty =? MPPROC then
          g ← (if ncpu g <? 256 then
                 id ← rd (p +u MPPROC_APICID);
                 fl ← rd (p +u MPPROC_FLAGS);
                 _ ← deref (cpu_apics g !! Z.to_nat (ncpu g));
                 Done (set_cpus (local_apic g) (ioapic_has g) (ioapic_id g) (ioapic g) (ncpu g)
                         (if truthy (Z.land fl MPBOOT) then ncpu g else boot_cpu g)
                         (<[Z.to_nat (ncpu g) := id]> (cpu_apics g)) g)
               else Done g);
          let g := set_cpus (local_apic g) (ioapic_has g) (ioapic_id g) (ioapic g) (ncpu g +u 1) (boot_cpu g)
                     (cpu_apics g) g in
          mpinit_loop fuel (p +u SIZEOF_MPPROC) e g
        else if ty =? MPIOAPIC then
          id ← rd (p +u MPIOAPIC_APICNO);
          addr ← rd32 (p +u MPIOAPIC_ADDR);
          mpinit_loop fuel (p +u SIZEOF_MPIOAPIC) e
            (set_cpus (local_apic g) 0 id addr (ncpu g) (boot_cpu g) (cpu_apics g) g)
        else if (ty =? MPBUS) || (ty =? MPIOINTR) || (ty =? MPLINTR) then mpinit_loop fuel (p +u 8) e g
        else Done (0, g)
      else Done (1, g)
  end.

Definition mpinit (fuel : nat) (g : mpstate) : outcome (Z * mpstate) :=
  let p := g_conf_table_body g in
  let e := g_conf_table_body g +u g_cblen g in
  let g := set_cpus (local_apic g) (ioapic_has g) (ioapic_id g) 0 (ncpu g) (boot_cpu g) (cpu_apics g) g in
  '(ismp, g) ← mpinit_loop fuel p e g;
  Done (if ncpu g <? 1 then 0 else ismp, g).

Definition endpage (va n : Z) : Z := Z.land (va +u (n - 1)) (not32 0xFFF).
End tables.

(** ** Finding the tables *)

Definition bytes_of (s : mmu) (a : Z) : outcome Z := va_load_byte a s.

Definition mpsearch1 (fuel : nat) (pa len : Z) (g : mpstate) (s : mmu) : outcome (Z * mpstate * mmu) :=
  '(ptr, s) ← __i686_mp_map_range pa len s;
  if negb (truthy ptr) then Done (0, g, s)
  else
    mp ← mpsearch2 (bytes_of s) fuel ptr len;
    if negb (truthy mp) then s ← __i686_mp_unmap_range fuel ptr len s; Done (0, g, s)
    else Done (mp, set_mp ptr len g, s).

Definition mpsearch (fuel : nat) (g : mpstate) (s : mmu) : outcome (Z * mpstate * mmu) :=
  '(a0, a1, s) ← _i686_get_mp s;
  '(mp, g, s) ← (if truthy a0 then mpsearch1 fuel a0 1024 g s else Done (0, g, s));
  if truthy mp then Done (mp, g, s)
  else
    '(mp, g, s) ← (if 1024 <=? a1 then mpsearch1 fuel (a1 -u 1024) 1024 g s else Done (0, g, s));
    if truthy mp then Done (mp, g, s) else mpsearch1 fuel 0xF0000 0x10000 g s.

(** The part of [mpconfig] after the checks of the header: the sum over the
    table, whose body is mapped on its own when it leaves the pages of the
    header. *)
Definition mpconfig_body (conf pa length : Z) (g : mpstate) (s : mmu) : outcome (Z * mpstate * mmu) :=
  let cblen := i32 (length - SIZEOF_MPCONF) in
  let g := set_cb (g_cbptr g) cblen (g_conf_table_body g) g in
  if endpage conf SIZEOF_MPCONF <? endpage conf length then
    x ← sum (bytes_of s) conf SIZEOF_MPCONF;
    '(cb, s) ← __i686_mp_map_range (pa +u SIZEOF_MPCONF) cblen s;
    let g := set_cb cb cblen (g_conf_table_body g) g in
    if negb (truthy cb) then Done (0, g, s)
    else
      y ← sum (bytes_of s) cb cblen;
      if truthy (u8 (x + y)) then Done (0, g, s)
      else Done (conf, set_cb cb cblen cb g, s)
  else
    let g := set_cb 0 cblen (g_conf_table_body g) g in
    x ← sum (bytes_of s) conf length;
    if truthy x then Done (0, g, s)
    else Done (conf, set_cb 0 cblen (conf +u SIZEOF_MPCONF) g, s).

(** The result is the configuration table, 0 for none. *)
Definition mpconfig (fuel : nat) (g : mpstate) (s : mmu) : outcome (Z * mpstate * mmu) :=
  '(mp, g, s) ← mpsearch fuel g s;
  pa ← (if truthy mp then rd32 (bytes_of s) (mp +u MP_PHYSADDR) else Done 0);
  if negb (truthy pa) then Done (0, g, s)
  else
    '(conf, s) ← __i686_mp_map_range pa SIZEOF_MPCONF s;
    let g := set_ct conf SIZEOF_MPCONF g in
    if negb (truthy conf) then Done (0, g, s)
    else
      c ← compare4 (bytes_of s) conf SIG_PCMP;
      if negb c then Done (0, g, s)
      else
        version ← bytes_of s (conf +u MPCONF_VERSION);
        if negb (version =? 1) && negb (version =? 4) then Done (0, g, s)
        else length ← rd16 (bytes_of s) (conf +u MPCONF_LENGTH); mpconfig_body conf pa length g s.

Definition _i686_initmp (fuel : nat) (g : mpstate) (s : mmu) : outcome (mpstate * mmu) :=
  '(conf, g, s) ← mpconfig fuel (set_mp 0 0 g) s;
  let g := set_cpus (local_apic g) 0 (ioapic_id g) 0 (ncpu g) 256 (cpu_apics g) g in
  '(ismp, g) ← (if truthy conf then
      '(ismp, g) ← mpinit (bytes_of s) fuel g;
      la ← rd32 (bytes_of s) (conf +u MPCONF_LAPICADDR);
      let g := set_cpus la (ioapic_has g) (ioapic_id g) (ioapic g) (ncpu g) (boot_cpu g) (cpu_apics g) g in
      let ismp := if negb (truthy (ioapic g)) then 0 else ismp in
      let ismp := if negb (truthy (local_apic g)) then 0 else ismp in
      let ismp := if ioapic g <? 0xfe000000 then 0 else ismp in
      let ismp := if local_apic g <? 0xfe000000 then 0 else ismp in
      Done (ismp, g)
    else Done (0, g));
  if truthy ismp then Done (g, s)
  else Done (set_cpus 0 0 (ioapic_id g) 0 1 0 (cpu_apics g) g, s).

(** ** Tables in memory *)

Definition is_byte (b : Z) : Prop := 0 <= b < 256.

#[export] Instance is_byte_dec b : Decision (is_byte b).
Proof. unfold is_byte. apply _. Defined.

Section read_props.
Variable rd : Z -> outcome Z.

(** The bytes [bs] from the address [a] on. *)
Definition bytes_in (a : Z) (bs : list Z) : Prop :=
  Forall is_byte bs /\ forall (i : nat) b, bs !! i = Some b -> rd (a + i) = Done b.

Lemma bytes_in_cons a b bs : bytes_in a (b :: bs) -> is_byte b /\ rd a = Done b /\ bytes_in (a + 1) bs.
Proof using.
  intros [Hb Hr]. apply Forall_cons in Hb as [Hb Hbs]. split; [done|]. split.
  - specialize (Hr 0%nat b eq_refl). by replace (a + 0%nat) with a in Hr by lia.
  - split; [done|]. intros i x Hx. specialize (Hr (S i) x Hx). by replace (a + 1 + i) with (a + S i) by lia.
Qed.

Lemma bytes_in_app a bs cs : bytes_in a (bs ++ cs) <-> bytes_in a bs /\ bytes_in (a + length bs) cs.
Proof using.
  unfold bytes_in. rewrite Forall_app. split.
  - intros [[? ?] Hr]. split_and!; try done; intros i b Hi.
    + apply Hr. by apply lookup_app_l_Some.
    + replace (a + length bs + i) with (a + (length bs + i)%nat) by lia. apply Hr.
      rewrite lookup_app_r by lia. by replace (length bs + i - length bs)%nat with i by lia.
  - intros [[? H1] [? H2]]. split; [done|]. intros i b. rewrite lookup_app_Some.
    intros [Hi|[Hge Hi]]; [by apply H1|]. specialize (H2 _ _ Hi).
    by replace (a + length bs + (i - length bs)%nat) with (a + i) in H2 by lia.
Qed.

Lemma rd32_ok a b0 b1 b2 b3 bs :
  bytes_in a (b0 :: b1 :: b2 :: b3 :: bs) -> 0 <= a -> a + 4 <= 2 ^ 32 -> rd32 rd a = Done (word_of b0 b1 b2 b3).
Proof using.
  intros (_&E0&(_&E1&(_&E2&(_&E3&_)%bytes_in_cons)%bytes_in_cons)%bytes_in_cons)%bytes_in_cons Ha Hov.
  unfold rd32. rewrite !u32_add_nowrap by lia. rewrite E0. cbn [mbind outcome_bind]. rewrite E1.
  replace (a + 1 + 1) with (a + 2) in E2, E3 by lia. replace (a + 2 + 1) with (a + 3) in E3 by lia.
  cbn [mbind outcome_bind]. rewrite E2. cbn [mbind outcome_bind]. by rewrite E3.
Qed.

(** The sum of a table modulo 256. *)
Definition checksum (bs : list Z) : Z := u8 (foldr Z.add 0 bs).

Lemma sum_loop_ok bs : forall a acc,
  bytes_in a bs -> 0 <= a -> a + length bs <= 2 ^ 32 -> is_byte acc ->
  sum_loop rd (length bs) a acc = Done (u8 (acc + foldr Z.add 0 bs)).
Proof using.
  induction bs as [|b bs IH]; intros a acc Hb Ha Hov Hacc; cbn [length sum_loop foldr].
  - rewrite Z.add_0_r. f_equal. symmetry. apply wrap_small. exact Hacc.
  - apply bytes_in_cons in Hb as (_&->&Hb). cbn [mbind outcome_bind]. cbn [length] in Hov.
    destruct bs as [|c bs]; [cbn [length sum_loop foldr]; by rewrite Z.add_0_r|].
    cbn [length] in Hov |- *. rewrite u32_add_nowrap by lia. change (S (length bs)) with (length (c :: bs)).
    rewrite (IH (a + 1)); [|done|lia|cbn [length]; lia|by apply wrap_range].
    f_equal. rewrite wrap_add_l by lia. f_equal. lia.
Qed.

Lemma sum_ok a bs (n : Z) :
  bytes_in a bs -> n = length bs -> 0 <= a -> a + length bs <= 2 ^ 32 -> sum rd a n = Done (checksum bs).
Proof using.
  intros Hb -> Ha Hov. unfold sum. rewrite Nat2Z.id. by apply sum_loop_ok.
Qed.

(** *** The floating pointer structure *)

(** A block of 16 bytes with the signature and a zero checksum. *)
Definition is_mp (bs : list Z) : bool :=
  match bs with
  | b0 :: b1 :: b2 :: b3 :: _ => (word_of b0 b1 b2 b3 =? SIG_MP) && (checksum bs =? 0)
  | _ => false
  end.

Lemma mpsearch2_block p e fuel bs :
  bytes_in p bs -> length bs = 16%nat -> 0 <= p -> p < e -> p + 16 <= 2 ^ 32 ->
  mpsearch2_loop rd (S fuel) p e = if is_mp bs then Done p else mpsearch2_loop rd fuel (p +u SIZEOF_MP) e.
Proof using.
  intros Hb Hl Hp He Hov. cbn [mpsearch2_loop]. destruct (Z.ltb_spec p e); [|lia].
  destruct bs as [|b0 [|b1 [|b2 [|b3 bs]]]]; try done.
  unfold compare4. rewrite (rd32_ok _ _ _ _ _ _ Hb) by lia. cbn [mbind outcome_bind is_mp].
  destruct (word_of b0 b1 b2 b3 =? SIG_MP); [|done]. cbn [mbind outcome_bind andb].
  rewrite (sum_ok p (b0 :: b1 :: b2 :: b3 :: bs)) by (rewrite ?Hl; (done || lia)). done.
Qed.

Lemma mpsearch2_loop_ok blocks : forall (fuel : nat) p,
  bytes_in p (concat blocks) -> Forall (fun b => length b = 16%nat) blocks -> 0 <= p ->
  p + 16 * length blocks < 2 ^ 32 -> (length blocks < fuel)%nat ->
  mpsearch2_loop rd fuel p (p + 16 * length blocks) =
    Done (match find_index is_mp blocks with Some i => p + 16 * i | None => 0 end).
Proof using.
  induction blocks as [|b blocks IH]; intros fuel p Hb Hl Hp Hov Hf; destruct fuel as [|fuel]; try lia.
  - cbn [mpsearch2_loop length find_index]. destruct (Z.ltb_spec p (p + 16 * 0%nat)); [lia|done].
  - apply Forall_cons in Hl as [Hlb Hl]. cbn [concat] in Hb. apply bytes_in_app in Hb as [Hb Hbs].
    cbn [length] in Hov, Hf |- *. rewrite (mpsearch2_block p _ fuel b) by (done || lia). cbn [find_index].
    destruct (is_mp b); [f_equal; lia|]. unfold SIZEOF_MP. rewrite u32_add_nowrap by lia.
    replace (p + 16 * S (length blocks)) with (p + 16 + 16 * length blocks) by lia.
    rewrite IH; [|by rewrite Hlb in Hbs|done|lia|lia|lia].
    destruct (find_index is_mp blocks); cbn; f_equal; lia.
Qed.
End read_props.

(** ** The entries of the configuration table *)

(** A processor, an I/O APIC, or one of the entries that are skipped. *)
Inductive mp_entry :=
| EProc (apicid version flags : Z) (rest : list Z)
| EIoapic (apicno version flags a0 a1 a2 a3 : Z)
| EOther (ty : Z) (rest : list Z).

Definition encode (x : mp_entry) : list Z :=
  match x with
  | EProc apicid version flags rest => MPPROC :: apicid :: version :: flags :: rest
  | EIoapic apicno version flags a0 a1 a2 a3 => [MPIOAPIC; apicno; version; flags; a0; a1; a2; a3]
  | EOther ty rest => ty :: rest
  end.

Definition entry_ok (x : mp_entry) : Prop :=
  match x with
  | EProc _ _ _ rest => length rest = 16%nat
  | EIoapic _ _ _ _ _ _ _ => True
  | EOther ty rest => (ty = MPBUS \/ ty = MPIOINTR \/ ty = MPLINTR) /\ length rest = 7%nat
  end.

#[export] Instance entry_ok_dec x : Decision (entry_ok x).
Proof. destruct x; apply _. Defined.

(** The size of an entry. *)
Definition entry_size (x : mp_entry) : Z := match x with EProc _ _ _ _ => 20 | _ => 8 end.

Lemma encode_length x : entry_ok x -> Z.of_nat (length (encode x)) = entry_size x.
Proof. destruct x; cbn; intros; lia. Qed.

(** What an entry does to the variables. *)
Definition apply_entry (g : mpstate) (x : mp_entry) : mpstate :=
  match x with
  | EProc apicid _ flags _ =>
      if ncpu g <? 256 then
        set_cpus (local_apic g) (ioapic_has g) (ioapic_id g) (ioapic g) (ncpu g + 1)
          (if truthy (Z.land flags MPBOOT) then ncpu g else boot_cpu g)
          (<[Z.to_nat (ncpu g) := apicid]> (cpu_apics g)) g
      else set_cpus (local_apic g) (ioapic_has g) (ioapic_id g) (ioapic g) (ncpu g + 1) (boot_cpu g) (cpu_apics g) g
  | EIoapic apicno _ _ a0 a1 a2 a3 =>
      set_cpus (local_apic g) 0 apicno (word_of a0 a1 a2 a3) (ncpu g) (boot_cpu g) (cpu_apics g) g
  | EOther _ _ => g
  end.

(** The state has room for the CPUs that are recorded. *)
Definition mp_ok (g : mpstate) : Prop := length (cpu_apics g) = 256%nat /\ 0 <= ncpu g < 2 ^ 32 - 1.

Section entries.
Variable rd : Z -> outcome Z.

Lemma mpinit_step x p e (fuel : nat) g bs :
  entry_ok x -> bytes_in rd p (encode x ++ bs) -> 0 <= p -> p < e -> p + entry_size x < 2 ^ 32 -> mp_ok g ->
  mpinit_loop rd (S fuel) p e g = mpinit_loop rd fuel (p + entry_size x) e (apply_entry g x).
Proof using.
  intros Hx Hb Hp He Hov [Hlen Hn]. cbn [mpinit_loop]. destruct (Z.ltb_spec p e); [|lia].
  destruct x as [apicid version flags rest|apicno version flags a0 a1 a2 a3|ty rest];
    cbn [encode app entry_size apply_entry] in *.
  - apply bytes_in_cons in Hb as (_&->&(_&E1&(_&_&(_&E3&_)%bytes_in_cons)%bytes_in_cons)%bytes_in_cons).
    cbn [mbind outcome_bind Z.eqb MPPROC]. unfold MPPROC_APICID, MPPROC_FLAGS, SIZEOF_MPPROC.
    rewrite !u32_add_nowrap by lia. destruct (Z.ltb_spec (ncpu g) 256);
      [|cbn [mbind outcome_bind]; by rewrite !u32_add_nowrap by lia].
    rewrite E1. replace (p + 1 + 1 + 1) with (p + 3) in E3 by lia. rewrite E3. cbn [mbind outcome_bind].
    destruct (lookup_lt_is_Some_2 (cpu_apics g) (Z.to_nat (ncpu g))) as [y ->]; [lia|]. cbn [deref mbind outcome_bind].
    cbn [set_cpus ncpu]. by rewrite u32_add_nowrap by lia.
  - pose proof (bytes_in_cons _ _ _ _ Hb) as (_&->&_).
    change [MPIOAPIC; apicno; version; flags; a0; a1; a2; a3] with
      ([MPIOAPIC; apicno; version; flags] ++ [a0; a1; a2; a3]) in Hb.
    change (MPIOAPIC :: apicno :: version :: flags :: a0 :: a1 :: a2 :: a3 :: bs) with
      ([MPIOAPIC; apicno; version; flags] ++ a0 :: a1 :: a2 :: a3 :: bs) in Hb.
    apply bytes_in_app in Hb as [Hb Ha]. apply bytes_in_cons in Hb as (_&_&(_&E1&_)%bytes_in_cons).
    cbn [mbind outcome_bind Z.eqb MPPROC MPIOAPIC]. unfold MPIOAPIC_APICNO, MPIOAPIC_ADDR, SIZEOF_MPIOAPIC.
    rewrite !u32_add_nowrap by lia. rewrite E1. cbn [mbind outcome_bind].
    change (p + length [MPIOAPIC; apicno; version; flags]) with (p + 4) in Ha.
    rewrite (rd32_ok _ _ _ _ _ _ _ Ha) by lia. done.
  - destruct Hx as [Hty _]. apply bytes_in_cons in Hb as (_&->&_). cbn [mbind outcome_bind].
    assert (Hstep : p +u 8 = p + 8) by (apply u32_add_nowrap; lia).
    destruct Hty as [->|[->| ->]]; cbn [Z.eqb Pos.eqb MPPROC MPIOAPIC MPBUS MPIOINTR MPLINTR orb]; by rewrite Hstep.
Qed.

Lemma apply_entry_ok g x :
  mp_ok g -> ncpu g + 1 < 2 ^ 32 - 1 -> mp_ok (apply_entry g x).
Proof using.
  intros [Hl Hn] Hb. destruct x; cbn [apply_entry]; [|done|done].
  destruct (ncpu g <? 256); split; cbn; rewrite ?length_insert; (done || lia).
Qed.

Lemma apply_entry_ncpu g x :
  ncpu (apply_entry g x) = ncpu g + match x with EProc _ _ _ _ => 1 | _ => 0 end.
Proof using. destruct x; cbn [apply_entry]; [by destruct (ncpu g <? 256)|cbn; lia|lia]. Qed.

Definition table_size (es : list mp_entry) : Z := foldr (fun x n => entry_size x + n) 0 es.

Lemma table_size_nonneg es : 0 <= table_size es.
Proof using.
  induction es as [|x es IH]; [done|]. change (table_size (x :: es)) with (entry_size x + table_size es).
  destruct x; cbn [entry_size]; lia.
Qed.

Lemma encode_all_length es :
  Forall entry_ok es -> Z.of_nat (length (concat (encode <$> es))) = table_size es.
Proof using.
  induction 1 as [|x es Hx _ IH]; [done|]. rewrite fmap_cons. cbn [concat]. rewrite length_app.
  change (table_size (x :: es)) with (entry_size x + table_size es). rewrite Nat2Z.inj_add, encode_length by done. lia.
Qed.

(** A table of entries, followed by [bs]. *)
Lemma mpinit_loop_ok es : forall p (fuel : nat) g e bs,
  Forall entry_ok es -> bytes_in rd p (concat (encode <$> es) ++ bs) -> 0 <= p -> p + table_size es < 2 ^ 32 ->
  p + table_size es <= e -> mp_ok g -> ncpu g + length es < 2 ^ 32 - 1 ->
  mpinit_loop rd (length es + fuel) p e g =
    mpinit_loop rd fuel (p + table_size es) e (fold_left apply_entry es g).
Proof using.
  induction es as [|x es IH]; intros p fuel g e bs Hes Hb Hp Hov He Hok Hn.
  { cbn. by rewrite Z.add_0_r. }
  apply Forall_cons in Hes as [Hx Hes]. rewrite fmap_cons in Hb. cbn [concat] in Hb. rewrite <-app_assoc in Hb.
  pose proof (table_size_nonneg es). change (table_size (x :: es)) with (entry_size x + table_size es) in *.
  assert (0 < entry_size x) by (destruct x; cbn; lia). cbn [length] in Hn.
  cbn [length Nat.add fold_left].
  rewrite (mpinit_step x p e _ g _ Hx Hb) by (done || lia).
  replace (p + (entry_size x + table_size es)) with (p + entry_size x + table_size es) in * by lia.
  pose proof (apply_entry_ncpu g x). apply bytes_in_app in Hb as [_ Hb]. rewrite encode_length in Hb by done.
  eapply IH; [done|exact Hb|lia|lia|lia| |].
  - apply apply_entry_ok; [done|lia].
  - destruct x; lia.
Qed.
End entries.

(** ** The result of the walk *)

Definition procs (es : list mp_entry) : list Z :=
  omap (fun x => match x with EProc apicid _ _ _ => Some apicid | _ => None end) es.
Definition ioapics (es : list mp_entry) : list Z :=
  omap (fun x => match x with EIoapic _ _ _ a0 a1 a2 a3 => Some (word_of a0 a1 a2 a3) | _ => None end) es.

Lemma fold_ncpu es : forall g, ncpu (fold_left apply_entry es g) = ncpu g + length (procs es).
Proof.
  induction es as [|x es IH]; intros g; cbn [fold_left]; [cbn; lia|].
  rewrite IH, apply_entry_ncpu. destruct x as [apicid version flags rest| |];
    [change (procs (EProc apicid version flags rest :: es)) with (apicid :: procs es); cbn [length]; lia
    |by rewrite Z.add_0_r..].
Qed.

Lemma fold_ioapic es : forall g, ioapic (fold_left apply_entry es g) = default (ioapic g) (last (ioapics es)).
Proof.
  induction es as [|x es IH]; intros g; cbn [fold_left]; [done|]. rewrite IH.
  destruct x; cbn [apply_entry ioapics omap list_omap].
  - by destruct (ncpu g <? 256).
  - fold (ioapics es). change (omap _ es) with (ioapics es). rewrite last_cons. by destruct (last (ioapics es)).
  - done.
Qed.

(** The APIC identifiers go into the table from [ncpu] on, as far as it
    reaches. *)
Lemma fold_apics es : forall g (i : nat),
  0 <= ncpu g -> length (cpu_apics g) = 256%nat ->
  cpu_apics (fold_left apply_entry es g) !! i =
    if decide (ncpu g <= i < Z.min 256 (ncpu g + length (procs es))) then procs es !! (i - Z.to_nat (ncpu g))%nat
    else cpu_apics g !! i.
Proof.
  induction es as [|x es IH]; intros g i Hn Hl; cbn [fold_left].
  { rewrite decide_False; [done|]. cbn. lia. }
  destruct x as [apicid version flags rest|apicno version flags a0 a1 a2 a3|ty rest].
  - pose proof (apply_entry_ncpu g (EProc apicid version flags rest)) as Hn'. cbn [apply_entry] in *.
    change (procs (EProc apicid version flags rest :: es)) with (apicid :: procs es). cbn [length].
    destruct (Z.ltb_spec (ncpu g) 256).
    + rewrite IH; cbn [set_cpus ncpu cpu_apics]; [|lia|by rewrite length_insert].
      destruct (decide (ncpu g = i)) as [Heq|Hne].
      * rewrite decide_False, decide_True by lia. replace (Z.to_nat (ncpu g)) with i by lia.
        rewrite list_lookup_insert_eq by lia. by rewrite Nat.sub_diag.
      * rewrite list_lookup_insert_ne by lia. repeat case_decide; try lia; [|done].
        replace (i - Z.to_nat (ncpu g))%nat with (S (i - Z.to_nat (ncpu g + 1)))%nat by lia. done.
    + rewrite IH; cbn [set_cpus ncpu cpu_apics]; [|lia|done]. rewrite !decide_False by lia. done.
  - cbn [apply_entry]. rewrite IH by done. done.
  - cbn [apply_entry]. rewrite IH by done. done.
Qed.

(** The positions of the bootstrap processors, as far as the table reaches. *)
Fixpoint boots (n : Z) (es : list mp_entry) : list Z :=
  match es with
  | [] => []
  | EProc _ _ flags _ :: es =>
      if (n <? 256) && truthy (Z.land flags MPBOOT) then n :: boots (n + 1) es else boots (n + 1) es
  | _ :: es => boots n es
  end.

Lemma fold_boot es : forall g, boot_cpu (fold_left apply_entry es g) = default (boot_cpu g) (last (boots (ncpu g) es)).
Proof.
  induction es as [|x es IH]; intros g; cbn [fold_left]; [done|]. rewrite IH.
  destruct x as [apicid version flags rest| |]; cbn [apply_entry boots]; [|done..].
  destruct (ncpu g <? 256); cbn [set_cpus ncpu boot_cpu andb]; [|done].
  destruct (truthy (Z.land flags MPBOOT)); [|done]. rewrite last_cons. by destruct (last (boots (ncpu g + 1) es)).
Qed.

(** The walk stops at the end of the table or at an entry of unknown type. *)
Lemma mpinit_loop_stop rd p e fuel g :
  (p = e \/ exists ty, p < e /\ rd p = Done ty /\ MPLINTR < ty) ->
  mpinit_loop rd (S fuel) p e g = Done (if decide (p = e) then 1 else 0, g).
Proof.
  unfold MPLINTR. intros [->|(ty&Hlt&Hrd&Hty)]; cbn [mpinit_loop].
  { rewrite decide_True by done. by destruct (Z.ltb_spec e e); [lia|]. }
  destruct (Z.ltb_spec p e); [|lia]. rewrite Hrd. cbn [mbind outcome_bind].
  unfold MPPROC, MPIOAPIC, MPBUS, MPIOINTR, MPLINTR. rewrite decide_False by lia.
  by rewrite !(proj2 (Z.eqb_neq ty _)) by lia.
Qed.

(** C37: [mpsearch2] over a range of 16-byte blocks returns the address of the
    first block that carries the signature [_MP_] and whose bytes sum to zero
    modulo 256, and 0 when there is none; it reads nothing outside the range
    and ends after one step per block. *)
Theorem mpsearch2_correct rd va blocks (fuel : nat) :
  bytes_in rd va (concat blocks) -> Forall (fun b => length b = 16%nat) blocks -> 0 < va ->
  va + 16 * length blocks < 2 ^ 32 -> (length blocks < fuel)%nat ->
  exists r, mpsearch2 rd fuel va (16 * length blocks) = Done r /\
    (r = 0 -> forall b, b ∈ blocks -> is_mp b = false) /\
    (r <> 0 -> exists (i : nat) b, r = va + 16 * i /\ blocks !! i = Some b /\ is_mp b = true /\
       forall (j : nat) c, (j < i)%nat -> blocks !! j = Some c -> is_mp c = false).
Proof.
  intros Hb Hl Hva Hov Hf. unfold mpsearch2. rewrite u32_add_nowrap by lia.
  rewrite mpsearch2_loop_ok by (done || lia). eexists; split; [done|].
  destruct (find_index is_mp blocks) as [i|] eqn:E; split; intros Hr; try lia.
  - apply find_index_Some in E as [(b&Hi&Hmp) Hmin]. by exists i, b.
  - intros b Hin. apply find_index_None in E. by apply (proj1 (Forall_forall _ _) E).
Qed.

(** [mpinit] walks a table of well-formed entries to its end, or to the
    first entry of unknown type, and leaves in [__i686_ncpu] the number of
    processor entries, in [__i686_cpu_apics] their APIC identifiers (the first
    256 of them, in order), in [__i686_ioapic] the address of the last I/O APIC
    (0 for none), in [__i686_boot_cpu] the position of the last bootstrap
    processor (as before for none); it reports a multiprocessor exactly when
    the end was reached and there is a processor. *)
Theorem mpinit_correct rd g es tail (fuel : nat) :
  let p := g_conf_table_body g in
  Forall entry_ok es -> bytes_in rd p (concat (encode <$> es) ++ tail) -> 0 <= p ->
  p + table_size es + length tail < 2 ^ 32 -> g_cblen g = table_size es + length tail ->
  (tail = [] \/ exists ty, head tail = Some ty /\ MPLINTR < ty) ->
  ncpu g = 0 -> length (cpu_apics g) = 256%nat -> length es < 2 ^ 32 - 1 -> (length es < fuel)%nat ->
  exists g', mpinit rd fuel g = Done (if decide (tail = [] /\ procs es <> []) then 1 else 0, g') /\
    ncpu g' = length (procs es) /\ ioapic g' = default 0 (last (ioapics es)) /\
    boot_cpu g' = default (boot_cpu g) (last (boots 0 es)) /\
    (forall i : nat, (i < 256)%nat -> (i < length (procs es))%nat -> cpu_apics g' !! i = procs es !! i) /\
    (forall i : nat, (length (procs es) <= i)%nat -> cpu_apics g' !! i = cpu_apics g !! i).
Proof.
  intros p Hes Hb Hp Hov Hcb Htail Hn0 Hlen Hn Hf. unfold mpinit. fold p. rewrite Hcb.
  pose proof (table_size_nonneg es). rewrite u32_add_nowrap by lia.
  set (g0 := set_cpus _ _ _ _ _ _ _ _). replace fuel with (length es + S (fuel - length es - 1))%nat by lia.
  rewrite (mpinit_loop_ok rd es p _ g0 _ tail) by (try done; try split; cbn [g0 set_cpus ncpu cpu_apics]; lia).
  set (g1 := fold_left apply_entry es g0).
  assert (Hg1 : ncpu g1 = length (procs es)).
  { unfold g1. rewrite fold_ncpu. cbn [g0 set_cpus ncpu]. lia. }
  rewrite mpinit_loop_stop.
  - cbn [mbind outcome_bind]. exists g1. split_and!; [|exact Hg1|apply fold_ioapic|unfold g1; rewrite fold_boot; cbn [g0 set_cpus ncpu boot_cpu]; by rewrite Hn0| |].
    + do 2 f_equal. rewrite Hg1. destruct (procs es) as [|y ys]; cbn [length].
      { destruct (decide (tail = [] /\ [] <> [])) as [[_ Hne]|_]; [by destruct Hne|done]. }
      destruct (Z.ltb_spec (S (length ys)) 1); [lia|]. destruct tail as [|b tail]; cbn [length] in *.
      * by rewrite !decide_True by (done || lia).
      * rewrite !decide_False; [done|by intros [? _]|lia].
    + intros i Hi Hi'. unfold g1. rewrite fold_apics by (cbn; lia || done). cbn [g0 set_cpus ncpu cpu_apics].
      rewrite Hn0. rewrite decide_True by lia. by rewrite Nat.sub_0_r.
    + intros i Hi'. unfold g1. rewrite fold_apics by (cbn; lia || done). cbn [g0 set_cpus ncpu cpu_apics].
      by rewrite decide_False by lia.
  - destruct Htail as [->|(ty&Hty&Hlt)]; [left; cbn; lia|]. right. destruct tail as [|b tail]; [done|].
    cbn [head] in Hty. injection Hty as ->. exists ty. cbn [length]. split; [lia|]. split; [|done].
    apply bytes_in_app in Hb as [_ Hb]. apply bytes_in_cons in Hb as (_&E&_).
    by rewrite encode_all_length in E by done.
Qed.

(** ** Concrete tables *)

Module MpExample.
(** Memory that holds [bs] from [base] on. *)
Definition memory (base : Z) (bs : list Z) (a : Z) : outcome Z := deref (bs !! Z.to_nat (a - base)).

Lemma bytes_in_memory base bs : Forall is_byte bs -> bytes_in (memory base bs) base bs.
Proof.
  intros Hb. split; [done|]. intros i b Hi. unfold memory.
  replace (Z.to_nat (base + i - base)) with i by lia. by rewrite Hi.
Qed.

(** A block without the signature, one with a bad checksum, a good one. *)
Definition floating : list (list Z) :=
  [ replicate 16 0;
    [0x5F; 0x4D; 0x50; 0x5F; 0; 0; 1; 0; 1; 4; 0; 0; 0; 0; 0; 0];
    [0x5F; 0x4D; 0x50; 0x5F; 0; 0; 1; 0; 1; 4; 0x9F; 0; 0; 0; 0; 0] ].

Lemma mpsearch2_correct_witness :
  exists r, mpsearch2 (memory 0x1000 (concat floating)) 4 0x1000 48 = Done r /\ r = 0x1020.
Proof.
  destruct (mpsearch2_correct (memory 0x1000 (concat floating)) 0x1000 floating 4) as (r&Hr&Hnone&Hsome).
  - apply bytes_in_memory. vm_compute. repeat constructor; intro; discriminate.
  - repeat constructor.
  - lia.
  - cbn. lia.
  - cbn. lia.
  - exists r. split; [exact Hr|]. vm_compute in Hr. by injection Hr as <-.
Defined.

(** Two processors, an I/O APIC, a bus. *)
Definition table : list mp_entry :=
  [ EProc 0 20 3 (replicate 16 0); EProc 6 20 1 (replicate 16 0);
    EIoapic 2 17 1 0 0 0xC0 0xFE; EOther MPBUS (replicate 7 1) ].

Definition g0 : mpstate := Mpstate 0 0 0 0 0 256 (replicate 256 0) 0 0 0 0 0 57 0x2000.

Lemma mpinit_correct_witness :
  exists g', mpinit (memory 0x2000 (concat (encode <$> table) ++ [9])) 5 g0 = Done (0, g') /\
    ncpu g' = 2 /\ ioapic g' = 0xFEC00000 /\ cpu_apics g' !! 1%nat = Some 6.
Proof.
  destruct (mpinit_correct (memory 0x2000 (concat (encode <$> table) ++ [9])) g0 table [9] 5)
    as (g'&Hg&Hn&Hio&_&Hid&_).
  - vm_compute. repeat constructor; (reflexivity || (left; reflexivity)).
  - apply bytes_in_memory. vm_compute. repeat constructor; intro; discriminate.
  - vm_compute. discriminate.
  - reflexivity.
  - reflexivity.
  - right. exists 9. split; reflexivity.
  - reflexivity.
  - reflexivity.
  - reflexivity.
  - cbn. lia.
  - exists g'. split; [exact Hg|]. split; [exact Hn|]. split; [exact Hio|].
    rewrite Hid by (cbn; lia). reflexivity.
Defined.
End MpExample.
