(* ===== verification/MpProps.v ===== *)
(** * The search for the multiprocessor tables, end to end

    [Mp] proves what the walks over the tables do for any memory.  This file
    composes them with the temporary mappings of [Mmu]: the ranges of physical
    memory that [__i686_mp_map_range] maps read as that memory does, and
    [_i686_initmp] finds the tables where the MultiProcessor Specification puts
    them and leaves the processors they name. *)

From S2P Require Import Prelude Spinlock PhysAlloc Mmu MmuProps Mp.

(** ** Physical memory as bytes *)

(** The byte of physical memory at [a]. *)
Definition phys (r : gmap Z Z) (a : Z) : outcome Z :=
  w ← deref (r !! (a - a mod 4)); Done (Z.land (Z.shiftr w (8 * (a mod 4))) 0xFF).

Lemma phys_byte r a b : phys r a = Done b -> is_byte b.
Proof.
  unfold phys. intros H. outcome_inv. change 0xFF with (2 ^ 8 - 1). rewrite land_ones_mod by lia.
  unfold is_byte. apply Z.mod_pos_bound. lia.
Qed.

(** ** Ranges of slots *)

(** The slots of the window below [b] are in use, those from [b] on are free. *)
Record window (b : Z) (s : mmu) : Prop := {
  wi_ok : mmu_ok s;
  wi_range : 3072 <= b <= 4096;
  wi_used : forall i, 3072 <= i < b -> exists e, kpt s !! Z.to_nat i = Some e /\ e <> 0;
  wi_free : forall i, b <= i < 4096 -> kpt s !! Z.to_nat i = Some 0;
}.

(** What is mapped below slot [b] is so in both states. *)
Record below (b : Z) (s s' : mmu) : Prop := {
  be_ram : ram s' = ram s;
  be_kpd : kpd s' = kpd s;
  be_kpt : forall i, 0 <= i < b -> kpt s' !! Z.to_nat i = kpt s !! Z.to_nat i;
}.

#[export] Instance below_preorder b : PreOrder (below b).
Proof.
  split; [by split|]. intros s1 s2 s3 [H1 H2 H3] [H4 H5 H6]. split; [congruence|congruence|].
  intros i Hi. by rewrite H6, H3.
Qed.

Lemma below_weaken b c s s' : c <= b -> below b s s' -> below c s s'.
Proof. intros Hc [? ? H]. split; [done|done|]. intros i Hi. apply H. lia. Qed.

Lemma run_length_ok b s (n : nat) : forall j,
  window b s -> b <= j -> j + n <= 4096 -> run_length n j (kpt s) = n.
Proof.
  induction n as [|n IH]; intros j Hw Hj Hn; [done|]. cbn [run_length]. unfold KPTMAX.
  destruct (Z.ltb_spec j 4096); [|lia]. rewrite (wi_free b s Hw) by lia. cbn [Z.eqb].
  rewrite IH by (done || lia). lia.
Qed.

Lemma find_run_ok b s (n k : nat) : forall i,
  window b s -> (0 < n)%nat -> b + n <= 4096 -> 3072 <= i <= b -> b < i + k -> find_run k i n (kpt s) = b.
Proof.
  induction k as [|k IH]; intros i Hw Hn Hb Hi Hk; [lia|]. cbn [find_run].
  destruct (decide (i = b)) as [->|].
  - rewrite (wi_free b s Hw) by lia. cbn [Z.eqb]. rewrite Nat2Z.id, (run_length_ok b s) by (done || lia).
    by rewrite Z.eqb_refl.
  - destruct (wi_used b s Hw i) as (e&->&He); [lia|]. apply Z.eqb_neq in He as ->. apply IH; (done || lia).
Qed.

Lemma slot_va_shift i : 0 <= i < 4096 -> 0xC0000000 +u u32 (Z.shiftl i 12) = slot_va i.
Proof.
  intros Hi. unfold slot_va. rewrite Z.shiftl_mul_pow2, (wrap_small 32 (i * 2 ^ 12)) by lia.
  rewrite wrap_small; lia.
Qed.

(** The entries of a range: slot [i + k] holds the page [k] after [pa]. *)
Lemma enter_run_ok (n : nat) : forall i pa s,
  length (kpt s) = 4096%nat -> 0 <= i -> i + n <= 4096 -> 0 <= pa -> pa + 4096 * n < 2 ^ 32 ->
  exists s', enter_run n i pa s = Done s' /\ length (kpt s') = 4096%nat /\ kpd s' = kpd s /\ ram s' = ram s /\
    map_sl s' = map_sl s /\
    (forall k : Z, 0 <= k < n -> kpt s' !! Z.to_nat (i + k) = Some (Z.lor (PTE_ADDR (pa + 4096 * k)) PTE_PW)) /\
    (forall j, 0 <= j -> j < i \/ i + n <= j -> kpt s' !! Z.to_nat j = kpt s !! Z.to_nat j).
Proof.
  induction n as [|n IH]; intros i pa s Hl Hi Hn Hpa Hov; cbn [enter_run].
  { exists s. split_and!; try done. lia. }
  destruct (lookup_lt_is_Some_2 (kpt s) (Z.to_nat i)) as [e He]; [lia|]. rewrite He. cbn [deref mbind outcome_bind].
  rewrite u32_add_nowrap by lia. set (s1 := invlpg _ _).
  destruct (IH (i + 1) (pa + 0x1000) s1) as (s'&->&Hl'&Hd&Hr&Hm&Hin&Hout);
    [cbn [s1 invlpg with_kpt kpt]; by rewrite length_insert|lia..|].
  exists s'. split_and!; try done.
  - intros k Hk. destruct (decide (k = 0)) as [->|].
    + rewrite Z.add_0_r, Z.mul_0_r, Z.add_0_r, Hout by lia. cbn [s1 invlpg with_kpt kpt].
      by rewrite list_lookup_insert_eq by lia.
    + replace (i + k) with (i + 1 + (k - 1)) by lia. rewrite Hin by lia. do 3 f_equal. lia.
  - intros j Hj Hout'. rewrite Hout by lia. cbn [s1 invlpg with_kpt kpt]. by rewrite list_lookup_insert_ne by lia.
Qed.

(** ** Reading through a range *)

(** The slots from [b] on map the [m] pages from that of [pa] on. *)
Record ranged (s : mmu) (b m pa : Z) : Prop := {
  ra_slots : 3072 <= b /\ b + m <= 4096;
  ra_phys : 0 <= pa /\ pa + 4096 * m < 2 ^ 32;
  ra_entry : forall q, 0 <= q < m -> kpt s !! Z.to_nat (b + q) = Some (Z.lor (PTE_ADDR (pa + 4096 * q)) PTE_PW);
}.

(** The address of [pa] in the range. *)
Definition range_va (b pa : Z) : Z := slot_va b + pa mod 4096.

Lemma ranged_below b m pa c s s' : below c s s' -> b + m <= c -> ranged s b m pa -> ranged s' b m pa.
Proof.
  intros Hb Hc [Hs Hp He]. split; [done|done|]. intros q Hq. rewrite (be_kpt _ _ _ Hb) by lia. by apply He.
Qed.

Lemma translate_range s b m pa k :
  ranged s b m pa -> 0 <= pa mod 4096 + k < 4096 * m -> translate (range_va b pa + k) s = Done (pa + k).
Proof.
  intros [Hs Hp He] Hk. unfold range_va. set (o := pa mod 4096 + k) in *.
  assert (0 <= o / 4096 < m) as Hq.
  { split; [apply Z.div_pos; lia|]. apply Z.div_lt_upper_bound; lia. }
  pose proof (Z.div_mod o 4096 ltac:(lia)) as Hdm. pose proof (Z.mod_pos_bound o 4096 ltac:(lia)).
  replace (slot_va b + pa mod 4096 + k) with (slot_va (b + o / 4096) + o mod 4096) by (unfold slot_va; lia).
  rewrite (translate_slot (pa + 4096 * (o / 4096))); [|unfold in_u32; lia|lia|lia|by apply He].
  rewrite PTE_ADDR_eq by (unfold in_u32; lia). f_equal.
  replace (4096 * (o / 4096)) with (o / 4096 * 4096) by lia. rewrite Z.mod_add by lia.
  assert (o = pa mod 4096 + k) by done. lia.
Qed.

(** A byte of the range is that of physical memory. *)
Lemma range_byte s b m pa k :
  ranged s b m pa -> 0 <= pa mod 4096 + k < 4096 * m ->
  bytes_of s (range_va b pa + k) = phys (ram s) (pa + k).
Proof.
  intros Hr Hk. unfold bytes_of, va_load_byte, va_load, phys.
  assert (Hm : (range_va b pa + k) mod 4 = (pa + k) mod 4).
  { unfold range_va, slot_va. pose proof (Z.div_mod pa 4096 ltac:(lia)).
    replace (0xC0000000 + 4096 * b + pa mod 4096 + k) with (pa + k + (0x30000000 + 1024 * b - 1024 * (pa / 4096)) * 4)
      by lia. by rewrite Z.mod_add. }
  rewrite Hm. replace (range_va b pa + k - (pa + k) mod 4) with (range_va b pa + (k - (pa + k) mod 4)) by lia.
  rewrite (translate_range s b m); [|done|].
  - replace (pa + (k - (pa + k) mod 4)) with (pa + k - (pa + k) mod 4) by lia. done.
  - pose proof (Z.div_mod pa 4096 ltac:(lia)) as Hp.
    set (o := pa mod 4096 + k) in *. assert ((pa + k) mod 4 = o mod 4) as ->.
    { replace (pa + k) with (o + 1024 * (pa / 4096) * 4) by lia. by rewrite Z.mod_add. }
    pose proof (Z.mod_pos_bound o 4 ltac:(lia)). pose proof (Z.mod_le o 4 ltac:(lia) ltac:(lia)). lia.
Qed.

Lemma range_bytes s b m pa k bs :
  ranged s b m pa -> 0 <= k -> pa mod 4096 + k + length bs <= 4096 * m ->
  bytes_in (phys (ram s)) (pa + k) bs -> bytes_in (bytes_of s) (range_va b pa + k) bs.
Proof.
  intros Hr Hk Hm [Hb Hp]. split; [done|]. intros i x Hx. pose proof (lookup_lt_Some _ _ _ Hx).
  pose proof (Z.mod_pos_bound pa 4096). rewrite <-Z.add_assoc, (range_byte s b m) by (done || lia).
  rewrite Z.add_assoc. by apply Hp.
Qed.

(** The number of pages that [n] bytes from [pa] on touch. *)
Definition pages_of (pa n : Z) : Z := (pa mod 4096 + n + 4095) / 4096.

Lemma pages_of_bound pa n : 0 < n ->
  1 <= pages_of pa n /\ pa mod 4096 + n <= 4096 * pages_of pa n /\
  4096 * (pages_of pa n - 1) < pa mod 4096 + n /\ 4096 * pages_of pa n <= n + 8190.
Proof.
  intros Hn. unfold pages_of. pose proof (Z.mod_pos_bound pa 4096 ltac:(lia)).
  pose proof (Z.div_mod (pa mod 4096 + n + 4095) 4096 ltac:(lia)).
  pose proof (Z.mod_pos_bound (pa mod 4096 + n + 4095) 4096 ltac:(lia)). lia.
Qed.

(** A range is mapped in the first free slots. *)
Lemma map_range_ok pa n b s :
  window b s -> 0 < n -> 0 <= pa -> pa + n + 8192 < 2 ^ 32 -> b + pages_of pa n <= 4096 ->
  exists s', __i686_mp_map_range pa n s = Done (range_va b pa, s') /\
    window (b + pages_of pa n) s' /\ below b s s' /\ ranged s' b (pages_of pa n) pa.
Proof.
  intros Hw Hn Hpa Hov Hb. pose proof (pages_of_bound pa n Hn) as Hm. pose proof (wi_range _ _ Hw).
  pose proof (Z.mod_pos_bound pa 4096 ltac:(lia)). destruct (wi_ok _ _ Hw) as [Hl Hd Hlk].
  unfold __i686_mp_map_range. rewrite land_fff, u32_add_nowrap, Z.shiftr_div_pow2 by lia.
  replace (pa mod 4096 + (n + 0xFFF)) with (pa mod 4096 + n + 4095) by lia. change (2 ^ 12) with 4096.
  fold (pages_of pa n). set (m := pages_of pa n) in *. unfold map_page_range. destruct (Z.eqb_spec m 0); [lia|].
  assert (HK : Z.of_nat KPTSLOTS = 1024) by done. revert HK. generalize KPTSLOTS. intros K HK.
  rewrite Hlk, kernlock_lock_free. cbn [mbind outcome_bind with_map_sl kpt]. unfold KPTMIN, KPTMAX.
  pose proof (find_run_ok b s (Z.to_nat m) K 3072 Hw) as Hf. rewrite Z2Nat.id in Hf by lia.
  rewrite Hf by lia. destruct (Z.leb_spec 3072 b), (Z.ltb_spec b 4096); try lia. cbn [andb].
  edestruct (enter_run_ok (Z.to_nat m) b pa) as (s'&E&Hl'&Hd'&Hr'&Hm'&Hin&Hout);
    [|lia..|rewrite E]; [exact Hl|]. cbn [mbind outcome_bind]. rewrite slot_va_shift by lia. rewrite Z2Nat.id in Hin, Hout by lia.
  destruct (Z.eqb_spec (slot_va b) 0) as [Hz|_]; [unfold slot_va in Hz; lia|].
  eexists. split; [unfold range_va; rewrite u32_add_nowrap by (unfold slot_va; lia); reflexivity|].
  cbn [with_map_sl kpt kpd ram with_map_sl] in *. split_and!.
  - split; [split; cbn [with_map_sl kpt kpd map_sl]; (done || congruence)|lia| |]; cbn [with_map_sl kpt]; intros i Hi.
    + destruct (decide (i < b)).
      * rewrite Hout by lia. apply (wi_used _ _ Hw). lia.
      * replace i with (b + (i - b)) by lia. rewrite Hin by lia. eexists. split; [done|].
        rewrite lor_flags; [unfold PTE_PW; pose proof (PTE_ADDR_aligned (pa + 4096 * (i - b))); unfold in_u32 in *; lia| |unfold PTE_PW; lia].
        apply PTE_ADDR_aligned. unfold in_u32. lia.
    + rewrite Hout by lia. apply (wi_free _ _ Hw). lia.
  - split; cbn [with_map_sl ram kpd kpt]; try done. intros i Hi. by rewrite Hout by lia.
  - split; [lia|lia|]. cbn [with_map_sl kpt]. intros q Hq. apply Hin. lia.
Qed.

(** The loop that clears [k] slots from [i] on. *)
Lemma unmap_from_ok (k : nat) : forall (fuel : nat) i s,
  (k < fuel)%nat -> 3072 <= i -> i + k <= 4096 -> length (kpt s) = 4096%nat ->
  exists s', unmap_from fuel (slot_va i) (slot_va (i + k - 1)) s = Done s' /\ length (kpt s') = 4096%nat /\
    kpd s' = kpd s /\ ram s' = ram s /\ map_sl s' = map_sl s /\
    forall j, 0 <= j -> kpt s' !! Z.to_nat j = if decide (i <= j < i + k) then Some 0 else kpt s !! Z.to_nat j.
Proof.
  induction k as [|k IH]; intros fuel i s Hf Hi Hk Hl; (destruct fuel as [|fuel]; [lia|]); cbn [unmap_from].
  - destruct (Z.leb_spec (slot_va i) (slot_va (i + 0%nat - 1))) as [H|_]; [unfold slot_va in H; lia|].
    exists s. split_and!; try done. intros j Hj. by rewrite decide_False by lia.
  - destruct (Z.leb_spec (slot_va i) (slot_va (i + S k - 1))) as [_|H]; [|unfold slot_va in H; lia].
    rewrite unmap_slot_ok by (done || lia). cbn [mbind outcome_bind].
    rewrite u32_add_nowrap by (unfold slot_va; lia).
    replace (slot_va i + 0x1000) with (slot_va (i + 1)) by (unfold slot_va; lia).
    replace (i + S k - 1) with (i + 1 + k - 1) by lia. set (s1 := invlpg _ _).
    destruct (IH fuel (i + 1) s1) as (s'&->&Hl'&Hd&Hr&Hm&Hj);
      [lia|lia|lia|cbn [s1 invlpg with_kpt kpt]; by rewrite length_insert|].
    exists s'. split_and!; try done. intros j Hj0. rewrite Hj by done. cbn [s1 invlpg with_kpt kpt].
    repeat case_decide; try lia; try done.
    + rewrite (proj1 (Z2Nat.inj_iff i j ltac:(lia) ltac:(lia))) by lia. by rewrite list_lookup_insert_eq by lia.
    + by rewrite list_lookup_insert_ne by lia.
Qed.

Lemma range_page b o : 0 <= b < 4096 -> - 4096 * b <= o < 4096 * (4096 - b) ->
  Z.land (slot_va b + o) (not32 0xFFF) = slot_va (b + o / 4096).
Proof.
  intros Hb Ho. change (not32 0xFFF) with (not32 (2 ^ 12 - 1)). rewrite land_not_mask by (unfold slot_va, in_u32; lia).
  unfold slot_va. change (2 ^ 12) with 4096. pose proof (Z.div_mod o 4096 ltac:(lia)).
  replace (0xC0000000 + 4096 * b + o) with (o + (0xC0000 + b) * 4096) at 2 by lia. rewrite Z.mod_add by lia. lia.
Qed.

(** Unmapping a range gives its slots back. *)
Lemma unmap_range_ok pa n b s (fuel : nat) :
  window (b + pages_of pa n) s -> 3072 <= b -> 0 < n -> pages_of pa n < fuel ->
  exists s', __i686_mp_unmap_range fuel (range_va b pa) n s = Done s' /\ window b s' /\ below b s s'.
Proof.
  intros Hw Hb Hn Hf. pose proof (pages_of_bound pa n Hn) as Hm. destruct (wi_range _ _ Hw) as [_ Hr].
  pose proof (Z.mod_pos_bound pa 4096 ltac:(lia)). destruct (wi_ok _ _ Hw) as [Hl Hd Hlk].
  unfold __i686_mp_unmap_range, range_va. rewrite u32_add_nowrap by (unfold slot_va; lia).
  rewrite <-Z.add_assoc, !range_page by lia. rewrite Z.div_small, Z.add_0_r by lia.
  assert ((pa mod 4096 + (n - 1)) / 4096 = pages_of pa n - 1) as ->.
  { unfold pages_of. replace (pa mod 4096 + n + 4095) with (pa mod 4096 + (n - 1) + 1 * 4096) by lia.
    rewrite Z.div_add by lia. lia. }
  set (m := pages_of pa n) in *.
  destruct (unmap_from_ok (Z.to_nat m) fuel b s) as (s'&E&Hl'&Hd'&Hr'&Hm'&Hj); [lia..|done|].
  rewrite Z2Nat.id in E, Hj by lia. replace (b + (m - 1)) with (b + m - 1) by lia. exists s'. split; [done|]. split.
  - split; [split; congruence|lia| |].
    + intros i Hi. rewrite Hj, decide_False by lia. apply (wi_used _ _ Hw). lia.
    + intros i Hi. rewrite Hj by lia. case_decide; [done|]. apply (wi_free _ _ Hw). lia.
  - split; [done|done|]. intros i Hi. by rewrite Hj, decide_False by lia.
Qed.

(** ** Where the tables are *)

Lemma window_has_free b s : window b s -> b < 4096 -> window_free s.
Proof.
  intros Hw Hb. destruct (wi_range _ _ Hw) as [Hlo _]. unfold window_free, first_free, KPTMIN, KPTMAX.
  destruct (find_index _ _) as [k|] eqn:E.
  - apply find_index_Some in E as [(e&He&_) _]. apply lookup_lt_Some in He. rewrite length_take in He. lia.
  - apply find_index_None in E. assert (take 1024 (drop 3072 (kpt s)) !! Z.to_nat (b - 3072) = Some 0) as H0.
    { rewrite lookup_take_lt, lookup_drop by lia. replace (3072 + Z.to_nat (b - 3072))%nat with (Z.to_nat b) by lia.
      apply (wi_free _ _ Hw). lia. }
    by apply (proj1 (Forall_lookup _ _) E) in H0.
Qed.

Lemma two_bytes lo hi k :
  is_byte lo -> is_byte hi -> 0 <= k <= 16 ->
  u32 (Z.shiftl (Z.lor (Z.shiftl hi 8) lo) k) = 2 ^ k * (lo + 2 ^ 8 * hi).
Proof.
  unfold is_byte. intros Hlo Hhi Hk. rewrite !Z.shiftl_mul_pow2 by lia.
  assert (Z.lor (hi * 2 ^ 8) lo = lo + 2 ^ 8 * hi) as ->.
  { pose proof (Z.add_lor_land (hi * 2 ^ 8) lo) as H. enough (Z.land (hi * 2 ^ 8) lo = 0) by lia.
    apply Z.bits_inj'. intros i Hi. rewrite Z.land_spec, Z.bits_0. destruct (Z.lt_ge_cases i 8).
    - by rewrite Z.mul_pow2_bits_low by lia.
    - rewrite (Z.bits_above_log2 lo), andb_false_r; [done|lia|]. destruct (decide (lo = 0)) as [->|]; [cbn; lia|].
      apply Z.lt_le_trans with 8; [apply Z.log2_lt_pow2; lia|done]. }
  rewrite Z.mul_comm, wrap_small; [done|]. assert (1 <= 2 ^ k <= 2 ^ 16) as H16.
  { split; [apply (Z.pow_le_mono_r 2 0); lia|apply Z.pow_le_mono_r; lia]. }
  change (2 ^ 8) with 256. change (2 ^ 16) with 65536 in H16. change (2 ^ 32) with 4294967296. nia.
Qed.

(** A word of the BIOS data area, in units of [2 ^ k] bytes. *)
Definition bda (r : gmap Z Z) (a k : Z) : outcome Z := w ← rd16 (phys r) a; Done (2 ^ k * w).

Lemma bda_inv r a k x : bda r a k = Done x -> 0 <= a < 2 ^ 31 ->
  exists lo hi, phys r a = Done lo /\ phys r (a + 1) = Done hi /\ is_byte lo /\ is_byte hi /\ x = 2 ^ k * (lo + 2 ^ 8 * hi).
Proof.
  intros H Ha. unfold bda, rd16 in H. rewrite u32_add_nowrap in H by lia. outcome_inv.
  eexists _, _. split_and!; try done; by eapply phys_byte.
Qed.

(** The first page is mapped, read and unmapped. *)
Lemma get_mp_ok b s e t :
  window b s -> b < 4096 -> bda (ram s) 0x40E 4 = Done e -> bda (ram s) 0x413 10 = Done t ->
  exists s', _i686_get_mp s = Done (e, t, s') /\ window b s' /\ below 4096 s s'.
Proof.
  intros Hw Hb He Ht. destruct (bda_inv _ _ _ _ He ltac:(lia)) as (l0&h0&El0&Eh0&Hl0&Hh0&->).
  destruct (bda_inv _ _ _ _ Ht ltac:(lia)) as (l1&h1&El1&Eh1&Hl1&Hh1&->).
  destruct (map_page_ok 0 s (wi_ok _ _ Hw) (window_has_free b s Hw Hb)) as (i&Hi&Hz&E).
  unfold _i686_get_mp. rewrite E. cbn [mbind outcome_bind]. set (s1 := Mmu _ _ _ _ _).
  destruct (wi_ok _ _ Hw) as [Hlen Hd Hlk].
  assert (Hr : ranged s1 i 1 0).
  { split; [lia|lia|]. intros q Hq. replace q with 0 by lia. rewrite Z.add_0_r, Z.mul_0_r.
    cbn [s1 kpt]. by rewrite list_lookup_insert_eq by lia. }
  assert (Hb1 : forall k x, phys (ram s) k = Done x -> 0 <= k < 4096 -> va_load_byte (slot_va i + k) s1 = Done x).
  { intros k x Hx Hk. pose proof (range_byte s1 i 1 0 k Hr Hk) as Hy. unfold bytes_of, range_va in Hy.
    rewrite Zmod_0_l, Z.add_0_r, Z.add_0_l in Hy. by rewrite Hy. }
  destruct (Z.eqb_spec (slot_va i) 0) as [H0|_]; [unfold slot_va in H0; lia|].
  rewrite <-!Z.add_assoc. change (0x400 + 0x0F) with 0x40F. change (0x400 + 0x0E) with 0x40E.
  change (0x400 + 0x14) with 0x414. change (0x400 + 0x13) with 0x413. change (0x40E + 1) with 0x40F in Eh0. change (0x413 + 1) with 0x414 in Eh1.
  rewrite (Hb1 _ _ Eh0), (Hb1 _ _ El0), (Hb1 _ _ Eh1), (Hb1 _ _ El1) by lia.
  cbn [mbind outcome_bind]. rewrite unmap_slot_ok; [|done|cbn [s1 kpt]; by rewrite length_insert].
  cbn [mbind outcome_bind]. eexists. rewrite !two_bytes by (done || lia). split; [done|].
  cbn [s1 invlpg with_kpt kpt]. rewrite slot_restored by done.
  split; [destruct Hw as [_ H1 H2 H3]; by split; [split| | |]|by split].
Qed.

(** ** The search *)

(** The [n] bytes of physical memory from [a] on, and their 16-byte blocks. *)
Definition phys_list (r : gmap Z Z) (a n : Z) : list Z :=
  (fun k => match phys r (a + k) with Done b => b | _ => 0 end) <$> seqZ 0 n.
Definition phys_blocks (r : gmap Z Z) (a n : Z) : list (list Z) :=
  (fun k => phys_list r (a + 16 * k) 16) <$> seqZ 0 (n / 16).

(** The [n] bytes from [a] on are memory. *)
Definition has_bytes (r : gmap Z Z) (a n : Z) : Prop := forall k, 0 <= k < n -> is_Some (r !! (a + k - (a + k) mod 4)).

Lemma phys_list_length r a n : 0 <= n -> Z.of_nat (length (phys_list r a n)) = n.
Proof. intros Hn. unfold phys_list. rewrite length_fmap, length_seqZ. lia. Qed.

Lemma phys_list_ok r a n : has_bytes r a n -> bytes_in (phys r) a (phys_list r a n).
Proof.
  intros H. assert (Hp : forall k, 0 <= k < n -> exists b, phys r (a + k) = Done b).
  { intros k Hk. destruct (H k Hk) as [w Hw]. unfold phys. rewrite Hw. by eexists. }
  split.
  - apply Forall_fmap, Forall_forall. intros k Hk%elem_of_seqZ. cbn. destruct (Hp k) as [b E]; [lia|].
    rewrite E. by eapply phys_byte.
  - intros i b (k&->&[-> Hk]%lookup_seqZ)%list_lookup_fmap_Some.
    destruct (Hp (0 + i)) as [b E]; [lia|]. rewrite Z.add_0_l in *. by rewrite E.
Qed.

Lemma phys_blocks_ok r a (n : nat) : has_bytes r a (16 * n) -> bytes_in (phys r) a (concat (phys_blocks r a (16 * n))).
Proof.
  revert a. induction n as [|n IH]; intros a H; [by split; [constructor|]|]. unfold phys_blocks.
  rewrite Z.mul_comm, Z.div_mul, seqZ_cons by lia. rewrite fmap_cons. cbn [concat]. apply bytes_in_app.
  rewrite Z.mul_0_r, Z.add_0_r, phys_list_length by lia. split; [apply phys_list_ok; intros k Hk; apply H; lia|].
  replace (Z.pred (S n)) with (n : Z) by lia. replace (Z.succ 0) with (1 + 0) by lia. rewrite <-(fmap_add_seqZ 1 0), <-list_fmap_compose.
  specialize (IH (a + 16)). unfold phys_blocks in IH. rewrite Z.mul_comm, Z.div_mul in IH by lia.
  erewrite list_fmap_ext; [apply IH|].
  - intros k Hk. replace (a + 16 + k) with (a + (16 + k)) by lia. apply H. lia.
  - intros i k _. cbn. f_equal. lia.
Qed.

Lemma phys_blocks_length r a (n : nat) :
  length (phys_blocks r a (16 * n)) = n /\ Forall (fun b => length b = 16%nat) (phys_blocks r a (16 * n)).
Proof.
  unfold phys_blocks. rewrite Z.mul_comm, Z.div_mul, length_fmap, length_seqZ by lia. split; [lia|].
  apply Forall_fmap, Forall_forall. intros k _. cbn. pose proof (phys_list_length r (a + 16 * k) 16 ltac:(lia)). lia.
Qed.

(** The physical address of the floating pointer structure in an area. *)
Definition scan (r : gmap Z Z) (pa len : Z) : option Z :=
  (fun i : nat => pa + 16 * i) <$> find_index is_mp (phys_blocks r pa len).

(** The 16 bytes at [va] are those of physical memory at [fp]. *)
Definition located (s : mmu) (va fp : Z) : Prop :=
  0 < va /\ va + 16 < 2 ^ 32 /\ forall k, 0 <= k < 16 -> bytes_of s (va + k) = phys (ram s) (fp + k).

(** The variables that the search leaves alone. *)
Definition same_cpus (g g' : mpstate) : Prop := ncpu g' = ncpu g /\ cpu_apics g' = cpu_apics g.

(** What a search that is to find [o] leaves: the area stays mapped when the
    structure is in it. *)
Definition searched (b : Z) (s : mmu) (g : mpstate) (o : option Z) (res : Z * mpstate * mmu) : Prop :=
  let '(va, g', s') := res in
  below b s s' /\ same_cpus g g' /\
  match o with
  | Some fp => located s' va fp /\ exists b', b <= b' <= b + 17 /\ window b' s'
  | None => va = 0 /\ window b s'
  end.

Lemma mpsearch1_ok (fuel : nat) pa (n : nat) b g s :
  window b s -> b + 17 <= 4096 -> has_bytes (ram s) pa (16 * n) -> 0 < n <= 4096 -> 0 <= pa < 2 ^ 31 ->
  pages_of pa (16 * n) <= 17 -> (n < fuel)%nat -> (17 < fuel)%nat ->
  exists res, mpsearch1 fuel pa (16 * n) g s = Done res /\ searched b s g (scan (ram s) pa (16 * n)) res.
Proof.
  intros Hw Hb Hh Hn Hpa Hm Hf Hf'. pose proof (wi_range _ _ Hw).
  destruct (map_range_ok pa (16 * n) b s Hw) as (s1&E&Hw1&Hb1&Hr1); [lia..|].
  pose proof (pages_of_bound pa (16 * n) ltac:(lia)) as (_&Hp2&_). pose proof (Z.mod_pos_bound pa 4096 ltac:(lia)).
  destruct (phys_blocks_length (ram s) pa n) as [Hbl H16]. pose proof (phys_blocks_ok _ _ _ Hh) as Hbs.
  set (bl := phys_blocks (ram s) pa (16 * n)) in *. rewrite <-(be_ram _ _ _ Hb1) in Hbs.
  assert (Hlen : Z.of_nat (length (concat bl)) = 16 * n).
  { rewrite <-Hbl. clear -H16. induction H16 as [|x l Hx _ IH]; [done|]. cbn [concat length]. rewrite length_app. lia. }
  assert (Hin : bytes_in (bytes_of s1) (range_va b pa) (concat bl)).
  { pose proof (range_bytes s1 b _ pa 0 (concat bl) Hr1) as Hx. rewrite !Z.add_0_r in Hx. apply Hx; (done || lia). }
  assert (Hva : 0xC0000000 <= range_va b pa /\ range_va b pa + 16 * n <= 0xC1000000) by (unfold range_va, slot_va; lia).
  unfold mpsearch1. rewrite E. cbn [mbind outcome_bind]. rewrite (proj2 (truthy_true _)) by lia. cbn [negb].
  unfold mpsearch2. rewrite u32_add_nowrap by lia. replace (range_va b pa + 16 * n) with (range_va b pa + 16 * length bl) by lia.
  rewrite mpsearch2_loop_ok by (done || lia). cbn [mbind outcome_bind]. unfold scan. fold bl.
  destruct (find_index is_mp bl) as [i|] eqn:Ei; cbn [fmap option_fmap option_map].
  - apply find_index_Some in Ei as [(x&Hx%lookup_lt_Some&_) _].
    rewrite (proj2 (truthy_true _)) by lia. cbn [negb]. eexists. split; [done|]. split; [done|]. split; [done|]. split.
    + split; [lia|]. split; [lia|]. intros k Hk. rewrite <-!Z.add_assoc. apply (range_byte s1 b _ pa _ Hr1). lia.
    + eexists. split; [|exact Hw1]. pose proof (pages_of_bound pa (16 * n) ltac:(lia)). lia.
  - cbn [truthy Z.eqb negb]. destruct (unmap_range_ok pa (16 * n) b s1 fuel Hw1) as (s2&->&Hw2&Hb2); [lia..|].
    cbn [mbind outcome_bind]. eexists. split; [done|]. split; [by etrans|]. done.
Qed.

(** The areas that are searched, given the two words of the BIOS data area:
    the first kilobyte of the extended area, the last one of base memory, and
    the BIOS. *)
Definition mp_areas (e t : Z) : list (Z * Z) :=
  (if truthy e then [(e, 1024)] else []) ++ (if 1024 <=? t then [(t - 1024, 1024)] else []) ++ [(0xF0000, 0x10000)].

Definition first_scan (r : gmap Z Z) (l : list (Z * Z)) : option Z :=
  foldr (fun a o => match scan r a.1 a.2 with Some fp => Some fp | None => o end) None l.

(** The floating pointer structure of the machine. *)
Definition floating_pointer (r : gmap Z Z) : option Z :=
  match bda r 0x40E 4, bda r 0x413 10 with
  | Done e, Done t => first_scan r (mp_areas e t)
  | _, _ => None
  end.

(** The memory that the search reads. *)
Definition searchable (r : gmap Z Z) : Prop :=
  exists e t, bda r 0x40E 4 = Done e /\ bda r 0x413 10 = Done t /\
    Forall (fun a => has_bytes r a.1 a.2) (mp_areas e t).

Lemma searched_trans b s s1 g o res :
  below b s s1 -> searched b s1 g o res -> searched b s g o res.
Proof. destruct res as [[va g'] s']. intros H (H1&H2&H3). split; [by etrans|done]. Qed.

(** One of the two short areas, which is searched when [c] holds. *)
Lemma mpsearch_kilobyte (fuel : nat) (c : bool) pa b g s :
  window b s -> b + 17 <= 4096 -> (c = true -> has_bytes (ram s) pa 1024 /\ 0 <= pa < 2 ^ 31) -> (64 < fuel)%nat ->
  exists res, (if c then mpsearch1 fuel pa 1024 g s else Done (0, g, s)) = Done res /\
    searched b s g (first_scan (ram s) (if c then [(pa, 1024)] else [])) res.
Proof.
  intros Hw Hb Hc Hf. destruct c; [|by exists (0, g, s)]. destruct (Hc eq_refl) as [Hh Hpa].
  destruct (mpsearch1_ok fuel pa 64 b g s) as (res&E&Hres); try done; [|lia|].
  - pose proof (pages_of_bound pa 1024 ltac:(lia)). change (16 * 64%nat) with 1024. lia.
  - exists res. split; [exact E|]. cbn [first_scan foldr fst snd]. change 1024 with (16 * 64%nat).
    by destruct (scan (ram s) pa (16 * 64%nat)).
Qed.

Lemma first_scan_app r l1 l2 :
  first_scan r (l1 ++ l2) = match first_scan r l1 with Some fp => Some fp | None => first_scan r l2 end.
Proof. induction l1 as [|a l1 IH]; [done|]. cbn. by destruct (scan r a.1 a.2). Qed.

(** The search finds the floating pointer structure. *)
Lemma mpsearch_ok (fuel : nat) b g s :
  window b s -> b + 17 <= 4096 -> searchable (ram s) -> (4096 < fuel)%nat ->
  exists res, mpsearch fuel g s = Done res /\ searched b s g (floating_pointer (ram s)) res.
Proof.
  intros Hw Hb (e&t&He&Ht&Hareas) Hf. destruct (get_mp_ok b s e t Hw ltac:(lia) He Ht) as (s1&E1&Hw1&Hb1).
  apply (below_weaken _ b) in Hb1; [|lia]. pose proof (be_ram _ _ _ Hb1) as Hr1.
  destruct (bda_inv _ _ _ _ He ltac:(lia)) as (l0&h0&_&_&Hl0&Hh0&He').
  destruct (bda_inv _ _ _ _ Ht ltac:(lia)) as (l1&h1&_&_&Hl1&Hh1&Ht'). unfold is_byte in *.
  unfold mpsearch, floating_pointer. rewrite E1, He, Ht. cbn [mbind outcome_bind]. unfold mp_areas in *.
  rewrite !Forall_app in Hareas. destruct Hareas as (H1&H2&H3). rewrite !first_scan_app.
  destruct (mpsearch_kilobyte fuel (truthy e) e b g s1) as (((va&g1)&s2)&->&Hs2&Hg1&Hres1); [done|done| |lia|].
  { intros Hc. rewrite Hc in H1. rewrite Hr1. split; [exact (Forall_inv H1)|lia]. }
  cbn [mbind outcome_bind]. rewrite Hr1 in Hres1. assert (below b s s2) as Hs by (by etrans).
  destruct (first_scan (ram s) (if truthy e then _ else _)) as [fp|].
  { rewrite (proj2 (truthy_true va)) by (destruct Hres1 as [[? _] _]; lia). by eexists. }
  destruct Hres1 as [-> Hw2]. cbn [truthy Z.eqb negb]. pose proof (be_ram _ _ _ Hs) as Hr2.
  destruct (mpsearch_kilobyte fuel (1024 <=? t) (t - 1024) b g1 s2) as (((va&g2)&s3)&E3&Hs3&Hg2&Hres2); [done|done| |lia|].
  { intros Hc. rewrite Hc in H2. rewrite Hr2. apply Z.leb_le in Hc. split; [exact (Forall_inv H2)|lia]. }
  replace (t -u 1024) with (u32 (t - 1024)) by done.
  assert ((if 1024 <=? t then mpsearch1 fuel (u32 (t - 1024)) 1024 g1 s2 else Done (0, g1, s2)) = Done (va, g2, s3)) as ->.
  { destruct (Z.leb_spec 1024 t); [|done]. by rewrite wrap_small by lia. }
  cbn [mbind outcome_bind]. rewrite Hr2 in Hres2. assert (below b s s3) as Hs' by (by etrans).
  assert (same_cpus g g2) as Hg by (destruct Hg1, Hg2; split; congruence).
  destruct (first_scan (ram s) (if 1024 <=? t then _ else _)) as [fp|].
  { rewrite (proj2 (truthy_true va)) by (destruct Hres2 as [[? _] _]; lia). by eexists. }
  destruct Hres2 as [-> Hw3]. cbn [truthy Z.eqb negb]. pose proof (be_ram _ _ _ Hs') as Hr3.
  destruct (mpsearch1_ok fuel 0xF0000 (Z.to_nat 4096) b g2 s3) as (res&E4&Hres3); [done|done| |lia|lia| |lia|lia|].
  { rewrite Hr3. exact (Forall_inv H3). }
  { done. }
  exists res. change (16 * Z.to_nat 4096) with 0x10000 in *. split; [exact E4|].
  destruct res as ((va&g3)&s4), Hres3 as (Hs4&Hg3&Hres3). split; [by etrans|].
  split; [destruct Hg, Hg3; split; congruence|]. rewrite Hr3 in Hres3. cbn [first_scan foldr fst snd].
  by destruct (scan (ram s) 0xF0000 0x10000).
Qed.

(** ** The configuration table *)

(** Little-endian numbers in physical memory. *)
Definition little_endian (bs : list Z) : Z := foldr (fun b x => b + 2 ^ 8 * x) 0 bs.
Definition phys_word (r : gmap Z Z) (a n : Z) : Z := little_endian (phys_list r a n).

(** Fields of the structures in physical memory. *)
Definition mp_physaddr (r : gmap Z Z) (fp : Z) : Z := phys_word r (fp + MP_PHYSADDR) 4.
Definition conf_signature (r : gmap Z Z) (pa : Z) : Z := phys_word r pa 4.
Definition conf_length (r : gmap Z Z) (pa : Z) : Z := phys_word r (pa + MPCONF_LENGTH) 2.
Definition conf_version (r : gmap Z Z) (pa : Z) : Z := phys_word r (pa + MPCONF_VERSION) 1.
Definition conf_lapicaddr (r : gmap Z Z) (pa : Z) : Z := phys_word r (pa + MPCONF_LAPICADDR) 4.

(** The entries of the table. *)
Definition conf_body (r : gmap Z Z) (pa : Z) : list Z := phys_list r (pa + SIZEOF_MPCONF) (conf_length r pa - SIZEOF_MPCONF).

(** The table is one of the versions the kernel knows, and complete. *)
Definition conf_valid (r : gmap Z Z) (pa : Z) : bool :=
  (conf_signature r pa =? SIG_PCMP) && ((conf_version r pa =? 1) || (conf_version r pa =? 4)) &&
  (checksum (phys_list r pa (conf_length r pa)) =? 0).

(** The configuration table of the machine. *)
Definition config_table (r : gmap Z Z) : option Z :=
  fp ← floating_pointer r;
  let pa := mp_physaddr r fp in
  if truthy pa && conf_valid r pa then Some pa else None.

Lemma has_bytes_sub r a n k m : has_bytes r a n -> 0 <= k -> k + m <= n -> has_bytes r (a + k) m.
Proof. intros H Hk Hm i Hi. rewrite <-Z.add_assoc. apply H. lia. Qed.

Section words.
Context (s : mmu) (va pa n : Z).
Hypothesis Hva : 0 <= va /\ va + n < 2 ^ 32.
Hypothesis Hrd : forall k, 0 <= k < n -> bytes_of s (va + k) = phys (ram s) (pa + k).
Hypothesis Hmem : has_bytes (ram s) pa n.

Lemma view_bytes k m : 0 <= k -> 0 <= m -> k + m <= n -> bytes_in (bytes_of s) (va + k) (phys_list (ram s) (pa + k) m).
Proof using Hrd Hmem.
  intros Hk Hm Hn. destruct (phys_list_ok (ram s) (pa + k) m) as [Hb Hp]; [by eapply has_bytes_sub|].
  split; [done|]. intros i b Hi. pose proof (lookup_lt_Some _ _ _ Hi) as Hlt.
  pose proof (phys_list_length (ram s) (pa + k) m Hm). rewrite <-Z.add_assoc, Hrd by lia. rewrite Z.add_assoc. by apply Hp.
Qed.

Lemma view_rd32 k : 0 <= k -> k + 4 <= n -> rd32 (bytes_of s) (va +u k) = Done (phys_word (ram s) (pa + k) 4).
Proof using Hva Hrd Hmem.
  intros Hk Hn. rewrite u32_add_nowrap by lia. pose proof (view_bytes k 4 Hk ltac:(lia) Hn) as H.
  unfold phys_word. pose proof (phys_list_length (ram s) (pa + k) 4 ltac:(lia)) as Hl.
  destruct (phys_list (ram s) (pa + k) 4) as [|b0 [|b1 [|b2 [|b3 [|b4 l]]]]]; try (cbn [length] in Hl; lia).
  rewrite (rd32_ok _ _ _ _ _ _ _ H) by lia. unfold word_of, little_endian. cbn [foldr]. f_equal. lia.
Qed.

Lemma view_rd16 k : 0 <= k -> k + 2 <= n -> rd16 (bytes_of s) (va +u k) = Done (phys_word (ram s) (pa + k) 2).
Proof using Hva Hrd Hmem.
  intros Hk Hn. rewrite u32_add_nowrap by lia. pose proof (view_bytes k 2 Hk ltac:(lia) Hn) as H.
  unfold phys_word. pose proof (phys_list_length (ram s) (pa + k) 2 ltac:(lia)) as Hl.
  destruct (phys_list (ram s) (pa + k) 2) as [|b0 [|b1 [|b2 l]]]; try (cbn [length] in Hl; lia).
  apply bytes_in_cons in H as (_&E0&(_&E1&_)%bytes_in_cons). unfold rd16. rewrite u32_add_nowrap by lia.
  rewrite E0. cbn [mbind outcome_bind]. rewrite E1. cbn [mbind outcome_bind]. unfold little_endian. cbn [foldr].
  f_equal. lia.
Qed.

Lemma view_rd8 k : 0 <= k -> k + 1 <= n -> bytes_of s (va +u k) = Done (phys_word (ram s) (pa + k) 1).
Proof using Hva Hrd Hmem.
  intros Hk Hn. rewrite u32_add_nowrap by lia. pose proof (view_bytes k 1 Hk ltac:(lia) Hn) as H.
  unfold phys_word. pose proof (phys_list_length (ram s) (pa + k) 1 ltac:(lia)) as Hl.
  destruct (phys_list (ram s) (pa + k) 1) as [|b0 [|b1 l]]; try (cbn [length] in Hl; lia).
  apply bytes_in_cons in H as (_&E0&_). rewrite E0. unfold little_endian. cbn [foldr]. f_equal. lia.
Qed.

Lemma view_sum m : 0 <= m <= n -> sum (bytes_of s) va m = Done (checksum (phys_list (ram s) pa m)).
Proof using Hva Hrd Hmem.
  intros Hm. pose proof (phys_list_length (ram s) pa m ltac:(lia)) as Hl.
  apply sum_ok; [|lia..]. pose proof (view_bytes 0 m) as H. rewrite !Z.add_0_r in H. apply H; lia.
Qed.
End words.

Lemma range_view s b m pa n :
  ranged s b m pa -> 0 <= n -> pa mod 4096 + n <= 4096 * m ->
  (0 <= range_va b pa /\ range_va b pa + n < 2 ^ 32) /\
  forall k, 0 <= k < n -> bytes_of s (range_va b pa + k) = phys (ram s) (pa + k).
Proof.
  intros Hr Hn Hm. pose proof (Z.mod_pos_bound pa 4096 ltac:(lia)). pose proof (ra_slots _ _ _ _ Hr). split.
  - unfold range_va, slot_va. lia.
  - intros k Hk. apply (range_byte s b m pa k Hr). lia.
Qed.

(** The floating pointer structure is in memory that is searched. *)
Lemma floating_pointer_memory r fp : searchable r -> floating_pointer r = Some fp -> has_bytes r fp 16.
Proof.
  intros (e&t&He&Ht&Hareas). unfold floating_pointer. rewrite He, Ht.
  induction Hareas as [|[pa len] l Ha _ IH]; cbn [first_scan foldr fst snd]; [done|]. unfold scan.
  destruct (find_index is_mp (phys_blocks r pa len)) as [i|] eqn:Ei; cbn [fmap option_fmap option_map]; [|exact IH].
  intros [= <-]. apply find_index_Some in Ei as [(x&Hx%lookup_lt_Some&_) _].
  unfold phys_blocks in Hx. rewrite length_fmap, length_seqZ in Hx. cbn [fst snd] in Ha.
  pose proof (Z.mul_div_le len 16). apply (has_bytes_sub r pa len); [done|lia|lia].
Qed.

(** The memory of the configuration table: it ends below the last pages of the
    address space. *)
Definition table_memory (r : gmap Z Z) : Prop := forall fp, floating_pointer r = Some fp ->
  mp_physaddr r fp <> 0 ->
  mp_physaddr r fp + 2 ^ 17 < 2 ^ 32 /\
  has_bytes r (mp_physaddr r fp) (Z.max SIZEOF_MPCONF (conf_length r (mp_physaddr r fp))).

Lemma endpage_range b pa n :
  3072 <= b < 4096 -> 0 <= n -> pa mod 4096 + n <= 4096 * (4096 - b) ->
  endpage (range_va b pa) n = slot_va (b + (pa mod 4096 + (n - 1)) / 4096).
Proof.
  intros Hb Hn Hm. pose proof (Z.mod_pos_bound pa 4096 ltac:(lia)). unfold endpage, range_va.
  rewrite <-Z.add_assoc, wrap_small by (unfold slot_va; lia). by rewrite range_page by lia.
Qed.

Lemma phys_list_app r a n m : 0 <= n -> 0 <= m -> phys_list r a (n + m) = phys_list r a n ++ phys_list r (a + n) m.
Proof.
  intros Hn Hm. unfold phys_list. rewrite seqZ_app, fmap_app by lia. f_equal.
  rewrite Z.add_comm, <-(fmap_add_seqZ n 0), <-list_fmap_compose.
  apply list_fmap_ext. intros i k _. cbn. by rewrite Z.add_assoc.
Qed.

Lemma checksum_app l l' : u8 (checksum l + checksum l') = checksum (l ++ l').
Proof.
  unfold checksum. rewrite wrap_add_l, wrap_add_r, foldr_app by lia. f_equal.
  induction l as [|b l IH]; cbn [foldr]; lia.
Qed.

Lemma phys_word_range r a n : has_bytes r a n -> 0 <= n -> 0 <= phys_word r a n < 2 ^ (8 * n).
Proof.
  intros Hh Hn. destruct (phys_list_ok r a n Hh) as [Hb _]. pose proof (phys_list_length r a n Hn) as Hl.
  unfold phys_word. revert Hl Hb. generalize (phys_list r a n). intros l <- Hb. clear Hh Hn.
  induction Hb as [|b l Hb _ IH]; cbn [length little_endian foldr]; [by vm_compute|]. fold (little_endian l).
  replace (8 * S (length l)) with (8 + 8 * length l) by lia. rewrite Z.pow_add_r by lia. unfold is_byte in Hb.
  change (2 ^ 8) with 256 in *. lia.
Qed.

(** What [mpconfig] leaves when it is to find the table at [o]: the header can
    be read at the address it returns, and the entries at the body. *)
Definition configured (r : gmap Z Z) (o : option Z) (conf : Z) (g : mpstate) (s : mmu) : Prop :=
  match o with
  | Some pa =>
      0 < conf /\ conf + SIZEOF_MPCONF < 2 ^ 32 /\
      (forall k, 0 <= k < SIZEOF_MPCONF -> bytes_of s (conf + k) = phys r (pa + k)) /\
      g_cblen g = conf_length r pa - SIZEOF_MPCONF /\
      (0 <= g_conf_table_body g /\ g_conf_table_body g + 2 ^ 16 < 2 ^ 32 /\ 2 ^ 16 <= g_conf_table_body g) /\
      bytes_in (bytes_of s) (g_conf_table_body g) (conf_body r pa)
  | None => conf = 0
  end.

(** The comparison of the last pages tells whether the table leaves the pages of
    its header. *)
Lemma endpage_cmp b pa len :
  let m := pages_of pa SIZEOF_MPCONF in
  3072 <= b -> b + 32 <= 4096 -> 0 <= len < 2 ^ 16 ->
  if endpage (range_va b pa) SIZEOF_MPCONF <? endpage (range_va b pa) len then SIZEOF_MPCONF < len
  else pa mod 4096 + len <= 4096 * m.
Proof.
  intros m Hb1 Hb2 Hlen. unfold SIZEOF_MPCONF in *. pose proof (pages_of_bound pa 44 ltac:(lia)) as Hm. fold m in Hm.
  pose proof (Z.mod_pos_bound pa 4096 ltac:(lia)). rewrite !endpage_range by lia.
  destruct (Z.ltb_spec (slot_va (b + (pa mod 4096 + (44 - 1)) / 4096)) (slot_va (b + (pa mod 4096 + (len - 1)) / 4096)))
    as [Hlt|Hge]; unfold slot_va in *.
  - destruct (Z.lt_ge_cases 44 len) as [|Hc]; [done|]. exfalso.
    pose proof (Z.div_le_mono (pa mod 4096 + (len - 1)) (pa mod 4096 + (44 - 1)) 4096). lia.
  - assert ((pa mod 4096 + (44 - 1)) / 4096 < m) by (apply Z.div_lt_upper_bound; lia).
    pose proof (Z.div_mod (pa mod 4096 + (len - 1)) 4096 ltac:(lia)).
    pose proof (Z.mod_pos_bound (pa mod 4096 + (len - 1)) 4096 ltac:(lia)). lia.
Qed.

(** The sum over a mapped table, and its body. *)
Lemma mpconfig_body_ok pa b g s :
  let r := ram s in let len := conf_length r pa in let m := pages_of pa SIZEOF_MPCONF in
  window (b + m) s -> ranged s b m pa -> b + 32 <= 4096 -> 0 <= pa -> pa + 2 ^ 17 < 2 ^ 32 ->
  has_bytes r pa (Z.max SIZEOF_MPCONF len) -> 0 <= len < 2 ^ 16 ->
  exists conf' g' s', mpconfig_body (range_va b pa) pa len g s = Done (conf', g', s') /\
    same_cpus g g' /\ below b s s' /\
    configured r (if checksum (phys_list r pa len) =? 0 then Some pa else None) conf' g' s'.
Proof.
  intros r len m Hw Hr Hb Hpa Hov Hh Hlen. unfold mpconfig_body, configured, SIZEOF_MPCONF in *.
  pose proof (pages_of_bound pa 44 ltac:(lia)) as Hm. fold m in Hm. pose proof (Z.mod_pos_bound pa 4096 ltac:(lia)).
  pose proof (ra_slots _ _ _ _ Hr) as Hsl. set (conf := range_va b pa).
  assert (Hva : 0xC0C00000 <= conf /\ conf + 44 <= 0xC1000000) by (unfold conf, range_va, slot_va; lia).
  destruct (range_view s b m pa 44 Hr ltac:(lia) ltac:(lia)) as [Hv Hrd]. fold conf r in Hv, Hrd.
  assert (Hcb : i32 (len - 44) = len - 44) by (apply swrap_small; lia). rewrite Hcb.
  pose proof (endpage_cmp b pa len ltac:(lia) Hb Hlen) as Hcmp. unfold SIZEOF_MPCONF in Hcmp. fold conf m in Hcmp.
  destruct (endpage conf 44 <? endpage conf len).
  - rewrite (view_sum s conf pa 44) by (try done; try lia; intros k Hk; apply Hh; lia).
    cbn [mbind outcome_bind]. rewrite u32_add_nowrap by lia.
    pose proof (pages_of_bound (pa + 44) (len - 44) ltac:(lia)) as Hm2.
    destruct (map_range_ok (pa + 44) (len - 44) (b + m) s Hw) as (s'&->&Hw'&Hb'&Hr'); [lia..|].
    cbn [mbind outcome_bind].
    assert (Hva' : 0xC0C00000 <= range_va (b + m) (pa + 44) /\ range_va (b + m) (pa + 44) + (len - 44) < 0xC1000000).
    { unfold range_va, slot_va. pose proof (Z.mod_pos_bound (pa + 44) 4096 ltac:(lia)). lia. }
    rewrite (proj2 (truthy_true _)) by lia. cbn [negb].
    destruct (range_view s' (b + m) _ (pa + 44) (len - 44) Hr' ltac:(lia) ltac:(lia)) as [Hv' Hrd'].
    pose proof (be_ram _ _ _ Hb') as Hram. fold r in Hram. rewrite Hram in Hrd'.
    assert (Hh' : has_bytes r (pa + 44) (len - 44)) by (apply (has_bytes_sub r pa _ 44 (len - 44) Hh); lia).
    rewrite (view_sum s' _ (pa + 44) (len - 44)) by (rewrite ?Hram; (done || lia)).
    cbn [mbind outcome_bind]. rewrite Hram. fold r. rewrite checksum_app, <-phys_list_app by lia.
    replace (44 + (len - 44)) with len by lia. assert (Hbel : below b s s') by (eapply below_weaken; [|exact Hb']; lia).
    unfold truthy. destruct (checksum (phys_list r pa len) =? 0); cbn [negb]; [|by eexists _, _, _].
    eexists _, _, _. split; [done|]. split; [done|]. split; [done|].
    cbn [set_cb g_cblen g_conf_table_body]. split_and!; try lia.
    + intros k Hk. rewrite <-Hram. apply (range_byte s' b m pa k); [|lia]. by apply (ranged_below _ _ _ (b + m) s s' Hb').
    + unfold conf_body. fold len. pose proof (view_bytes s' (range_va (b + m) (pa + 44)) (pa + 44) (len - 44)) as Hx.
      rewrite Hram in Hx. specialize (Hx Hrd' Hh' 0 (len - 44)). rewrite !Z.add_0_r in Hx. apply Hx; lia.
  - destruct (range_view s b m pa (Z.max 44 len) Hr ltac:(lia) ltac:(lia)) as [Hv' Hrd']. fold conf r in Hv', Hrd'.
    rewrite (view_sum s conf pa (Z.max 44 len)) by (done || lia). cbn [mbind outcome_bind]. fold r.
    unfold truthy. destruct (checksum (phys_list r pa len) =? 0); cbn [negb]; [|by eexists _, _, _].
    eexists _, _, _. split; [done|]. split; [done|]. split; [done|].
    cbn [set_cb g_cblen g_conf_table_body]. rewrite u32_add_nowrap by lia. split_and!; try lia.
    + done.
    + unfold conf_body. fold len. destruct (Z.le_gt_cases 44 len) as [Hle|Hgt].
      * apply (view_bytes s conf pa (Z.max 44 len) Hrd' Hh 44 (len - 44)); lia.
      * unfold phys_list, SIZEOF_MPCONF. rewrite seqZ_nil by lia. split; [constructor|done].
Qed.

Lemma same_cpus_trans g g1 g2 : same_cpus g g1 -> same_cpus g1 g2 -> same_cpus g g2.
Proof. intros [] []. split; congruence. Qed.

(** What is read of a mapped header. *)
Lemma header_reads s b m pa :
  ranged s b m pa -> pa mod 4096 + SIZEOF_MPCONF <= 4096 * m -> has_bytes (ram s) pa SIZEOF_MPCONF ->
  compare4 (bytes_of s) (range_va b pa) SIG_PCMP = Done (conf_signature (ram s) pa =? SIG_PCMP) /\
  bytes_of s (range_va b pa +u MPCONF_VERSION) = Done (conf_version (ram s) pa) /\
  rd16 (bytes_of s) (range_va b pa +u MPCONF_LENGTH) = Done (conf_length (ram s) pa).
Proof.
  intros Hr Hm Hh. destruct (range_view s b m pa SIZEOF_MPCONF Hr ltac:(done) Hm) as [Hv Hrd].
  unfold SIZEOF_MPCONF in *. split_and!.
  - unfold compare4, conf_signature. pose proof (view_rd32 s (range_va b pa) pa _ Hv Hrd Hh 0 ltac:(lia) ltac:(lia)) as E.
    rewrite !Z.add_0_r, u32_small in E by (unfold in_u32; lia). by rewrite E.
  - apply (view_rd8 s _ pa _ Hv Hrd Hh); unfold MPCONF_VERSION; lia.
  - apply (view_rd16 s _ pa _ Hv Hrd Hh); unfold MPCONF_LENGTH; lia.
Qed.

(** The checks of the header. *)
Lemma mpconfig_ok (fuel : nat) b g s :
  window b s -> b + 64 <= 4096 -> searchable (ram s) -> table_memory (ram s) -> (4096 < fuel)%nat ->
  exists conf g' s', mpconfig fuel g s = Done (conf, g', s') /\ same_cpus g g' /\ below b s s' /\
    configured (ram s) (config_table (ram s)) conf g' s'.
Proof.
  intros Hw Hb Hs Ht Hf. destruct (mpsearch_ok fuel b g s Hw ltac:(lia) Hs Hf) as (((mp&g1)&s1)&E&Hb1&Hg1&Hres).
  unfold mpconfig, config_table. rewrite E. cbn [mbind outcome_bind option_bind].
  destruct (floating_pointer (ram s)) as [fp|] eqn:Efp; cbn [mbind option_bind];
    [|destruct Hres as [-> _]; by eexists _, _, _].
  destruct Hres as [(Hmp&Hmp2&Hloc) (b1&Hb1r&Hw1)]. pose proof (be_ram _ _ _ Hb1) as Hr1. rewrite Hr1 in Hloc.
  pose proof (floating_pointer_memory _ _ Hs Efp) as Hm16. rewrite (proj2 (truthy_true mp)) by lia.
  assert (rd32 (bytes_of s1) (mp +u MP_PHYSADDR) = Done (mp_physaddr (ram s) fp)) as ->.
  { unfold mp_physaddr. rewrite <-Hr1. apply (view_rd32 s1 mp fp 16); rewrite ?Hr1; try done; unfold MP_PHYSADDR; lia. }
  cbn [mbind outcome_bind]. set (pa := mp_physaddr (ram s) fp). unfold truthy at 1 3.
  destruct (Z.eqb_spec pa 0) as [Hz|Hnz]; cbn [negb andb]; [by eexists _, _, _|].
  destruct (Ht fp Efp Hnz) as [Hov Hmem]. fold pa in Hov, Hmem. set (len := conf_length (ram s) pa) in *.
  assert (0 <= pa) as Hpa.
  { apply (phys_word_range (ram s) (fp + MP_PHYSADDR) 4); [|lia]. apply (has_bytes_sub _ fp 16); [done|unfold MP_PHYSADDR; lia..]. }
  assert (0 <= len < 2 ^ 16) as Hlen.
  { apply (phys_word_range (ram s) (pa + MPCONF_LENGTH) 2); [|lia].
    apply (has_bytes_sub _ pa _ MPCONF_LENGTH 2 Hmem); unfold MPCONF_LENGTH, SIZEOF_MPCONF; lia. }
  pose proof (pages_of_bound pa SIZEOF_MPCONF ltac:(done)) as Hm. assert (SIZEOF_MPCONF = 44) as H44 by done.
  destruct (map_range_ok pa SIZEOF_MPCONF b1 s1 Hw1) as (s2&->&Hw2&Hb2&Hrg); [done|done|unfold SIZEOF_MPCONF; lia|lia|].
  cbn [mbind outcome_bind]. assert (below b s s2) as Hbs by (etrans; [done|]; eapply below_weaken; [|exact Hb2]; lia).
  pose proof (be_ram _ _ _ Hbs) as Hr2. pose proof (ra_slots _ _ _ _ Hrg).
  destruct (header_reads s2 b1 _ pa Hrg) as (->&->&->); [lia|rewrite Hr2; intros k Hk; apply Hmem; lia|].
  rewrite (proj2 (truthy_true (range_va b1 pa))) by (unfold range_va, slot_va; pose proof (Z.mod_pos_bound pa 4096); lia).
  cbn [negb mbind outcome_bind]. rewrite !Hr2. unfold conf_valid.
  destruct (conf_signature (ram s) pa =? SIG_PCMP); cbn [negb andb]; [|by eexists _, _, _]. rewrite <-negb_orb.
  destruct ((conf_version (ram s) pa =? 1) || (conf_version (ram s) pa =? 4)); cbn [negb andb]; [|by eexists _, _, _].
  destruct (mpconfig_body_ok pa b1 (set_ct (range_va b1 pa) SIZEOF_MPCONF g1) s2) as (conf&g2&s3&E3&Hg2&Hb3&Hc);
    rewrite ?Hr2; fold len; [done|done|lia|done|done|done|done|]. rewrite Hr2 in E3, Hc. fold len in E3, Hc.
  eexists _, _, _. split; [exact E3|]. split; [by eapply same_cpus_trans|]. split; [|done].
  etrans; [done|]. eapply below_weaken; [|exact Hb3]. lia.
Qed.

(** The table that was found is in memory. *)
Lemma config_table_memory r pa :
  searchable r -> table_memory r -> config_table r = Some pa ->
  0 <= conf_length r pa < 2 ^ 16 /\ has_bytes r pa SIZEOF_MPCONF.
Proof.
  intros Hs Ht. unfold config_table. destruct (floating_pointer r) as [fp|] eqn:Efp; cbn [mbind option_bind]; [|done].
  destruct (truthy (mp_physaddr r fp)) eqn:Hz; cbn [andb]; [|done]. apply truthy_true in Hz.
  destruct (conf_valid r (mp_physaddr r fp)); [|done]. intros [= <-]. destruct (Ht fp Efp Hz) as [_ Hm].
  assert (Hh : has_bytes r (mp_physaddr r fp) SIZEOF_MPCONF) by (intros k Hk; apply Hm; lia). split; [|done].
  apply (phys_word_range r (mp_physaddr r fp + MPCONF_LENGTH) 2); [|lia]. by eapply (has_bytes_sub r _ _ MPCONF_LENGTH 2 Hh).
Qed.

(** ** The processors of the machine *)

(** The variables of a machine without tables. *)
Definition uniprocessor (g : mpstate) : Prop :=
  local_apic g = 0 /\ ioapic_has g = 0 /\ ioapic g = 0 /\ ncpu g = 1 /\ boot_cpu g = 0.

(** A walked table gives a multiprocessor when both interrupt controllers are
    in the addresses that are for devices. *)
Definition multiprocessor (lapicaddr : Z) (es : list mp_entry) (tail : list Z) : Prop :=
  tail = [] /\ procs es <> [] /\ 0xfe000000 <= default 0 (last (ioapics es)) /\ 0xfe000000 <= lapicaddr.

#[export] Instance multiprocessor_dec la es tail : Decision (multiprocessor la es tail).
Proof. unfold multiprocessor. apply _. Defined.

(** An empty table. *)
Lemma mpinit_none rd (fuel : nat) g :
  ncpu g = 0 -> 2 ^ 16 <= g_conf_table_body g < 2 ^ 32 -> - 2 ^ 16 < g_cblen g <= 0 -> (0 < fuel)%nat ->
  exists g', mpinit rd fuel g = Done (0, g') /\ ioapic g' = 0.
Proof.
  intros Hn Hb Hc Hf. unfold mpinit. destruct fuel as [|fuel]; [lia|]. cbn [mpinit_loop].
  rewrite wrap_small by lia. destruct (Z.ltb_spec (g_conf_table_body g) (g_conf_table_body g + g_cblen g)); [lia|].
  cbn [mbind outcome_bind set_cpus ncpu]. rewrite Hn. by eexists.
Qed.

Lemma entries_count es : 8 * length es <= table_size es.
Proof.
  induction es as [|x es IH]; [done|]. change (table_size (x :: es)) with (entry_size x + table_size es).
  cbn [length]. assert (8 <= entry_size x) by (destruct x; cbn; lia). lia.
Qed.

(** The walk over the table that [mpconfig] found. *)
Lemma mpinit_table (fuel : nat) r pa conf g s es tail :
  configured r (Some pa) conf g s -> conf_body r pa = concat (encode <$> es) ++ tail -> Forall entry_ok es ->
  (tail = [] \/ exists ty, head tail = Some ty /\ MPLINTR < ty) -> 0 <= conf_length r pa < 2 ^ 16 ->
  ncpu g = 0 -> length (cpu_apics g) = 256%nat -> 8192 <= fuel ->
  exists g', mpinit (bytes_of s) fuel g = Done (if decide (tail = [] /\ procs es <> []) then 1 else 0, g') /\
    ioapic g' = default 0 (last (ioapics es)) /\
    (procs es <> [] -> ncpu g' = length (procs es) /\
      boot_cpu g' = default (boot_cpu g) (last (boots 0 es)) /\
      forall i : nat, (i < 256)%nat -> (i < length (procs es))%nat -> cpu_apics g' !! i = procs es !! i).
Proof.
  intros (_&_&_&Hcb&(Hb0&Hb1&Hb2)&Hbody) Heq Hes Htail Hlen Hn0 Hl Hf. unfold SIZEOF_MPCONF in *. rewrite Heq in Hbody.
  assert (Hsz : Z.max 0 (conf_length r pa - 44) = table_size es + length tail).
  { rewrite <-encode_all_length, <-Nat2Z.inj_add, <-length_app, <-Heq by done. unfold conf_body, phys_list.
    rewrite length_fmap, length_seqZ. unfold SIZEOF_MPCONF. lia. }
  pose proof (table_size_nonneg es). pose proof (entries_count es).
  destruct (Z.le_gt_cases 44 (conf_length r pa)) as [Hle|Hgt].
  - destruct (mpinit_correct (bytes_of s) g es tail fuel) as (g'&E&Hn&Hio&Hbt&Hid&_);
      [done|done|done|lia|lia|done|done|done|lia|lia|]. by exists g'.
  - destruct es as [|x es]; [|cbn [length] in *; lia]. destruct tail; [|cbn [length] in *; lia].
    destruct (mpinit_none (bytes_of s) fuel g) as (g'&E&Hio); [done|lia..|]. exists g'. rewrite E.
    rewrite decide_False by (by intros [_ []]). split_and!; [done|done|]. by intros [].
Qed.

Lemma multiprocessor_test la es tail io (x : Z) :
  io = default 0 (last (ioapics es)) -> x = (if decide (tail = [] /\ procs es <> []) then 1 else 0) ->
  truthy (if la <? 0xfe000000 then 0 else if io <? 0xfe000000 then 0
          else if negb (truthy la) then 0 else if negb (truthy io) then 0 else x) =
    bool_decide (multiprocessor la es tail).
Proof.
  intros -> ->. unfold multiprocessor. set (io := default 0 _).
  destruct (Z.ltb_spec la 0xfe000000), (Z.ltb_spec io 0xfe000000); try (rewrite bool_decide_false; [done|lia]).
  rewrite (proj2 (truthy_true la)), (proj2 (truthy_true io)) by lia. cbn [negb].
  case_decide as Hd; [rewrite bool_decide_true|rewrite bool_decide_false]; try done; naive_solver.
Qed.

(** C18: [_i686_initmp] finds the tables of the machine in physical memory and
    leaves what they say.  The floating pointer structure is the first 16-byte
    block with its signature and a zero sum in the first kilobyte of the
    extended BIOS data area, the last kilobyte of base memory, or the BIOS; the
    table it points to counts when its signature, version and sum are right.
    Without such a table the machine is a uniprocessor.  With one whose entries
    are well formed up to its end, or to an entry of unknown type, the CPUs,
    their APIC identifiers, the bootstrap processor and both interrupt
    controllers are those of the entries, when the end is reached, there is a
    processor and both controllers are above 0xfe000000; else the machine is a
    uniprocessor.  Nothing is changed but the temporary mappings in slots that
    were free; memory outside the areas and the table is not read. *)
Theorem _i686_initmp_correct (fuel : nat) b g s :
  window b s -> b + 64 <= 4096 -> searchable (ram s) -> table_memory (ram s) ->
  ncpu g = 0 -> length (cpu_apics g) = 256%nat -> 8192 <= fuel ->
  (config_table (ram s) = None ->
     exists g' s', _i686_initmp fuel g s = Done (g', s') /\ below b s s' /\ uniprocessor g') /\
  (forall pa es tail, config_table (ram s) = Some pa ->
     conf_body (ram s) pa = concat (encode <$> es) ++ tail -> Forall entry_ok es ->
     (tail = [] \/ exists ty, head tail = Some ty /\ MPLINTR < ty) ->
     exists g' s', _i686_initmp fuel g s = Done (g', s') /\ below b s s' /\
       if decide (multiprocessor (conf_lapicaddr (ram s) pa) es tail) then
         local_apic g' = conf_lapicaddr (ram s) pa /\ ioapic g' = default 0 (last (ioapics es)) /\
         ncpu g' = length (procs es) /\ boot_cpu g' = default 256 (last (boots 0 es)) /\
         forall i : nat, (i < 256)%nat -> (i < length (procs es))%nat -> cpu_apics g' !! i = procs es !! i
       else uniprocessor g').
Proof.
  intros Hw Hb Hs Ht Hn0 Hl Hf.
  destruct (mpconfig_ok fuel b (set_mp 0 0 g) s Hw Hb Hs Ht ltac:(lia)) as (conf&g1&s1&E&[Hn Hap]&Hbel&Hc).
  cbn [set_mp ncpu cpu_apics] in Hn, Hap. unfold _i686_initmp. rewrite E. cbn [mbind outcome_bind]. split.
  { intros Hnone. rewrite Hnone in Hc. cbn in Hc. subst conf. cbn [truthy Z.eqb negb mbind outcome_bind]. by eexists _, _. }
  intros pa es tail Hpa Hbody Hes Htail. rewrite Hpa in Hc. set (g2 := set_cpus _ _ _ _ _ _ _ _).
  pose proof (be_ram _ _ _ Hbel) as Hr. destruct (config_table_memory _ _ Hs Ht Hpa) as [Hlen Hmem].
  destruct (mpinit_table fuel (ram s) pa conf g2 s1 es tail Hc Hbody Hes Htail Hlen) as (g3&E3&Hio&Hg3);
    [cbn [g2 set_cpus ncpu]; lia|cbn [g2 set_cpus cpu_apics]; congruence|done|].
  destruct Hc as (Hconf&Hconf2&Hrd&_). rewrite (proj2 (truthy_true conf)) by lia. rewrite E3. cbn [mbind outcome_bind].
  rewrite <-Hr in Hrd, Hmem. rewrite (view_rd32 s1 conf pa SIZEOF_MPCONF) by (done || (unfold MPCONF_LAPICADDR, SIZEOF_MPCONF in *; lia)).
  rewrite Hr. fold (conf_lapicaddr (ram s) pa). set (la := conf_lapicaddr (ram s) pa).
  cbn [mbind outcome_bind set_cpus ioapic local_apic ncpu boot_cpu ioapic_has ioapic_id cpu_apics].
  rewrite (multiprocessor_test la es tail) by done.
  destruct (decide (multiprocessor la es tail)) as [Hm|Hm];
    [rewrite (bool_decide_true _ Hm)|rewrite (bool_decide_false _ Hm); by eexists _, _].
  destruct Hm as (_&Hne&_&_). destruct (Hg3 Hne) as (Hcnt&Hbt&Hid).
  eexists _, _. split; [done|]. split; [done|]. by split_and!.
Qed.

(** ** A machine with two processors *)

Module MpPropsExample.
(** Aligned bytes as words, and a piece of memory that holds them. *)
Fixpoint pack (bs : list Z) : list Z :=
  match bs with b0 :: b1 :: b2 :: b3 :: bs => word_of b0 b1 b2 b3 :: pack bs | _ => [] end.
Definition place (a : Z) (bs : list Z) (r : gmap Z Z) : gmap Z Z :=
  list_to_map (zip ((fun i => a + 4 * i) <$> seqZ 0 (length bs / 4)) (pack bs)) ∪ r.

(** Words of zeros. *)
Fixpoint zeros (n : nat) (a : Z) (r : gmap Z Z) : gmap Z Z :=
  match n with O => r | S n => zeros n (a + 4) (<[a := 0]> r) end.

Fixpoint check_bytes (n : nat) (a : Z) (r : gmap Z Z) : bool :=
  match n with O => true | S n => bool_decide (is_Some (r !! (a - a mod 4))) && check_bytes n (a + 1) r end.

Lemma check_bytes_ok (n : nat) : forall a r (m : Z), check_bytes n a r = true -> m = n -> has_bytes r a m.
Proof.
  induction n as [|n IH]; intros a r m H -> k Hk; [lia|]. cbn [check_bytes] in H.
  apply andb_true_iff in H as [H1%bool_decide_eq_true H2]. destruct (decide (k = 0)) as [->|]; [by rewrite Z.add_0_r|].
  replace (a + k) with (a + 1 + (k - 1)) by lia. apply (IH _ _ n H2 eq_refl). lia.
Qed.

(** [bs] with the byte [i] replaced by the one that makes the sum zero. *)
Definition balance (i : nat) (bs rest : list Z) : list Z := <[i := u8 (- foldr Z.add 0 (bs ++ rest))]> bs.

Definition body : list Z := concat (encode <$> MpExample.table).
Definition header : list Z :=
  balance 7 ([0x50; 0x43; 0x4D; 0x50; 100; 0; 4; 0] ++ replicate 28 0x20 ++ [0; 0; 0xE0; 0xFE; 0; 0; 0; 0]) body.
Definition pointer : list Z :=
  balance 10 [0x5F; 0x4D; 0x50; 0x5F; 0xB0; 0x1F; 0x0F; 0; 1; 4; 0; 0; 0; 0; 0; 0] [].

(** The BIOS data area names 0x9FC00 as the extended area and as the end of base
    memory; the table crosses a page. *)
Definition bios : gmap Z Z :=
  place 0x40C [0; 0; 0xC0; 0x9F] (place 0x410 [0; 0; 0; 0x7F; 2; 0; 0; 0]
    (place 0x9FC10 pointer (place 0xF1FB0 (header ++ body)
      (zeros 512 0x9F800 (zeros (Z.to_nat 16384) 0xF0000 ∅))))).
Definition two_cpus : mmu := Mmu (replicate 4096 0) (replicate 1024 0) bios 0 [].
Definition variables : mpstate := Mpstate 0 0 0 0 0 0 (replicate 256 0) 0 0 0 0 0 0 0.

Lemma two_cpus_window : window 3072 two_cpus.
Proof.
  split; [split; reflexivity|lia|lia|]. intros i Hi. cbn [two_cpus kpt]. by rewrite lookup_replicate_2 by lia.
Defined.

Lemma bios_searchable : searchable bios.
Proof.
  exists 0x9FC00, 0x9FC00. split; [vm_compute; reflexivity|]. split; [vm_compute; reflexivity|].
  repeat apply Forall_cons_2; [..|constructor];
    [apply (check_bytes_ok 1024)|apply (check_bytes_ok 1024)|apply (check_bytes_ok (Z.to_nat 65536))];
    vm_compute; reflexivity.
Defined.

Lemma bios_pointer : floating_pointer bios = Some 0x9FC10.
Proof. vm_compute. reflexivity. Defined.

Lemma bios_table : table_memory bios.
Proof.
  intros fp Hfp _. pose proof bios_pointer as Hp. rewrite Hfp in Hp. apply (inj Some) in Hp as ->.
  assert (mp_physaddr bios 0x9FC10 = 0xF1FB0) as -> by (vm_compute; reflexivity).
  split; [lia|]. apply (check_bytes_ok 100); vm_compute; reflexivity.
Defined.

Lemma _i686_initmp_correct_witness :
  exists g' s', _i686_initmp (Z.to_nat 8192) variables two_cpus = Done (g', s') /\
    local_apic g' = 0xFEE00000 /\ ioapic g' = 0xFEC00000 /\ ncpu g' = 2 /\ boot_cpu g' = 0 /\ cpu_apics g' !! 1%nat = Some 6.
Proof.
  destruct (_i686_initmp_correct (Z.to_nat 8192) 3072 variables two_cpus two_cpus_window) as [_ H];
    [lia|exact bios_searchable|exact bios_table|reflexivity|reflexivity|lia|].
  destruct (H 0xF1FB0 MpExample.table []) as (g'&s'&E&_&Hg).
  - vm_compute. reflexivity.
  - vm_compute. reflexivity.
  - apply (bool_decide_unpack _). vm_compute. exact I.
  - by left.
  - rewrite decide_True in Hg by (apply (bool_decide_unpack _); vm_compute; exact I).
    destruct Hg as (H1&H2&H3&H4&H5). exists g', s'. split; [exact E|]. split; [rewrite H1; vm_compute; reflexivity|].
    split; [exact H2|]. split; [exact H3|]. split; [exact H4|]. apply (H5 1%nat); cbn; lia.
Defined.
End MpPropsExample.
