(* ===== verification/I686.v ===== *)
(** * Descriptors, interrupt controllers and interrupts of the i686 port

    Models [x86/gdt.h] and the parts of [x86/x86.h] it needs, [arch/i686/hal.c]
    (the set-up of the descriptor tables and the interrupt handler),
    [arch/i686/irq_pic.c] and [arch/i686/irq_lapic.c] (without the code between
    [#if 0] and [#endif]).

    Bit fields are numbers truncated to their width; [pack] is the layout of
    the i386 ABI (the first field in the least significant bits).  Port output
    is a log of the pairs of port and byte.  What the processor and the
    interrupt controllers make of these is written down as the reference they
    are compared with: [seg_base], [seg_limit], [gate_offset] for the Intel
    descriptor formats, [Pic.i8259] for the 8259A. *)

From S2P Require Import Prelude Ring Spinlock Zalloc Kern Sched Wait.

(** ** Bit fields *)

(** Fields as pairs of width and value. *)
Fixpoint pack (l : list (Z * Z)) : Z :=
  match l with
  | [] => 0
  | (w, v) :: l => wrap w v + 2 ^ w * pack l
  end.

(** [n] bits of [x] from bit [i] on. *)
Definition bits (x i n : Z) : Z := wrap n (Z.shiftr x i).

(** ** x86/gdt.h *)

Definition SEG_KCPU : Z := 3.
Definition SEG_UCODE : Z := 4.
Definition SEG_UDATA : Z := 5.
Definition SEG_TSS : Z := 6.
Definition NSEGS : Z := 7.
Definition DPL_USER : Z := 0x3.
Definition STA_X : Z := 0x8.
Definition STA_W : Z := 0x2.
Definition STA_R : Z := 0x2.
Definition STS_T32A : Z := 0x9.
Definition STS_IG32 : Z := 0xE.
Definition STS_TG32 : Z := 0xF.
(** [sizeof(struct segdesc)], [sizeof(struct gatedesc)], [sizeof(struct taskstate)]. *)
Definition SIZEOF_SEGDESC : Z := 8.
Definition SIZEOF_GATEDESC : Z := 8.
Definition SIZEOF_TASKSTATE : Z := 104.

Record segdesc := Segdesc {
  lim_15_0 : Z;
  base_15_0 : Z;
  base_23_16 : Z;
  sd_type : Z;
  sd_s : Z;
  sd_dpl : Z;
  sd_p : Z;
  lim_19_16 : Z;
  sd_avl : Z;
  sd_rsv1 : Z;
  sd_db : Z;
  sd_g : Z;
  base_31_24 : Z;
}.

Definition segdesc_word (d : segdesc) : Z :=
  pack [(16, lim_15_0 d); (16, base_15_0 d); (8, base_23_16 d); (4, sd_type d); (1, sd_s d); (2, sd_dpl d);
        (1, sd_p d); (4, lim_19_16 d); (1, sd_avl d); (1, sd_rsv1 d); (1, sd_db d); (1, sd_g d);
        (8, base_31_24 d)].

Definition SEG (type base lim dpl : Z) : segdesc :=
  Segdesc (Z.land (Z.shiftr lim 12) 0xffff) (Z.land (u32 base) 0xffff)
    (Z.land (Z.shiftr (u32 base) 16) 0xff) type 1 dpl 1
    (Z.shiftr (u32 lim) 28) 0 0 1 1 (Z.shiftr (u32 base) 24).

Definition SEG16 (type base lim dpl : Z) : segdesc :=
  Segdesc (Z.land lim 0xffff) (Z.land (u32 base) 0xffff)
    (Z.land (Z.shiftr (u32 base) 16) 0xff) type 1 dpl 1
    (Z.shiftr (u32 lim) 16) 0 0 1 0 (Z.shiftr (u32 base) 24).

Record gatedesc := Gatedesc {
  off_15_0 : Z;
  gd_cs : Z;
  gd_args : Z;
  gd_rsv1 : Z;
  gd_type : Z;
  gd_s : Z;
  gd_dpl : Z;
  gd_p : Z;
  off_31_16 : Z;
}.

Definition gatedesc_word (d : gatedesc) : Z :=
  pack [(16, off_15_0 d); (16, gd_cs d); (5, gd_args d); (3, gd_rsv1 d); (4, gd_type d); (1, gd_s d);
        (2, gd_dpl d); (1, gd_p d); (16, off_31_16 d)].

(** Every field of the gate is assigned. *)
Definition SETGATE (istrap : bool) (sel off d : Z) : gatedesc :=
  Gatedesc (u16 (Z.land (u32 off) 0xffff)) sel 0 0 (if istrap then STS_TG32 else STS_IG32) 0 d 1
    (u16 (Z.shiftr (u32 off) 16)).

(** ** x86/x86.h *)

(** The operand of [lgdt] and [lidt]: three 16-bit words. *)
Definition table_register (p size : Z) : list Z :=
  [u16 (size - 1); Z.land p 0xFFFF; Z.land (Z.shiftr p 16) 0xFFFF].

(** The registers the port sets up. *)
Record registers := Registers {
  r_gdtr : list Z;
  r_idtr : list Z;
  r_gs : Z;
}.

(** ** hal.c *)

(** The segment descriptor table of [struct cpu_arch] at [gdt_addr], its task
    state at [tss_addr]; the CPU's private segment at [cpu_local]. *)
Record cpu_tables := CpuTables { gdt : list segdesc; gdt_addr : Z; tss_addr : Z; local_addr : Z }.

(** [sizeof(cpu->cpu_local)]: three words. *)
Definition SIZEOF_CPU_LOCAL : Z := 12.

Definition clear_s (d : segdesc) : segdesc :=
  Segdesc (lim_15_0 d) (base_15_0 d) (base_23_16 d) (sd_type d) 0 (sd_dpl d) (sd_p d) (lim_19_16 d)
    (sd_avl d) (sd_rsv1 d) (sd_db d) (sd_g d) (base_31_24 d).

Definition put_seg (i : Z) (d : segdesc) (t : list segdesc) : outcome (list segdesc) :=
  _ ← deref (t !! Z.to_nat i); Done (<[Z.to_nat i := d]> t).

Definition hal_initcpu (c : cpu_tables) (r : registers) : outcome (cpu_tables * registers) :=
  t ← put_seg SEG_KCODE (SEG (Z.lor STA_X STA_R) 0 0xffffffff 0) (gdt c);
  t ← put_seg SEG_KDATA (SEG STA_W 0 0xffffffff 0) t;
  t ← put_seg SEG_UCODE (SEG (Z.lor STA_X STA_R) 0 0xffffffff DPL_USER) t;
  t ← put_seg SEG_UDATA (SEG STA_W 0 0xffffffff DPL_USER) t;
  t ← put_seg SEG_TSS (SEG16 STS_T32A (tss_addr c) (SIZEOF_TASKSTATE - 1) 0) t;
  d ← deref (t !! Z.to_nat SEG_TSS);
  t ← put_seg SEG_TSS (clear_s d) t;
  t ← put_seg SEG_KCPU (SEG STA_W (local_addr c) SIZEOF_CPU_LOCAL 0) t;
  Done (CpuTables t (gdt_addr c) (tss_addr c) (local_addr c),
        Registers (table_register (gdt_addr c) (SIZEOF_SEGDESC * NSEGS)) (r_idtr r) (Z.shiftl SEG_KCPU 3)).

(** The loop of [__i686_setup_idt], [n] turns left; the vectors are the
    addresses of the entry points in [intvec.s]. *)
Fixpoint setup_gates (n : nat) (i : Z) (vectors : list Z) (idt : list gatedesc) : outcome (list gatedesc) :=
  match n with
  | O => Done idt
  | S n =>
      v ← deref (vectors !! Z.to_nat i);
      _ ← deref (idt !! Z.to_nat i);
      setup_gates n (i + 1) vectors (<[Z.to_nat i := SETGATE false (Z.shiftl SEG_KCODE 3) v 0]> idt)
  end.

Definition __i686_setup_idt (vectors : list Z) (idt_addr : Z) (idt : list gatedesc) (r : registers) :
    outcome (list gatedesc * registers) :=
  idt ← setup_gates 256 0 vectors idt;
  Done (idt, Registers (r_gdtr r) (table_register idt_addr (SIZEOF_GATEDESC * 256)) (r_gs r)).

(** [ltr], the load of the task register at the end of [hal_after_thread_switch]:
    the processor takes only a present descriptor of an available task state, and
    marks it busy. *)
Definition STS_T32B : Z := 0xB.

Definition set_type (ty : Z) (d : segdesc) : segdesc :=
  Segdesc (lim_15_0 d) (base_15_0 d) (base_23_16 d) ty (sd_s d) (sd_dpl d) (sd_p d) (lim_19_16 d)
    (sd_avl d) (sd_rsv1 d) (sd_db d) (sd_g d) (base_31_24 d).

Definition ltr (sel : Z) (c : cpu_tables) : outcome cpu_tables :=
  d ← deref (gdt c !! Z.to_nat (Z.shiftr sel 3));
  if (sd_p d =? 1) && (sd_s d =? 0) && (sd_type d =? STS_T32A)
  then t ← put_seg (Z.shiftr sel 3) (set_type STS_T32B d) (gdt c);
       Done (CpuTables t (gdt_addr c) (tss_addr c) (local_addr c))
  else Fault.

(** ** What the processor reads *)

(** The Intel formats: base, limit (in pages of 4 KiB when the granularity bit
    is set), type, privilege and presence of a segment descriptor; offset and
    selector of a gate. *)
Definition seg_base (x : Z) : Z := bits x 16 16 + 2 ^ 16 * bits x 32 8 + 2 ^ 24 * bits x 56 8.
Definition seg_raw_limit (x : Z) : Z := bits x 0 16 + 2 ^ 16 * bits x 48 4.
Definition seg_limit (x : Z) : Z :=
  if truthy (bits x 55 1) then seg_raw_limit x * 4096 + 4095 else seg_raw_limit x.
Definition desc_type (x : Z) : Z := bits x 40 4.
Definition desc_application (x : Z) : Z := bits x 44 1.
Definition desc_privilege (x : Z) : Z := bits x 45 2.
Definition desc_present (x : Z) : Z := bits x 47 1.
Definition gate_offset (x : Z) : Z := bits x 0 16 + 2 ^ 16 * bits x 48 16.
Definition gate_selector (x : Z) : Z := bits x 16 16.

(** What [lgdt] and [lidt] load: the limit and the base. *)
Definition loads (l : list Z) : option (Z * Z) :=
  match l with [lim; lo; hi] => Some (lim, lo + 2 ^ 16 * hi) | _ => None end.

Lemma bits_pack_here w v l : 0 <= w -> bits (pack ((w, v) :: l)) 0 w = wrap w v.
Proof.
  intros Hw. unfold bits. cbn [pack]. rewrite Z.shiftr_0_r. unfold wrap at 1.
  rewrite (Z.mul_comm (2 ^ w)), Z.mod_add by (apply Z.pow_nonzero; lia). by apply wrap_wrap.
Qed.

Lemma bits_pack_skip w v l i n : 0 <= w <= i -> bits (pack ((w, v) :: l)) i n = bits (pack l) (i - w) n.
Proof.
  intros Hw. unfold bits. cbn [pack]. f_equal. rewrite !Z.shiftr_div_pow2 by lia.
  replace (2 ^ i) with (2 ^ w * 2 ^ (i - w)) by (rewrite <-Z.pow_add_r by lia; f_equal; lia).
  rewrite <-Z.div_div by (try apply Z.pow_nonzero; try apply Z.pow_pos_nonneg; lia).
  rewrite (Z.mul_comm (2 ^ w)), Z.div_add by (apply Z.pow_nonzero; lia).
  rewrite (Z.div_small (wrap w v)) by (apply wrap_range; lia). done.
Qed.

(** Reads one field of a packed structure. *)
Ltac unpack :=
  repeat first
    [ rewrite bits_pack_here by lia
    | rewrite bits_pack_skip by lia; cbn [Z.sub Z.add Z.opp Z.pos_sub Pos.pred_double Pos.succ] ].

Lemma base_pieces x :
  in_u32 x -> wrap 16 (Z.land x 0xffff) + 2 ^ 16 * wrap 8 (Z.land (Z.shiftr x 16) 0xff)
    + 2 ^ 24 * wrap 8 (Z.shiftr x 24) = x.
Proof.
  unfold in_u32, wrap. intros Hx. change 0xffff with (2 ^ 16 - 1). change 0xff with (2 ^ 8 - 1).
  rewrite !land_ones_mod, !Z.shiftr_div_pow2 by lia.
  Z.to_euclidean_division_equations. lia.
Qed.

Lemma half_pieces x :
  in_u32 x -> wrap 16 (Z.land x 0xffff) + 2 ^ 16 * wrap 16 (Z.shiftr x 16) = x.
Proof.
  unfold in_u32, wrap. intros Hx. change 0xffff with (2 ^ 16 - 1).
  rewrite !land_ones_mod, !Z.shiftr_div_pow2 by lia. Z.to_euclidean_division_equations. lia.
Qed.

Lemma SEG_ok type base lim dpl :
  0 <= type < 16 -> in_u32 base -> in_u32 lim -> 0 <= dpl < 4 ->
  let x := segdesc_word (SEG type base lim dpl) in
  seg_base x = base /\ seg_limit x = 4096 * (lim / 4096) + 4095 /\ desc_type x = type /\
  desc_application x = 1 /\ desc_privilege x = dpl /\ desc_present x = 1.
Proof.
  intros Ht Hb Hl Hd. cbn zeta. unfold seg_limit, seg_raw_limit, seg_base, desc_type, desc_application,
    desc_privilege, desc_present, segdesc_word, SEG.
  cbn [lim_15_0 base_15_0 base_23_16 sd_type sd_s sd_dpl sd_p lim_19_16 sd_avl sd_rsv1 sd_db sd_g base_31_24].
  unpack. rewrite !(u32_small base), !(u32_small lim) by done.
  split; [by apply base_pieces|]. split; [|split_and!; (apply wrap_small; lia) || done].
  change (truthy (wrap 1 1)) with true. cbn match. unfold in_u32, wrap in *. change 0xffff with (2 ^ 16 - 1).
  rewrite !land_ones_mod, !Z.shiftr_div_pow2 by lia. Z.to_euclidean_division_equations. lia.
Qed.

Lemma SEG16_ok type base lim dpl :
  0 <= type < 16 -> in_u32 base -> 0 <= lim < 2 ^ 20 -> 0 <= dpl < 4 ->
  let x := segdesc_word (clear_s (SEG16 type base lim dpl)) in
  seg_base x = base /\ seg_limit x = lim /\ desc_type x = type /\
  desc_application x = 0 /\ desc_privilege x = dpl /\ desc_present x = 1.
Proof.
  intros Ht Hb Hl Hd. cbn zeta. unfold seg_limit, seg_raw_limit, seg_base, desc_type, desc_application,
    desc_privilege, desc_present, segdesc_word, clear_s, SEG16.
  cbn [lim_15_0 base_15_0 base_23_16 sd_type sd_s sd_dpl sd_p lim_19_16 sd_avl sd_rsv1 sd_db sd_g base_31_24].
  unpack. rewrite !(u32_small base), !(u32_small lim) by (unfold in_u32 in *; lia).
  split; [by apply base_pieces|]. split; [|split_and!; (apply wrap_small; lia) || done].
  change (truthy (wrap 1 0)) with false. cbn match. unfold wrap. change 0xffff with (2 ^ 16 - 1).
  rewrite !land_ones_mod, !Z.shiftr_div_pow2 by lia. Z.to_euclidean_division_equations. lia.
Qed.

Lemma table_register_ok p size :
  in_u32 p -> 0 < size <= 2 ^ 16 -> loads (table_register p size) = Some (size - 1, p).
Proof.
  intros Hp Hs. unfold table_register. cbn [loads]. do 2 f_equal; [apply wrap_small; lia|].
  pose proof (half_pieces p Hp) as E. unfold wrap in E. change 0xFFFF with (2 ^ 16 - 1) in *.
  rewrite !land_ones_mod in * by lia. by rewrite Z.mod_mod in E by lia.
Qed.

(** A present descriptor of the given meaning. *)
Definition describes (d : option segdesc) (base limit type application privilege : Z) : Prop :=
  exists x, d = Some x /\ seg_base (segdesc_word x) = base /\ seg_limit (segdesc_word x) = limit /\
    desc_type (segdesc_word x) = type /\ desc_application (segdesc_word x) = application /\
    desc_privilege (segdesc_word x) = privilege /\ desc_present (segdesc_word x) = 1.

Lemma put_seg_ok i d t :
  0 <= i < Z.of_nat (length t) -> put_seg i d t = Done (<[Z.to_nat i := d]> t).
Proof.
  intros Hi. unfold put_seg. destruct (lookup_lt_is_Some_2 t (Z.to_nat i)) as [x ->]; [lia|done].
Qed.

(** C35: [hal_initcpu] gives the CPU its segments: as the processor decodes the
    table, kernel and user code and data cover all 4 GiB with privilege 0 and 3,
    the task state segment is exactly the CPU's [struct taskstate], the private
    segment starts at [cpu_local] and contains it; the null descriptor is not
    touched, [lgdt] loads the table with its seven entries, and [gs] selects the
    private segment. *)
Theorem hal_initcpu_correct c r :
  length (gdt c) = 7%nat -> in_u32 (gdt_addr c) -> in_u32 (tss_addr c) -> in_u32 (local_addr c) ->
  exists c' r', hal_initcpu c r = Done (c', r') /\
    describes (gdt c' !! 1%nat) 0 (2 ^ 32 - 1) (Z.lor STA_X STA_R) 1 0 /\
    describes (gdt c' !! 2%nat) 0 (2 ^ 32 - 1) STA_W 1 0 /\
    describes (gdt c' !! 3%nat) (local_addr c) 4095 STA_W 1 0 /\
    describes (gdt c' !! 4%nat) 0 (2 ^ 32 - 1) (Z.lor STA_X STA_R) 1 DPL_USER /\
    describes (gdt c' !! 5%nat) 0 (2 ^ 32 - 1) STA_W 1 DPL_USER /\
    describes (gdt c' !! 6%nat) (tss_addr c) (SIZEOF_TASKSTATE - 1) STS_T32A 0 0 /\
    gdt c' !! 0%nat = gdt c !! 0%nat /\ length (gdt c') = 7%nat /\
    loads (r_gdtr r') = Some (SIZEOF_SEGDESC * NSEGS - 1, gdt_addr c) /\ r_gs r' = 8 * 3.
Proof.
  intros Hlen Hg Ht Hl. unfold hal_initcpu.
  destruct (gdt c) as [|d0 [|d1 [|d2 [|d3 [|d4 [|d5 [|d6 [|]]]]]]]] eqn:E; try discriminate Hlen.
  do 2 eexists. split; [reflexivity|]. cbn [gdt r_gdtr r_gs].
  assert (Hflat : forall ty dpl, 0 <= ty < 16 -> 0 <= dpl < 4 ->
    describes (Some (SEG ty 0 0xffffffff dpl)) 0 (2 ^ 32 - 1) ty 1 dpl).
  { intros ty dpl Hty Hdpl. eexists; split; [done|].
    apply (SEG_ok ty 0 0xffffffff dpl); unfold in_u32; lia. }
  split_and!; try done.
  - by apply (Hflat 10 0).
  - by apply (Hflat 2 0).
  - eexists; split; [done|]. by apply (SEG_ok STA_W (local_addr c) SIZEOF_CPU_LOCAL 0).
  - by apply (Hflat 10 3).
  - by apply (Hflat 2 3).
  - eexists; split; [done|]. by apply (SEG16_ok STS_T32A (tss_addr c) (SIZEOF_TASKSTATE - 1) 0).
  - by apply table_register_ok.
Qed.

(** The task register can be loaded once after [hal_initcpu]: the descriptor then
    is busy, and the next [hal_after_thread_switch] gets a protection fault. *)
Lemma ltr_only_once c r c' r' :
  length (gdt c) = 7%nat -> hal_initcpu c r = Done (c', r') ->
  exists c2, ltr (Z.shiftl SEG_TSS 3) c' = Done c2 /\ ltr (Z.shiftl SEG_TSS 3) c2 = Fault.
Proof.
  intros Hlen. unfold hal_initcpu.
  destruct (gdt c) as [|d0 [|d1 [|d2 [|d3 [|d4 [|d5 [|d6 [|]]]]]]]]; try discriminate Hlen.
  intros [= <- <-]. eexists. split; reflexivity.
Qed.

(** A present interrupt gate of privilege 0 into the kernel's code segment. *)
Definition gate_to (d : gatedesc) (v : Z) : Prop :=
  gate_offset (gatedesc_word d) = v /\ gate_selector (gatedesc_word d) = 8 /\
  desc_type (gatedesc_word d) = STS_IG32 /\ desc_application (gatedesc_word d) = 0 /\
  desc_privilege (gatedesc_word d) = 0 /\ desc_present (gatedesc_word d) = 1.

Lemma SETGATE_ok v : in_u32 v -> gate_to (SETGATE false (Z.shiftl SEG_KCODE 3) v 0) v.
Proof.
  intros Hv. unfold gate_to, gate_offset, gate_selector, desc_type, desc_application, desc_privilege,
    desc_present, gatedesc_word, SETGATE.
  cbn [off_15_0 gd_cs gd_args gd_rsv1 gd_type gd_s gd_dpl gd_p off_31_16]. unpack.
  split; [|done]. rewrite !wrap_wrap, !(u32_small v) by (done || lia). by apply half_pieces.
Qed.

Lemma setup_gates_ok vectors (n : nat) : forall i idt,
  0 <= i -> Z.of_nat (length vectors) = i + n -> length idt = length vectors ->
  exists idt', setup_gates n i vectors idt = Done idt' /\ length idt' = length vectors /\
    (forall j : nat, Z.of_nat j < i -> idt' !! j = idt !! j) /\
    (forall (j : nat) v, i <= Z.of_nat j -> vectors !! j = Some v ->
       idt' !! j = Some (SETGATE false (Z.shiftl SEG_KCODE 3) v 0)).
Proof.
  induction n as [|n IH]; intros i idt Hi Hv Hl; cbn [setup_gates].
  - exists idt. split_and!; [done|done|done|]. intros j v Hj Hlk. apply lookup_lt_Some in Hlk. lia.
  - destruct (lookup_lt_is_Some_2 vectors (Z.to_nat i)) as [v Ev]; [lia|]. rewrite Ev. cbn [deref mbind outcome_bind].
    destruct (lookup_lt_is_Some_2 idt (Z.to_nat i)) as [d Ed]; [lia|]. rewrite Ed. cbn [deref mbind outcome_bind].
    destruct (IH (i + 1) (<[Z.to_nat i:=SETGATE false (Z.shiftl SEG_KCODE 3) v 0]> idt)) as (idt'&E&Hl'&Hlow&Hhigh);
      [lia|lia|by rewrite length_insert|].
    exists idt'. split_and!; [done|done| |].
    + intros j Hj. rewrite Hlow by lia. by rewrite list_lookup_insert_ne by lia.
    + intros j w Hj Hw. destruct (decide (Z.of_nat j = i)) as [Heq|Hne]; [|by apply Hhigh; [lia|]].
      rewrite Hlow by lia. replace (Z.to_nat i) with j in * by lia.
      rewrite list_lookup_insert_eq by lia. congruence.
Qed.

(** [__i686_setup_idt] makes each of the 256 interrupt vectors an interrupt
    gate to its entry point in the kernel's code segment, not callable from user
    mode, and [lidt] loads the whole table. *)
Theorem __i686_setup_idt_correct vectors idt_addr idt r :
  length vectors = 256%nat -> Forall in_u32 vectors -> length idt = 256%nat -> in_u32 idt_addr ->
  exists idt' r', __i686_setup_idt vectors idt_addr idt r = Done (idt', r') /\ length idt' = 256%nat /\
    (forall (i : nat) v, vectors !! i = Some v -> exists d, idt' !! i = Some d /\ gate_to d v) /\
    loads (r_idtr r') = Some (SIZEOF_GATEDESC * 256 - 1, idt_addr) /\ r_gdtr r' = r_gdtr r /\ r_gs r' = r_gs r.
Proof.
  intros Hv Hu Hl Ha. unfold __i686_setup_idt.
  destruct (setup_gates_ok vectors 256 0 idt) as (idt'&E&Hl'&_&Hg); [lia|by rewrite Hv|congruence|].
  rewrite E. cbn [mbind outcome_bind]. do 2 eexists. split; [done|]. cbn [r_idtr r_gdtr r_gs].
  split_and!; try done; [congruence| |by apply table_register_ok].
  intros i v Hi. eexists. split; [apply (Hg i v); [lia|done]|]. apply SETGATE_ok.
  by apply (Forall_lookup_1 _ _ _ _ Hu Hi).
Qed.

(** ** x86/traps.h *)

Definition T_IRQ0 : Z := 32.
Definition IRQ_TIMER : Z := 0.
Definition IRQ_KBD : Z := 1.
Definition IRQ_COM1 : Z := 4.
Definition IRQ_IDE : Z := 14.
Definition IRQ_ERROR : Z := 19.
Definition IRQ_SPURIOUS : Z := 31.

(** ** irq_pic.c *)

Module Pic.
Definition IO_PIC1 : Z := 0x20.
Definition IO_PIC2 : Z := 0xA0.
Definition IRQ_SLAVE : Z := 2.
Definition PIC_EOI : Z := 0x20.
Definition IO_TIMER1 : Z := 0x040.
Definition TIMER_FREQ : Z := 1193182.
Definition TIMER_DIV (x : Z) : Z := (TIMER_FREQ + x / 2) / x.
Definition TIMER_MODE : Z := IO_TIMER1 + 3.
Definition TIMER_SEL0 : Z := 0x00.
Definition TIMER_RATEGEN : Z := 0x04.
Definition TIMER_16BIT : Z := 0x30.

(** The variable [irqmask] and the bytes written to ports so far. *)
Record ports := Ports { irqmask : Z; written : list (Z * Z) }.

Definition irqmask_init : Z := Z.land 0xFFFF (not32 (Z.shiftl 1 IRQ_SLAVE)).

Definition outb (port data : Z) (s : ports) : ports :=
  Ports (irqmask s) (written s ++ [(u16 port, u8 data)]).

Definition picsetmask (mask : Z) (s : ports) : ports :=
  let s := Ports mask (written s) in
  let s := outb (IO_PIC1 + 1) mask s in
  outb (IO_PIC2 + 1) (Z.shiftr mask 8) s.

Definition picenable (irq : Z) (s : ports) : ports :=
  picsetmask (u16 (Z.land (irqmask s) (not32 (u32 (Z.shiftl 1 irq))))) s.

Definition __i686_picinit (s : ports) : ports :=
  let s := outb (IO_PIC1 + 1) 0xFF s in
  let s := outb (IO_PIC2 + 1) 0xFF s in
  let s := outb IO_PIC1 0x11 s in
  let s := outb (IO_PIC1 + 1) T_IRQ0 s in
  let s := outb (IO_PIC1 + 1) (Z.shiftl 1 IRQ_SLAVE) s in
  let s := outb (IO_PIC1 + 1) 0x3 s in
  let s := outb IO_PIC2 0x11 s in
  let s := outb (IO_PIC2 + 1) (T_IRQ0 + 8) s in
  let s := outb (IO_PIC2 + 1) IRQ_SLAVE s in
  let s := outb (IO_PIC2 + 1) 0x3 s in
  let s := outb IO_PIC1 0x68 s in
  let s := outb IO_PIC1 0x0a s in
  let s := outb IO_PIC2 0x68 s in
  let s := outb IO_PIC2 0x0a s in
  if negb (irqmask s =? 0xFFFF) then picsetmask (irqmask s) s else s.

(** [irq] is a signed [int]. *)
Definition __i686_piceoi (irq : Z) (s : ports) : ports :=
  let s := if 8 <=? irq then outb IO_PIC2 PIC_EOI s else s in
  outb IO_PIC1 PIC_EOI s.

Definition __i686_timerinit (s : ports) : ports :=
  let time := TIMER_DIV 50 in
  let s := outb TIMER_MODE (Z.lor (Z.lor TIMER_SEL0 TIMER_RATEGEN) TIMER_16BIT) s in
  let s := outb IO_TIMER1 (time mod 256) s in
  let s := outb IO_TIMER1 (time / 256) s in
  picenable IRQ_TIMER s.

(** *** The 8259A

    The commands of the data sheet (and of the comments of
    [__i686_picinit]).  A write to the even port with bit 4 set is ICW1: it
    clears the mask and starts the initialization, in which the odd port takes
    ICW2 (the vectors), ICW3 (unless ICW1 said there is one controller only) and
    ICW4 (if ICW1 asked for it).  Otherwise the odd port takes the mask; on the
    even port, bit 3 tells OCW3 from OCW2, of which 0x20 ends the interrupt of
    highest priority in service. *)
Inductive pic_expects := Ready | Icw2 (single icw4 : bool) | Icw3 (icw4 : bool) | Icw4.

Record i8259 := I8259 {
  pic_state : pic_expects;
  pic_vector : Z;
  pic_cascade : Z;
  pic_mode : Z;
  pic_mask : Z;
  pic_service : Z;
}.

(** Clears the lowest bit that is set. *)
Definition clear_lowest (x : Z) : Z := Z.land x (x - 1).

Definition pic_command (d : Z) (c : i8259) : i8259 :=
  if Z.testbit d 4 then
    I8259 (Icw2 (Z.testbit d 1) (Z.testbit d 0)) (pic_vector c) (pic_cascade c) 0 0 0
  else if Z.testbit d 3 then c
  else if Z.land d 0xE0 =? PIC_EOI then
    I8259 (pic_state c) (pic_vector c) (pic_cascade c) (pic_mode c) (pic_mask c) (clear_lowest (pic_service c))
  else c.

Definition after_icw3 (icw4 : bool) : pic_expects := if icw4 then Icw4 else Ready.

Definition pic_data (d : Z) (c : i8259) : i8259 :=
  match pic_state c with
  | Ready => I8259 Ready (pic_vector c) (pic_cascade c) (pic_mode c) d (pic_service c)
  | Icw2 single icw4 =>
      I8259 (if single then after_icw3 icw4 else Icw3 icw4) (Z.land d 0xF8) (pic_cascade c) (pic_mode c)
        (pic_mask c) (pic_service c)
  | Icw3 icw4 => I8259 (after_icw3 icw4) (pic_vector c) d (pic_mode c) (pic_mask c) (pic_service c)
  | Icw4 => I8259 Ready (pic_vector c) (pic_cascade c) d (pic_mask c) (pic_service c)
  end.

(** Master and slave at their ports. *)
Definition pics_write (w : Z * Z) (p : i8259 * i8259) : i8259 * i8259 :=
  let '(port, d) := w in
  if port =? IO_PIC1 then (pic_command d p.1, p.2)
  else if port =? IO_PIC1 + 1 then (pic_data d p.1, p.2)
  else if port =? IO_PIC2 then (p.1, pic_command d p.2)
  else if port =? IO_PIC2 + 1 then (p.1, pic_data d p.2)
  else p.

Definition pics_run (ws : list (Z * Z)) (p : i8259 * i8259) : i8259 * i8259 :=
  fold_left (fun p w => pics_write w p) ws p.

(** The two mask registers together: bit [n] masks IRQ [n]. *)
Definition imr (p : i8259 * i8259) : Z := pic_mask p.1 + 2 ^ 8 * pic_mask p.2.

(** *** Lemmas *)

Lemma pics_run_app ws ws' p : pics_run (ws ++ ws') p = pics_run ws' (pics_run ws p).
Proof. unfold pics_run. by rewrite fold_left_app. Qed.

(** What a function writes does not depend on what was written before. *)
Definition writes (f : ports -> ports) (s : ports) (ws : list (Z * Z)) : Prop :=
  written (f s) = written s ++ ws.

Lemma mask_pieces m : 0 <= m < 2 ^ 16 -> u8 m + 2 ^ 8 * u8 (Z.shiftr m 8) = m.
Proof.
  intros Hm. rewrite Z.shiftr_div_pow2 by lia. unfold wrap. Z.to_euclidean_division_equations. lia.
Qed.

Lemma picsetmask_ok m s p :
  0 <= m < 2 ^ 16 -> pic_state p.1 = Ready -> pic_state p.2 = Ready ->
  let ws := [(0x21, u8 m); (0xA1, u8 (Z.shiftr m 8))] in
  picsetmask m s = Ports m (written s ++ ws) /\
  pics_run ws p =
    (I8259 Ready (pic_vector p.1) (pic_cascade p.1) (pic_mode p.1) (u8 m) (pic_service p.1),
     I8259 Ready (pic_vector p.2) (pic_cascade p.2) (pic_mode p.2) (u8 (Z.shiftr m 8)) (pic_service p.2)).
Proof.
  intros Hm H1 H2. split.
  - unfold picsetmask, outb. cbn [irqmask written]. by rewrite <-app_assoc.
  - destruct p as [[] []]. cbn in H1, H2. by subst.
Qed.

(** The controllers after the initialization, before the mask is written. *)
Definition initialized (p : i8259 * i8259) : Prop :=
  (exists m r, p.1 = I8259 Ready 32 4 3 m r) /\ (exists m r, p.2 = I8259 Ready 40 2 3 m r).

Lemma picinit_ok s :
  exists ws, written (__i686_picinit s) = written s ++ ws /\ irqmask (__i686_picinit s) = irqmask s /\
    forall p, 0 <= irqmask s < 2 ^ 16 -> initialized (pics_run ws p) /\
      imr (pics_run ws p) = if irqmask s =? 0xFFFF then 0 else irqmask s.
Proof.
  destruct s as [mask log]. unfold __i686_picinit, outb. cbn [irqmask written].
  destruct (Z.eqb_spec mask 0xFFFF) as [->|Hne]; cbn [negb irqmask written].
  - eexists. split; [by rewrite <-!app_assoc|]. split; [done|]. intros [[] []] _.
    split; [split; do 2 eexists; reflexivity|done].
  - eexists. split; [unfold picsetmask, outb; cbn [irqmask written]; by rewrite <-!app_assoc|].
    split; [done|]. intros [[] []] Hm. split; [split; do 2 eexists; reflexivity|]. by apply mask_pieces.
Qed.

Lemma picenable_ok irq s p :
  0 <= irq < 16 -> 0 <= irqmask s < 2 ^ 16 -> initialized p ->
  exists ws, written (picenable irq s) = written s ++ ws /\ initialized (pics_run ws p) /\
    irqmask (picenable irq s) = imr (pics_run ws p) /\
    forall n, 0 <= n < 16 -> Z.testbit (irqmask (picenable irq s)) n = Z.testbit (irqmask s) n && negb (n =? irq).
Proof.
  intros Hi Hm [(m1&r1&E1) (m2&r2&E2)]. unfold picenable. set (m := u16 _).
  destruct (picsetmask_ok m s p) as [Es Ep]; [by apply wrap_range|by rewrite E1|by rewrite E2|].
  rewrite Es. eexists. split; [done|]. rewrite Ep, E1, E2. cbn [irqmask imr fst snd pic_mask pic_vector pic_cascade pic_mode].
  split; [split; by do 2 eexists|]. split; [symmetry; apply mask_pieces; by apply wrap_range|].
  intros n Hn. unfold m. unfold wrap at 1. rewrite Z.mod_pow2_bits_low by lia.
  rewrite Z.land_spec, testbit_not32 by lia. f_equal. f_equal.
  rewrite u32_small by (unfold in_u32; rewrite Z.shiftl_1_l; split; [apply Z.pow_nonneg; lia|apply Z.pow_lt_mono_r; lia]).
  rewrite Z.shiftl_1_l, Z.pow2_bits_eqb by lia. apply Z.eqb_sym.
Qed.
End Pic.

(** The interrupt controllers and the timer after the port's initialization,
    as an 8259A pair in any state takes the bytes: both are ready, master and
    slave deliver their interrupts as vectors 32 to 47 and are cascaded on line
    2; the mask in force is [irqmask], with exactly the timer's line opened in
    addition to the lines that were open; and the counter loaded into the timer
    divides its frequency to 50 Hz as closely as an integer can. *)
Theorem pic_timer_correct (s : Pic.ports) (p : Pic.i8259 * Pic.i8259) :
  0 <= Pic.irqmask s < 2 ^ 16 ->
  let s' := Pic.__i686_timerinit (Pic.__i686_picinit s) in
  exists pre lo hi post,
    let ws := pre ++ [(0x43, 0x34); (0x40, lo); (0x40, hi)] ++ post in
    Pic.written s' = Pic.written s ++ ws /\ Z.abs (50 * (lo + 256 * hi) - Pic.TIMER_FREQ) <= 25 /\
    Pic.initialized (Pic.pics_run ws p) /\ Pic.imr (Pic.pics_run ws p) = Pic.irqmask s' /\
    forall n, 0 <= n < 16 -> Z.testbit (Pic.irqmask s') n = Z.testbit (Pic.irqmask s) n && negb (n =? IRQ_TIMER).
Proof.
  intros Hm. cbn zeta. destruct (Pic.picinit_ok s) as (pre&Ew&Ei&Hp). destruct (Hp p Hm) as [Hin _].
  set (s1 := Pic.__i686_picinit s) in *. unfold Pic.__i686_timerinit.
  set (s2 := Pic.outb _ _ (Pic.outb _ _ (Pic.outb _ _ s1))).
  set (p2 := Pic.pics_run [(0x43, 0x34); (0x40, 0x38); (0x40, 0x5D)] (Pic.pics_run pre p)).
  assert (E2 : Pic.irqmask s2 = Pic.irqmask s /\
    Pic.written s2 = Pic.written s ++ pre ++ [(0x43, 0x34); (0x40, 0x38); (0x40, 0x5D)]).
  { unfold s2, Pic.outb. cbn [Pic.irqmask Pic.written]. split; [done|]. rewrite Ew, <-!app_assoc. done. }
  destruct E2 as [E2i E2w]. destruct (Pic.picenable_ok IRQ_TIMER s2 p2) as (post&Ew3&Hin3&Ei3&Hb);
    [done|by rewrite E2i|done|].
  exists pre, 0x38, 0x5D, post. rewrite !Pic.pics_run_app. fold p2. split_and!.
  - rewrite Ew3, E2w, <-!app_assoc. done.
  - done.
  - done.
  - done.
  - intros n Hn. rewrite Hb by done. by rewrite E2i.
Qed.

(** ** irq_lapic.c *)

Module Lapic.
Definition ID : Z := 0x0020 / 4.
Definition VER : Z := 0x0030 / 4.
Definition TPR : Z := 0x0080 / 4.
Definition EOI : Z := 0x00B0 / 4.
Definition SVR : Z := 0x00F0 / 4.
Definition ENABLE : Z := 0x00000100.
Definition ESR : Z := 0x0280 / 4.
Definition ICRLO : Z := 0x0300 / 4.
Definition INIT : Z := 0x00000500.
Definition DELIVS : Z := 0x00001000.
Definition LEVEL : Z := 0x00008000.
Definition BCAST : Z := 0x00080000.
Definition ICRHI : Z := 0x0310 / 4.
Definition TIMER : Z := 0x0320 / 4.
Definition X1 : Z := 0x0000000B.
Definition PERIODIC : Z := 0x00020000.
Definition PCINT : Z := 0x0340 / 4.
Definition LINT0 : Z := 0x0350 / 4.
Definition LINT1 : Z := 0x0360 / 4.
Definition ERROR : Z := 0x0370 / 4.
Definition MASKED : Z := 0x00010000.
Definition TICR : Z := 0x0380 / 4.
Definition TDCR : Z := 0x03E0 / 4.

(** Registers behind the pointer [lapic]; a read can change the device. *)
Class Mmio (D : Type) := {
  reg_read : Z -> D -> Z * D;
  reg_write : Z -> Z -> D -> D;
}.

Section lapic.
Context {D : Type} `{Mmio D}.
Implicit Types d : D.

Definition lapicw (index value : Z) d : D := (reg_read ID (reg_write index (u32 value) d)).2.

(** [while(lapic[ICRLO] & DELIVS);] *)
Fixpoint wait_delivery (fuel : nat) d : outcome D :=
  match fuel with
  | O => OutOfFuel
  | S fuel =>
      let '(v, d) := reg_read ICRLO d in
      if truthy (Z.land v DELIVS) then wait_delivery fuel d else Done d
  end.

(** [lapic] is the pointer, 0 without a local APIC. *)
Definition __i686_lapicinit (fuel : nat) (lapic : Z) d : outcome D :=
  if negb (truthy lapic) then Done d
  else
    let d := lapicw SVR (Z.lor ENABLE (T_IRQ0 + IRQ_SPURIOUS)) d in
    let d := lapicw TDCR X1 d in
    let d := lapicw TIMER (Z.lor PERIODIC (T_IRQ0 + IRQ_TIMER)) d in
    let d := lapicw TICR 10000000 d in
    let d := lapicw LINT0 MASKED d in
    let d := lapicw LINT1 MASKED d in
    let '(ver, d) := reg_read VER d in
    let d := if 4 <=? Z.land (Z.shiftr ver 16) 0xFF then lapicw PCINT MASKED d else d in
    let d := lapicw ERROR (T_IRQ0 + IRQ_ERROR) d in
    let d := lapicw ESR 0 d in
    let d := lapicw ESR 0 d in
    let d := lapicw EOI 0 d in
    let d := lapicw ICRHI 0 d in
    let d := lapicw ICRLO (Z.lor (Z.lor BCAST INIT) LEVEL) d in
    d ← wait_delivery fuel d;
    Done (lapicw TPR 0 d).

Definition __i686_lapiceoi (lapic : Z) d : D := if truthy lapic then lapicw EOI 0 d else d.
End lapic.

(** *** A local APIC

    A register file in which a command written to ICRLO shows the delivery
    status for [delay] reads. *)
Record apic := Apic { regs : gmap Z Z; busy : nat; delay : nat }.

#[global] Instance apic_mmio : Mmio apic := {
  reg_read i d :=
    let v := default 0 (regs d !! i) in
    if (i =? ICRLO) && bool_decide (busy d <> 0%nat)
    then (Z.lor v DELIVS, Apic (regs d) (busy d - 1) (delay d)) else (v, d);
  reg_write i v d := Apic (<[i := v]> (regs d)) (if i =? ICRLO then delay d else busy d) (delay d);
}.

Lemma lapicw_ok i v d :
  i <> ICRLO -> 0 <= v < 2 ^ 32 -> lapicw i v d = Apic (<[i := v]> (regs d)) (busy d) (delay d).
Proof.
  intros Hi Hv. unfold lapicw. rewrite wrap_small by done. cbn.
  by rewrite (proj2 (Z.eqb_neq i _)) by done.
Qed.

Lemma wait_delivery_ok (n : nat) : forall fuel d,
  busy d = n -> (n < fuel)%nat -> Z.testbit (default 0 (regs d !! ICRLO)) 12 = false ->
  wait_delivery fuel d = Done (Apic (regs d) 0 (delay d)).
Proof.
  induction n as [|n IH]; intros [|fuel] [rs b dl] Hb Hf Hbit; cbn in Hb; subst; try lia;
    cbn [wait_delivery reg_read apic_mmio regs busy delay] in *.
  - rewrite Z.eqb_refl. cbn [andb]. rewrite bool_decide_false by lia.
    replace (Z.land _ DELIVS) with 0; [done|]. apply Z.bits_inj'. intros j Hj.
    rewrite Z.bits_0, Z.land_spec. change DELIVS with (2 ^ 12). rewrite Z.pow2_bits_eqb by lia.
    destruct (Z.eqb_spec 12 j) as [<-|]; [by rewrite Hbit|by rewrite andb_false_r].
  - rewrite Z.eqb_refl. cbn [andb]. rewrite bool_decide_true by lia.
    replace (truthy (Z.land _ DELIVS)) with true.
    + cbn [Nat.sub]. rewrite Nat.sub_0_r. apply (IH fuel (Apic rs n dl)); [done|lia|done].
    + symmetry. apply truthy_true. intros E. apply (f_equal (fun x => Z.testbit x 12)) in E. revert E.
      rewrite Z.land_spec, Z.lor_spec. change DELIVS with (2 ^ 12). rewrite Z.pow2_bits_true by lia.
      by rewrite orb_true_r.
Qed.
End Lapic.

(** [__i686_lapicinit] without a local APIC does nothing; with one it
    returns as soon as the delivery status of the de-assert command clears, and
    leaves the APIC enabled with its spurious, timer and error vectors at IRQ 31,
    0 and 19, the timer periodic, the two local lines masked (and the performance
    counter, where the version says it exists), all priorities accepted. *)
Theorem __i686_lapicinit_correct (fuel : nat) lapic (d : Lapic.apic) :
  (lapic = 0 -> Lapic.__i686_lapicinit fuel lapic d = Done d) /\
  (lapic <> 0 -> (Lapic.delay d < fuel)%nat ->
   exists d', Lapic.__i686_lapicinit fuel lapic d = Done d' /\ Lapic.busy d' = 0%nat /\
     Lapic.regs d' !! Lapic.SVR = Some (0x100 + (T_IRQ0 + IRQ_SPURIOUS)) /\
     Lapic.regs d' !! Lapic.TIMER = Some (0x20000 + (T_IRQ0 + IRQ_TIMER)) /\
     Lapic.regs d' !! Lapic.TICR = Some 10000000 /\
     Lapic.regs d' !! Lapic.ERROR = Some (T_IRQ0 + IRQ_ERROR) /\
     Lapic.regs d' !! Lapic.LINT0 = Some Lapic.MASKED /\ Lapic.regs d' !! Lapic.LINT1 = Some Lapic.MASKED /\
     (4 <= Z.land (Z.shiftr (default 0 (Lapic.regs d !! Lapic.VER)) 16) 0xFF ->
      Lapic.regs d' !! Lapic.PCINT = Some Lapic.MASKED) /\
     Lapic.regs d' !! Lapic.TPR = Some 0).
Proof.
  split; [by intros ->|]. intros Hl Hf. unfold Lapic.__i686_lapicinit.
  rewrite (proj2 (truthy_true lapic)) by done. cbn [negb].
  rewrite (Lapic.lapicw_ok Lapic.SVR) by done. rewrite (Lapic.lapicw_ok Lapic.TDCR) by done.
  rewrite (Lapic.lapicw_ok Lapic.TIMER) by done. rewrite (Lapic.lapicw_ok Lapic.TICR) by done.
  rewrite (Lapic.lapicw_ok Lapic.LINT0) by done. rewrite (Lapic.lapicw_ok Lapic.LINT1) by done.
  cbn [Lapic.reg_read Lapic.apic_mmio Lapic.regs Lapic.busy Lapic.delay].
  rewrite (proj2 (Z.eqb_neq Lapic.VER _)) by done. cbn [andb]. rewrite !lookup_insert_ne by done.
  set (ver := default 0 _). set (d1 := Lapic.Apic _ _ _).
  set (d2 := if 4 <=? _ then _ else d1).
  assert (Hd2 : Lapic.delay d2 = Lapic.delay d /\ exists b rs, d2 = Lapic.Apic rs b (Lapic.delay d) /\
    (forall i, i <> Lapic.PCINT -> rs !! i = Lapic.regs d1 !! i) /\
    (4 <= Z.land (Z.shiftr ver 16) 0xFF -> rs !! Lapic.PCINT = Some Lapic.MASKED)).
  { unfold d2. destruct (Z.leb_spec 4 (Z.land (Z.shiftr ver 16) 0xFF)).
    - rewrite Lapic.lapicw_ok by done. split; [done|]. do 2 eexists. split; [done|].
      split; [intros i Hi; by rewrite lookup_insert_ne|]. intros _. by rewrite lookup_insert_eq.
    - split; [done|]. do 2 eexists. split; [done|]. split; [done|lia]. }
  destruct Hd2 as (_&b&rs&->&Hrs&Hpc).
  rewrite (Lapic.lapicw_ok Lapic.ERROR) by done. rewrite !(Lapic.lapicw_ok Lapic.ESR) by done.
  rewrite (Lapic.lapicw_ok Lapic.EOI) by done. rewrite (Lapic.lapicw_ok Lapic.ICRHI) by done.
  unfold Lapic.lapicw at 2. cbn [Lapic.reg_read Lapic.reg_write Lapic.apic_mmio Lapic.regs Lapic.busy Lapic.delay].
  rewrite (proj2 (Z.eqb_neq Lapic.ID _)), Z.eqb_refl by done. cbn [andb snd].
  erewrite Lapic.wait_delivery_ok; [|done|done|cbn [Lapic.regs]; by rewrite lookup_insert_eq].
  cbn [mbind outcome_bind]. eexists. split; [done|]. rewrite (Lapic.lapicw_ok Lapic.TPR) by done.
  cbn [Lapic.regs Lapic.busy].
  split_and!; try (by intros Hv; rewrite !lookup_insert_ne by done; apply Hpc);
    repeat first [by rewrite lookup_insert_eq | rewrite lookup_insert_ne by done]; try done;
    rewrite Hrs by done; unfold d1; cbn [Lapic.regs];
    repeat first [by rewrite lookup_insert_eq | rewrite lookup_insert_ne by done].
Qed.

(** ** The interrupt handler of hal.c *)

Section interrupt.
Context {V : Type} `{KmemSource V} {D : Type} `{Lapic.Mmio D}.

(** The vectors that are acknowledged at the local APIC. *)
Definition lapic_vector (trapno : Z) : bool :=
  (trapno =? T_IRQ0 + IRQ_TIMER) || (trapno =? T_IRQ0 + IRQ_KBD) || (trapno =? T_IRQ0 + IRQ_COM1)
  || (trapno =? T_IRQ0 + IRQ_IDE) || (trapno =? T_IRQ0 + 7) || (trapno =? T_IRQ0 + IRQ_SPURIOUS).

(** [__i686_switch] runs [sched_preempt] on the CPU's stack between a save and a
    restore of the registers. *)
Definition __i686_interrupt (fuel : nat) (lapic trapno : Z) (p : Pic.ports) (d : D) (k : kern V) :
    outcome (Pic.ports * D * kern V) :=
  let d := if lapic_vector trapno then Lapic.__i686_lapiceoi lapic d else d in
  let p := Pic.__i686_piceoi (i32 trapno) p in
  k ← (if trapno =? T_IRQ0 + IRQ_TIMER then sched_preempt fuel k else Done k);
  Done (p, d, k).

(** The highest-priority interrupt in service ends. *)
Definition ends_service (c c' : Pic.i8259) : Prop :=
  Pic.pic_service c' = Pic.clear_lowest (Pic.pic_service c) /\ Pic.pic_mask c' = Pic.pic_mask c /\
  Pic.pic_vector c' = Pic.pic_vector c /\ Pic.pic_state c' = Pic.pic_state c.

Lemma piceoi_ok irq s (c : Pic.i8259 * Pic.i8259) :
  exists ws, Pic.written (Pic.__i686_piceoi irq s) = Pic.written s ++ ws /\
    Pic.irqmask (Pic.__i686_piceoi irq s) = Pic.irqmask s /\
    ends_service c.1 (Pic.pics_run ws c).1 /\
    (8 <= irq -> ends_service c.2 (Pic.pics_run ws c).2) /\
    (irq < 8 -> (Pic.pics_run ws c).2 = c.2).
Proof using.
  unfold ends_service, Pic.__i686_piceoi, Pic.outb. destruct c as [[] []].
  destruct (Z.leb_spec 8 irq); eexists; (split; [cbn [Pic.written]; rewrite <-?app_assoc; reflexivity|]);
    (split; [done|]); (split; [done|]); split; (lia || done).
Qed.

(** C36: [__i686_interrupt] on the interrupt of line [n] (vector 32 + n): the
    master ends its interrupt in service, and so does the slave, also for a line
    of the master, as the vector and not the line is passed to
    [__i686_piceoi]; only the timer's line enters the scheduler, and every other
    one leaves the state of the kernel as it was.  Without a local APIC the device
    is not touched. *)
Theorem __i686_interrupt_correct (fuel : nat) lapic n p d (k : kern V) (c : Pic.i8259 * Pic.i8259) :
  0 <= n < 16 ->
  exists ws d',
    let p' := Pic.Ports (Pic.irqmask p) (Pic.written p ++ ws) in
    ends_service c.1 (Pic.pics_run ws c).1 /\ ends_service c.2 (Pic.pics_run ws c).2 /\
    (lapic = 0 -> d' = d) /\
    (n <> IRQ_TIMER -> __i686_interrupt fuel lapic (T_IRQ0 + n) p d k = Done (p', d', k)) /\
    (n = IRQ_TIMER -> forall k', sched_preempt fuel k = Done k' ->
       __i686_interrupt fuel lapic (T_IRQ0 + n) p d k = Done (p', d', k')) /\
    (n = IRQ_TIMER -> sched_preempt fuel k = Fault ->
       __i686_interrupt fuel lapic (T_IRQ0 + n) p d k = Fault).
Proof using.
  intros Hn. unfold __i686_interrupt.
  assert (Hi : i32 (T_IRQ0 + n) = T_IRQ0 + n) by (apply swrap_small; unfold T_IRQ0; lia). rewrite Hi.
  destruct (piceoi_ok (T_IRQ0 + n) p c) as (ws&Ew&Ei&H1&H2&_).
  destruct (Pic.__i686_piceoi (T_IRQ0 + n) p) as [mask log]. cbn [Pic.written Pic.irqmask] in Ew, Ei. subst mask log.
  exists ws, (if lapic_vector (T_IRQ0 + n) then Lapic.__i686_lapiceoi lapic d else d). cbn zeta.
  split_and!; [done|apply H2; unfold T_IRQ0; lia| | | |].
  - intros ->. by destruct (lapic_vector _).
  - intros Hne. by rewrite (proj2 (Z.eqb_neq _ _)) by (unfold IRQ_TIMER, T_IRQ0 in *; lia).
  - intros -> k' E. rewrite Z.eqb_refl, E. done.
  - intros -> E. rewrite Z.eqb_refl, E. done.
Qed.
End interrupt.

(** ** Concrete tables and devices *)

Module I686Example.
Definition zero_seg : segdesc := Segdesc 0 0 0 0 0 0 0 0 0 0 0 0 0.
Definition c0 : cpu_tables := CpuTables (replicate 7 zero_seg) 0xC0101000 0xC0101038 0xC0102010.
Definition r0 : registers := Registers [] [] 0.

Lemma hal_initcpu_correct_witness :
  exists c' r', hal_initcpu c0 r0 = Done (c', r') /\
    describes (gdt c' !! 6%nat) 0xC0101038 103 STS_T32A 0 0 /\ loads (r_gdtr r') = Some (55, 0xC0101000).
Proof.
  destruct (hal_initcpu_correct c0 r0) as (c'&r'&E&_&_&_&_&_&H6&_&_&Hl&_).
  - reflexivity.
  - unfold in_u32. cbn. lia.
  - unfold in_u32. cbn. lia.
  - unfold in_u32. cbn. lia.
  - exists c', r'. split; [exact E|]. split; [exact H6|exact Hl].
Defined.

Definition zero_gate : gatedesc := Gatedesc 0 0 0 0 0 0 0 0 0.
(** Entry points eight bytes apart. *)
Definition vectors : list Z := (fun i : nat => 0xC0104000 + 8 * i) <$> seq 0 256.

Lemma __i686_setup_idt_correct_witness :
  exists idt' r', __i686_setup_idt vectors 0xC0108000 (replicate 256 zero_gate) r0 = Done (idt', r') /\
    exists d, idt' !! 32%nat = Some d /\ gate_to d 0xC0104100.
Proof.
  destruct (__i686_setup_idt_correct vectors 0xC0108000 (replicate 256 zero_gate) r0) as (idt'&r'&E&_&Hg&_).
  - reflexivity.
  - apply Forall_fmap, Forall_seq. intros j Hj. unfold in_u32, compose. lia.
  - reflexivity.
  - unfold in_u32. lia.
  - exists idt', r'. split; [exact E|]. apply Hg. reflexivity.
Defined.

(** Two controllers, the first in the middle of an initialization. *)
Definition pics0 : Pic.i8259 * Pic.i8259 :=
  (Pic.I8259 (Pic.Icw2 false true) 0 0 0 0 0, Pic.I8259 Pic.Ready 0x70 0 0 0 0x40).
Definition ports0 : Pic.ports := Pic.Ports Pic.irqmask_init [].

(** At boot the timer and the cascade are the open lines. *)
Lemma pic_timer_correct_witness :
  exists ws, Pic.written (Pic.__i686_timerinit (Pic.__i686_picinit ports0)) = ws /\
    Pic.initialized (Pic.pics_run ws pics0) /\ Pic.imr (Pic.pics_run ws pics0) = 0xFFFA.
Proof.
  destruct (pic_timer_correct ports0 pics0) as (pre&lo&hi&post&Ew&_&Hi&Hm&_).
  - vm_compute. split; [discriminate|reflexivity].
  - eexists. split; [exact Ew|]. split; [exact Hi|]. exact Hm.
Defined.

Lemma __i686_lapicinit_correct_witness :
  exists d', Lapic.__i686_lapicinit 4 0xFEE00000 (Lapic.Apic {[ Lapic.VER := 0x50014 ]} 0 3) = Done d' /\
    Lapic.regs d' !! Lapic.PCINT = Some Lapic.MASKED.
Proof.
  destruct (proj2 (__i686_lapicinit_correct 4 0xFEE00000 (Lapic.Apic {[ Lapic.VER := 0x50014 ]} 0 3)))
    as (d'&E&_&_&_&_&_&_&_&Hpc&_).
  - discriminate.
  - cbn. lia.
  - exists d'. split; [exact E|]. apply Hpc. vm_compute. discriminate.
Defined.

#[local] Existing Instance SchedExample.fixed_source.

(** The keyboard's interrupt ends the slave's interrupt in service as well. *)
Lemma __i686_interrupt_correct_witness :
  exists p' d', __i686_interrupt 1 0 33 ports0 (Lapic.Apic ∅ 0 0) SchedExample.k0 = Done (p', d', SchedExample.k0) /\
    Pic.pic_service (Pic.pics_run (Pic.written p') pics0).2 = 0.
Proof.
  destruct (__i686_interrupt_correct 1 0 1 ports0 (Lapic.Apic ∅ 0 0) SchedExample.k0 pics0)
    as (ws&d'&_&H2&_&E&_).
  - lia.
  - exists (Pic.Ports (Pic.irqmask ports0) (Pic.written ports0 ++ ws)), d'.
    split; [apply E; discriminate|]. exact (proj1 H2).
Defined.
End I686Example.
