(* ===== verification/Boot.v ===== *)
(** * From power-on to the idle thread

    Models [arch/i686/kerninit.c], [kern/init_main.c], [kern/port_alive.c],
    [sys/kernslice.h], [sysplatform/caps.h] with [platform/i686-pc/caps.c],
    [libkern/abort_ex.c] and the whole of [vm/vm_init.c]: the code that puts the
    components together.  The kernel proper is the state of [Kern] over the
    virtual memory layer of [Vm].  All output goes to the terminal of [Terminal];
    what the virtual memory layer prints is collected in its log [printed] and
    printed, in order, before the next output of the boot code.

    [arch_halt] stops the machine; a function that ends in it returns the state
    in which the machine stands still. *)

From S2P Require Import Prelude Ring Spinlock PhysAlloc IoPipe Printf PrintfProps Terminal Mmu MmuProps Vm VmProps Zalloc Kmem Kern Sched I686.

(** ** Data *)

Record kernslice := Kernslice {
  ks_kernslice_id : Z;
  ks_memory_ranges : list physmem_range;
  ks_num_memory_ranges : Z;
  ks_memory_allocator : Z;
}.

(** The whole machine. *)
Record machine := Machine {
  m_kern : kern vm;
  m_term : ccterm;
  m_slice : kernslice;
  m_tables : cpu_tables;
  m_idt : list gatedesc;
  m_regs : registers;
  m_ports : Pic.ports;
  m_interrupts : bool;
}.

Definition set_kern (k : kern vm) (m : machine) : machine :=
  Machine k (m_term m) (m_slice m) (m_tables m) (m_idt m) (m_regs m) (m_ports m) (m_interrupts m).
Definition set_term (t : ccterm) (m : machine) : machine :=
  Machine (m_kern m) t (m_slice m) (m_tables m) (m_idt m) (m_regs m) (m_ports m) (m_interrupts m).
Definition set_slice (s : kernslice) (m : machine) : machine :=
  Machine (m_kern m) (m_term m) s (m_tables m) (m_idt m) (m_regs m) (m_ports m) (m_interrupts m).
Definition set_interrupts (b : bool) (m : machine) : machine :=
  Machine (m_kern m) (m_term m) (m_slice m) (m_tables m) (m_idt m) (m_regs m) (m_ports m) b.

Definition vm_of (m : machine) : vm := vmst (heap (m_kern m)).
Definition set_vm_of (v : vm) (m : machine) : machine := set_kern (set_vm (m_kern m) v) m.

(** Addresses the linker chooses, and the fuel of the loops. *)
Record image := Image {
  kernel_end : Z;              (* [_kernel_end] *)
  vectors : list Z;            (* [__i686_vectors] *)
  cpu_addr : Z;                (* the static [cpu] of kerninit.c *)
  arch_addr : Z;               (* the static [cpu_arch] *)
  idt_addr : Z;
  slice_addr : Z;              (* the static [slice] *)
  memrange_addr : Z;           (* the static [memrange] *)
  bmas_addr : Z;               (* [prealloc_bmas] *)
  pbma_ptr_addr : Z;           (* [prealloc_pbma_ptr] *)
  page_dir : Z;                (* the kernel's page directory *)
  szone : Z;                   (* [s_zone_zone] *)
  szz_buf : Z;
  numbuf : list Z;             (* what the stack holds where [numbuf] lies *)
}.

(** Characters of a C string, without the NUL; with a newline at the end. *)
Definition chars (s : string) : list Z := (fun c => Z.of_nat (Ascii.nat_of_ascii c)) <$> String.list_ascii_of_string s.
Definition line (s : string) : list Z := chars s ++ [10].

(** ** init_main.c, on the state of the kernel *)

Section main_kern.
Context {V : Type} `{KmemSource V}.

(** [kernel_get_current_cpu()->cpu_scheduler->sched_idle = thread] *)
Definition set_idle (thread : Z) (k : kern V) : outcome (kern V) :=
  c ← kernel_get_current_cpu k;
  x ← deref (cpus k !! c);
  with_sched (cpu_scheduler x)
    (fun s => Scheduler (sched_run_decay s) thread (sched_thread_count s) (sched_lock s)) k.

(** [main] up to the message, on the state of the kernel. *)
Definition main_kern (fuel : nat) (k : kern V) : outcome (kern V) :=
  c ← kernel_get_current_cpu k;
  k ← kernel_cpu_init_stack c k;
  k ← thread_init fuel k;
  '(thread, k) ← thread_allocate fuel k;
  if negb (truthy thread) then Panic "Couldn't allocate the Idle thread!"
  else
    k ← kernel_set_current_thread thread k;
    k ← sched_init fuel k;
    c ← kernel_get_current_cpu k;
    k ← sched_instanciate fuel c k;
    set_idle thread k.
End main_kern.

Section boot.
Variable im : image.

(** [printf] and [printinfo] on the kernel's terminal. *)
Definition printf (fmt : list Z) (args : list arg) (m : machine) : outcome machine :=
  '(_, t) ← iopipe_printf (S (length fmt)) (numbuf im) fmt args (m_term m);
  Done (set_term t m).
Definition printinfo (fmt : list Z) (args : list arg) (m : machine) : outcome machine :=
  t ← iopipe_printinfo (S (length fmt)) (numbuf im) fmt args (m_term m);
  Done (set_term t m).

(** ** kerninit.c *)

(** The multiboot data: flags, lower and upper memory in KiB. *)
Definition _i686_init (flags mem_lower mem_upper : Z) (m : machine) : outcome machine :=
  let k := m_kern m in
  let old := default (Cpu 0 0 [0; 0; 0] (Taskstate 0 0 0) 0) (cpus k !! cpu_addr im) in
  let c := Cpu 0 0 (<[0%nat := cpu_addr im]> (cpu_local old)) (cpu_arch old) (cpu_scheduler old) in
  let k := set_cpus k (<[cpu_addr im := c]> (cpus k)) in
  let sl := m_slice m in
  let sl :=
    match i686_memranges (kernel_end im) flags mem_lower mem_upper with
    | Some r => Kernslice 0 r 2 (ks_memory_allocator sl)
    | None => Kernslice 0 (ks_memory_ranges sl) (ks_num_memory_ranges sl) (ks_memory_allocator sl)
    end in
  '(t, r) ← hal_initcpu (m_tables m) (m_regs m);
  (* [%gs] now is the CPU's private segment *)
  let k := Kern (heap k) (stacks k) (stacks_sl k) (kstacks k) (thread_zone k) (thread_template k) (threads k)
             (rings k) (cpus k) (cpu_addr im) (sched_zone k) (scheds k) in
  '(idt, r) ← __i686_setup_idt (vectors im) (idt_addr im) (m_idt m) r;
  let p := Pic.__i686_timerinit (Pic.__i686_picinit (m_ports m)) in
  Done (Machine k (m_term m) sl t idt r p (m_interrupts m)).

(** ** init_main.c *)

(** The status of [vm_phys_bm_bootinit] is not looked at. *)
Definition kern_initmem (m : machine) : outcome machine :=
  _ ← kernel_get_current_cpu (m_kern m);
  let sl := m_slice m in
  '(_, p) ← vm_phys_bm_bootinit (take (Z.to_nat (ks_num_memory_ranges sl)) (ks_memory_ranges sl)) (phys (vm_of m));
  let m := set_vm_of (with_phys p (vm_of m)) m in
  Done (set_slice (Kernslice (ks_kernslice_id sl) (ks_memory_ranges sl) (ks_num_memory_ranges sl) (bmas_addr im)) m).

(** vm_init.c *)
Definition vm_init (fuel : nat) (m : machine) : outcome machine :=
  h ← zone_bootstrap fuel (szone im) (szz_buf im) (heap (m_kern m));
  let m := set_kern (set_heap (m_kern m) h) m in
  v ← vm_init_layers fuel (page_dir im) (vm_of m);
  Done (set_vm_of v m).

(** ** libkern/abort_ex.c

    The text before the machine stops.  Elsewhere a call of [panic] is the
    outcome [Panic]. *)
Definition panic (fmt : list Z) (args : list arg) (m : machine) : outcome machine :=
  m ← printf (chars "panic: ") [] m;
  m ← printf fmt args m;
  printf [10] [] m.

(** [None] when the machine stops. *)
Definition __kernel_assert (i : Z) (text : list Z) (m : machine) : outcome (option machine * machine) :=
  if truthy i then Done (Some m, m)
  else m ← printf (line "assertion failed: %s") [AStr (Some text)] m; Done (None, m).

(** ** port_alive.c *)

(** The loop over the memory ranges. *)
Fixpoint print_ranges (n : nat) (i : Z) (m : machine) : outcome machine :=
  match n with
  | O => Done m
  | S n =>
      r ← deref (ks_memory_ranges (m_slice m) !! Z.to_nat i);
      m ← printinfo (9 :: line "prange[~u].pm_begin = 0x~H") [AWord i; AWord (pm_begin r)] m;
      m ← printinfo (9 :: line "prange[~u].pm_end   = 0x~H") [AWord i; AWord (pm_end r)] m;
      print_ranges n (i + 1) m
  end.

Definition kern_prove_alive (m : machine) : outcome machine :=
  cpu ← kernel_get_current_cpu (m_kern m);
  let kern := if truthy cpu then slice_addr im else 0 in
  let prange := if truthy kern then memrange_addr im else 0 in
  let prangen := if truthy kern then ks_num_memory_ranges (m_slice m) else 0 in
  m ← printf (line "Test <( %i )>") [AWord 99] m;
  m ← printf (line "cpu = %p") [AWord cpu] m;
  m ← printf (line "kern = %p") [AWord kern] m;
  m ← printf (line "prange = %p") [AWord prange] m;
  m ← printf (line "prangen = %u") [AWord prangen] m;
  print_ranges (Z.to_nat prangen) 0 m.

(** The loop over the bitmaps. *)
Fixpoint print_maps (n i : nat) (m : machine) : outcome machine :=
  match n with
  | O => Done m
  | S n =>
      pm ← get_map (phys (vm_of m)) i;
      m ← printf (line "bmas->pmb_maps[%d] = %d") [AWord i; AWord (pmb_length pm)] m;
      print_maps n (S i) m
  end.

Definition kern_printmem (m : machine) : outcome machine :=
  _ ← kernel_get_current_cpu (m_kern m);
  let bmas := ks_memory_allocator (m_slice m) in
  m ← printf (line "bmas = %p") [AWord bmas] m;
  if truthy bmas then
    m ← printf (line "bmas->pmb_maps = %p") [AWord (pbma_ptr_addr im)] m;
    m ← printf (line "bmas->pmb_n_maps = %u") [AWord (pmb_n_maps (phys (vm_of m)))] m;
    print_maps (Z.to_nat (pmb_n_maps (phys (vm_of m)))) 0 m
  else Done m.

(** ** init_main.c, continued *)

Definition hal_boot_start_int (m : machine) : machine := set_interrupts true m.

(** What the virtual memory layer has printed; its formats end in a newline. *)
Fixpoint print_log (l : list (string * Z)) (m : machine) : outcome machine :=
  match l with
  | [] => Done m
  | (fmt, v) :: l => m ← printf (line fmt) [AWord (u32 v)] m; print_log l m
  end.

Definition vm_output (m : machine) : outcome machine := print_log (printed (vm_of m)) m.

Definition main (fuel : nat) (m : machine) : outcome machine :=
  let m := set_kern (kernel_stacks_init (m_kern m)) m in
  t ← kterm_init (m_term m);
  let m := set_term t m in
  m ← kern_initmem m;
  m ← vm_init fuel m;
  k ← main_kern fuel (m_kern m);
  m ← vm_output (set_kern k m);
  let m := hal_boot_start_int m in
  printf (line "Hey, we need to do more!") [] m.

(** The stages of [sysplatform/caps.h], and the stage of this port. *)
Inductive cap_stage := platform_ALIVE | platform_HIGHER_HALF | platform_CPU_PTR | platform_MMU | platform_INTERRUPTS.

Definition platform_get_cap_stage : cap_stage := platform_INTERRUPTS.

(** [kernel_main] in a port of the given stage; [kern_prove_alive] and [main] do
    not return. *)
Definition kernel_main_at (caps : cap_stage) (fuel : nat) (m : machine) : outcome machine :=
  match caps with
  | platform_INTERRUPTS => main fuel m
  | platform_MMU =>
      let m := set_kern (kernel_stacks_init (m_kern m)) m in
      t ← kterm_init (m_term m);
      m ← kern_initmem (set_term t m);
      m ← kern_printmem m;
      m ← vm_init fuel m;
      c ← kernel_get_current_cpu (m_kern m);
      k ← kernel_cpu_init_stack c (m_kern m);
      m ← vm_output (set_kern k m);
      kern_prove_alive m
  | platform_CPU_PTR =>
      let m := set_kern (kernel_stacks_init (m_kern m)) m in
      t ← kterm_init (m_term m);
      m ← kern_initmem (set_term t m);
      m ← kern_printmem m;
      kern_prove_alive m
  | platform_ALIVE | platform_HIGHER_HALF =>
      t ← kterm_init (m_term m);
      kern_prove_alive (set_term t m)
  end.

Definition kernel_main (fuel : nat) (m : machine) : outcome machine := kernel_main_at platform_get_cap_stage fuel m.

Definition _i686_boot_main (fuel : nat) (flags mem_lower mem_upper : Z) (m : machine) : outcome machine :=
  m ← _i686_init flags mem_lower mem_upper m;
  kernel_main fuel m.
End boot.

(** ** The kernel's part of the boot *)

Section kernel_boot.
Context {V : Type} `{KmemLaws V}.
Implicit Types (k : kern V) (h : zheap V).

(** A new zone, from a zone of zones that does not refill itself. *)
Lemma zinit_ok (fuel : nat) size mt name h zn a l bs :
  let zz := zone_zone h in
  zone_rep h zz zn (a :: l) -> zn_lock zn = 0 -> 0 < zz -> zn_memtype zn = 0 ->
  Forall (fun b => b + 4 < 2 ^ 32) (a :: l) -> zones h !! (a + 4) = None -> calc_bufsize fuel size = Done bs ->
  exists h', zinit fuel size mt (Some name) h = Done (a + 4, h') /\
    zone_rep h' (a + 4) (Zone bs 0 name 0 mt 0) [] /\ zone_rep h' zz (with_free zn l 0) l /\
    zone_zone h' = zz /\ vmst h' = vmst h /\
    (forall z, z <> zz -> z <> a + 4 -> zones h' !! z = zones h !! z).
Proof using.
  intros zz Hz Hlk Hpos Hty Hsm Hnone Hbs. unfold zinit. fold zz. rewrite (proj2 (truthy_true zz)) by lia.
  pose proof (zr_list _ _ _ _ Hz) as (_&Ha&_).
  destruct (zalloc_no_refill fuel h zz zn (a :: l)) as (h1&->&Hz1&_&Hv1&(_&Hk1&Hzz1)); [done..|left; by rewrite Hty|done|].
  cbn [mbind outcome_bind]. rewrite (proj2 (truthy_true (a + 4))) by lia. rewrite Hbs. cbn [mbind outcome_bind].
  assert (Hne : a + 4 <> zz).
  { intros Heq. rewrite Heq, (zr_zone _ _ _ _ Hz) in Hnone. done. }
  rewrite (Hk1 (a + 4)) by done. rewrite Hnone. cbn [default zero_zone zn_count zn_lock kernlock_init].
  eexists. split; [done|]. cbn [zmem zones zone_zone vmst]. split_and!.
  - split; cbn; try done; [apply lookup_insert_eq|constructor].
  - destruct Hz1 as [H1 H2 H3 H4 H5]. split; try done. cbn. by rewrite lookup_insert_ne.
  - done.
  - done.
  - intros z Hz' Hz2. rewrite lookup_insert_ne by done. by apply Hk1.
Qed.

(** The first allocation from a new zone that refills itself. *)
Lemma zalloc_first_ok (fuel : nat) h z bs name va n log :
  zone_rep h z (Zone bs 0 name 0 ZONE_AUTO_REFILL 0) [] -> 0 < z -> 32 <= bs < 2 ^ 20 -> 4096 * pages_for (bs * 32) = bs * 32 ->
  kmem_at (vmst h) va n log -> pages_for (bs * 32) <= n -> (33 <= fuel)%nat ->
  exists h' l, zalloc fuel z h = Done (va + bs * 31 + 4, h') /\
    zkeeps z (chunks va bs (bs * 32)) h h' /\
    zone_rep h' z (with_free (Zone bs 0 name 0 ZONE_AUTO_REFILL 0) l 0) l /\
    kmem_at (vmst h') (va + bs * 32) (n - pages_for (bs * 32)) (log ++ [ll_message (bs * 32)]).
Proof using.
  intros Hz Hpos Hbs Hpg Hk Hn Hf. pose proof (kmem_bounds _ _ _ _ Hk) as (Hva&Hn0&Hend).
  unfold KMEM_BEGIN, KMEM_PAGES in *.
  destruct (kmem_alloc _ _ _ _ (bs * 32) Hk) as (v&Ev&Hk'); [lia|done|]. rewrite Hpg in Ev, Hk'.
  set (zn := Zone bs 0 name 0 ZONE_AUTO_REFILL 0) in *.
  assert (Hd : bs * 32 / bs = 32) by (rewrite Z.mul_comm; apply Z.div_mul; lia).
  assert (Hrev : reverse (chunks va bs (bs * 32)) =
    va + bs * 31 :: reverse ((fun i => va + bs * i) <$> seqZ 0 31)).
  { unfold chunks. rewrite Hd. change 32 with (31 + 1) at 1. rewrite seqZ_app by lia.
    rewrite fmap_app, reverse_app. done. }
  assert (Hin : forall a, a ∈ chunks va bs (bs * 32) -> va <= a /\ a + bs <= va + bs * 32).
  { intros a Ha. by apply chunks_in in Ha; [|lia|lia]. }
  destruct (zalloc_refill_ok fuel h z zn [] (Some (va, bs * 32)) v) as (h'&E&Hr&Hv&Hkeep&_); try done.
  - cbn. lia.
  - change (truthy (Z.land (zn_memtype zn) ZONE_AR_CRITICAL)) with false. cbn match.
    change (zn_bufsize zn) with bs. rewrite (wrap_small 32 (bs * 32)) by lia. exact Ev.
  - cbn [fresh_memory length]. change (zn_bufsize zn) with bs. rewrite Hd. split_and!; try lia. intros a Ha. by apply elem_of_nil in Ha.
  - change (zn_bufsize zn) with bs. rewrite Hd. lia.
  - cbn [refilled]. change (zn_bufsize zn) with bs. rewrite app_nil_r. apply Forall_forall. intros a Ha. rewrite elem_of_reverse in Ha.
    apply Hin in Ha. lia.
  - cbn [refilled] in *. change (zn_bufsize zn) with bs in *. rewrite app_nil_r in *. rewrite Hrev in E, Hr. cbn [tail] in Hr.
    eexists h', _. split; [exact E|]. split_and!; [|exact Hr|by rewrite Hv].
    eapply zkeeps_weaken; [|exact Hkeep]. intros a Ha. by rewrite elem_of_reverse in Ha.
Qed.

Lemma kernel_cpu_init_stack_ok k c x b n v :
  kalloc_ll (2 ^ 14) (vmst (heap k)) = Done (Some (b, n), v) -> cpus k !! c = Some x ->
  0 <= b -> 0 <= n -> b + n < 2 ^ 32 ->
  kernel_cpu_init_stack c k =
    Done (set_cpus (set_vm k v) (<[c := Cpu (cpu_cpu_id x) (cpu_current_thread x)
      (<[2%nat := b + n]> (cpu_local x)) (cpu_arch x) (cpu_scheduler x)]> (cpus k))).
Proof using.
  intros Hk Hc Hb Hn Hov. unfold kernel_cpu_init_stack. change (Z.shiftl 1 14) with (2 ^ 14). rewrite Hk.
  cbn [mbind outcome_bind truthy hal_stack_grows_downward Z.eqb negb]. rewrite u32_add_nowrap by lia.
  by erewrite with_cpu_ok by exact Hc.
Qed.

Lemma kernel_set_current_thread_ok k c x y w t th sp :
  gs k = c -> cpus k !! c = Some x -> cpu_local x = [c; y; w] -> threads k !! t = Some th ->
  t_storage th !! 0%nat = Some sp ->
  kernel_set_current_thread t k =
    Done (set_cpus (set_threads k (<[t := set_current_cpu c th]> (threads k)))
      (<[c := Cpu (cpu_cpu_id x) t [c; t; w] (Taskstate (Z.shiftl SEG_KDATA 3) sp 0xFFFF) (cpu_scheduler x)]> (cpus k))).
Proof using.
  intros Hg Hc Hl Ht Hsp. unfold kernel_set_current_thread, kernel_get_current_cpu.
  rewrite Hg, Hc. cbn [deref mbind outcome_bind]. rewrite Hl. cbn [lookup list_lookup deref mbind outcome_bind].
  erewrite with_cpu_ok by exact Hc. cbn [mbind outcome_bind].
  erewrite with_thread_ok by exact Ht. cbn [mbind outcome_bind].
  unfold hal_after_thread_switch. cbn [set_threads set_cpus gs cpus threads]. rewrite Hg, lookup_insert_eq.
  cbn [deref mbind outcome_bind cpu_local]. rewrite Hl. cbn [insert list_insert lookup list_lookup deref mbind outcome_bind].
  rewrite lookup_insert_eq. cbn [deref mbind outcome_bind set_current_cpu t_storage]. rewrite Hsp.
  cbn [deref mbind outcome_bind]. erewrite with_cpu_ok by (cbn [cpus set_threads set_cpus]; apply lookup_insert_eq).
  unfold set_cpus, set_threads. cbn. by rewrite insert_insert_eq.
Qed.

(** Where the boot code puts things. *)
Definition CPU_STACK : Z := KMEM_BEGIN + 4096 * 4.
Definition IDLE_THREAD : Z := KMEM_BEGIN + 4096 * 4 + 128 * 31 + 4.
Definition IDLE_STACK_0 : Z := KMEM_BEGIN + 4096 * 9 - 8.
Definition IDLE_STACK_1 : Z := KMEM_BEGIN + 4096 * 13 - 8.
Definition BOOT_SCHED : Z := KMEM_BEGIN + 4096 * 13 + 640 * 31 + 4.

(** What [thread_init] makes of the template, and the idle thread. *)
Definition boot_template k : thread :=
  let t := thread_template k in Thread 0 (t_storage t) (t_istacks t) (t_istobjs t) 0 16 0 0.
Definition idle_thread (c : Z) k : thread :=
  set_current_cpu c (new_thread (boot_template k) IDLE_STACK_0 IDLE_STACK_0 IDLE_STACK_1 IDLE_STACK_1).

(** What the allocations print: the CPU's stack, the threads, the two stacks of
    the idle thread; then the schedulers. *)
Definition thread_log : list (string * Z) := [("LL: %d", 4); ("LL: %d", 1); ("LL: %d", 4); ("LL: %d", 4)].
Definition kern_log : list (string * Z) := thread_log ++ [("LL: %d", 5)].

(** The zone of zones during the boot: its next chunks are [l], none of them in
    use as a zone. *)
Record zones_left h (zn : zone) (l : list Z) : Prop := {
  zl_pos : 0 < zone_zone h;
  zl_zone : zone_rep h (zone_zone h) zn l;
  zl_lock : zn_lock zn = 0;
  zl_type : zn_memtype zn = 0;
  zl_image : Forall (fun a => a + 4 < KMEM_BEGIN) l;
  zl_fresh : forall a, a ∈ l -> zones h !! (a + 4) = None;
}.

(** The kernel as [main] finds it: one CPU whose private segment is set up, no
    stacks, a zone of zones with the free chunks [l] in the kernel image, and
    [n] pages of kernel heap, after the output [log]. *)
Record ready k (c : Z) (zn : zone) (l : list Z) (n : Z) (log : list (string * Z)) : Prop := {
  rd_gs : gs k = c;
  rd_cpu : exists x y w, cpus k !! c = Some x /\ cpu_local x = [c; y; w];
  rd_pool : stack_pool k [];
  rd_zones : zones_left (heap k) zn l;
  rd_kmem : kmem_at (vmst (heap k)) KMEM_BEGIN n log;
  rd_threads : threads k = ∅;
  rd_template : exists a b, t_storage (thread_template k) = a :: b;
}.

(** A new zone and the first object of it. *)
Lemma new_zone_object_ok (f : nat) h zn a l size name bs va n log :
  zones_left h zn (a :: l) -> calc_bufsize (40 + f) size = Done bs -> 32 <= bs < 2 ^ 20 ->
  4096 * pages_for (bs * 32) = bs * 32 -> kmem_at (vmst h) va n log -> pages_for (bs * 32) <= n ->
  exists h1 h2, zinit (40 + f) size ZONE_AUTO_REFILL (Some name) h = Done (a + 4, h1) /\
    zalloc (40 + f) (a + 4) h1 = Done (va + bs * 31 + 4, h2) /\
    zones_left h2 (with_free zn l 0) l /\
    kmem_at (vmst h2) (va + bs * 32) (n - pages_for (bs * 32)) (log ++ [ll_message (bs * 32)]).
Proof using.
  intros [Hpos Hz Hlk Hty Him Hfr] Hbs Hb Hpg Hk Hn.
  pose proof (zr_list _ _ _ _ Hz) as (_&Ha&_). pose proof (zr_nodup _ _ _ _ Hz) as Hnd.
  apply NoDup_cons in Hnd as [Hal _]. pose proof (kmem_bounds _ _ _ _ Hk) as (Hva&_&_).
  assert (Hsm : Forall (fun b => b + 4 < 2 ^ 32) (a :: l)).
  { eapply Forall_impl; [exact Him|]. unfold KMEM_BEGIN. cbn. lia. }
  assert (Hfa : zones h !! (a + 4) = None) by (apply Hfr; set_solver).
  destruct (zinit_ok (40 + f) size ZONE_AUTO_REFILL name h zn a l bs) as (h1&E1&Hz1&Hzz1&Ezz1&Ev1&Ho1); try done.
  destruct (zalloc_first_ok (40 + f) h1 (a + 4) bs name va n log) as (h2&l2&E2&Hkeep&_&Hk2);
    [done|lia|done|done|by rewrite Ev1|done|lia|].
  apply Forall_cons in Him as [_ Him].
  assert (Hne : zone_zone h <> a + 4).
  { intros Heq. rewrite <-Heq, (zr_zone _ _ _ _ Hz) in Hfa. done. }
  exists h1, h2. split_and!; [done|done| |done]. pose proof Hkeep as (_&Hzo&Hzz).
  rewrite Ezz1 in Hzz. split; rewrite ?Hzz; try done.
  - eapply zone_rep_frame; [exact Hkeep|done| |exact Hzz1]. intros b Hbl Hin.
    apply chunks_in in Hin; [|lia|lia]. apply (proj1 (Forall_forall _ _) Him) in Hbl. lia.
  - intros b Hbl. assert (b <> a) by (intros ->; done). assert (Hfb : zones h !! (b + 4) = None) by (apply Hfr; set_solver).
    rewrite Hzo by lia. rewrite Ho1; [done| |lia].
    intros Heq. rewrite Heq, (zr_zone _ _ _ _ Hz) in Hfb. done.
Qed.

(** [sched_init], [sched_instanciate] and the idle thread of the scheduler. *)
Lemma boot_sched_ok (f : nat) k c x zn a l n log t :
  gs k = c -> cpus k !! c = Some x -> cpu_local x !! 0%nat = Some c ->
  zones_left (heap k) zn (a :: l) -> kmem_at (vmst (heap k)) (KMEM_BEGIN + 4096 * 13) n log -> 5 <= n ->
  exists k', (k1 ← sched_init (40 + f) k; c ← kernel_get_current_cpu k1;
              k2 ← sched_instanciate (40 + f) c k1; set_idle t k2) = Done k' /\
    threads k' = threads k /\ gs k' = c /\
    cpus k' !! c = Some (Cpu (cpu_cpu_id x) (cpu_current_thread x) (cpu_local x) (cpu_arch x) BOOT_SCHED) /\
    sched_rep k' BOOT_SCHED (Scheduler sched_prios t 1 0) (replicate SCHED_NRQS []) /\
    kmem_at (vmst (heap k')) (KMEM_BEGIN + 4096 * 18) (n - 5) (log ++ [ll_message (640 * 32)]).
Proof using.
  intros Hg Hc Hl Hzl Hk Hn. unfold sched_init.
  destruct (new_zone_object_ok f (heap k) zn a l SIZEOF_SCHEDULER "Scheduler allocator" 640 (KMEM_BEGIN + 4096 * 13) n log Hzl)
    as (h1&h2&E1&E2&_&Hk2); [done|lia|done|exact Hk|exact Hn|].
  rewrite E1. cbn [mbind outcome_bind]. set (k1 := Kern _ _ _ _ _ _ _ _ _ _ _ _).
  assert (Hcur : kernel_get_current_cpu k1 = Done c).
  { unfold kernel_get_current_cpu. cbn [k1 cpus gs]. rewrite Hg, Hc. cbn [deref mbind outcome_bind]. by rewrite Hl. }
  rewrite Hcur. cbn [mbind outcome_bind].
  destruct (sched_instanciate_from (40 + f) k1 c x BOOT_SCHED h2 E2) as (k2&->&Hr&Hc2&Hg2&Ht2&_&_&Hh2); [done|done|].
  cbn [mbind outcome_bind]. unfold set_idle, kernel_get_current_cpu.
  rewrite Hg2, Hc2. cbn [k1 gs]. rewrite Hg, lookup_insert_eq. cbn [deref mbind outcome_bind cpu_local]. rewrite Hl.
  cbn [deref mbind outcome_bind]. rewrite lookup_insert_eq. cbn [deref mbind outcome_bind cpu_scheduler].
  pose proof Hr as [Hs Hq Hd Hri Hhe Hnd]. erewrite with_sched_ok by exact Hs.
  eexists. split; [done|]. split_and!; [by cbn; rewrite Ht2|by cbn; rewrite Hg2|by cbn; rewrite Hc2, lookup_insert_eq| |].
  - split; try done. cbn. apply lookup_insert_eq.
  - cbn. rewrite Hh2. exact Hk2.
Qed.

(** The CPU's stack, the zone of threads and the idle thread. *)
Lemma boot_thread_ok (f : nat) k c zn a0 l n log :
  ready k c zn (a0 :: l) n log -> 13 <= n ->
  exists k' x y, (k1 ← kernel_cpu_init_stack c k; k2 ← thread_init (40 + f) k1; thread_allocate (40 + f) k2) =
      Done (IDLE_THREAD, k') /\
    gs k' = c /\ cpus k' !! c = Some x /\ cpu_local x = [c; y; CPU_STACK] /\
    threads k' = {[ IDLE_THREAD := new_thread (boot_template k) IDLE_STACK_0 IDLE_STACK_0 IDLE_STACK_1 IDLE_STACK_1 ]} /\
    zones_left (heap k') (with_free zn l 0) l /\ kmem_at (vmst (heap k')) (KMEM_BEGIN + 4096 * 13) (n - 13) (log ++ thread_log).
Proof using.
  intros [Hg (x&y&w&Hc&Hl) Hpool Hzl Hk Ht (sa&sb&Hst)] Hn.
  destruct (kmem_alloc _ _ _ _ (2 ^ 14) Hk) as (v1&E1&Hk1); [lia|change (pages_for (2 ^ 14)) with 4; lia|].
  change (pages_for (2 ^ 14)) with 4 in *.
  erewrite kernel_cpu_init_stack_ok by (done || unfold KMEM_BEGIN; lia). cbn [mbind outcome_bind].
  rewrite Hl. set (x1 := Cpu _ _ _ _ _). set (k1 := set_cpus _ _). unfold thread_init.
  assert (Hzl1 : zones_left (heap k1) zn (a0 :: l)) by (destruct Hzl as [? [] ? ? ? ?]; by split).
  destruct (new_zone_object_ok f (heap k1) zn a0 l SIZEOF_THREAD "threads" 128 (KMEM_BEGIN + 4096 * 4) (n - 4)
    (log ++ [ll_message (2 ^ 14)]) Hzl1)
    as (h1&h2&E2&E3&Hzl2&Hk2); [done|lia|done|exact Hk1|change (pages_for (128 * 32)) with 1; lia|].
  change (pages_for (128 * 32)) with 1 in *.
  change (KMEM_BEGIN + 4096 * 4 + 128 * 32) with (KMEM_BEGIN + 4096 * 5) in Hk2.
  destruct (kmem_alloc _ _ _ _ (2 ^ 14) Hk2) as (v4&E4&Hk4); [lia|change (pages_for (2 ^ 14)) with 4; lia|].
  destruct (kmem_alloc _ _ _ _ (2 ^ 14) Hk4) as (v5&E5&Hk5); [lia|change (pages_for (2 ^ 14)) with 4; lia|].
  change (pages_for (2 ^ 14)) with 4 in *.
  rewrite E2. cbn [mbind outcome_bind]. set (k2 := Kern _ _ _ _ _ _ _ _ _ _ _ _).
  destruct (thread_allocate_from (36 + f) k2 IDLE_THREAD h2 (KMEM_BEGIN + 4096 * 5) (4096 * 4) v4
              (KMEM_BEGIN + 4096 * 5 + 4096 * 4) (4096 * 4) v5 E3)
    as (k3&E6&Ht3&_&_&Hh3&_&(_&_&Hc3&Hg3&_));
    [done|by destruct Hpool|exact E4|exact E5|unfold KMEM_BEGIN; lia..|].
  exists k3, x1, y. split; [exact E6|]. split; [by rewrite Hg3|].
  split; [by rewrite Hc3; apply lookup_insert_eq|]. split; [done|]. split.
  { rewrite Ht3. cbn [k2 threads k1 set_cpus set_vm set_heap]. by rewrite Ht. }
  rewrite Hh3. split; [by destruct Hzl2 as [? [] ? ? ? ?]|].
  replace (n - 13) with (n - 4 - 1 - 4 - 4) by lia. by rewrite <-!app_assoc in Hk5.
Qed.

Lemma main_kern_ok (f : nat) k c zn a0 a1 l n log :
  ready k c zn (a0 :: a1 :: l) n log -> 18 <= n ->
  exists k' x, main_kern (40 + f) k = Done k' /\
    threads k' = {[ IDLE_THREAD := idle_thread c k ]} /\
    sched_rep k' BOOT_SCHED (Scheduler sched_prios IDLE_THREAD 1 0) (replicate SCHED_NRQS []) /\
    gs k' = c /\ cpus k' !! c = Some x /\ cpu_current_thread x = IDLE_THREAD /\
    cpu_local x = [c; IDLE_THREAD; CPU_STACK] /\ cpu_scheduler x = BOOT_SCHED /\
    cpu_arch x = Taskstate (Z.shiftl SEG_KDATA 3) IDLE_STACK_0 0xFFFF /\
    kmem_at (vmst (heap k')) (KMEM_BEGIN + 4096 * 18) (n - 18) (log ++ kern_log).
Proof using.
  intros Hrd Hn. pose proof Hrd as [Hg (x0&y0&w0&Hc0&Hl0) _ _ _ _ (sa&sb&Hst)].
  destruct (boot_thread_ok f k c zn a0 (a1 :: l) n log Hrd) as (k1&x1&y&E1&Hg1&Hc1&Hl1&Ht1&Hzl1&Hk1); [lia|].
  apply bind_Done in E1 as (ka&Ea&E1). apply bind_Done in E1 as (kb&Eb&E1).
  assert (Hcur : kernel_get_current_cpu k = Done c).
  { unfold kernel_get_current_cpu. rewrite Hg, Hc0. cbn [deref mbind outcome_bind]. by rewrite Hl0. }
  unfold main_kern. rewrite Hcur. cbn [mbind outcome_bind]. rewrite Ea. cbn [mbind outcome_bind].
  rewrite Eb. cbn [mbind outcome_bind]. rewrite E1. cbn [mbind outcome_bind].
  change (truthy IDLE_THREAD) with true. cbn [negb].
  erewrite (kernel_set_current_thread_ok k1 c x1);
    [|done|done|exact Hl1|rewrite Ht1; apply lookup_singleton_eq|cbn; by rewrite Hst]. cbn [mbind outcome_bind].
  set (x2 := Cpu _ _ _ _ _). set (k2 := set_cpus _ _).
  destruct (boot_sched_ok f k2 c x2 (with_free zn (a1 :: l) 0) a1 l (n - 13) (log ++ thread_log) IDLE_THREAD)
    as (k3&E3&Ht3&Hg3&Hc3&Hr3&Hk3); [done|apply lookup_insert_eq|done|done|done|lia|].
  exists k3. eexists. split; [exact E3|]. split.
  { rewrite Ht3. cbn [k2 set_cpus set_threads threads]. by rewrite Ht1, insert_singleton_eq. }
  split_and!; try done. rewrite <-app_assoc in Hk3. by replace (n - 18) with (n - 13 - 5) by lia.
Qed.
End kernel_boot.

(** ** The memory part of the boot *)

Section memory_boot.
Context {V : Type} `{KmemSource V}.

(** [zone_bootstrap] cuts its 64 KiB buffer into 2048 zone records. *)
Lemma zone_bootstrap_ok (f : nat) (szone szz : Z) (h : zheap V) :
  zones h = ∅ -> 0 < szone -> 0 < szz -> szz + 2 ^ 16 + 4 < KMEM_BEGIN -> (szone < szz \/ szz + 2 ^ 16 + 4 <= szone) ->
  exists h' zn l, zone_bootstrap (2050 + f) szone szz h = Done h' /\ vmst h' = vmst h /\
    zones_left h' zn (szz + 32 * 2047 :: szz + 32 * 2046 :: l).
Proof using.
  intros Hz Hpos Hb Him Hout. unfold KMEM_BEGIN in *. unfold zone_bootstrap, _zcram.
  change (calc_bufsize (2050 + f) SIZEOF_ZONE) with (Done 32). cbn [mbind outcome_bind]. rewrite Hz, lookup_empty.
  cbn [default zero_zone zn_memtype zn_lock zmem zones zone_zone vmst kernlock_init]. cbv zeta.
  rewrite lookup_insert_eq. cbn [deref mbind outcome_bind]. rewrite (proj2 (truthy_true szz)) by lia.
  set (zn := Zone 32 0 "zone" 0 0 0). set (h1 := Zheap _ _ _ _).
  assert (Hr1 : zone_rep h1 szone zn []) by (split; cbn; try done; [apply lookup_insert_eq|constructor]).
  destruct (zcram_loop_ok (2050 + f) h1 szone zn [] szz (2 ^ 16) 32 Hr1) as (h2&E&Hr&(Hm&Ho&Hzz)&Hv); try lia.
  { intros a Ha. by apply elem_of_nil in Ha. } { change (2 ^ 16 / 32) with 2048. cbn [length]. lia. } { change (2 ^ 16 / 32) with 2048. lia. }
  cbn [zn zn_bufsize]. rewrite E. cbn [mbind outcome_bind]. rewrite app_nil_r in Hr.
  assert (Hrev : reverse (chunks szz 32 (2 ^ 16)) =
    szz + 32 * 2047 :: szz + 32 * 2046 :: reverse ((fun i => szz + 32 * i) <$> seqZ 0 2046)).
  { unfold chunks. change (2 ^ 16 / 32) with (2046 + 2). rewrite seqZ_app by lia. by rewrite fmap_app, reverse_app. }
  assert (Hin : forall a, a ∈ reverse (chunks szz 32 (2 ^ 16)) -> szz <= a /\ a + 32 <= szz + 2 ^ 16).
  { intros a Ha. rewrite elem_of_reverse in Ha. by apply chunks_in in Ha. }
  eexists _, _, (reverse ((fun i => szz + 32 * i) <$> seqZ 0 2046)). split; [done|]. split; [exact Hv|]. rewrite <-Hrev.
  split; cbn [zone_zone zones].
  - exact Hpos.
  - destruct Hr as [H1 H2 H3 H4 H5]. split; [exact H1|exact H2|exact H3|exact H4|exact H5].
  - reflexivity.
  - reflexivity.
  - apply Forall_forall. intros a Ha%Hin. unfold KMEM_BEGIN. lia.
  - intros a Ha%Hin. rewrite Ho by lia. cbn [h1 zones]. by rewrite lookup_insert_ne by lia.
Qed.
End memory_boot.

(** *** Page tables and the heap *)

(** The directory as the boot code leaves it: below entry 772, no two present
    entries share a table, and no table lies in the pages [pages]. *)
Record directory_ok (s : mmu) (pages : list Z) : Prop := {
  do_word : forall i e, (i < 772)%nat -> kpd s !! i = Some e -> in_u32 e;
  do_dist : forall i j e e', (i < 772)%nat -> (j < 772)%nat -> kpd s !! i = Some e -> kpd s !! j = Some e' ->
    truthy (Z.land e PTE_P) = true -> truthy (Z.land e' PTE_P) = true -> PTE_ADDR e = PTE_ADDR e' -> i = j;
  do_pages : forall i e, (i < 772)%nat -> kpd s !! i = Some e -> truthy (Z.land e PTE_P) = true -> PTE_ADDR e ∉ pages;
}.

(** A page that can hold a page table. *)
Definition table_page (s : mmu) (a : Z) : Prop := in_u32 a /\ a mod 4096 = 0 /\ has_page (ram s) a.

Lemma table_entry a :
  in_u32 a -> a mod 4096 = 0 ->
  in_u32 (Z.lor a PTE_PW) /\ PTE_ADDR (Z.lor a PTE_PW) = a /\ truthy (Z.land (Z.lor a PTE_PW) PTE_P) = true.
Proof.
  intros Ha Hal. destruct (entry_addr a PTE_PW Hal Ha) as [E Hg]; [unfold PTE_PW; lia|].
  split_and!; [|done|].
  - rewrite lor_flags by (done || unfold PTE_PW; lia). unfold in_u32, PTE_PW in *.
    pose proof (Z.div_mod a 4096 ltac:(lia)). lia.
  - by rewrite Hg, land_aligned by (done || unfold PTE_P; lia).
Qed.

(** The directory after [pmap_init]. *)
Lemma pmap_tables_distinct (s s' : mmu) pages :
  directory_ok s pages -> NoDup pages -> length pages = 252%nat -> Forall (table_page s) pages -> length (kpd s') = 1024%nat ->
  (forall (k : nat) a, pages !! k = Some a -> kpd s' !! (772 + k)%nat = Some (Z.lor a PTE_PW)) ->
  (forall k, (k < 772)%nat -> kpd s' !! k = kpd s !! k) -> tables_distinct s'.
Proof.
  intros [Hw Hd Hp] Hnd Hlen Hall Hl Hnew Hold.
  assert (Hcase : forall i e, kpd s' !! i = Some e -> (i < 772)%nat /\ kpd s !! i = Some e \/
    exists (k : nat) a, (i = 772 + k)%nat /\ pages !! k = Some a /\ e = Z.lor a PTE_PW /\ in_u32 a /\ a mod 4096 = 0).
  { intros i e He. destruct (decide (i < 772)%nat) as [Hi|Hi]; [left; by rewrite <-Hold|right].
    pose proof (lookup_lt_Some _ _ _ He). destruct (lookup_lt_is_Some_2 pages (i - 772)) as [a Ha]; [lia|].
    exists (i - 772)%nat, a. pose proof (Hnew _ _ Ha) as Hna. replace (772 + (i - 772))%nat with i in Hna by lia.
    destruct (Forall_lookup_1 _ _ _ _ Hall Ha) as (?&?&_). split_and!; [lia|done|congruence|done|done]. }
  split.
  - intros i e [[Hi He]|(k&a&_&_&->&Ha&Hal)]%Hcase; [by eapply Hw|by apply table_entry].
  - intros i j e e' [[Hi He]|(k&a&->&Hk&->&Ha&Hal)]%Hcase [[Hj He']|(k'&a'&->&Hk'&->&Ha'&Hal')]%Hcase HP HP' Heq.
    + by eapply Hd.
    + destruct (table_entry a' Ha' Hal') as (_&E'&_). rewrite E' in Heq. destruct (Hp i e Hi He HP).
      rewrite Heq. by eapply list_elem_of_lookup_2.
    + destruct (table_entry a Ha Hal) as (_&E&_). rewrite E in Heq. destruct (Hp j e' Hj He' HP').
      rewrite <-Heq. by eapply list_elem_of_lookup_2.
    + destruct (table_entry a Ha Hal) as (_&E&_), (table_entry a' Ha' Hal') as (_&E'&_). rewrite E, E' in Heq. subst a'.
      f_equal. by eapply NoDup_lookup.
Qed.

(** The static objects of the virtual memory layer. *)
Record vm_statics (s : vm) : Prop := {
  vs_rm : is_Some (rms s !! kernel_rm);
  vs_rmo : is_Some (rmos s !! 0);
  vs_ds : exists ds, dss s !! 0 = Some ds /\ length (ds_pages ds) = 130%nat;
  vs_head : is_Some (nodes s !! inl kernel_rm);
  vs_member : is_Some (nodes s !! inr 0);
}.

(** What the capacity of the kernel's data space prints. *)
Definition capacity_message : string * Z := ("Capacity: ds->ds_size %d", 524288).

Lemma vm_init_layers_ok (fuel : nat) page_dir s ms pages rest :
  mmu_ok (mm s) -> window_free (mm s) -> directory_ok (mm s) pages -> NoDup pages -> vm_statics s ->
  phys_rep (phys s) ms -> pmb_lock (phys s) = 0 -> free_pages (phys s) ms = pages ++ rest ->
  length pages = 252%nat -> Forall (table_page (mm s)) pages ->
  Forall (fun a => 0 < a < 2 ^ 32 /\ a mod 4096 = 0) rest ->
  exists s', vm_init_layers fuel page_dir s = Done s' /\ heap_at s' 0 rest /\
    printed s' = printed s ++ [capacity_message].
Proof.
  intros Hok Hw Hd Hnd [[rm0 Hrm] [m Hm] (ds&Hds&Hlds) Hh Hmem] Hrep Hlk Hfree Hlen Hall Hrest.
  unfold vm_init_layers, pmap_init. change (Z.to_nat (1024 - (768 + 4))) with 252%nat.
  destruct (pmap_init_from_ok pages (phys s) ms (mm s) 772 rest)
    as (p'&m'&E&Hrep'&Hlk'&Hfree'&Hok'&Hkpt'&Hnew&Hold&_); [done|done|done|done|done|lia|done|].
  rewrite Hlen in E. change (Z.of_nat 772) with (768 + 4) in E. rewrite E. cbn [mbind outcome_bind].
  set (s1 := pd_init _ _).
  destruct (rm_init_ok fuel page_dir s1 rm0 m ds) as (s'&rmo&dp&E'&Hmap&->&_&_&Hds'&Hldp&Hzero&_&_&Emm&Eph&Epd&Hlog); try done.
  rewrite E'. exists s'. split; [done|]. split; [|exact Hlog].
  pose proof (pmap_tables_distinct (mm s) m' pages Hd Hnd Hlen Hall (mo_kpd _ Hok')
    ltac:(intros k a Hk; by apply Hnew) Hold) as Hdist.
  split; rewrite ?Emm, ?Eph, ?Epd.
  - split; rewrite ?Emm, ?Epd; try done. change (mm s1) with m'. unfold window_free. by rewrite Hkpt'.
  - done.
  - done.
  - by exists ms.
  - done.
  - intros k Hk. destruct (lookup_lt_is_Some_2 pages 0) as [a Ha]; [lia|]. destruct (Hnew _ _ Ha) as [Hpde Hram].
    destruct (Forall_lookup_1 _ _ _ _ Hall Ha) as (Hau&Hal&_). destruct (table_entry a Hau Hal) as (_&Eadr&HP).
    assert (Hva : in_u32 (KMEM_BEGIN + 4096 * k)) by (unfold in_u32, KMEM_BEGIN; lia).
    assert (Hpg : (KMEM_BEGIN + 4096 * k) / 4096 = 0xC1000 + k).
    { unfold KMEM_BEGIN. replace (0xC1000000 + 4096 * k) with ((0xC1000 + k) * 4096) by lia. by apply Z.div_mul. }
    exists (Z.lor a PTE_PW). destruct (PDX_eq _ Hva) as [-> _], (PTX_eq (KMEM_BEGIN + 4096 * k)) as [-> _].
    rewrite Hpg. replace ((0xC1000 + k) / 1024) with 772 by (apply Z.div_unique with k; lia).
    replace ((0xC1000 + k) mod 1024) with (Z.of_nat k) by (apply Z.mod_unique with 772; lia).
    split; [exact Hpde|]. split; [exact HP|]. rewrite Eadr. exists 0. apply Hram. lia.
  - lia.
  - eexists. split; [exact Hds'|]. cbn [ds_n_pages ds_pages]. split_and!; [done|lia|lia|]. intros k Hk. apply Hzero. lia.
Qed.

(** ** The whole boot *)

(** *** The machine the boot loader leaves *)

Definition zero_segdesc : segdesc := Segdesc 0 0 0 0 0 0 0 0 0 0 0 0 0.
Definition zero_gatedesc : gatedesc := Gatedesc 0 0 0 0 0 0 0 0 0.
Definition zero_cpu : cpu := Cpu 0 0 [0; 0; 0] (Taskstate 0 0 0) 0.

(** The four static region mapper objects and their data spaces. *)
Definition vm_bss (s : mmu) : vm :=
  Vm (list_to_map ((inl 0, List_node None None) :: ((fun i : Z => (inr i, List_node None None)) <$> [0; 1; 2; 3])))
    {[ 0 := Region_mapper 0 0 0 ]}
    (list_to_map ((fun i : Z => (i, Rmo 0 0 NullObj RMO_UNDEFINED 0)) <$> [0; 1; 2; 3]))
    (list_to_map ((fun i : Z => (i, Dataspace 0 0 0 0 (replicate 130 0))) <$> [0; 1; 2; 3]))
    0 0 (Protection_domain 0 0 PNull 0 0 0) s bss [].

(** All static objects zero, over the contents of the screen and the page
    tables and memory of the assembly code. *)
Definition power_on (im : image) (screen : list Z) (s : mmu) : machine :=
  Machine
    (Kern (Zheap ∅ ∅ 0 (vm_bss s)) 0 0 ∅ 0 (Thread 0 [0; 0; 0; 0] [0; 0] [0; 0] 0 0 0 0) ∅ ∅
       {[ cpu_addr im := zero_cpu ]} 0 0 ∅)
    (ccterm_bss screen) (Kernslice 0 [Physmem_range 0 0; Physmem_range 0 0] 0 0)
    (CpuTables (replicate 7 zero_segdesc) (arch_addr im) (arch_addr im + 56) (cpu_addr im + 20))
    (replicate 256 zero_gatedesc) (Registers [] [] 0) (Pic.Ports Pic.irqmask_init []) false.

(** Two machines with the same terminal, tables, registers and ports. *)
Definition same_devices (m m' : machine) : Prop :=
  m_term m' = m_term m /\ m_tables m' = m_tables m /\ m_idt m' = m_idt m /\ m_regs m' = m_regs m /\ m_ports m' = m_ports m.

(** The tables, registers and ports after [_i686_init]. *)
Definition devices_ready (im : image) (m m' : machine) : Prop :=
  (exists r, hal_initcpu (m_tables m) (m_regs m) = Done (m_tables m', r) /\
     __i686_setup_idt (vectors im) (idt_addr im) (m_idt m) r = Done (m_idt m', m_regs m')) /\
  m_ports m' = Pic.__i686_timerinit (Pic.__i686_picinit (m_ports m)).

Lemma same_devices_ready im m m1 m2 :
  m_tables m2 = m_tables m1 /\ m_idt m2 = m_idt m1 /\ m_regs m2 = m_regs m1 /\ m_ports m2 = m_ports m1 ->
  devices_ready im m m1 -> devices_ready im m m2.
Proof. unfold devices_ready. by intros (->&->&->&->). Qed.

(** What the linker guarantees. *)
Record image_ok (im : image) : Prop := {
  io_vectors : length (vectors im) = 256%nat;
  io_numbuf : length (numbuf im) = 100%nat;
  io_szone : 0 < szone im;
  io_szz : 0 < szz_buf im /\ szz_buf im + 2 ^ 16 + 4 < KMEM_BEGIN;
  io_apart : szone im < szz_buf im \/ szz_buf im + 2 ^ 16 + 4 <= szone im;
}.

(** *** Lemmas *)

Lemma renders_plain l ap : Forall (fun c => c <> 0 /\ c <> 37) l -> renders l ap l.
Proof. induction 1 as [|c l [H0 H1] _ IH]; [apply renders_end|by apply renders_char]. Qed.

Lemma renders_chars (t l : list Z) ap out :
  Forall (fun c => c <> 0 /\ c <> 37) t -> renders l ap out -> renders (t ++ l) ap (t ++ out).
Proof. induction 1 as [|c t [H0 H1] _ IH]; [done|]. intros Hr. apply renders_char; auto. Qed.

(** A format goes to the terminal as its text. *)
Lemma printf_ok im fmt ap text m :
  length (numbuf im) = 100%nat -> renders fmt ap text -> Forall arg_ok ap -> Forall (fun c => 0 <= c < 256) fmt ->
  length text < 2 ^ 31 -> io_ok (m_term m) ->
  exists t, printf im fmt ap m = Done (set_term t m) /\ io_ok t /\
    io_view t = fold_left io_feed text (io_view (m_term m)).
Proof.
  intros Hb Hr Hap Ht Hl Hok. unfold printf, iopipe_printf, iopipe_vioprintf.
  destruct (vioprintf_loop_ok (P := ccterm) (V := Console.console) fmt ap text Hr
    (S (length fmt)) [] 0 (numbuf im) (m_term m)) as (t&E&Ht'); [done|done|done|done|lia|lia|cbn; lia|].
  cbn [app] in E. rewrite E. cbn [mbind outcome_bind]. exists t. split; [done|exact Ht'].
Qed.

(** An entry of the log and its text. *)
Definition entry_text (e : string * Z) (text : list Z) : Prop :=
  renders (line e.1) [AWord (u32 e.2)] text /\ Forall (fun c => 0 <= c < 256) (line e.1) /\ length text < 2 ^ 31.

Lemma print_log_ok im log texts :
  length (numbuf im) = 100%nat -> Forall2 entry_text log texts -> forall m, io_ok (m_term m) ->
  exists t, print_log im log m = Done (set_term t m) /\ io_ok t /\
    io_view t = fold_left io_feed (concat texts) (io_view (m_term m)).
Proof.
  intros Hb. induction 1 as [|[fmt v] text log texts (Hr&Hf&Hl) _ IH]; intros m Hok.
  - exists (m_term m). destruct m. done.
  - destruct (printf_ok im _ _ _ m Hb Hr) as (t&E&Ht&Hv); [|done..|].
    { repeat constructor; apply (wrap_range 32); lia. }
    cbn [print_log]. cbn [fst snd] in E. rewrite E. cbn [mbind outcome_bind].
    destruct (IH (set_term t m) Ht) as (t'&E'&Ht'&Hv'). exists t'. split; [exact E'|]. split; [done|].
    rewrite Hv'. cbn [m_term set_term concat]. by rewrite Hv, fold_left_app.
Qed.

(** The messages of the boot. *)
Definition boot_log : list (string * Z) := capacity_message :: kern_log.
Definition boot_texts : list (list Z) :=
  line <$> ["Capacity: ds->ds_size 524288"; "LL: 4"; "LL: 1"; "LL: 4"; "LL: 4"; "LL: 5"].

(** A text, a decimal number and a newline. *)
Lemma decimal_entry (fmt : string) v t o :
  line fmt = t ++ [37; 100; 10] -> Forall (fun c => 0 < c < 256 /\ c <> 37) t -> length t < 2 ^ 30 ->
  int_text 32 100 (u32 v) = Some o -> length o < 2 ^ 30 - 1 -> entry_text (fmt, v) (t ++ o ++ [10]).
Proof.
  intros E Ht Hl Ho Hlo. unfold entry_text. cbn [fst snd]. rewrite E. split_and!.
  - apply renders_chars; [eapply Forall_impl; [exact Ht|]; cbn; lia|].
    apply (renders_conv [100; 10] o [10] _ []); [discriminate| |].
    + unfold conv_text, word_conv. cbn [Z.eqb Pos.eqb orb is_int_letter]. by rewrite Ho.
    + apply renders_char; [lia|lia|]. apply renders_end.
  - apply Forall_app. split; [eapply Forall_impl; [exact Ht|]; cbn; lia|repeat constructor; lia].
  - rewrite !length_app. cbn [length]. lia.
Qed.

Lemma boot_texts_ok : Forall2 entry_text boot_log boot_texts.
Proof.
  assert (HLL : forall v o, int_text 32 100 (u32 v) = Some o -> length o < 2 ^ 30 - 1 ->
    entry_text ("LL: %d", v) (chars "LL: " ++ o ++ [10])).
  { intros v o. apply decimal_entry; [reflexivity| |cbn; lia]. by apply (bool_decide_eq_true_1 _). }
  assert (H1 := HLL 1 [49] eq_refl ltac:(cbn; lia)). assert (H4 := HLL 4 [52] eq_refl ltac:(cbn; lia)).
  assert (H5 := HLL 5 [53] eq_refl ltac:(cbn; lia)).
  apply Forall2_cons. split; [|repeat (apply Forall2_cons; split; [first [exact H1|exact H4|exact H5]|]); apply Forall2_nil; done].
  apply (decimal_entry _ _ (chars "Capacity: ds->ds_size ") (chars "524288"));
    [reflexivity|by apply (bool_decide_eq_true_1 _)|cbn; lia|reflexivity|cbn; lia].
Qed.

Lemma hal_initcpu_returns c r : length (gdt c) = 7%nat -> exists c' r', hal_initcpu c r = Done (c', r').
Proof.
  intros Hlen. unfold hal_initcpu.
  destruct (gdt c) as [|d0 [|d1 [|d2 [|d3 [|d4 [|d5 [|d6 [|]]]]]]]]; try discriminate Hlen. by do 2 eexists.
Qed.

(** The pages of two ranges, the first at 0 and the second above it. *)
Lemma boot_pages_ok r0 r1 :
  pm_begin r0 = 0 -> 0 <= pm_end r0 -> pm_end r0 < pm_begin r1 <= pm_end r1 -> pm_end r1 < 2 ^ 32 ->
  pm_begin r1 mod 4096 = 0 ->
  let all := range_pages r0 ++ range_pages r1 in
  NoDup all /\ Forall (fun a => in_u32 a /\ a mod 4096 = 0) all /\ 0 ∉ drop 1 all.
Proof.
  intros Hb0 He0 Hr1 He1 Hal all.
  assert (Hin0 : forall a, a ∈ range_pages r0 -> 0 <= a < pm_end r0 /\ a mod 4096 = 0).
  { intros a (i&->&Hi%elem_of_seqZ)%list_elem_of_fmap. rewrite Hb0 in *.
    pose proof (Z.mul_div_le (pm_end r0 - 0) 4096 ltac:(lia)). split; [lia|].
    replace (0 + 4096 * i) with (i * 4096) by lia. by apply Z.mod_mul. }
  assert (Hin1 : forall a, a ∈ range_pages r1 -> pm_begin r1 <= a < pm_end r1 /\ a mod 4096 = 0).
  { intros a (i&->&Hi%elem_of_seqZ)%list_elem_of_fmap.
    pose proof (Z.mul_div_le (pm_end r1 - pm_begin r1) 4096 ltac:(lia)). split; [lia|].
    rewrite Z.mul_comm, Z.mod_add by lia. done. }
  assert (Hnd : forall r, NoDup (range_pages r)).
  { intros r. apply NoDup_fmap_2; [|apply NoDup_seqZ]. intros x y Hxy. lia. }
  assert (Hall : NoDup all).
  { apply NoDup_app. split_and!; [done| |done]. intros a H0%Hin0 H1%Hin1. lia. }
  split_and!; [done| |].
  - apply Forall_forall. unfold in_u32. intros a [H0%Hin0|H1%Hin1]%elem_of_app; (split; [lia|]); tauto.
  - intros Hz. assert (Hz' : 0 ∈ all) by (rewrite <-(take_drop 1 all); apply elem_of_app; by right).
    apply elem_of_app in Hz' as [Hz0|Hz1%Hin1]; [|lia]. unfold all in Hz, Hall. unfold range_pages in Hz0, Hz, Hall.
    apply list_elem_of_fmap in Hz0 as (i&Hi&Hi'%elem_of_seqZ). rewrite (seqZ_cons 0) in Hz, Hall by lia.
    rewrite fmap_cons in Hz, Hall. cbn [app drop] in Hz, Hall. apply NoDup_cons in Hall as [Hnot _].
    apply Hnot. replace (pm_begin r0 + 4096 * 0) with 0 by lia. exact Hz.
Qed.

(** The state of the kernel after [_i686_init]. *)
Definition kern_started (im : image) (s : mmu) : kern vm :=
  Kern (Zheap ∅ ∅ 0 (vm_bss s)) 0 0 ∅ 0 (Thread 0 [0; 0; 0; 0] [0; 0] [0; 0] 0 0 0 0) ∅ ∅
    {[ cpu_addr im := Cpu 0 0 [cpu_addr im; 0; 0] (Taskstate 0 0 0) 0 ]} (cpu_addr im) 0 ∅.

Lemma _i686_init_ok im screen s flags lower upper rng :
  image_ok im -> i686_memranges (kernel_end im) flags lower upper = Some rng ->
  exists m, _i686_init im flags lower upper (power_on im screen s) = Done m /\
    m_kern m = kern_started im s /\ m_term m = ccterm_bss screen /\ m_slice m = Kernslice 0 rng 2 0 /\
    devices_ready im (power_on im screen s) m.
Proof.
  intros Him Hr. unfold _i686_init.
  assert (Hlk : cpus (m_kern (power_on im screen s)) !! cpu_addr im = Some zero_cpu) by apply lookup_singleton_eq.
  cbv zeta. rewrite Hlk, Hr. cbn [default zero_cpu cpu_local cpu_arch cpu_scheduler].
  destruct (hal_initcpu_returns (m_tables (power_on im screen s)) (m_regs (power_on im screen s)) eq_refl) as (c'&r'&E).
  rewrite E. cbn [mbind outcome_bind]. unfold __i686_setup_idt.
  destruct (setup_gates_ok (vectors im) 256 0 (m_idt (power_on im screen s))) as (idt'&Ei&_);
    [lia|by rewrite (io_vectors _ Him)|by rewrite (io_vectors _ Him)|].
  rewrite Ei. cbn [mbind outcome_bind]. eexists. split; [reflexivity|].
  cbn [m_kern m_term m_slice]. split_and!; [|reflexivity|reflexivity|].
  2: { split; [|reflexivity]. exists r'. split; [exact E|]. unfold __i686_setup_idt. by rewrite Ei. }
  unfold kern_started. cbn [power_on m_kern heap stacks stacks_sl kstacks thread_zone thread_template threads rings
    cpus set_cpus sched_zone scheds]. by rewrite insert_singleton_eq.
Qed.

Lemma vm_bss_statics s : vm_statics (vm_bss s).
Proof. split; try (eexists; reflexivity). exists (Dataspace 0 0 0 0 (replicate 130 0)). split; reflexivity. Qed.

(** What a machine with enough memory offers: two ranges of memory, the second
    after the kernel image, at least 270 pages in all, and the boot code's page
    tables.  The sizes are those a boot loader can give: at most 640 KiB of lower
    memory, and upper memory that ends below 4 GiB. *)
Record enough_memory (im : image) (s : mmu) (flags lower upper : Z) (r0 r1 : physmem_range) : Prop := {
  em_ranges : i686_memranges (kernel_end im) flags lower upper = Some [r0; r1];
  em_image : 0xC0100000 < kernel_end im <= 0xFFFFF000;
  em_lower : 0 <= lower <= 640;
  em_upper : 0 <= upper < 2 ^ 22 - 2 ^ 10;
  em_order : pm_begin r1 <= pm_end r1;
  em_pages : 270 <= Z.of_nat (length (range_pages r0 ++ range_pages r1));
  em_mmu : mmu_ok s;
  em_window : window_free s;
  em_directory : directory_ok s (take 252 (range_pages r0 ++ range_pages r1));
  em_ram : Forall (has_page (ram s)) (take 252 (range_pages r0 ++ range_pages r1));
}.

(** The pages of the heap that are left after the boot on a machine with
    these memory ranges: all of the heap's 128 pages but 18, where the machine
    has as many behind the 252 page tables. *)
Definition heap_left (r0 r1 : physmem_range) : Z :=
  Z.min 110 (length (range_pages r0 ++ range_pages r1) - 270).

(** The pages behind those of the page tables can be handed out. *)
Lemma heap_pages (all : list Z) :
  Forall (fun a => in_u32 a /\ a mod 4096 = 0) all -> 0 ∉ drop 1 all ->
  Forall (fun a => 0 < a < 2 ^ 32 /\ a mod 4096 = 0) (drop 252 all).
Proof.
  intros Hall H0. apply Forall_forall. intros a Ha. assert (Ha1 : a ∈ drop 1 all).
  { change 252%nat with (1 + 251)%nat in Ha. rewrite <-drop_drop in Ha.
    rewrite <-(take_drop 251 (drop 1 all)). apply elem_of_app. by right. }
  rewrite <-(take_drop 252 all) in Hall. apply Forall_app in Hall as [_ Hall].
  destruct (proj1 (Forall_forall _ _) Hall a Ha) as [Hu ?]. unfold in_u32 in Hu.
  assert (a <> 0) by (intros ->; done). split; [lia|done].
Qed.

(** [kern_initmem] and [vm_init]: the kernel is ready for threads, whether or not
    the allocator of pages holds all pages. *)
Lemma memory_ready im s m r0 r1 st o p ms n (f : nat) :
  image_ok im -> mmu_ok s -> window_free s ->
  m_kern m = kernel_stacks_init (kern_started im s) -> m_slice m = Kernslice 0 [r0; r1] 2 0 ->
  vm_phys_bm_bootinit [r0; r1] bss = Done (st, o, p) ->
  phys_rep p ms -> pmb_lock p = 0 ->
  let all := free_pages p ms in NoDup all -> Forall (fun a => in_u32 a /\ a mod 4096 = 0) all -> 0 ∉ drop 1 all ->
  0 <= n <= 128 -> 252 + n <= Z.of_nat (length all) -> directory_ok s (take 252 all) -> Forall (has_page (ram s)) (take 252 all) ->
  exists m' zn a0 a1 l, (m1 ← kern_initmem im m; vm_init im (2050 + f) m1) = Done m' /\ same_devices m m' /\
    m_slice m' = Kernslice 0 [r0; r1] 2 (bmas_addr im) /\ thread_template (m_kern m') = thread_template (kern_started im s) /\
    ready (m_kern m') (cpu_addr im) zn (a0 :: a1 :: l) n [capacity_message].
Proof.
  intros [Hvec Hbuf Hsz [Hb1 Hb2] Hap] Hok Hw Hk Hsl Hboot Hrep Hlk all Hnd Hall H0 Hn Hlen Hdir Hpg.
  set (pages := take 252 all) in *. set (rest := drop 252 all).
  assert (Hsplit : all = pages ++ rest) by (symmetry; apply take_drop).
  assert (Hlp : length pages = 252%nat) by (unfold pages; rewrite length_take; lia).
  unfold kern_initmem, vm_of. rewrite Hk, Hsl. cbn [ks_num_memory_ranges ks_memory_ranges].
  assert (Hcur : kernel_get_current_cpu (kernel_stacks_init (kern_started im s)) = Done (cpu_addr im)).
  { unfold kernel_get_current_cpu. cbn [kernel_stacks_init set_stacks kern_started cpus gs]. by rewrite lookup_singleton_eq. }
  rewrite Hcur. cbn [mbind outcome_bind]. change (take (Z.to_nat 2) [r0; r1]) with [r0; r1].
  change (phys (vmst (heap (kernel_stacks_init (kern_started im s))))) with bss. rewrite Hboot. cbn [mbind outcome_bind].
  unfold vm_init. cbn [set_slice set_vm_of set_kern m_kern heap set_vm set_heap]. rewrite Hk.
  cbn [kernel_stacks_init set_stacks kern_started heap zmem zones zone_zone vmst].
  destruct (zone_bootstrap_ok f (szone im) (szz_buf im) (Zheap ∅ ∅ 0 (with_phys p (vm_bss s))))
    as (h&zn&l&E&Hv&Hzl); [done..|]. rewrite E. cbn [mbind outcome_bind].
  unfold vm_of. cbn [set_kern m_kern set_heap heap]. rewrite Hv. cbn [vmst].
  destruct (vm_init_layers_ok (2050 + f) (page_dir im) (with_phys p (vm_bss s)) ms pages rest) as (v&Ev&Hheap&Hlog);
    [exact Hok|exact Hw|exact Hdir|..].
  - rewrite Hsplit in Hnd. by apply NoDup_app in Hnd as (?&_&_).
  - destruct (vm_bss_statics s). by split.
  - exact Hrep.
  - exact Hlk.
  - cbn [phys with_phys]. exact Hsplit.
  - exact Hlp.
  - rewrite Hsplit in Hall. apply Forall_app in Hall as [Hall _]. apply Forall_forall. intros a Ha.
    destruct (proj1 (Forall_forall _ _) Hall a Ha) as [??]. split_and!; try done. by apply (proj1 (Forall_forall _ _) Hpg).
  - by apply heap_pages.
  - rewrite Ev. cbn [mbind outcome_bind]. eexists _, zn, _, _, l. split; [reflexivity|].
    split; [repeat (split; [reflexivity|]); reflexivity|]. split; [reflexivity|]. split; [reflexivity|].
    assert (Hc : {[cpu_addr im := Cpu 0 0 [cpu_addr im; 0; 0] (Taskstate 0 0 0) 0]} !! cpu_addr im =
      Some (Cpu 0 0 [cpu_addr im; 0; 0] (Taskstate 0 0 0) 0)) by apply lookup_singleton_eq.
    split.
    + reflexivity.
    + do 3 eexists. split; [exact Hc|reflexivity].
    + split; [reflexivity|reflexivity|constructor].
    + destruct Hzl as [? [] ? ? ? ?]. by split.
    + exists 0%nat, rest. split; [exact Hheap|]. split; [exact Hlog|]. split; [lia|]. split; [lia|]. split; [lia|].
      unfold rest. rewrite length_drop. lia.
    + reflexivity.
    + do 2 eexists. reflexivity.
Qed.

Lemma boot_memory_ok im s flags lower upper r0 r1 m (f : nat) :
  image_ok im -> enough_memory im s flags lower upper r0 r1 ->
  m_kern m = kernel_stacks_init (kern_started im s) -> m_slice m = Kernslice 0 [r0; r1] 2 0 ->
  exists m' zn a0 a1 l, (m1 ← kern_initmem im m; vm_init im (2050 + f) m1) = Done m' /\ same_devices m m' /\
    m_slice m' = Kernslice 0 [r0; r1] 2 (bmas_addr im) /\ thread_template (m_kern m') = thread_template (kern_started im s) /\
    ready (m_kern m') (cpu_addr im) zn (a0 :: a1 :: l) (18 + heap_left r0 r1) [capacity_message].
Proof.
  intros Him [Hr Hke Hlo Hup Hord Hlen Hok Hw Hdir Hram] Hk Hs.
  destruct (i686_memranges_ok _ _ _ _ _ _ Hke Hlo Hup Hr) as (Hb0&_&He0&Hb1&Hbk&_&He1).
  destruct (boot_pages_ok r0 r1) as (Hnd&Hall&H0); [done|lia|lia|lia|done|].
  destruct (vm_phys_bm_bootinit_ok [r0; r1]) as (st&o&p&ms&E&Hrep&Hlk&_&[tl Hpre]&_&Hcount).
  { repeat constructor; lia. }
  change ([r0; r1] ≫= range_pages) with (range_pages r0 ++ range_pages r1 ++ []) in Hpre, Hcount.
  rewrite app_nil_r in Hpre, Hcount. specialize (Hcount ltac:(cbn; lia)). cbn [length] in Hcount. unfold heap_left.
  assert (Htake : take 252 (range_pages r0 ++ range_pages r1) = take 252 (free_pages p ms)).
  { rewrite Hpre. apply take_app_le. lia. }
  rewrite Htake in Hdir, Hram. rewrite Hpre in Hnd, Hall, H0.
  apply NoDup_app in Hnd as (Hnd&_&_). apply Forall_app in Hall as [Hall _].
  apply (memory_ready im s m r0 r1 st o p ms); try done; [|lia|lia].
  intros Hin. apply H0. rewrite drop_app_le by lia. apply elem_of_app. by left.
Qed.

(** *** Properties *)

(** The kernel after the boot: one CPU that runs the idle thread, which is the
    only thread, with both stacks and the CPU's stack in the kernel heap; a
    scheduler with empty run queues; [n] pages of the heap left behind the first
    18, so that a request for at most that many is served with the next ones. *)
Record idle_kernel (k : kern vm) (c n : Z) : Prop := {
  ik_thread : threads k = {[ IDLE_THREAD := set_current_cpu c (new_thread
    (Thread 0 [0; 0; 0; 0] [0; 0] [0; 0] 0 16 0 0) IDLE_STACK_0 IDLE_STACK_0 IDLE_STACK_1 IDLE_STACK_1) ]};
  ik_sched : sched_rep k BOOT_SCHED (Scheduler sched_prios IDLE_THREAD 1 0) (replicate SCHED_NRQS []);
  ik_running : exists th, running k c BOOT_SCHED IDLE_THREAD th;
  ik_cpu : exists x, cpus k !! c = Some x /\ cpu_local x = [c; IDLE_THREAD; CPU_STACK] /\
    cpu_arch x = Taskstate (Z.shiftl SEG_KDATA 3) IDLE_STACK_0 0xFFFF;
  ik_heap : kmem_at (vmst (heap k)) (KMEM_BEGIN + 4096 * 18) n boot_log;
  ik_next : forall size, 0 < size < 2 ^ 31 -> pages_for size <= n ->
    exists v, kalloc_ll size (vmst (heap k)) = Done (Some (KMEM_BEGIN + 4096 * 18, 4096 * pages_for size), v);
}.

Lemma hey_ok ap : let text := line "Hey, we need to do more!" in
  renders text ap text /\ Forall (fun c => 0 <= c < 256) text /\ length text < 2 ^ 31.
Proof.
  assert (Hc : Forall (fun c => 0 < c < 256 /\ c <> 37) (line "Hey, we need to do more!"))
    by (apply (bool_decide_eq_true_1 _); vm_compute; reflexivity).
  split_and!; [apply renders_plain| |cbn; lia]; (eapply Forall_impl; [exact Hc|]; cbn; lia).
Qed.

Lemma boot_ok im screen s flags lower upper r0 r1 (f : nat) :
  image_ok im -> length screen = 2000%nat -> enough_memory im s flags lower upper r0 r1 ->
  exists m t, _i686_boot_main im (2050 + f) flags lower upper (power_on im screen s) = Done m /\
    m_interrupts m = true /\ idle_kernel (m_kern m) (cpu_addr im) (heap_left r0 r1) /\
    devices_ready im (power_on im screen s) m /\ m_slice m = Kernslice 0 [r0; r1] 2 (bmas_addr im) /\
    kterm_init (ccterm_bss screen) = Done t /\
    io_view (m_term m) = fold_left io_feed (concat boot_texts ++ line "Hey, we need to do more!") (io_view t).
Proof.
  intros Him Hscr Hem. pose proof (em_ranges _ _ _ _ _ _ _ Hem) as Hr.
  destruct (_i686_init_ok im screen s flags lower upper _ Him Hr) as (m1&E1&Hk1&Ht1&Hs1&Hp1).
  unfold _i686_boot_main. rewrite E1. cbn [mbind outcome_bind].
  unfold kernel_main, platform_get_cap_stage. cbn [kernel_main_at]. unfold main. rewrite Ht1 || cbn [set_kern m_term].
  destruct (kterm_init_ok screen Hscr) as (t&Et&Htok). rewrite ?Ht1, Et. cbn [mbind outcome_bind].
  destruct (boot_memory_ok im s flags lower upper r0 r1 (set_term t (set_kern (kernel_stacks_init (m_kern m1)) m1)) f)
    as (m2&zn&a0&a1&l&E2&(Ht2&Hd1&Hd2&Hd3&Hd4)&Hs2&Htpl&Hrd); [done|done|by cbn; rewrite Hk1|done|].
  apply bind_Done in E2 as (m2'&E2a&E2b). rewrite E2a. cbn [mbind outcome_bind]. rewrite E2b. cbn [mbind outcome_bind].
  destruct (main_kern_ok (2010 + f) (m_kern m2) (cpu_addr im) zn a0 a1 l (18 + heap_left r0 r1) _ Hrd)
    as (k&x&E3&Hth&Hsr&Hg&Hc&Hcur&Hl&Hcs&Hca&Hh); [pose proof (em_pages _ _ _ _ _ _ _ Hem); unfold heap_left; lia|].
  replace (18 + heap_left r0 r1 - 18) with (heap_left r0 r1) in Hh by lia.
  change (2050 + f)%nat with (40 + (2010 + f))%nat. rewrite E3. cbn [mbind outcome_bind].
  unfold vm_output, vm_of. cbn [m_kern set_kern].
  assert (Hlog : printed (vmst (heap k)) = boot_log) by by destruct Hh as (?&?&_&->&_).
  rewrite Hlog. destruct (print_log_ok im _ _ (io_numbuf _ Him) boot_texts_ok (set_kern k m2)) as (t1&E4&Ht4&Hv4);
    [by cbn; rewrite Ht2|]. rewrite E4. cbn [mbind outcome_bind].
  destruct (printf_ok im (line "Hey, we need to do more!") [] (line "Hey, we need to do more!")
    (hal_boot_start_int (set_term t1 (set_kern k m2)))) as (t'&E5&_&Hview);
    [exact (io_numbuf _ Him)|exact (proj1 (hey_ok []))|constructor|exact (proj1 (proj2 (hey_ok [])))|exact (proj2 (proj2 (hey_ok [])))|exact Ht4|].
  rewrite E5. exists (set_term t' (hal_boot_start_int (set_term t1 (set_kern k m2)))), t.
  split; [done|]. split; [done|]. split; [|split; [|split; [exact Hs2|split; [done|]]]].
  2: { eapply same_devices_ready; [|exact Hp1]. exact (conj Hd1 (conj Hd2 (conj Hd3 Hd4))). }
  2: { cbn [m_term set_term]. rewrite Hview. cbn [m_term hal_boot_start_int set_interrupts set_term].
       rewrite Hv4, fold_left_app. cbn [m_term set_kern]. by rewrite Ht2. }
  unfold idle_thread, boot_template in Hth. rewrite Htpl in Hth.
  split; cbn [m_kern set_term hal_boot_start_int set_interrupts set_kern]; [exact Hth|done| | |done|].
  - eexists. split; [|by exists x|rewrite Hth; apply lookup_singleton_eq].
    unfold kernel_get_current_cpu. rewrite Hg, Hc. cbn [deref mbind outcome_bind]. by rewrite Hl.
  - by exists x.
  - intros size Hsize Hle. destruct (kmem_alloc _ _ _ _ size Hh Hsize Hle) as (v&Ev&_). by exists v.
Qed.

(** C1: the boot: on a machine with at most 640 KiB of lower memory, upper memory
    that reaches past the kernel image and ends below 4 GiB, and at least 270
    pages in the two, over the page tables of the entry code, [_i686_boot_main]
    reaches the idle loop, also where the bitmaps of [vm_phys_bm_bootinit] hold only the first of these pages.  The
    descriptor tables, the interrupt controllers and the timer are set up and
    interrupts are on; the slice has the two memory ranges and the allocator; the
    kernel heap has 110 pages left behind the 18 in use, or as many as the machine
    has above 270, and serves every request that fits in them with the next ones;
    the idle thread runs on its CPU with its stacks in the kernel heap, the CPU's
    task state points to its interrupt stack, the scheduler is empty, and the
    terminal shows the messages of the memory layer and of [main] after the screen
    was cleared. *)
Theorem boot_correct im screen s flags lower upper r0 r1 (f : nat) :
  image_ok im -> length screen = 2000%nat -> enough_memory im s flags lower upper r0 r1 ->
  exists m t, _i686_boot_main im (2050 + f) flags lower upper (power_on im screen s) = Done m /\
    m_interrupts m = true /\ idle_kernel (m_kern m) (cpu_addr im) (heap_left r0 r1) /\
    devices_ready im (power_on im screen s) m /\ m_slice m = Kernslice 0 [r0; r1] 2 (bmas_addr im) /\
    kterm_init (ccterm_bss screen) = Done t /\
    io_view (m_term m) = fold_left io_feed (concat boot_texts ++ line "Hey, we need to do more!") (io_view t).
Proof. apply boot_ok. Qed.

Lemma idle_kernel_preempt k c n : idle_kernel k c n -> sched_preempt 1 k = Fault.
Proof.
  intros [Ht Hsr (th&Hrun) _ _ _]. pose proof (rn_thread _ _ _ _ _ Hrun) as Hth. rewrite Ht, lookup_singleton_eq in Hth.
  injection Hth as <-.
  assert (H0 : threads k !! 0 = None) by (rewrite Ht; by apply lookup_singleton_ne).
  refine (proj2 (sched_preempt_ok 0 k c BOOT_SCHED IDLE_THREAD _ _ _ Hrun eq_refl Hsr eq_refl) _ H0).
  apply list_elem_of_lookup. by exists 0%nat.
Qed.

(** C8: the first tick: the first timer interrupt after the boot, whatever the
    local APIC is, dereferences the null pointer in the scheduler, as it takes
    the head of an empty run queue for a thread. *)
Theorem first_tick_faults {D} `{Lapic.Mmio D} im screen s flags lower upper r0 r1 (f : nat) m lapic (d : D) :
  image_ok im -> length screen = 2000%nat -> enough_memory im s flags lower upper r0 r1 ->
  _i686_boot_main im (2050 + f) flags lower upper (power_on im screen s) = Done m ->
  __i686_interrupt 1 lapic (T_IRQ0 + IRQ_TIMER) (m_ports m) d (m_kern m) = Fault.
Proof.
  intros Him Hs Hem Hboot. destruct (boot_ok im screen s flags lower upper r0 r1 f Him Hs Hem) as (m'&t&E&_&Hik&_).
  rewrite Hboot in E. injection E as <-. unfold __i686_interrupt. rewrite Z.eqb_refl.
  by rewrite (idle_kernel_preempt _ _ _ Hik).
Qed.

(** ** A concrete machine *)

Module BootExample.
(** A kernel image of 1 MiB + 64 KiB. *)
Definition im0 : image :=
  Image 0xC0110000 I686Example.vectors 0xC0102000 0xC0102100 0xC0108000 0xC0103000 0xC0103100 0xC0109000 0xC0109100 0xC0105000
    0xC010A000 0xC0121000 (replicate 100 0).

(** 640 KiB of lower memory and upper memory up to 1 GiB, more than the bitmaps
    hold; only the words of the first pages, which become page tables, are listed. *)
Definition mmu0 : mmu :=
  Mmu (replicate 4096 0) (replicate 1024 0) (gset_to_gmap 0 (list_to_set (Z.mul 4 <$> seqZ 0 (0x17E000 / 4)))) 0 [].
Definition low : physmem_range := Physmem_range 0 0xA0000.
Definition high : physmem_range := Physmem_range 0x110000 0x40000000.
Definition first : physmem_range := Physmem_range 0x110000 0x17E000.

Lemma im0_ok : image_ok im0.
Proof. split; [reflexivity|reflexivity|cbn; lia|cbn; unfold KMEM_BEGIN; lia|cbn; lia]. Qed.

Lemma low_first_pages a : a ∈ range_pages low ++ range_pages first -> 0 <= a /\ a + 4096 <= 0x17E000 /\ a mod 4096 = 0.
Proof.
  intros [(i&->&Hi%elem_of_seqZ)%list_elem_of_fmap|(i&->&Hi%elem_of_seqZ)%list_elem_of_fmap]%elem_of_app;
    cbn [pm_begin pm_end low first] in *.
  - change ((0xA0000 - 0) / 4096) with 160 in Hi. split; [lia|]. split; [lia|].
    replace (0 + 4096 * i) with (i * 4096) by lia. by apply Z.mod_mul.
  - change ((0x17E000 - 0x110000) / 4096) with 110 in Hi. split; [lia|]. split; [lia|].
    replace (0x110000 + 4096 * i) with ((0x110 + i) * 4096) by lia. by apply Z.mod_mul.
Qed.

Lemma pages0 :
  Z.of_nat (length (range_pages low ++ range_pages high)) = 262032 /\
  take 252 (range_pages low ++ range_pages high) = take 252 (range_pages low ++ range_pages first).
Proof.
  split.
  - rewrite length_app, Nat2Z.inj_add, !length_range_pages by (split; cbn; lia). reflexivity.
  - destruct (prefix_seqZ (fun i => 0x110000 + 4096 * i) 110 261872) as [tl Htl]; [lia|].
    assert (range_pages high = range_pages first ++ tl) as -> by exact Htl. rewrite app_assoc. apply take_app_le.
    vm_compute. lia.
Qed.

Lemma heap_left0 : heap_left low high = 110.
Proof. unfold heap_left. by rewrite (proj1 pages0). Qed.

Lemma memory0 : enough_memory im0 mmu0 1 640 1047552 low high.
Proof.
  split.
  - reflexivity.
  - cbn. lia.
  - lia.
  - lia.
  - cbn. lia.
  - by rewrite (proj1 pages0).
  - split; unfold mmu0; cbn [kpt kpd map_sl]; [apply length_replicate|apply length_replicate|reflexivity].
  - unfold window_free, mmu0. cbn [kpt]. vm_compute. reflexivity.
  - split; unfold mmu0; cbn [kpd].
    + intros i e _ [-> _]%lookup_replicate. unfold in_u32. lia.
    + intros i j e e' _ _ [-> _]%lookup_replicate _ HP. discriminate.
    + intros i e _ [-> _]%lookup_replicate HP. discriminate.
  - apply Forall_forall. intros a Ha. rewrite (proj2 pages0) in Ha.
    assert (Hin : a ∈ range_pages low ++ range_pages first).
    { rewrite <-(take_drop 252 (range_pages low ++ range_pages first)). apply elem_of_app. by left. }
    apply low_first_pages in Hin as (H0&H1&H2). intros j Hj. exists 0. unfold mmu0. cbn [ram].
    apply lookup_gset_to_gmap_Some. split; [|done]. apply elem_of_list_to_set, list_elem_of_fmap.
    exists (a / 4 + j). pose proof (Z.div_mod a 4096 ltac:(lia)) as Hd. rewrite H2 in Hd.
    assert (Ha4 : 4 * (a / 4) = a).
    { replace a with ((1024 * (a / 4096)) * 4) by lia. rewrite Z.div_mul by lia. lia. }
    split; [lia|]. apply elem_of_seqZ. change (0x17E000 / 4) with 391168. lia.
Qed.

(** The heap of that machine after [vm_init]: two requests. *)
Lemma vm_kalloc_ll_refines_bump_witness : exists m s',
  (m1 ← kern_initmem im0 (set_slice (Kernslice 0 [low; high] 2 0) (set_kern (kernel_stacks_init (kern_started im0 mmu0))
     (power_on im0 [] mmu0))); vm_init im0 2050 m1) = Done m /\
  kalloc_all [100; 5000] (vm_of m) = Done (Some [(0xC1000000, 4096); (0xC1001000, 8192)], s').
Proof.
  destruct (boot_memory_ok im0 mmu0 1 640 1047552 low high (set_slice (Kernslice 0 [low; high] 2 0)
    (set_kern (kernel_stacks_init (kern_started im0 mmu0)) (power_on im0 [] mmu0))) 0 im0_ok memory0)
    as (m&zn&a0&a1&l&E&_&_&_&Hrd); [reflexivity|reflexivity|].
  destruct (vm_kalloc_ll_refines_bump (vm_of m) KMEM_BEGIN (18 + heap_left low high) [capacity_message] [100; 5000]) as [(s'&Es&_) _].
  - exact (rd_kmem _ _ _ _ _ _ Hrd).
  - repeat constructor; lia.
  - rewrite heap_left0. vm_compute. discriminate.
  - exists m, s'. split; [exact E|exact Es].
Defined.

Lemma boot_correct_witness :
  exists m v, _i686_boot_main im0 2050 1 640 1047552 (power_on im0 (replicate 2000 0) mmu0) = Done m /\
    idle_kernel (m_kern m) 0xC0102000 110 /\ m_interrupts m = true /\
    kalloc_ll 5000 (vm_of m) = Done (Some (0xC1012000, 8192), v).
Proof.
  destruct (boot_correct im0 (replicate 2000 0) mmu0 1 640 1047552 low high 0 im0_ok) as (m&t&E&Hi&Hk&_).
  - apply length_replicate.
  - exact memory0.
  - rewrite heap_left0 in Hk. destruct (ik_next _ _ _ Hk 5000) as [v Hv]; [lia|vm_compute; discriminate|].
    exists m, v. split; [exact E|]. split; [exact Hk|]. split; [exact Hi|exact Hv].
Defined.

Lemma first_tick_faults_witness :
  exists m, _i686_boot_main im0 2050 1 640 1047552 (power_on im0 (replicate 2000 0) mmu0) = Done m /\
    __i686_interrupt 1 0 32 (m_ports m) (Lapic.Apic ∅ 0 0) (m_kern m) = Fault.
Proof.
  destruct (boot_ok im0 (replicate 2000 0) mmu0 1 640 1047552 low high 0 im0_ok) as (m&t&E&_).
  - apply length_replicate.
  - exact memory0.
  - exists m. split; [exact E|].
    apply (first_tick_faults im0 (replicate 2000 0) mmu0 1 640 1047552 low high 0 m 0 (Lapic.Apic ∅ 0 0) im0_ok).
    + apply length_replicate.
    + exact memory0.
    + exact E.
Defined.
End BootExample.
