(* ===== verification/Start.v ===== *)
(** * The entry code

    Models [_start] of [arch/i686/boot.s], from the state in which the boot loader
    leaves the machine to the call of [_i686_boot_main], with [_init] of
    [arch/i686/crti.s] and [arch/i686/crtn.s] and the addresses of
    [arch/i686/linker.ld].

    Memory is the map of 32-bit words by physical address.  Until paging is on
    the code works with physical addresses; from then on every access, and the
    fetch of the next instruction, goes through [page_walk], the processor's walk
    of the page directory and the page tables in memory.  What the compiler puts
    between the two halves of [_init] is not in the repository: it is the argument
    [constructors].

    The theorem connects the entry code with [Boot]: what [boot_correct] asks of
    the page tables is what [_start] builds. *)

From S2P Require Import Prelude PhysAlloc Terminal Mmu MmuProps Vm VmProps Kmem Kern Sched I686 Boot.

(** ** Memory *)

Definition store (a w : Z) (m : gmap Z Z) : outcome (gmap Z Z) := _ ← deref (m !! a); Done (<[a := w]> m).

Fixpoint stores (l : list (Z * Z)) (m : gmap Z Z) : outcome (gmap Z Z) :=
  match l with [] => Done m | (a, w) :: l => m ← store a w m; stores l m end.

(** The physical address of [va], and whether it may be written. *)
Definition page_walk (cr3 va : Z) (m : gmap Z Z) : outcome (Z * bool) :=
  pde ← deref (m !! (cr3 + 4 * PDX va));
  if truthy (Z.land pde PTE_P) then
    pte ← deref (m !! (PTE_ADDR pde + 4 * PTX va));
    if truthy (Z.land pte PTE_P) then
      Done (PTE_ADDR pte + Z.land va 0xFFF, truthy (Z.land pde PTE_W) && truthy (Z.land pte PTE_W))
    else Fault
  else Fault.

Definition load_va (cr3 va : Z) (m : gmap Z Z) : outcome Z := '(pa, _) ← page_walk cr3 va m; deref (m !! pa).

(** With the write-protect bit of [%cr0] the kernel cannot write to a read-only
    page either. *)
Definition store_va (cr3 va w : Z) (m : gmap Z Z) : outcome (gmap Z Z) :=
  p ← page_walk cr3 va m; let '(pa, wr) := p : Z * bool in if wr then store pa w m else Fault.

Fixpoint stores_va (cr3 : Z) (l : list (Z * Z)) (m : gmap Z Z) : outcome (gmap Z Z) :=
  match l with [] => Done m | (va, w) :: l => m ← store_va cr3 va w m; stores_va cr3 l m end.

(** ** The image *)

(** [- 0xC0000000] of the assembler. *)
Definition phys_of (va : Z) : Z := va -u 0xC0000000.

Definition _kernel_start : Z := 0xC0100000.

(** Addresses of the entry code that are not those of [image]: the label [4:], the
    end of the boot stack, the return addresses of the two calls. *)
Record entry := Entry { label_4 : Z; stack_top : Z; init_ret : Z; main_ret : Z }.

Section start.
Variables (im : image) (en : entry).
(** What the compiler puts into [_init]. *)
Variable constructors : gmap Z Z -> outcome (gmap Z Z).

(** The section [.bss]: the directory, four page tables, the multiboot data. *)
Definition boot_page_directory : Z := page_dir im.
Definition boot_page_table1 : Z := boot_page_directory + 4096.
Definition boot_page_table2 : Z := boot_page_directory + 8192.
Definition boot_page_table3 : Z := boot_page_directory + 12288.
Definition boot_page_table4 : Z := boot_page_directory + 16384.
Definition _i686_multiboot_memdata : Z := boot_page_directory + 20480.

(** The fields of the multiboot information that are copied, and where to. *)
Definition memdata_fields : list (Z * Z) := [(0, 0); (4, 4); (8, 8); (44, 12); (48, 16)].

Fixpoint copy_memdata (ebx : Z) (l : list (Z * Z)) (m : gmap Z Z) : outcome (gmap Z Z) :=
  match l with
  | [] => Done m
  | (o, d) :: l =>
      w ← deref (m !! (ebx +u o));
      m ← store (phys_of (_i686_multiboot_memdata + d)) w m;
      copy_memdata ebx l m
  end.

(** The loop that maps the kernel: [n] is [%ecx]; the comparisons are signed. *)
Fixpoint map_kernel (n : nat) (edi esi : Z) (m : gmap Z Z) : outcome (gmap Z Z) :=
  match n with
  | O => Done m
  | S n =>
      if i32 esi <? i32 (phys_of _kernel_start) then map_kernel n (edi +u 4) (esi +u 4096) m
      else if i32 (phys_of (kernel_end im)) <=? i32 esi then Done m
      else m ← store edi (Z.lor esi 0x003) m; map_kernel n (edi +u 4) (esi +u 4096) m
  end.

(** The page of the screen, and each table at two entries of the directory. *)
Definition boot_entries : list (Z * Z) :=
  let dir := phys_of boot_page_directory in
  [ (phys_of boot_page_table3 + 1023 * 4, Z.lor 0x000B8000 0x003);
    (dir + 0, phys_of boot_page_table1 + 0x003); (dir + 768 * 4, phys_of boot_page_table1 + 0x003);
    (dir + 4 + 0, phys_of boot_page_table2 + 0x003); (dir + 4 + 768 * 4, phys_of boot_page_table2 + 0x003);
    (dir + 8 + 0, phys_of boot_page_table3 + 0x003); (dir + 8 + 768 * 4, phys_of boot_page_table3 + 0x003);
    (dir + 12 + 0, phys_of boot_page_table4 + 0x003); (dir + 12 + 768 * 4, phys_of boot_page_table4 + 0x003) ].

(** [_init] from its first instruction to [ret], with the caller's [%ebp]. *)
Definition _init (cr3 ebp : Z) (m : gmap Z Z) : outcome (gmap Z Z) :=
  m ← store_va cr3 (stack_top en -u 8) ebp m;
  m ← constructors m;
  _ ← load_va cr3 (stack_top en -u 8) m;
  ra ← load_va cr3 (stack_top en -u 4) m;
  if ra =? init_ret en then Done m else Fault.

(** The memory, [%cr3] and [%esp] when [_i686_boot_main] is entered.  The two
    instructions before the label [4:] are 8 bytes and are fetched from the
    identity mapping. *)
Definition _start (ebx ebp : Z) (m : gmap Z Z) : outcome (gmap Z Z * Z * Z) :=
  m ← copy_memdata ebx memdata_fields m;
  m ← map_kernel 1023 (phys_of boot_page_table1) 0 m;
  m ← stores boot_entries m;
  let cr3 := phys_of boot_page_directory in
  _ ← page_walk cr3 (phys_of (label_4 en - 8)) m;
  _ ← page_walk cr3 (label_4 en) m;
  m ← stores_va cr3 [(boot_page_directory + 0, 0); (boot_page_directory + 4, 0); (boot_page_directory + 8, 0);
                     (boot_page_directory + 12, 0)] m;
  _ ← page_walk cr3 (label_4 en) m;
  m ← store_va cr3 (stack_top en -u 4) (init_ret en) m;
  m ← _init cr3 ebp m;
  m ← store_va cr3 (stack_top en -u 4) (main_ret en) m;
  Done (m, cr3, stack_top en -u 4).
End start.

(** [n] words of memory from [a] on, and the tables as [Mmu] has them. *)
Definition words_at (a : Z) (n : nat) (m : gmap Z Z) : list Z := (fun i : nat => default 0 (m !! (a + 4 * i))) <$> seq 0 n.

Definition boot_mmu (im : image) (m : gmap Z Z) : mmu :=
  Mmu (words_at (phys_of (boot_page_table1 im)) 4096 m) (words_at (phys_of (boot_page_directory im)) 1024 m) m 0 [None].

(** ** What the linker and the boot loader provide *)

(** The order of the sections: the code, the directory and its tables, the boot
    stack; the loop reaches the pages below 0x3FF000. *)
Record layout_of (im : image) (en : entry) : Prop := {
  lt_dir : page_dir im mod 4096 = 0;
  lt_text : 0xC0100008 <= label_4 en < page_dir im;
  lt_stack : page_dir im + 20500 + 16384 <= stack_top en /\ stack_top en mod 4 = 0;
  lt_end : stack_top en <= kernel_end im <= 0xC03FF000;
}.

(** The sections without contents are zero, the boot stack is there, and the
    multiboot information lies outside the image. *)
Record loaded (im : image) (en : entry) (ebx : Z) (m : gmap Z Z) : Prop := {
  ld_bss : forall j, 0 <= j < 5125 -> m !! (page_dir im - 0xC0000000 + 4 * j) = Some 0;
  ld_stack : is_Some (m !! (stack_top en - 0xC0000000 - 4)) /\ is_Some (m !! (stack_top en - 0xC0000000 - 8));
  ld_info : forall o d, (o, d) ∈ memdata_fields -> is_Some (m !! (ebx + o));
  ld_apart : 0 <= ebx /\ (ebx + 52 <= 0x100000 \/ kernel_end im - 0xC0000000 <= ebx) /\ ebx + 52 < 2 ^ 32;
}.

(** The constructors use the stack below the frame of [_init], and change nothing
    else. *)
Definition constructors_ok (en : entry) (constructors : gmap Z Z -> outcome (gmap Z Z)) : Prop :=
  let top := stack_top en - 0xC0000000 in
  forall m, exists m', constructors m = Done m' /\
    (forall a, a < top - 16384 \/ top - 8 <= a -> m' !! a = m !! a).

(** ** Stores *)

Lemma store_ok a w m : is_Some (m !! a) -> store a w m = Done (<[a := w]> m).
Proof. intros [v Hv]. unfold store. by rewrite Hv. Qed.

Lemma is_Some_insert (m : gmap Z Z) a b w : is_Some (m !! a) -> is_Some (<[b := w]> m !! a).
Proof. intros H. destruct (decide (a = b)) as [->|]; [rewrite lookup_insert_eq; by eexists|by rewrite lookup_insert_ne]. Qed.

Lemma bind_intro {A B} (x : outcome A) (f : A -> outcome B) a b : x = Done a -> f a = Done b -> (y ← x; f y) = Done b.
Proof. by intros ->. Qed.

(** The memory after a list of stores. *)
Definition put (l : list (Z * Z)) (m : gmap Z Z) : gmap Z Z := fold_left (fun m e => <[e.1 := e.2]> m) l m.

Lemma stores_ok l : forall m, Forall (fun e => is_Some (m !! e.1)) l -> stores l m = Done (put l m).
Proof.
  induction l as [|[a w] l IH]; intros m Hl; [done|]. apply Forall_cons in Hl as [Ha Hl]. cbn [stores].
  rewrite store_ok by done. cbn [mbind outcome_bind]. rewrite IH; [done|].
  eapply Forall_impl; [exact Hl|]. intros e He. by apply is_Some_insert.
Qed.

Lemma put_other l : forall m a, a ∉ l.*1 -> put l m !! a = m !! a.
Proof.
  induction l as [|[b w] l IH]; intros m a Ha; [done|]. rewrite fmap_cons in Ha. cbn [fst] in Ha. apply not_elem_of_cons in Ha as [Hne Ha].
  unfold put. cbn [fold_left fst snd]. fold (put l (<[b := w]> m)). rewrite IH by done. by rewrite lookup_insert_ne.
Qed.

Lemma put_in l : forall m a w, NoDup l.*1 -> (a, w) ∈ l -> put l m !! a = Some w.
Proof.
  induction l as [|[b v] l IH]; intros m a w Hnd Hin; [by apply elem_of_nil in Hin|].
  rewrite fmap_cons in Hnd. cbn [fst] in Hnd. apply NoDup_cons in Hnd as [Hb Hnd].
  unfold put. cbn [fold_left fst snd]. fold (put l (<[b := v]> m)). apply elem_of_cons in Hin as [[= -> ->]|Hin]; [|by apply IH].
  rewrite put_other by done. apply lookup_insert_eq.
Qed.

(** An entry of a page table: a page and the bits for present and writable. *)
Lemma entry_bits t : t mod 4096 = 0 -> 0 <= t < 2 ^ 32 ->
  PTE_ADDR (t + 3) = t /\ truthy (Z.land (t + 3) PTE_P) = true /\ truthy (Z.land (t + 3) PTE_W) = true.
Proof.
  intros Ht Hr. rewrite <-(lor_flags t 3) by lia. destruct (entry_addr t 3 Ht Hr) as [Ha Hg]; [lia|].
  rewrite !Hg. unfold PTE_P, PTE_W. by rewrite (land_aligned t 1), (land_aligned t 2) by lia.
Qed.

Lemma page_walk_ok cr3 va m t u :
  m !! (cr3 + 4 * PDX va) = Some (t + 3) -> m !! (t + 4 * PTX va) = Some (u + 3) ->
  t mod 4096 = 0 -> 0 <= t < 2 ^ 32 -> u mod 4096 = 0 -> 0 <= u < 2 ^ 32 ->
  page_walk cr3 va m = Done (u + va mod 4096, true).
Proof.
  intros Hd Hp Ht Htr Hu Hur. unfold page_walk. rewrite Hd. cbn [deref mbind outcome_bind].
  destruct (entry_bits t Ht Htr) as (->&->&->), (entry_bits u Hu Hur) as (Eu&Pu&Wu).
  rewrite Hp. cbn [deref mbind outcome_bind]. by rewrite Pu, Wu, Eu, land_fff.
Qed.

(** ** The steps of the entry code *)

Section steps.
Variables (im : image) (en : entry).
Hypothesis HL : layout_of im en.

#[local] Notation dir := (page_dir im - 0xC0000000).
#[local] Notation kend := (kernel_end im - 0xC0000000).

Lemma phys_of_ok va : 0xC0000000 <= va < 2 ^ 32 -> phys_of va = va - 0xC0000000.
Proof using. intros Hva. unfold phys_of. by rewrite u32_sub_nowrap by lia. Qed.

Lemma dir_range : 0x100000 < dir /\ dir + 36884 <= stack_top en - 0xC0000000 <= kend /\ kend <= 0x3FF000 /\ dir mod 4096 = 0.
Proof using HL.
  destruct HL as [Hd Ht [Hs _] He]. split_and!; try lia. rewrite Zminus_mod, Hd. done.
Qed.

Lemma field_range o d : (o, d) ∈ memdata_fields -> 0 <= o <= 48 /\ 0 <= d <= 16 /\ d = 4 * (d / 4).
Proof using.
  unfold memdata_fields. rewrite !elem_of_cons, elem_of_nil. intros Hin.
  repeat destruct Hin as [[= -> ->]|Hin]; done.
Qed.

Lemma copy_memdata_ok ebx l : forall m,
  0 <= ebx -> ebx + 52 <= 0x100000 \/ kend <= ebx -> ebx + 52 < 2 ^ 32 ->
  (forall o d, (o, d) ∈ l -> (o, d) ∈ memdata_fields) -> NoDup l.*2 ->
  (forall o d, (o, d) ∈ l -> is_Some (m !! (ebx + o)) /\ is_Some (m !! (dir + 20480 + d))) ->
  exists m', copy_memdata im ebx l m = Done m' /\
    (forall o d, (o, d) ∈ l -> m' !! (dir + 20480 + d) = m !! (ebx + o)) /\
    (forall a, a ∉ (fun d => dir + 20480 + d) <$> l.*2 -> m' !! a = m !! a).
Proof using HL.
  intros m H0 Ha H1 Hl. destruct dir_range as (R0&R1&R2&_). revert m Hl.
  induction l as [|[o d] l IH]; intros m Hl Hnd Hm.
  { exists m. split; [done|]. split; [intros o d []%elem_of_nil|done]. }
  destruct (Hm o d) as [[w Hw] Hd]; [by left|]. destruct (field_range o d) as (Ho&Hd'&_); [apply Hl; by left|].
  rewrite fmap_cons in Hnd. apply NoDup_cons in Hnd as [Hnot Hnd]. cbn [copy_memdata snd] in *.
  unfold _i686_multiboot_memdata, boot_page_directory. rewrite u32_add_nowrap, Hw by lia. cbn [deref mbind outcome_bind].
  rewrite phys_of_ok by lia. replace (page_dir im + 20480 + d - 0xC0000000) with (dir + 20480 + d) by lia.
  rewrite store_ok by done. cbn [mbind outcome_bind].
  destruct (IH (<[dir + 20480 + d := w]> m)) as (m'&E&Hin&Hout).
  - intros o' d' Hin. apply Hl. by right.
  - done.
  - intros o' d' Hin. destruct (Hm o' d') as [Hs Hd2]; [by right|]. split; by apply is_Some_insert.
  - exists m'. split; [exact E|]. split.
    + intros o' d' [[= -> ->]|Hin']%elem_of_cons.
      * rewrite Hout; [by rewrite lookup_insert_eq|]. intros (d2&Heq&Hd2)%list_elem_of_fmap.
        assert (d2 = d) as -> by lia. done.
      * rewrite (Hin _ _ Hin'). destruct (field_range o' d') as [Ho' _]; [apply Hl; by right|].
        apply lookup_insert_ne. lia.
    + intros a Hna. rewrite fmap_cons in Hna. cbn [snd] in Hna. rewrite fmap_cons in Hna.
      apply not_elem_of_cons in Hna as [Hne Hna]. rewrite Hout by done. by rewrite lookup_insert_ne.
Qed.

(** The loop writes the entries of the kernel's pages and nothing else. *)
Lemma map_kernel_ok (n : nat) : forall i m,
  0 <= i -> i + n <= 1023 -> (forall j, i <= j < 1023 -> is_Some (m !! (dir + 4096 + 4 * j))) ->
  exists m', map_kernel im n (dir + 4096 + 4 * i) (4096 * i) m = Done m' /\
    (forall j, i <= j < i + n -> 0x100000 <= 4096 * j < kend -> m' !! (dir + 4096 + 4 * j) = Some (4096 * j + 3)) /\
    (forall a, (forall j, i <= j < i + n -> 0x100000 <= 4096 * j < kend -> a <> dir + 4096 + 4 * j) -> m' !! a = m !! a).
Proof using HL.
  destruct dir_range as (R0&R1&R2&_).
  assert (Hi32 : forall x, 0 <= x < 2 ^ 31 -> i32 x = x) by (intros x Hx; apply swrap_small; lia).
  induction n as [|n IH]; intros i m H0 Hn Hm; cbn [map_kernel].
  { exists m. split; [done|]. split; [intros j Hj; lia|done]. }
  rewrite (phys_of_ok (kernel_end im)) by lia. change (i32 (phys_of _kernel_start)) with 0x100000. rewrite !Hi32 by lia.
  rewrite !u32_add_nowrap by lia. replace (dir + 4096 + 4 * i + 4) with (dir + 4096 + 4 * (i + 1)) by lia.
  replace (4096 * i + 4096) with (4096 * (i + 1)) by lia.
  destruct (Z.ltb_spec (4096 * i) 0x100000).
  { destruct (IH (i + 1) m) as (m'&E&Hin&Hout); [lia|lia|intros j Hj; apply Hm; lia|].
    exists m'. split; [exact E|]. split; [intros j Hj Hk; apply Hin; [|done]; destruct (decide (j = i)) as [->|]; lia|].
    intros a Ha. apply Hout. intros j Hj. apply Ha. lia. }
  destruct (Z.leb_spec kend (4096 * i)).
  { exists m. split; [done|]. split; [intros j Hj Hk; lia|done]. }
  rewrite store_ok by (apply Hm; lia). cbn [mbind outcome_bind].
  assert (Hlor : Z.lor (4096 * i) 3 = 4096 * i + 3).
  { apply lor_flags; [|lia]. rewrite Z.mul_comm. by apply Z.mod_mul. }
  rewrite Hlor. destruct (IH (i + 1) (<[dir + 4096 + 4 * i := 4096 * i + 3]> m)) as (m'&E&Hin&Hout); [lia|lia| |].
  { intros j Hj. apply is_Some_insert, Hm. lia. }
  exists m'. split; [exact E|]. split.
  - intros j Hj Hk. destruct (decide (j = i)) as [->|]; [|apply Hin; lia].
    rewrite Hout by (intros; lia). apply lookup_insert_eq.
  - intros a Ha. rewrite Hout by (intros j Hj Hk; apply Ha; lia). apply lookup_insert_ne. symmetry. apply Ha; lia.
Qed.

(** The four tables are at the entries of the directory from [d] on; the first
    maps the kernel's pages to themselves, the third the screen. *)
Record tables (d : Z) (m : gmap Z Z) : Prop := {
  tb_dir : forall j, 0 <= j < 4 -> m !! (dir + 4 * (d + j)) = Some (dir + 4096 * (1 + j) + 3);
  tb_kernel : forall j, 0x100000 <= 4096 * j < kend -> m !! (dir + 4096 + 4 * j) = Some (4096 * j + 3);
  tb_screen : m !! (dir + 4096 + 4 * 3071) = Some (0xB8000 + 3);
}.

Lemma walk_kernel d m pa :
  tables d m -> 0 <= d < 1023 -> 0x100000 <= pa < kend -> page_walk dir (4194304 * d + pa) m = Done (pa, true).
Proof using HL.
  intros Ht Hd Hpa. destruct dir_range as (R0&R1&R2&R3).
  assert (in_u32 (4194304 * d + pa)) as Hva by (unfold in_u32; lia).
  assert (Hdiv : (4194304 * d + pa) / 4096 = 1024 * d + pa / 4096).
  { replace (4194304 * d + pa) with (pa + (1024 * d) * 4096) by lia. rewrite Z.div_add by lia. lia. }
  pose proof (Z.div_mod pa 4096 ltac:(lia)) as Hdm. pose proof (Z.mod_pos_bound pa 4096 ltac:(lia)) as Hmod.
  pose proof (tb_dir _ _ Ht 0 ltac:(lia)) as Hdir. pose proof (tb_kernel _ _ Ht (pa / 4096)) as Hk.
  assert (HPDX : PDX (4194304 * d + pa) = d).
  { rewrite (proj1 (PDX_eq _ Hva)), Hdiv. replace (1024 * d + pa / 4096) with (pa / 4096 + d * 1024) by lia.
    rewrite Z.div_add, Z.div_small by lia. lia. }
  assert (HPTX : PTX (4194304 * d + pa) = pa / 4096).
  { rewrite (proj1 (PTX_eq _)), Hdiv. replace (1024 * d + pa / 4096) with (pa / 4096 + d * 1024) by lia.
    rewrite Z.mod_add, Z.mod_small by lia. done. }
  rewrite (page_walk_ok _ _ _ (dir + 4096) (4096 * (pa / 4096))).
  - f_equal. f_equal. replace (4194304 * d + pa) with (pa + (1024 * d) * 4096) by lia. rewrite Z.mod_add by lia. lia.
  - rewrite HPDX. replace (d + 0) with d in Hdir by lia. by rewrite Hdir.
  - rewrite HPTX. apply Hk. lia.
  - rewrite Zplus_mod, R3. done.
  - lia.
  - rewrite Z.mul_comm. by apply Z.mod_mul.
  - lia.
Qed.

Lemma store_va_kernel m pa w :
  tables 768 m -> 0x100000 <= pa < kend -> is_Some (m !! pa) -> store_va dir (0xC0000000 + pa) w m = Done (<[pa := w]> m).
Proof using HL.
  intros Ht Hpa Hm. unfold store_va. replace (0xC0000000 + pa) with (4194304 * 768 + pa) by lia.
  rewrite (walk_kernel 768 m pa Ht) by lia. cbn [mbind outcome_bind]. by apply store_ok.
Qed.

Lemma load_va_kernel m pa w :
  tables 768 m -> 0x100000 <= pa < kend -> m !! pa = Some w -> load_va dir (0xC0000000 + pa) m = Done w.
Proof using HL.
  intros Ht Hpa Hm. unfold load_va. replace (0xC0000000 + pa) with (4194304 * 768 + pa) by lia.
  rewrite (walk_kernel 768 m pa Ht) by lia. cbn [mbind outcome_bind]. by rewrite Hm.
Qed.

(** What the entry code has built, apart from the first four entries of the
    directory. *)
Record built (ebx : Z) (m0 m : gmap Z Z) : Prop := {
  bu_tables : tables 768 m;
  bu_dir : forall j, 4 <= j < 768 \/ 772 <= j < 1024 -> m !! (dir + 4 * j) = Some 0;
  bu_rest : forall j, 0 <= j < 4096 -> ~ 0x100000 <= 4096 * j < kend -> j <> 3071 -> m !! (dir + 4096 + 4 * j) = Some 0;
  bu_data : forall o d, (o, d) ∈ memdata_fields -> m !! (dir + 20480 + d) = m0 !! (ebx + o);
  bu_same : forall a, a < 0x100000 \/ kend <= a -> m !! a = m0 !! a;
}.

Lemma built_agree ebx m0 m m' :
  built ebx m0 m -> (forall a, dir + 16 <= a < dir + 20500 \/ a < 0x100000 \/ kend <= a -> m' !! a = m !! a) -> built ebx m0 m'.
Proof using HL.
  intros [[T1 T2 T3] B1 B2 B3 B4] Ha. destruct dir_range as (R0&R1&R2&R3). split; [split|..].
  - intros j Hj. rewrite Ha by lia. by apply T1.
  - intros j Hj. rewrite Ha by lia. by apply T2.
  - by rewrite Ha by lia.
  - intros j Hj. rewrite Ha by lia. by apply B1.
  - intros j Hj. rewrite Ha by lia. by apply B2.
  - intros o d Hin. destruct (field_range o d Hin) as (_&?&_). rewrite Ha by lia. by apply B3.
  - intros a Hr. rewrite Ha by lia. by apply B4.
Qed.

Lemma boot_entries_eq :
  boot_entries im =
    [(dir + 16380, 0xB8000 + 3); (dir + 0, dir + 4096 + 3); (dir + 3072, dir + 4096 + 3); (dir + 4, dir + 8192 + 3);
     (dir + 3076, dir + 8192 + 3); (dir + 8, dir + 12288 + 3); (dir + 3080, dir + 12288 + 3);
     (dir + 12, dir + 16384 + 3); (dir + 3084, dir + 16384 + 3)].
Proof using HL.
  destruct dir_range as (R0&R1&R2&R3). unfold boot_entries, boot_page_table1, boot_page_table2, boot_page_table3,
    boot_page_table4, boot_page_directory. rewrite !phys_of_ok by lia. change (Z.lor 0xB8000 0x003) with (0xB8000 + 3).
  repeat (f_equal; try lia).
Qed.

(** Entries at distinct addresses. *)
Lemma boot_entries_nodup : NoDup (boot_entries im).*1.
Proof using HL.
  rewrite boot_entries_eq. cbn [fmap list_fmap fst].
  repeat (apply NoDup_cons; split; [rewrite ?not_elem_of_cons; split_and?; try lia; apply not_elem_of_nil|]). constructor.
Qed.

(** The memory with the entries. *)
Lemma put_boot_entries m :
  put (boot_entries im) m !! (dir + 4096 + 4 * 3071) = Some (0xB8000 + 3) /\
  (forall a, a < dir \/ dir + 16 <= a < dir + 3072 \/ dir + 3088 <= a -> a <> dir + 16380 ->
    put (boot_entries im) m !! a = m !! a) /\
  (forall d j, d = 0 \/ d = 768 -> 0 <= j < 4 -> put (boot_entries im) m !! (dir + 4 * (d + j)) = Some (dir + 4096 * (1 + j) + 3)).
Proof using HL.
  assert (Hin : forall a w, (a, w) ∈ boot_entries im -> put (boot_entries im) m !! a = Some w).
  { intros a w Ha. apply put_in; [apply boot_entries_nodup|exact Ha]. }
  split_and!.
  - apply Hin. rewrite boot_entries_eq. apply elem_of_cons. left. f_equal. lia.
  - intros a Ha Hne. apply put_other. rewrite boot_entries_eq. cbn [fmap list_fmap fst].
    rewrite !not_elem_of_cons. split_and!; try lia. apply not_elem_of_nil.
  - intros d j Hd Hj. apply Hin. rewrite boot_entries_eq. clear -Hd Hj.
    assert (j = 0 \/ j = 1 \/ j = 2 \/ j = 3) as Hj' by lia.
    rewrite !elem_of_cons. destruct Hd as [->| ->]; destruct Hj' as [->|[->|[->| ->]]]; cbn; naive_solver lia.
Qed.

(** The tables, before paging is on. *)
Lemma start_tables ebx m : loaded im en ebx m ->
  exists m1 m2, copy_memdata im ebx memdata_fields m = Done m1 /\
    map_kernel im 1023 (phys_of (boot_page_table1 im)) 0 m1 = Done m2 /\
    stores (boot_entries im) m2 = Done (put (boot_entries im) m2) /\
    tables 0 (put (boot_entries im) m2) /\ built ebx m (put (boot_entries im) m2) /\
    (forall a, dir + 20500 <= a -> put (boot_entries im) m2 !! a = m !! a).
Proof using HL.
  intros [Hbss Hstk Hinfo (E0&E1&E2)]. destruct dir_range as (R0&R1&R2&R3).
  destruct (copy_memdata_ok ebx memdata_fields m) as (m1&C1&C2&C3'); [lia|lia|lia|done| | |].
  { cbn. repeat (apply NoDup_cons; split; [rewrite ?not_elem_of_cons; split_and?; try lia; apply not_elem_of_nil|]). constructor. }
  { intros o d Hin. destruct (field_range o d Hin) as (_&Hd&Hd4). split; [by eapply Hinfo|].
    exists 0. rewrite <-(Hbss (5120 + d / 4)) by lia. f_equal. lia. }
  assert (C3 : forall a, a < dir + 20480 \/ dir + 20500 <= a -> m1 !! a = m !! a).
  { intros a Ha. apply C3'. intros (d&->&((o&d')&->&Hin)%list_elem_of_fmap)%list_elem_of_fmap.
    destruct (field_range o d' Hin) as (_&?&_). cbn [snd] in *. lia. }
  clear C3'. destruct (map_kernel_ok 1023 0 m1) as (m2&M1&M2&M3'); [lia|lia| |].
  { intros j Hj. rewrite C3 by lia. exists 0. rewrite <-(Hbss (1024 + j)) by lia. f_equal. lia. }
  assert (M3 : forall a, a < dir + 4096 \/ dir + 8192 <= a -> m2 !! a = m1 !! a).
  { intros a Ha. apply M3'. intros j Hj _. lia. }
  exists m1, m2. split; [exact C1|]. split.
  { change (4096 * 0) with 0 in M1. replace (phys_of (boot_page_table1 im)) with (dir + 4096 + 4 * 0); [exact M1|].
    unfold boot_page_table1, boot_page_directory. rewrite phys_of_ok by lia. lia. }
  assert (Hzero : forall j, 0 <= j < 5120 -> (j < 1024 \/ 2047 <= j \/ ~ 0x100000 <= 4096 * (j - 1024) < kend) -> m2 !! (dir + 4 * j) = Some 0).
  { intros j Hj Hn. rewrite <-(Hbss j), <-(C3 (dir + 4 * j)) by lia. apply M3'. intros i Hi Hk Heq. lia. }
  split.
  { assert (Hs : forall j a, a = dir + 4 * j -> 0 <= j < 1024 \/ 2048 <= j < 5120 -> is_Some (m2 !! a)).
    { intros j a -> Hj. exists 0. apply Hzero; lia. }
    apply stores_ok. rewrite boot_entries_eq. repeat (apply Forall_cons; split; cbn [fst]); [..|by apply Forall_nil];
      [apply (Hs 4095)|apply (Hs 0)|apply (Hs 768)|apply (Hs 1)|apply (Hs 769)|apply (Hs 2)|apply (Hs 770)|apply (Hs 3)|apply (Hs 771)]; lia. }
  destruct (put_boot_entries m2) as (Hin&Hout&Hd).
  assert (Hsame : forall a, a < dir \/ dir + 20500 <= a -> put (boot_entries im) m2 !! a = m !! a).
  { intros a Ha. rewrite Hout, M3, C3 by lia. done. }
  assert (Ht : forall d, d = 0 \/ d = 768 -> tables d (put (boot_entries im) m2)).
  { intros d Hd0. split; [intros j Hj; by apply Hd|..].
    - intros j Hj. rewrite Hout by lia. apply M2; lia.
    - exact Hin. }
  split; [apply Ht; lia|]. split; [|intros a Ha; apply Hsame; lia]. split; [apply Ht; lia|..].
  - intros j Hj. rewrite Hout by lia. apply Hzero; lia.
  - intros j Hj Hk Hne. rewrite Hout by lia. replace (dir + 4096 + 4 * j) with (dir + 4 * (1024 + j)) by lia. apply Hzero; [lia|].
    right; right. by replace (1024 + j - 1024) with j by lia.
  - intros o d Ho. destruct (field_range o d Ho) as (_&?&_). rewrite Hout, M3 by lia. by apply C2.
  - intros a Ha. apply Hsame. lia.
Qed.

#[local] Notation top := (stack_top en - 0xC0000000).

(** The identity mapping is taken away. *)
Lemma unmap_identity ebx m0 m :
  tables 0 m -> built ebx m0 m ->
  exists m', stores_va dir [(page_dir im + 0, 0); (page_dir im + 4, 0); (page_dir im + 8, 0); (page_dir im + 12, 0)] m = Done m' /\
    built ebx m0 m' /\ (forall j, 0 <= j < 4 -> m' !! (dir + 4 * j) = Some 0) /\
    (forall a, a < dir \/ dir + 16 <= a -> m' !! a = m !! a).
Proof using HL.
  intros Ht Hb. destruct dir_range as (R0&R1&R2&R3).
  assert (Hstep : forall j n, 0 <= j < 4 -> built ebx m0 n -> is_Some (n !! (dir + 4 * j)) ->
    store_va dir (page_dir im + 4 * j) 0 n = Done (<[dir + 4 * j := 0]> n) /\ built ebx m0 (<[dir + 4 * j := 0]> n)).
  { intros j n Hj Hn Hs. split.
    - replace (page_dir im + 4 * j) with (0xC0000000 + (dir + 4 * j)) by lia.
      apply store_va_kernel; [exact (bu_tables _ _ _ Hn)|lia|done].
    - eapply built_agree; [exact Hn|]. intros a Ha. apply lookup_insert_ne. lia. }
  assert (Hs : forall j, 0 <= j < 4 -> is_Some (m !! (dir + 4 * j))).
  { intros j Hj. eexists. rewrite <-(tb_dir _ _ Ht j Hj). f_equal. }
  destruct (Hstep 0 m) as [E0 B0]; [lia|done|by apply Hs|]. set (n0 := <[dir + 4 * 0 := 0]> m) in *.
  destruct (Hstep 1 n0) as [E1 B1]; [lia|done|by apply is_Some_insert, Hs|]. set (n1 := <[dir + 4 * 1 := 0]> n0) in *.
  destruct (Hstep 2 n1) as [E2 B2]; [lia|done|by do 2 apply is_Some_insert; apply Hs|]. set (n2 := <[dir + 4 * 2 := 0]> n1) in *.
  destruct (Hstep 3 n2) as [E3 B3]; [lia|done|by do 3 apply is_Some_insert; apply Hs|]. set (n3 := <[dir + 4 * 3 := 0]> n2) in *.
  exists n3. cbn [stores_va]. change (4 * 0) with 0 in E0. change (4 * 1) with 4 in E1. change (4 * 2) with 8 in E2. change (4 * 3) with 12 in E3.
  split; [|split; [exact B3|]]; [|split].
  - rewrite E0. cbn [mbind outcome_bind]. rewrite E1. cbn [mbind outcome_bind]. rewrite E2. cbn [mbind outcome_bind]. by rewrite E3.
  - intros j Hj. assert (j = 0 \/ j = 1 \/ j = 2 \/ j = 3) as Hj' by lia. unfold n3, n2, n1, n0.
    destruct Hj' as [->|[->|[->| ->]]]; rewrite ?(lookup_insert_ne _ _ _ _) by lia; by simplify_map_eq.
  - intros a Ha. unfold n3, n2, n1, n0. by rewrite !lookup_insert_ne by lia.
Qed.

Variable constructors : gmap Z Z -> outcome (gmap Z Z).
Hypothesis HC : constructors_ok en constructors.

(** The calls on the boot stack, which is mapped with the kernel. *)
Lemma start_calls ebx ebp m0 m :
  built ebx m0 m -> is_Some (m !! (top - 4)) -> is_Some (m !! (top - 8)) ->
  exists m', (m ← store_va dir (stack_top en -u 4) (init_ret en) m; m ← _init en constructors dir ebp m;
      store_va dir (stack_top en -u 4) (main_ret en) m) = Done m' /\
    built ebx m0 m' /\ (forall a, a < dir + 20500 \/ kend <= a -> m' !! a = m !! a).
Proof using HL HC.
  intros Hb S4 S8. destruct dir_range as (R0&R1&R2&R3).
  assert (V : forall d, 0 <= d <= 8 -> stack_top en -u d = 0xC0000000 + (top - d)) by (intros d Hd; rewrite u32_sub_nowrap; lia).
  rewrite (V 4) by lia. rewrite store_va_kernel by (lia || done || exact (bu_tables _ _ _ Hb)). cbn [mbind outcome_bind].
  set (n1 := <[top - 4 := init_ret en]> m).
  assert (B1 : built ebx m0 n1) by (eapply built_agree; [exact Hb|]; intros a Ha; apply lookup_insert_ne; lia).
  unfold _init. rewrite (V 8), (V 4) by lia.
  rewrite store_va_kernel by (lia || exact (bu_tables _ _ _ B1) || by apply is_Some_insert). cbn [mbind outcome_bind].
  destruct (HC (<[top - 8 := ebp]> n1)) as (n2&->&N2). cbn [mbind outcome_bind].
  assert (B2 : built ebx m0 n2).
  { eapply built_agree; [exact B1|]. intros a Ha. rewrite N2 by lia. apply lookup_insert_ne. lia. }
  assert (L8 : n2 !! (top - 8) = Some ebp) by (rewrite N2 by lia; apply lookup_insert_eq).
  assert (L4 : n2 !! (top - 4) = Some (init_ret en)).
  { rewrite N2, lookup_insert_ne by lia. apply lookup_insert_eq. }
  pose proof (bu_tables _ _ _ B2) as T2. rewrite (load_va_kernel n2 (top - 8) ebp) by (exact T2 || exact L8 || lia).
  cbn [mbind outcome_bind]. rewrite (load_va_kernel n2 (top - 4) (init_ret en)) by (exact T2 || exact L4 || lia). cbn [mbind outcome_bind]. rewrite Z.eqb_refl. cbn [mbind outcome_bind]. rewrite store_va_kernel by (done || lia).
  exists (<[top - 4 := main_ret en]> n2). split; [done|]. split.
  - eapply built_agree; [exact B2|]. intros a Ha. apply lookup_insert_ne. lia.
  - intros a Ha. rewrite lookup_insert_ne, N2 by lia. rewrite lookup_insert_ne by lia. apply lookup_insert_ne. lia.
Qed.

(** [_start] reaches [_i686_boot_main]. *)
Lemma start_ok ebx ebp m : loaded im en ebx m ->
  exists m', _start im en constructors ebx ebp m = Done (m', dir, stack_top en - 4) /\ built ebx m m' /\
    (forall j, 0 <= j < 4 -> m' !! (dir + 4 * j) = Some 0).
Proof using HL HC.
  intros Hl. destruct dir_range as (R0&R1&R2&R3). pose proof (lt_text _ _ HL) as Htx.
  destruct (start_tables ebx m Hl) as (m1&m2&E1&E2&E3&T0&B3&Hs3). set (m3 := put (boot_entries im) m2) in *. clearbody m3.
  destruct (unmap_identity ebx m m3 T0 B3) as (m4&E4&B4&Z4&Hs4). destruct (ld_stack _ _ _ _ Hl) as [S4 S8].
  destruct (start_calls ebx ebp m m4 B4) as (m'&E&B'&Hs'); [rewrite Hs4, Hs3 by lia; done..|].
  apply bind_Done in E as (m5&E5&E). apply bind_Done in E as (m6&E6&E).
  exists m'. split; [|split; [exact B'|intros j Hj; rewrite Hs' by lia; by apply Z4]].
  assert (W : forall n, tables 768 n -> page_walk dir (label_4 en) n = Done (label_4 en - 0xC0000000, true)).
  { intros n Hn. rewrite <-(walk_kernel 768 n (label_4 en - 0xC0000000)) by (lia || exact Hn). f_equal. lia. }
  assert (W0 : page_walk dir (phys_of (label_4 en - 8)) m3 = Done (label_4 en - 8 - 0xC0000000, true)).
  { rewrite phys_of_ok by lia. rewrite <-(walk_kernel 0 m3 (label_4 en - 8 - 0xC0000000)) by (lia || exact T0). f_equal. }
  assert (Hdir : phys_of (boot_page_directory im) = dir) by (apply phys_of_ok; unfold boot_page_directory; lia).
  unfold _start. cbv zeta. rewrite Hdir.
  do 2 (eapply bind_intro; [eassumption|]). eapply bind_intro; [exact E3|]. eapply bind_intro; [exact W0|].
  eapply bind_intro; [exact (W m3 (bu_tables _ _ _ B3))|]. eapply bind_intro; [exact E4|].
  eapply bind_intro; [exact (W m4 (bu_tables _ _ _ B4))|]. eapply bind_intro; [exact E5|]. eapply bind_intro; [exact E6|].
  eapply bind_intro; [exact E|]. by rewrite u32_sub_nowrap by lia.
Qed.
End steps.

(** ** The tables as the kernel finds them *)

Lemma words_at_lookup a n m (i : nat) : (i < n)%nat -> words_at a n m !! i = Some (default 0 (m !! (a + 4 * i))).
Proof. intros Hi. unfold words_at. by rewrite list_lookup_fmap, lookup_seq_lt. Qed.

Section handover.
Variables (im : image) (en : entry) (ebx : Z) (m0 m : gmap Z Z).
Hypothesis HL : layout_of im en.
Hypothesis HB : built im ebx m0 m.
Hypothesis H0 : forall j, 0 <= j < 4 -> m !! (page_dir im - 0xC0000000 + 4 * j) = Some 0.

#[local] Notation dir := (page_dir im - 0xC0000000).
#[local] Notation kend := (kernel_end im - 0xC0000000).

Lemma boot_tables_at : phys_of (boot_page_table1 im) = dir + 4096 /\ phys_of (boot_page_directory im) = dir.
Proof using HL.
  destruct (dir_range im en HL) as (R0&R1&R2&_). unfold boot_page_table1, boot_page_directory. rewrite !phys_of_ok by lia. split; lia.
Qed.

(** The directory: four tables from entry 768 on. *)
Lemma boot_kpd (i : nat) e : kpd (boot_mmu im m) !! i = Some e ->
  (i < 1024)%nat /\ (e = 0 /\ (i < 768 \/ 772 <= i)%nat \/ e = dir + 4096 * (1 + (i - 768)) + 3 /\ (768 <= i < 772)%nat).
Proof using HL HB H0.
  unfold boot_mmu. cbn [kpd]. rewrite (proj2 boot_tables_at). intros Hi.
  assert (Hlt : (i < 1024)%nat) by (apply lookup_lt_Some in Hi; unfold words_at in Hi; by rewrite length_fmap, length_seq in Hi).
  rewrite words_at_lookup in Hi by done. injection Hi as <-. split; [done|].
  destruct (decide (768 <= i < 772)%nat).
  - right. split; [|done]. pose proof (tb_dir _ _ _ (bu_tables _ _ _ _ HB) (i - 768)) as Ht.
    replace (768 + (i - 768)) with (Z.of_nat i) in Ht by lia. rewrite Ht by lia. done.
  - left. split; [|lia]. destruct (decide (i < 4)%nat); [by rewrite H0 by lia|]. by rewrite (bu_dir _ _ _ _ HB) by lia.
Qed.

Lemma boot_mmu_ok : mmu_ok (boot_mmu im m).
Proof using.
  split; cbn [boot_mmu kpt kpd map_sl]; unfold words_at; rewrite ?length_fmap, ?length_seq; done.
Qed.

(** The fourth table is the window for temporary mappings: all of it is free. *)
Lemma boot_window : window_free (boot_mmu im m).
Proof using HL HB.
  destruct (dir_range im en HL) as (R0&R1&R2&_). unfold window_free, first_free, KPTMIN, KPTMAX.
  destruct (find_index _ _) as [k|] eqn:E.
  - apply find_index_Some in E as [(e&He&_) _]. apply lookup_lt_Some in He. rewrite length_take in He. lia.
  - apply find_index_None in E. assert (take 1024 (drop 3072 (kpt (boot_mmu im m))) !! 0%nat = Some 0) as Hz.
    { rewrite lookup_take_lt, lookup_drop by lia. cbn [boot_mmu kpt]. rewrite (proj1 boot_tables_at), words_at_lookup by lia.
      rewrite (bu_rest _ _ _ _ HB) by lia. done. }
    by apply (proj1 (Forall_lookup _ _) E) in Hz.
Qed.

Lemma boot_directory_ok pages : Forall (fun a => a < 0x100000 \/ kend <= a) pages -> directory_ok (boot_mmu im m) pages.
Proof using HL HB H0.
  intros Hp. destruct (dir_range im en HL) as (R0&R1&R2&R3).
  assert (Hbits : forall j, 0 <= j < 4 -> PTE_ADDR (dir + 4096 * (1 + j) + 3) = dir + 4096 * (1 + j)).
  { intros j Hj. apply entry_bits; [|lia]. rewrite Z.mul_comm, Z.mod_add by lia. done. }
  split.
  - intros i e Hi He. destruct (boot_kpd i e He) as (_&[[-> _]|[-> ?]]); unfold in_u32; lia.
  - intros i j e e' Hi Hj He He' P P' Heq. destruct (boot_kpd i e He) as (_&[[-> _]|[-> ?]]); [done|].
    destruct (boot_kpd j e' He') as (_&[[-> _]|[-> ?]]); [done|]. rewrite !Hbits in Heq by lia. lia.
  - intros i e Hi He P Hin. destruct (boot_kpd i e He) as (_&[[-> _]|[-> ?]]); [done|]. rewrite Hbits in Hin by lia.
    rewrite Forall_forall in Hp. apply Hp in Hin. lia.
Qed.

(** The translation of [Mmu] is the walk of the processor. *)
Lemma boot_translate va :
  0xC0000000 <= va < 0xC1000000 -> translate va (boot_mmu im m) = ('(pa, _) ← page_walk dir va m; Done pa).
Proof using HL HB.
  intros Hva. destruct (dir_range im en HL) as (R0&R1&R2&R3). set (q := (va - 0xC0000000) / 4096).
  assert (Hq : 0 <= q < 4096) by (unfold q; split; [apply Z.div_pos; lia|apply Z.div_lt_upper_bound; lia]).
  assert (Hv : va / 4096 = 786432 + q).
  { unfold q. replace va with (va - 0xC0000000 + 786432 * 4096) at 1 by lia. rewrite Z.div_add by lia. lia. }
  pose proof (Z.div_mod q 1024 ltac:(lia)) as Hdm. pose proof (Z.mod_pos_bound q 1024 ltac:(lia)) as Hmod.
  assert (Hd : PDX va = 768 + q / 1024).
  { rewrite (proj1 (PDX_eq va ltac:(unfold in_u32; lia))), Hv. replace (786432 + q) with (q + 768 * 1024) by lia.
    rewrite Z.div_add by lia. lia. }
  assert (Hp : PTX va = q mod 1024).
  { rewrite (proj1 (PTX_eq va)), Hv. replace (786432 + q) with (q + 768 * 1024) by lia. by rewrite Z.mod_add by lia. }
  assert (Hw : is_Some (m !! (dir + 4096 + 4 * q))).
  { destruct (decide (0x100000 <= 4096 * q < kend)); [rewrite (tb_kernel _ _ _ (bu_tables _ _ _ _ HB)) by done; by eexists|].
    destruct (decide (q = 3071)) as [->|]; [rewrite (tb_screen _ _ _ (bu_tables _ _ _ _ HB)); by eexists|].
    rewrite (bu_rest _ _ _ _ HB) by done. by eexists. }
  destruct Hw as [w Hw]. unfold translate, page_walk. cbn [boot_mmu kpt]. rewrite (proj1 boot_tables_at).
  rewrite u32_sub_nowrap, Z.shiftr_div_pow2 by lia. change (2 ^ 12) with 4096. fold q.
  rewrite words_at_lookup by lia. cbn [deref mbind outcome_bind]. rewrite Z2Nat.id, Hw by lia. cbn [default from_option id].
  rewrite Hd, (tb_dir _ _ _ (bu_tables _ _ _ _ HB)) by lia. cbn [deref mbind outcome_bind].
  destruct (entry_bits (dir + 4096 * (1 + q / 1024))) as (->&->&_); [rewrite Z.mul_comm, Z.mod_add by lia; done|lia|].
  rewrite Hp. replace (dir + 4096 * (1 + q / 1024) + 4 * (q mod 1024)) with (dir + 4096 + 4 * q) by lia.
  rewrite Hw. cbn [deref mbind outcome_bind]. by destruct (truthy (Z.land w PTE_P)).
Qed.

Lemma boot_screen : page_walk dir 0xC0BFF000 m = Done (0xB8000, true).
Proof using HL HB.
  destruct (dir_range im en HL) as (R0&R1&R2&R3). pose proof (bu_tables _ _ _ _ HB) as Ht.
  rewrite (page_walk_ok _ _ _ (dir + 12288) 0xB8000); [done| | | |lia|done|lia].
  - exact (tb_dir _ _ _ Ht 2 ltac:(lia)).
  - change (PTX 0xC0BFF000) with 1023. rewrite <-(tb_screen _ _ _ Ht). f_equal. lia.
  - rewrite Zplus_mod, R3. done.
Qed.

(** Nothing else is mapped. *)
Lemma boot_unmapped va : 0 <= va < 0xC0000000 \/ 0xC1000000 <= va < 2 ^ 32 -> page_walk dir va m = Fault.
Proof using HL HB H0.
  intros Hva. unfold page_walk. assert (Hu : in_u32 va) by (unfold in_u32; lia).
  assert (Hd : 0 <= PDX va < 768 \/ 772 <= PDX va < 1024).
  { destruct (PDX_eq va Hu) as [E R]. rewrite Z.div_div in E by lia. destruct Hva as [?|?].
    - left. split; [lia|]. rewrite E. apply Z.div_lt_upper_bound; lia.
    - right. split; [|lia]. rewrite E. apply Z.div_le_lower_bound; lia. }
  assert (m !! (dir + 4 * PDX va) = Some 0) as ->; [|done].
  destruct (decide (PDX va < 4)); [apply H0; lia|]. apply (bu_dir _ _ _ _ HB). lia.
Qed.
End handover.

(** C15: the entry code: from the boot loader, with the sections of the image in
    memory, [_start] reaches [_i686_boot_main] on the boot stack with paging on.
    Every page of the kernel image, up to the first 1023 pages of memory, is mapped
    to its physical page from 0xC0000000 on and can be written, and the screen is at
    0xC0BFF000, where the console writes; the identity mapping is gone, and nothing
    outside the 16 MiB from 0xC0000000 on is mapped; [translate], on which the
    model of the page table code rests, is the processor's walk of these tables;
    [_i686_multiboot_memdata] holds the five words of the multiboot information; and
    no memory outside the image has changed. *)
Theorem start_maps_kernel im en constructors ebx ebp m :
  layout_of im en -> constructors_ok en constructors -> loaded im en ebx m ->
  let cr3 := page_dir im - 0xC0000000 in
  exists m', _start im en constructors ebx ebp m = Done (m', cr3, stack_top en - 4) /\
    (forall pa, 0x100000 <= pa < kernel_end im - 0xC0000000 -> page_walk cr3 (0xC0000000 + pa) m' = Done (pa, true)) /\
    page_walk cr3 0xC0BFF000 m' = Done (0xB8000, true) /\
    (forall va, 0 <= va < 0xC0000000 \/ 0xC1000000 <= va < 2 ^ 32 -> page_walk cr3 va m' = Fault) /\
    (forall va, 0xC0000000 <= va < 0xC1000000 -> translate va (boot_mmu im m') = ('(pa, _) ← page_walk cr3 va m'; Done pa)) /\
    (forall o d, (o, d) ∈ memdata_fields -> load_va cr3 (_i686_multiboot_memdata im + d) m' = deref (m !! (ebx + o))) /\
    (forall a, a < 0x100000 \/ kernel_end im - 0xC0000000 <= a -> m' !! a = m !! a).
Proof.
  intros HL HC Hl cr3. destruct (start_ok im en HL constructors HC ebx ebp m Hl) as (m'&E&HB&H0).
  destruct (dir_range im en HL) as (R0&R1&R2&R3).
  exists m'. split; [exact E|]. split_and!.
  - intros pa Hpa. apply (walk_kernel im en HL 768); [exact (bu_tables _ _ _ _ HB)|lia|lia].
  - by eapply boot_screen.
  - intros va Hva. by eapply boot_unmapped.
  - intros va Hva. by eapply boot_translate.
  - intros o d Hin. destruct (field_range o d Hin) as (_&Hd&_). destruct (ld_info _ _ _ _ Hl o d Hin) as [w Hw]. rewrite Hw.
    unfold _i686_multiboot_memdata, boot_page_directory.
    replace (page_dir im + 20480 + d) with (0xC0000000 + (cr3 + 20480 + d)) by lia.
    apply (load_va_kernel im en HL); [exact (bu_tables _ _ _ _ HB)|lia|]. etrans; [exact (bu_data _ _ _ _ HB o d Hin)|exact Hw].
  - exact (bu_same _ _ _ _ HB).
Qed.

(** The memory that the boot needs: at most 640 KiB of lower memory, and upper
    memory that reaches past the image and ends below 4 GiB, 270 pages in all.
    Only the first 252 pages, which become page tables, are written as memory. *)
Record memory_for (im : image) (flags lower upper : Z) (r0 r1 : physmem_range) (m : gmap Z Z) : Prop := {
  mf_ranges : i686_memranges (kernel_end im) flags lower upper = Some [r0; r1];
  mf_lower : 0 <= lower <= 640;
  mf_upper : 0 <= upper < 2 ^ 22 - 2 ^ 10;
  mf_order : pm_begin r1 <= pm_end r1;
  mf_pages : 270 <= Z.of_nat (length (range_pages r0 ++ range_pages r1));
  mf_ram : Forall (has_page m) (take 252 (range_pages r0 ++ range_pages r1));
}.

(** The pages of the two ranges lie outside the image. *)
Lemma pages_outside im en flags lower upper r0 r1 m :
  layout_of im en -> memory_for im flags lower upper r0 r1 m ->
  Forall (fun a => 0 <= a /\ (a + 4096 <= 0x100000 \/ kernel_end im - 0xC0000000 <= a)) (range_pages r0 ++ range_pages r1).
Proof.
  intros HL Hm. destruct (dir_range im en HL) as (R0&R1&R2&_).
  destruct (i686_memranges_ok (kernel_end im) flags lower upper r0 r1) as (B0&A0&E0&A1&B1&_); [lia|apply Hm..|].
  apply Forall_forall. intros a [(i&->&Hi%elem_of_seqZ)%list_elem_of_fmap|(i&->&Hi%elem_of_seqZ)%list_elem_of_fmap]%elem_of_app.
  - pose proof (Z.mul_div_le (pm_end r0 - pm_begin r0) 4096 ltac:(lia)). lia.
  - lia.
Qed.

Lemma memory_enough im en ebx m m' flags lower upper r0 r1 :
  layout_of im en -> built im ebx m m' -> (forall j, 0 <= j < 4 -> m' !! (page_dir im - 0xC0000000 + 4 * j) = Some 0) ->
  memory_for im flags lower upper r0 r1 m -> enough_memory im (boot_mmu im m') flags lower upper r0 r1.
Proof.
  intros HL HB H0 Hm. destruct (dir_range im en HL) as (R0&R1&R2&_).
  pose proof (pages_outside _ _ _ _ _ _ _ _ HL Hm) as Hp.
  split; [apply Hm|lia|apply Hm|apply Hm|apply Hm|apply Hm|apply boot_mmu_ok|by eapply boot_window|..].
  - eapply boot_directory_ok; [done..|]. apply Forall_take. eapply Forall_impl; [exact Hp|]. cbn. lia.
  - apply Forall_forall. intros a Ha j Hj. apply (Forall_take _ 252%nat) in Hp. rewrite Forall_forall in Hp. apply Hp in Ha as Hr.
    cbn [boot_mmu ram]. rewrite (bu_same _ _ _ _ HB) by lia.
    pose proof (mf_ram _ _ _ _ _ _ _ Hm) as Hram. rewrite Forall_forall in Hram. by apply Hram.
Qed.

(** C2: from the boot loader to the idle thread: the tables that [_start] builds
    are what the C code of the kernel needs.  On a machine whose multiboot
    information gives at most 640 KiB of lower memory and upper memory that
    reaches past the kernel image and ends below 4 GiB, with at least 270 pages in
    the two ranges, [_start] enters [_i686_boot_main], which finds the sizes of
    the memory in [_i686_multiboot_memdata], sets up the devices, the memory layers, the
    threads and the scheduler and reaches the idle loop with interrupts on, the
    rest of the kernel heap free to be requested. *)
Theorem start_boots im en constructors ebx ebp m screen flags lower upper r0 r1 (f : nat) :
  layout_of im en -> constructors_ok en constructors -> loaded im en ebx m -> image_ok im -> length screen = 2000%nat ->
  m !! ebx = Some flags -> m !! (ebx + 4) = Some lower -> m !! (ebx + 8) = Some upper ->
  memory_for im flags lower upper r0 r1 m ->
  exists m' k, _start im en constructors ebx ebp m = Done (m', page_dir im - 0xC0000000, stack_top en - 4) /\
    m' !! phys_of (_i686_multiboot_memdata im + 0) = Some flags /\
    m' !! phys_of (_i686_multiboot_memdata im + 4) = Some lower /\
    m' !! phys_of (_i686_multiboot_memdata im + 8) = Some upper /\
    _i686_boot_main im (2050 + f) flags lower upper (power_on im screen (boot_mmu im m')) = Done k /\
    m_interrupts k = true /\ idle_kernel (m_kern k) (cpu_addr im) (heap_left r0 r1) /\
    devices_ready im (power_on im screen (boot_mmu im m')) k /\ m_slice k = Kernslice 0 [r0; r1] 2 (bmas_addr im).
Proof.
  intros HL HC Hl Him Hs Ef El Eu Hm. destruct (start_ok im en HL constructors HC ebx ebp m Hl) as (m'&E&HB&H0).
  destruct (dir_range im en HL) as (R0&R1&R2&_).
  destruct (boot_ok im screen (boot_mmu im m') flags lower upper r0 r1 f Him Hs) as (k&t&Ek&Hi&Hk&Hd&Hsl&_).
  { by eapply memory_enough. }
  assert (Hdata : forall o d w, (o, d) ∈ memdata_fields -> m !! (ebx + o) = Some w ->
    m' !! phys_of (_i686_multiboot_memdata im + d) = Some w).
  { intros o d w Hin Hw. destruct (field_range o d Hin) as (_&Hr&_). unfold _i686_multiboot_memdata, boot_page_directory.
    rewrite phys_of_ok by lia. rewrite <-Hw, <-(bu_data _ _ _ _ HB o d Hin). f_equal. lia. }
  exists m', k. split; [exact E|]. split_and!; [..|exact Ek|exact Hi|exact Hk|exact Hd|exact Hsl].
  - apply (Hdata 0); [by left|by rewrite Z.add_0_r].
  - apply (Hdata 4); [by right; left|done].
  - apply (Hdata 8); [by do 2 right; left|done].
Qed.

(** ** A concrete machine *)

Module StartExample.
(** A kernel image of 1 MiB + 256 KiB; 640 KiB of lower memory and upper memory up
    to 1 GiB; the multiboot information is at 0x9000.  The memory is listed up to
    0x1AE000. *)
Definition im0 : image :=
  Image 0xC0140000 I686Example.vectors 0xC0102000 0xC0102100 0xC0106000 0xC0103000 0xC0103100 0xC0104000 0xC0104100 0xC0108000
    0xC0105000 0xC0111000 (replicate 100 0).
Definition en0 : entry := Entry 0xC0100100 0xC0130000 0xC0100140 0xC0100150.
Definition ram0 : gmap Z Z := gset_to_gmap 0 (list_to_set (Z.mul 4 <$> seqZ 0 (0x1AE000 / 4))).
Definition m0 : gmap Z Z := <[0x9000 := 1]> (<[0x9004 := 640]> (<[0x9008 := 1047552]> ram0)).
Definition low : physmem_range := Physmem_range 0 0xA0000.
Definition high : physmem_range := Physmem_range 0x140000 0x40000000.
Definition first : physmem_range := Physmem_range 0x140000 0x1AE000.

Lemma start_ram0_word i : 0 <= 4 * i < 0x1AE000 -> ram0 !! (4 * i) = Some 0.
Proof.
  intros Hi. apply lookup_gset_to_gmap_Some. split; [|done]. apply elem_of_list_to_set, list_elem_of_fmap.
  exists i. split; [done|]. apply elem_of_seqZ. change (0x1AE000 / 4) with 440320. lia.
Qed.

Lemma start_m0_word i : 0 <= 4 * i < 0x1AE000 -> is_Some (m0 !! (4 * i)).
Proof. intros Hi. unfold m0. do 3 apply is_Some_insert. rewrite start_ram0_word by done. by eexists. Qed.

Lemma start_layout0 : layout_of im0 en0.
Proof. by split. Qed.

Lemma start_loaded0 : loaded im0 en0 0x9000 m0.
Proof.
  split.
  - intros j Hj. change (page_dir im0 - 0xC0000000) with 0x108000. unfold m0. rewrite !lookup_insert_ne by lia.
    replace (0x108000 + 4 * j) with (4 * (0x42000 + j)) by lia. apply start_ram0_word. lia.
  - split; [apply (start_m0_word 0x4BFFF)|apply (start_m0_word 0x4BFFE)]; lia.
  - intros o d Hin. unfold memdata_fields in Hin. rewrite !elem_of_cons, elem_of_nil in Hin.
    destruct Hin as [[= -> ->]|[[= -> ->]|[[= -> ->]|[[= -> ->]|[[= -> ->]|[]]]]]];
      [apply (start_m0_word 0x2400)|apply (start_m0_word 0x2401)|apply (start_m0_word 0x2402)|apply (start_m0_word 0x240B)|apply (start_m0_word 0x240C)]; lia.
  - cbn. lia.
Qed.

Lemma start_image0 : image_ok im0.
Proof. split; [reflexivity|reflexivity|cbn; lia|cbn; unfold KMEM_BEGIN; lia|cbn; lia]. Qed.

Lemma start_pages0 :
  Z.of_nat (length (range_pages low ++ range_pages high)) = 261984 /\
  take 252 (range_pages low ++ range_pages high) = take 252 (range_pages low ++ range_pages first).
Proof.
  split.
  - rewrite length_app, Nat2Z.inj_add, !length_range_pages by (split; cbn; lia). reflexivity.
  - destruct (prefix_seqZ (fun i => 0x140000 + 4096 * i) 110 261824) as [tl Htl]; [lia|].
    assert (range_pages high = range_pages first ++ tl) as -> by exact Htl. rewrite app_assoc. apply take_app_le.
    vm_compute. lia.
Qed.

Lemma start_memory0 : memory_for im0 1 640 1047552 low high m0.
Proof.
  split.
  - reflexivity.
  - lia.
  - lia.
  - cbn. lia.
  - by rewrite (proj1 start_pages0).
  - apply Forall_forall. intros a Ha j Hj. rewrite (proj2 start_pages0) in Ha.
    assert (Hin : a ∈ range_pages low ++ range_pages first).
    { rewrite <-(take_drop 252 (range_pages low ++ range_pages first)). apply elem_of_app. by left. }
    clear Ha. rename Hin into Ha. assert (Hq : exists q, a = 4096 * q /\ 0 <= q < 0x1AE).
    { apply elem_of_app in Ha as [(i&->&Hi%elem_of_seqZ)%list_elem_of_fmap|(i&->&Hi%elem_of_seqZ)%list_elem_of_fmap];
        cbn [pm_begin pm_end low first] in *.
      - change ((0xA0000 - 0) / 4096) with 160 in Hi. exists i. lia.
      - change ((0x1AE000 - 0x140000) / 4096) with 110 in Hi. exists (0x140 + i). lia. }
    destruct Hq as (q&->&Hq). replace (4096 * q + 4 * j) with (4 * (1024 * q + j)) by lia. apply start_m0_word. lia.
Qed.

Lemma start_maps_kernel_witness :
  exists m', _start im0 en0 Done 0x9000 0 m0 = Done (m', 0x108000, 0xC012FFFC) /\
    page_walk 0x108000 0xC0123456 m' = Done (0x123456, true) /\ page_walk 0x108000 0x123456 m' = Fault.
Proof.
  destruct (start_maps_kernel im0 en0 Done 0x9000 0 m0 start_layout0) as (m'&E&Hk&_&Hu&_).
  - intros m. by exists m.
  - exact start_loaded0.
  - exists m'. split; [exact E|]. split.
    + apply (Hk 0x123456). cbn. lia.
    + apply Hu. lia.
Defined.

Lemma start_boots_witness :
  exists m' k, _start im0 en0 Done 0x9000 0 m0 = Done (m', 0x108000, 0xC012FFFC) /\
    _i686_boot_main im0 2050 1 640 1047552 (power_on im0 (replicate 2000 0) (boot_mmu im0 m')) = Done k /\ m_interrupts k = true.
Proof.
  destruct (start_boots im0 en0 Done 0x9000 0 m0 (replicate 2000 0) 1 640 1047552 low high 0 start_layout0) as (m'&k&E&_&_&_&Ek&Hi&_).
  - intros m. by exists m.
  - exact start_loaded0.
  - exact start_image0.
  - apply length_replicate.
  - apply lookup_insert_eq.
  - unfold m0. rewrite lookup_insert_ne by done. apply lookup_insert_eq.
  - unfold m0. rewrite !lookup_insert_ne by done. apply lookup_insert_eq.
  - exact start_memory0.
  - exists m', k. split; [exact E|]. split; [exact Ek|exact Hi].
Defined.
End StartExample.
